(** * pointer-set: a shallow embedding of [src/index.ts]

    The development follows the source file top to bottom: the numeric
    constants, the JavaScript 32-bit integer operators the code relies on,
    the free-list [Stack], the methods of [PointerSetBase], and the two
    constructors ([PointerSet], the root block, and [PointerSetBlock],
    an extension block).

    JavaScript numbers that the code manipulates are integers; they are
    modelled as [Z] and every conversion that the language performs
    implicitly ([ToInt32] before a bitwise operator, [ToUint32] on a store
    into a [Uint32Array]) is written out. *)

From Stdlib Require Import ZArith Lia List.
From stdpp Require Import gmap strings list fin_maps.

Local Open Scope Z_scope.

(** ** Constants (index.ts, lines 1-7) *)

Definition max8 : Z := 256.
Definition max16 : Z := 65536.
Definition max24 : Z := 16777216.
Definition max32 : Z := 4294967296.
Definition mask8 : Z := 255.
Definition mask16 : Z := 65535.
Definition mask24 : Z := 16777215.

(** ** JavaScript integer conversions and bitwise operators *)

Module JS.

(** [ToInt32]: reduce modulo 2^32 into the signed range. *)
Definition ToInt32 (x : Z) : Z := (x + 2147483648) mod 4294967296 - 2147483648.

(** [ToUint32]: reduce modulo 2^32 into the unsigned range. *)
Definition ToUint32 (x : Z) : Z := x mod 4294967296.

Definition ToUint16 (x : Z) : Z := x mod 65536.
Definition ToUint8 (x : Z) : Z := x mod 256.

(** [a << n] *)
Definition shl (a n : Z) : Z :=
  ToInt32 (Z.shiftl (ToInt32 a) (Z.land (ToUint32 n) 31)).

(** [a >> n] (sign-propagating) *)
Definition sar (a n : Z) : Z :=
  Z.shiftr (ToInt32 a) (Z.land (ToUint32 n) 31).

(** [a & b] *)
Definition band (a b : Z) : Z := Z.land (ToInt32 a) (ToInt32 b).

(** [a | b] *)
Definition bor (a b : Z) : Z := Z.lor (ToInt32 a) (ToInt32 b).

(** [~a] *)
Definition bnot (a : Z) : Z := Z.lnot (ToInt32 a).

End JS.

(** ** Word size and the per-arena constants derived from it *)

(** [getWordSize] (index.ts, lines 30-31). *)
Definition getWordSize (max : Z) : Z :=
  if max <=? max8 then 1 else if max <=? max16 then 2 else 4.

(** The numeric fields every block of one arena shares: they are computed
    once by the [PointerSet] constructor and handed unchanged to every
    [PointerSetBlock]. *)
Record Codec := mkCodec {
  wordSize : Z;
  shift : Z;
  mask : Z;
  blockIdMask : Z;
  blockSize : Z;
  shiftDownFix : Z;
  shiftUpFix : Z
}.

(** The part of the [PointerSet] constructor that derives the codec
    (index.ts, lines 751-765); [None] is the [TypeError]
    'block size must be less than or equal to 65536'. *)
Definition codecOf (bs : Z) : option Codec :=
  let ws := getWordSize bs in
  if negb (ws =? 1) && negb (ws =? 2) then None
  else Some {| wordSize := ws;
               shift := if ws =? 1 then 8 else 16;
               mask := if ws =? 1 then mask8 else mask16;
               blockIdMask := if ws =? 1 then mask24 else mask16;
               blockSize := bs;
               shiftDownFix := if ws =? 1 then max24 else max16;
               shiftUpFix := max32 |}.

(** ** Pointer codec (index.ts, lines 238-255) *)

Definition getBlockId (c : Codec) (p : Z) : Z :=
  let b := JS.sar p (shift c) in
  if 0 <=? b then b else shiftDownFix c + b.

Definition getIndex (c : Codec) (p : Z) : Z :=
  JS.band p (mask c).

Definition getPointer (c : Codec) (blockId index : Z) : Z :=
  let b := JS.shl blockId (shift c) in
  let p := JS.bor (if 0 <=? b then b else shiftUpFix c + b) index in
  p.

(** ** Errors and outcomes *)

(** The exceptions the module raises, one constructor per message. *)
Inductive Error : Type :=
| errPointerAsRaw (f : string)
| errRawAsPointer (f : string)
| errUnknownRawField (f : string)
| errUnknownPointerField (f : string)
| errReadNull        (* 'cannot read from null pointer' *)
| errWriteNull       (* 'cannot write to null pointer' *)
| errFreeNull        (* 'cannot free null pointer' *)
| errEraseNull       (* 'cannot erase null pointer' *)
| errBlockSize       (* 'block size must be less than or equal to 65536' *)
| errInvalidRawField (f : string)
| errOutOfMemory     (* RangeError 'out of memory' *)
| errFinalBlock      (* 'only the final block may be dropped' *)
| errArrayLength     (* RangeError of a typed array of negative length *)
| errUndefined.      (* TypeError of a property access on [undefined] *)

(** What a method call does: return, throw, or exhaust the call stack
    ([Overflow]: the recursion budget of the model ran out). *)
Inductive Outcome (A : Type) : Type :=
| Return (a : A)
| Throw (e : Error)
| Overflow.
Arguments Return {A} a.
Arguments Throw {A} e.
Arguments Overflow {A}.

(** ** Arrays *)

(** [a[i]] for an integer [i]: [undefined] ([None]) out of range. *)
Definition zlookup {A : Type} (a : list A) (i : Z) : option A :=
  if i <? 0 then None else a !! Z.to_nat i.

(** [a[i] = v] on a [Uint32Array]: the value wraps, a store out of range
    is ignored. A key that is [undefined] addresses no element. *)
Definition u32_set (a : list Z) (i : option Z) (v : Z) : list Z :=
  match i with
  | Some i => if i <? 0 then a else <[Z.to_nat i := JS.ToUint32 v]> a
  | None => a
  end.

(** [a.fill(v)] on a [Uint32Array]. *)
Definition u32_fill (a : list Z) (v : Z) : list Z :=
  replicate (List.length a) (JS.ToUint32 v).

(** [a[i] = v] on an ordinary array: a store past the end extends the
    array with holes. *)
Definition array_set {A : Type} (a : list (option A)) (i : option Z)
    (v : option A) : list (option A) :=
  match i with
  | Some i =>
      if i <? 0 then a
      else let n := Z.to_nat i in
           if (n <? List.length a)%nat then <[n := v]> a
           else a ++ replicate (n - List.length a)%nat None ++ [v]
  | None => a
  end.

(** [a[i] === undefined] *)
Definition is_undefined {A : Type} (a : list (option A)) (i : Z) : bool :=
  match zlookup a i with
  | Some (Some _) => false
  | _ => true
  end.

(** A JavaScript [Set] of block objects, in insertion order; a block is
    named by its position in [blocks]. *)
Definition set_add (x : nat) (s : list nat) : list nat :=
  if bool_decide (x ∈ s) then s else s ++ [x].

Definition set_delete (x : nat) (s : list nat) : list nat :=
  filter (fun y => y ≠ x) s.

(** [ToInt32(undefined) = 0]: an [undefined] operand of a bitwise operator. *)
Definition number_or_undefined (o : option Z) : Z := default 0 o.

(** ** The free list (index.ts, lines 130-143) *)

Module Stack.

(** [data] is a [Uint8Array] or, when [wide], a [Uint16Array]. *)
Record t : Type := mk {
  wide : bool;
  data : list Z;
  length : Z
}.

(** [this.data[this.length++] = n] *)
Definition push (s : t) (n : Z) : t :=
  {| wide := wide s;
     data := if length s <? 0 then data s
             else <[Z.to_nat (length s) :=
                      if wide s then JS.ToUint16 n else JS.ToUint8 n]> (data s);
     length := length s + 1 |}.

(** [return this.data[--this.length]] *)
Definition pop (s : t) : option Z * t :=
  (zlookup (data s) (length s - 1),
   {| wide := wide s; data := data s; length := length s - 1 |}).

(** [this.length = 0] *)
Definition clear (s : t) : t :=
  {| wide := wide s; data := data s; length := 0 |}.

End Stack.

(** ** Blocks and the arena *)

(** The state that differs from block to block. *)
Record Block (T : Type) : Type := mkBlock {
  values : list (option T);
  nextFree : Z;
  blockId : Z;
  firstNextFree : Z;
  fields : list (list Z);
  rawFields : list (list Z);
  freeList : Stack.t
}.
Arguments mkBlock {T}.
Arguments values {T}.
Arguments nextFree {T}.
Arguments blockId {T}.
Arguments firstNextFree {T}.
Arguments fields {T}.
Arguments rawFields {T}.
Arguments freeList {T}.

(** The objects all blocks of one arena share by reference ([blocks],
    [blocksAvail], [names]) and the numbers they share by value
    ([codec]). [serial] counts the typed arrays created so far; it only
    selects the uninitialised memory the next one gets. *)
Record Arena (T : Type) : Type := mkArena {
  blocks : list (Block T);
  blocksAvail : list nat;
  names : gmap string Z;
  codec : Codec;
  serial : nat
}.
Arguments mkArena {T}.
Arguments blocks {T}.
Arguments blocksAvail {T}.
Arguments names {T}.
Arguments codec {T}.
Arguments serial {T}.

(** The entries of a [RefSet] or [RawSet] argument, in the order
    [Object.entries] lists them. *)
Definition Entries : Type := list (string * Z).

(** What [refAll] and [rawAll] return: the argument object itself, or a
    new object with one key per field ([None] is [undefined]). *)
Inductive Bulk : Type :=
| SameObject (o : Entries)
| Snapshot (m : gmap string (option Z)).

(** ** The model of the classes *)

Section Model.

(** The payload type [T] and the contents of uninitialised memory:
    [uninit n i] is what the [n]-th typed array holds at offset [i]
    when it is created ([Buffer.allocUnsafe]). *)
Context {T : Type}.
Variable uninit : nat -> nat -> Z.

Definition unsafeUint32Array (n : nat) (len : Z) : list Z :=
  map (fun i => JS.ToUint32 (uninit n i)) (seq 0 (Z.to_nat len)).

Definition unsafeUint16Array (n : nat) (len : Z) : list Z :=
  map (fun i => JS.ToUint16 (uninit n i)) (seq 0 (Z.to_nat len)).

Definition unsafeUint8Array (n : nat) (len : Z) : list Z :=
  map (fun i => JS.ToUint8 (uninit n i)) (seq 0 (Z.to_nat len)).

(** [new Stack(max)] *)
Definition newStack (n : nat) (max : Z) : Stack.t :=
  {| Stack.wide := negb (max <=? max8);
     Stack.data := (if max <=? max8 then unsafeUint8Array
                    else unsafeUint16Array) n max;
     Stack.length := 0 |}.

(** [n] typed arrays of [len] words, numbered from [ser]. *)
Fixpoint newSlabs (n : nat) (ser : nat) (len : Z) : list (list Z) :=
  match n with
  | O => []
  | S n' => unsafeUint32Array ser len :: newSlabs n' (S ser) len
  end.

(** *** [PointerSet] constructor (index.ts, lines 749-792) *)

(** A slab of the root block: [slab[0] = 0] after creation. *)
Definition rootSlab (ser : nat) (bs : Z) : list Z :=
  u32_set (unsafeUint32Array ser bs) (Some 0) 0.

(** The loop over [fields]. *)
Fixpoint addFields (fs : list string) (nm : gmap string Z)
    (slabs : list (list Z)) (ser : nat) (bs : Z)
  : gmap string Z * list (list Z) * nat :=
  match fs with
  | [] => (nm, slabs, ser)
  | f :: fs' =>
      addFields fs' (<[f := Z.of_nat (List.length slabs)]> nm)
                (slabs ++ [rootSlab ser bs]) (S ser) bs
  end.

(** The loop over [rawFields]. *)
Fixpoint addRawFields (fs rs : list string) (nm : gmap string Z)
    (slabs : list (list Z)) (ser : nat) (bs : Z)
  : Outcome (gmap string Z * list (list Z) * nat) :=
  match rs with
  | [] => Return (nm, slabs, ser)
  | f :: rs' =>
      if bool_decide (f ∈ fs) then Throw (errInvalidRawField f)
      else addRawFields fs rs'
             (<[f := JS.bnot (Z.of_nat (List.length slabs))]> nm)
             (slabs ++ [rootSlab ser bs]) (S ser) bs
  end.

(** [new PointerSet(fields, blockSize, rawFields)]; the caller passes
    256 for an omitted [blockSize]. *)
Definition PointerSet (fs : list string) (bs : Z)
    (rs : option (list string)) : Outcome (Arena T) :=
  match codecOf bs with
  | None => Throw errBlockSize
  | Some c =>
      if bs <? 0 then Throw errArrayLength
      else
        let fl := newStack 0 bs in
        let '(nm, slabs, ser) := addFields fs ∅ [] 1 bs in
        match (match rs with
               | Some rs => addRawFields fs rs nm [] ser bs
               | None => Return (nm, [], ser)
               end) with
        | Return (nm', raws, ser') =>
            Return {| blocks := [ {| values := [None];
                                     nextFree := 1;
                                     blockId := 0;
                                     firstNextFree := 1;
                                     fields := slabs;
                                     rawFields := raws;
                                     freeList := fl |} ];
                      blocksAvail := [0%nat];
                      names := nm';
                      codec := c;
                      serial := ser' |}
        | Throw e => Throw e
        | Overflow => Overflow
        end
  end.

(** *** [PointerSetBlock] constructor (index.ts, lines 837-881)

    Returns the position of the new block. [blocks[0]] is the root
    block, or the new block itself (with no fields yet) when the list
    was empty. With a negative [blockSize], which [PointerSet] never
    lets through, [new Stack] throws once the block is in [blocks] and
    [blocksAvail]. *)
Definition PointerSetBlock (st : Arena T) : Outcome nat * Arena T :=
  let c := codec st in
  let id := Z.of_nat (List.length (blocks st)) in
  if negb (id =? JS.band id (blockIdMask c)) then (Throw errOutOfMemory, st)
  else
    let nf := from_option (fun r => List.length (fields r)) 0%nat (blocks st !! 0%nat) in
    let nr := from_option (fun r => List.length (rawFields r)) 0%nat (blocks st !! 0%nat) in
    let ser := serial st in
    let B := {| values := [];
                nextFree := 0;
                blockId := id;
                firstNextFree := 0;
                fields := newSlabs nf (S ser) (blockSize c);
                rawFields := newSlabs nr (S ser + nf) (blockSize c);
                freeList := newStack ser (blockSize c) |} in
    let st' := {| blocks := blocks st ++ [B];
                  blocksAvail := set_add (List.length (blocks st)) (blocksAvail st);
                  names := names st;
                  codec := c;
                  serial := (S ser + nf + nr)%nat |} in
    if blockSize c <? 0 then (Throw errArrayLength, st')
    else (Return (List.length (blocks st)), st').

(** Replace the block at position [self]. *)
Definition setBlock (st : Arena T) (self : nat) (B : Block T) : Arena T :=
  {| blocks := <[self := B]> (blocks st);
     blocksAvail := blocksAvail st;
     names := names st;
     codec := codec st;
     serial := serial st |}.

Definition setAvail (st : Arena T) (s : list nat) : Arena T :=
  {| blocks := blocks st;
     blocksAvail := s;
     names := names st;
     codec := codec st;
     serial := serial st |}.

(** *** [alloc] (index.ts, lines 267-336) *)

(** The loop over [Object.entries(refs)] that fills [writes]. *)
Fixpoint refWrites (nm : gmap string Z) (es : Entries)
    (writes : list (option Z)) : Outcome (list (option Z)) :=
  match es with
  | [] => Return writes
  | (k, p) :: es' =>
      match nm !! k with
      | None => Throw (errUnknownPointerField k)
      | Some fieldId =>
          if fieldId <? 0 then Throw (errRawAsPointer k)
          else refWrites nm es' (array_set writes (Some fieldId) (Some p))
      end
  end.

(** The loop over [Object.entries(raw)] that fills [rawWrites]. *)
Fixpoint rawWrites (nm : gmap string Z) (es : Entries)
    (writes : list (option Z)) : Outcome (list (option Z)) :=
  match es with
  | [] => Return writes
  | (k, p) :: es' =>
      match nm !! k with
      | None => Throw (errUnknownRawField k)
      | Some fieldId =>
          if 0 <=? fieldId then Throw (errPointerAsRaw k)
          else rawWrites nm es' (array_set writes (Some (JS.bnot fieldId)) (Some p))
      end
  end.

(** [for (i = 0; i < writes.length; i++) slabs[i][index] = writes[i]];
    [slabs[i]] missing is a [TypeError], after the earlier stores. *)
Fixpoint storeAll (writes : list (option Z)) (slabs : list (list Z))
    (index : option Z) : Outcome unit * list (list Z) :=
  match writes, slabs with
  | [], _ => (Return tt, slabs)
  | w :: writes', slab :: slabs' =>
      let '(r, rest) := storeAll writes' slabs' index in
      (r, u32_set slab index (number_or_undefined w) :: rest)
  | _ :: _, [] => (Throw errUndefined, [])
  end.

(** [this.freeList.length ? this.freeList.pop() : this.nextFree++]:
    the index taken, the free list and [nextFree] afterwards. The index
    is [undefined] when the free list has nothing at [length - 1]. *)
Definition takeIndex (B : Block T) : option Z * Stack.t * Z :=
  if negb (Stack.length (freeList B) =? 0)
  then let '(i, fl') := Stack.pop (freeList B) in (i, fl', nextFree B)
  else (Some (nextFree B), freeList B, nextFree B + 1).

(** The first branch of [alloc]: the entry goes into this block. *)
Definition allocHere (st : Arena T) (self : nat) (B : Block T) (value : T)
    (refs raw : option Entries) : Outcome Z * Arena T :=
  let c := codec st in
  let '(index, fl, nf) := takeIndex B in
  let avail :=
    if (Stack.length fl =? 0) && (blockSize c <=? nf)
    then set_delete self (blocksAvail st) else blocksAvail st in
  let B1 := {| values := array_set (values B) index (Some value);
               nextFree := nf;
               blockId := blockId B;
               firstNextFree := firstNextFree B;
               fields := fields B;
               rawFields := rawFields B;
               freeList := fl |} in
  let st1 := setAvail (setBlock st self B1) avail in
  let pointer := getPointer c (blockId B) (number_or_undefined index) in
  let writes0 := map (fun _ => Some 0) (fields B) in
  match (match refs with
         | Some es => refWrites (names st) es writes0
         | None => Return writes0
         end) with
  | Throw e => (Throw e, st1)
  | Overflow => (Overflow, st1)
  | Return writes =>
      let '(r, slabs) := storeAll writes (fields B) index in
      let B2 := {| values := values B1;
                   nextFree := nf;
                   blockId := blockId B;
                   firstNextFree := firstNextFree B;
                   fields := slabs;
                   rawFields := rawFields B;
                   freeList := fl |} in
      let st2 := setBlock st1 self B2 in
      match r with
      | Throw e => (Throw e, st2)
      | Overflow => (Overflow, st2)
      | Return _ =>
          let rawWrites0 := map (fun _ => Some 0) (rawFields B) in
          match (match raw with
                 | Some es => rawWrites (names st) es rawWrites0
                 | None => Return rawWrites0
                 end) with
          | Throw e => (Throw e, st2)
          | Overflow => (Overflow, st2)
          | Return rws =>
              let '(r', rslabs) := storeAll rws (rawFields B) index in
              let B3 := {| values := values B1;
                           nextFree := nf;
                           blockId := blockId B;
                           firstNextFree := firstNextFree B;
                           fields := slabs;
                           rawFields := rslabs;
                           freeList := fl |} in
              let st3 := setBlock st2 self B3 in
              match r' with
              | Throw e => (Throw e, st3)
              | Overflow => (Overflow, st3)
              | Return _ => (Return pointer, st3)
              end
          end
      end
  end.

(** [alloc] on the block at position [self]; [fuel] bounds the depth
    of the calls [b.alloc(...)] and [new PointerSetBlock(...).alloc(...)]. *)
Fixpoint alloc (fuel : nat) (st : Arena T) (self : nat) (value : T)
    (refs raw : option Entries) : Outcome Z * Arena T :=
  match fuel with
  | O => (Overflow, st)
  | S fuel' =>
      match blocks st !! self with
      | None => (Throw errUndefined, st)
      | Some B =>
          if (nextFree B <? blockSize (codec st))
             || negb (Stack.length (freeList B) =? 0)
          then allocHere st self B value refs raw
          else
            match blocksAvail st with
            | b :: _ => alloc fuel' st b value refs raw
            | [] =>
                match PointerSetBlock st with
                | (Return b, st') => alloc fuel' st' b value refs raw
                | (Throw e, st') => (Throw e, st')
                | (Overflow, st') => (Overflow, st')
                end
            end
      end
  end.

(** *** [free] (index.ts, lines 348-382) *)

(** The body of [free] once the pointer is known to be in this block. *)
Definition freeHere (st : Arena T) (self : nat) (B : Block T)
    (index : Z) : Arena T :=
  let fl := freeList B in
  let B' :=
    if Stack.length fl + firstNextFree B =? nextFree B - 1 then
      {| values := if blockId B =? 0 then [None] else [];
         nextFree := firstNextFree B;
         blockId := blockId B;
         firstNextFree := firstNextFree B;
         fields := fields B;
         rawFields := rawFields B;
         freeList := Stack.clear fl |}
    else if index =? nextFree B - 1 then
      {| values := removelast (values B);
         nextFree := nextFree B - 1;
         blockId := blockId B;
         firstNextFree := firstNextFree B;
         fields := fields B;
         rawFields := rawFields B;
         freeList := fl |}
    else
      {| values := array_set (values B) (Some index) None;
         nextFree := nextFree B;
         blockId := blockId B;
         firstNextFree := firstNextFree B;
         fields := fields B;
         rawFields := rawFields B;
         freeList := Stack.push fl index |} in
  setAvail (setBlock st self B') (set_add self (blocksAvail st)).

Fixpoint free (fuel : nat) (st : Arena T) (self : nat) (pointer : Z)
  : Outcome unit * Arena T :=
  match fuel with
  | O => (Overflow, st)
  | S fuel' =>
      if pointer =? 0 then (Throw errFreeNull, st)
      else
        match blocks st !! self with
        | None => (Throw errUndefined, st)
        | Some B =>
            let id := getBlockId (codec st) pointer in
            if negb (id =? blockId B) then
              match zlookup (blocks st) id with
              | None => (Throw errUndefined, st)
              | Some _ => free fuel' st (Z.to_nat id) pointer
              end
            else
              let index := getIndex (codec st) pointer in
              if is_undefined (values B) index then (Return tt, st)
              else (Return tt, freeHere st self B index)
        end
  end.

(** *** [erase] (index.ts, lines 391-411) *)

Definition zeroAt (index : Z) (slabs : list (list Z)) : list (list Z) :=
  map (fun slab => u32_set slab (Some index) 0) slabs.

Fixpoint erase (fuel : nat) (st : Arena T) (self : nat) (pointer : Z)
  : Outcome unit * Arena T :=
  match fuel with
  | O => (Overflow, st)
  | S fuel' =>
      if pointer =? 0 then (Throw errEraseNull, st)
      else
        match blocks st !! self with
        | None => (Throw errUndefined, st)
        | Some B =>
            let id := getBlockId (codec st) pointer in
            if negb (id =? blockId B) then
              match zlookup (blocks st) id with
              | None => (Throw errUndefined, st)
              | Some _ => erase fuel' st (Z.to_nat id) pointer
              end
            else
              let index := getIndex (codec st) pointer in
              if is_undefined (values B) index then (Return tt, st)
              else
                match free fuel' st self pointer with
                | (Return _, st') =>
                    match blocks st' !! self with
                    | None => (Throw errUndefined, st')
                    | Some B' =>
                        (Return tt,
                         setBlock st' self
                           {| values := values B';
                              nextFree := nextFree B';
                              blockId := blockId B';
                              firstNextFree := firstNextFree B';
                              fields := zeroAt index (fields B');
                              rawFields := zeroAt index (rawFields B');
                              freeList := freeList B' |})
                    end
                | (r, st') => (r, st')
                end
        end
  end.

(** *** [wipeBlock] (index.ts, lines 416-431) *)

Definition wipeBlock (st : Arena T) (self : nat) : Outcome unit * Arena T :=
  match blocks st !! self with
  | None => (Throw errUndefined, st)
  | Some B =>
      let B' := {| values := if blockId B =? 0 then [None] else [];
                   nextFree := firstNextFree B;
                   blockId := blockId B;
                   firstNextFree := firstNextFree B;
                   fields := map (fun slab => u32_fill slab 0) (fields B);
                   rawFields := map (fun slab => u32_fill slab 0) (rawFields B);
                   freeList := Stack.clear (freeList B) |} in
      (Return tt, setAvail (setBlock st self B') (set_add self (blocksAvail st)))
  end.

(** *** [drop] and [dropEmpty] (index.ts, lines 630-652) *)

Definition drop (st : Arena T) (self : nat) : Outcome unit * Arena T :=
  match blocks st !! self with
  | None => (Throw errUndefined, st)
  | Some B =>
      if negb (blockId B =? Z.of_nat (List.length (blocks st)) - 1)
      then (Throw errFinalBlock, st)
      else if blockId B =? 0 then wipeBlock st self
      else (Return tt,
            {| blocks := removelast (blocks st);
               blocksAvail := set_delete self (blocksAvail st);
               names := names st;
               codec := codec st;
               serial := serial st |})
  end.

(** *** [entryCount], [available], [size], [blocksCount]
    (index.ts, lines 657-701) *)

Fixpoint entryCount (fuel : nat) (st : Arena T) (self : nat) (id : Z)
  : Outcome Z :=
  match fuel with
  | O => Overflow
  | S fuel' =>
      match blocks st !! self with
      | None => Throw errUndefined
      | Some B =>
          if negb (id =? blockId B) then
            match zlookup (blocks st) id with
            | None => Throw errUndefined
            | Some _ => entryCount fuel' st (Z.to_nat id) id
            end
          else Return (nextFree B - Stack.length (freeList B))
      end
  end.

Fixpoint available (fuel : nat) (st : Arena T) (self : nat) (id : Z)
  : Outcome Z :=
  match fuel with
  | O => Overflow
  | S fuel' =>
      match blocks st !! self with
      | None => Throw errUndefined
      | Some B =>
          if negb (id =? blockId B) then
            match zlookup (blocks st) id with
            | None => Throw errUndefined
            | Some _ => available fuel' st (Z.to_nat id) id
            end
          else
            match entryCount fuel' st self id with
            | Return n => Return (blockSize (codec st) - n)
            | r => r
            end
      end
  end.

(** The loop of [size]: [i] runs from [i] to [blocks.length - 1]. *)
Fixpoint sizeLoop (fuel : nat) (st : Arena T) (i : nat) (todo : nat)
    (acc : Z) : Outcome Z :=
  match todo with
  | O => Return acc
  | S todo' =>
      match entryCount fuel st i (Z.of_nat i) with
      | Return n => sizeLoop fuel st (S i) todo' (acc + n)
      | r => r
      end
  end.

Definition size (fuel : nat) (st : Arena T) : Outcome Z :=
  sizeLoop fuel st 0 (List.length (blocks st)) 0.

Definition blocksCount (st : Arena T) : Z :=
  Z.of_nat (List.length (blocks st)).

(** The loop of [dropEmpty]: [i] runs from [i] down to 1. *)
Fixpoint dropEmptyLoop (fuel : nat) (st : Arena T) (i : nat)
  : Outcome unit * Arena T :=
  match i with
  | O => (Return tt, st)
  | S i' =>
      match entryCount fuel st i (Z.of_nat i) with
      | Return n =>
          if n =? 0 then
            match drop st i with
            | (Return _, st') => dropEmptyLoop fuel st' i'
            | (r, st') => (r, st')
            end
          else dropEmptyLoop fuel st i'
      | Throw e => (Throw e, st)
      | Overflow => (Overflow, st)
      end
  end.

Definition dropEmpty (fuel : nat) (st : Arena T) : Outcome unit * Arena T :=
  dropEmptyLoop fuel st (List.length (blocks st) - 1).

(** *** [ref] and [raw] (index.ts, lines 557-607) *)

(** [noNullPointer(p, v)], [written] telling whether [v] was given. *)
Definition noNullPointer (p : Z) (written : bool) : option Error :=
  if p =? 0 then Some (if written then errWriteNull else errReadNull)
  else None.

(** Store [v] at [index] of the slab number [i]. *)
Definition setSlab (slabs : list (list Z)) (i : Z) (index : Z) (v : Z)
  : list (list Z) :=
  match zlookup slabs i with
  | Some slab => <[Z.to_nat i := u32_set slab (Some index) v]> slabs
  | None => slabs
  end.

Definition setFields (B : Block T) (slabs : list (list Z)) : Block T :=
  {| values := values B;
     nextFree := nextFree B;
     blockId := blockId B;
     firstNextFree := firstNextFree B;
     fields := slabs;
     rawFields := rawFields B;
     freeList := freeList B |}.

Definition setRawFields (B : Block T) (slabs : list (list Z)) : Block T :=
  {| values := values B;
     nextFree := nextFree B;
     blockId := blockId B;
     firstNextFree := firstNextFree B;
     fields := fields B;
     rawFields := slabs;
     freeList := freeList B |}.

(** [ref(pointer, field)] and [ref(pointer, field, target)]. The result
    of a read is [None] when the slab has no such index. *)
Definition ref (st : Arena T) (pointer : Z) (field : string)
    (target : option Z) : Outcome (option Z) * Arena T :=
  match noNullPointer pointer (bool_decide (is_Some target)) with
  | Some e => (Throw e, st)
  | None =>
      let id := getBlockId (codec st) pointer in
      let index := getIndex (codec st) pointer in
      let fieldId := names st !! field in
      if from_option (fun i => i <? 0) false fieldId
      then (Throw (errRawAsPointer field), st)
      else
        match zlookup (blocks st) id with
        | None => (Throw errUndefined, st)
        | Some B =>
            match fieldId ≫= zlookup (fields B) with
            | None => (Throw (errUnknownPointerField field), st)
            | Some slab =>
                match target with
                | None => (Return (zlookup slab index), st)
                | Some t =>
                    (Return (Some t),
                     setBlock st (Z.to_nat id)
                       (setFields B (setSlab (fields B) (default 0 fieldId) index t)))
                end
            end
        end
  end.

(** [raw(pointer, field)] and [raw(pointer, field, val)]. An unknown
    field has [fieldId = undefined], so [~fieldId] is [-1]. *)
Definition raw (st : Arena T) (pointer : Z) (field : string)
    (val : option Z) : Outcome (option Z) * Arena T :=
  match noNullPointer pointer (bool_decide (is_Some val)) with
  | Some e => (Throw e, st)
  | None =>
      let id := getBlockId (codec st) pointer in
      let index := getIndex (codec st) pointer in
      let fieldId := names st !! field in
      if from_option (fun i => 0 <=? i) false fieldId
      then (Throw (errPointerAsRaw field), st)
      else
        match zlookup (blocks st) id with
        | None => (Throw errUndefined, st)
        | Some B =>
            let slot := JS.bnot (number_or_undefined fieldId) in
            match zlookup (rawFields B) slot with
            | None => (Throw (errUnknownRawField field), st)
            | Some slab =>
                match val with
                | None => (Return (zlookup slab index), st)
                | Some v =>
                    (Return (Some v),
                     setBlock st (Z.to_nat id)
                       (setRawFields B (setSlab (rawFields B) slot index v)))
                end
            end
        end
  end.

(** *** [refAll] (index.ts, lines 436-491) *)

(** The loop over [Object.entries(refs)]: each store happens before the
    next key is looked at. *)
Fixpoint refAllLoop (nm : gmap string Z) (es : Entries) (index : Z)
    (slabs : list (list Z)) : Outcome unit * list (list Z) :=
  match es with
  | [] => (Return tt, slabs)
  | (f, p) :: es' =>
      match nm !! f with
      | None => (Throw (errUnknownPointerField f), slabs)
      | Some fieldId =>
          if fieldId <? 0 then (Throw (errRawAsPointer f), slabs)
          else
            match zlookup slabs fieldId with
            | None => (Throw errUndefined, slabs)
            | Some _ => refAllLoop nm es' index (setSlab slabs fieldId index p)
            end
      end
  end.

(** The object a bulk read builds: one key per name whose id passes
    [keep], its value computed by [get]. *)
Definition snapshot (nm : gmap string Z) (keep : Z -> bool)
    (get : Z -> option Z) : gmap string (option Z) :=
  omap (fun id => if keep id then Some (get id) else None) nm.

(** The body of [refAll] once the pointer is known to be in this block. *)
Definition refAllHere (st : Arena T) (self : nat) (B : Block T) (index : Z)
    (refs : option Entries) : Outcome Bulk * Arena T :=
  if is_undefined (values B) index then
    match refs with
    | Some es => (Return (SameObject es), st)
    | None =>
        (Return (Snapshot (snapshot (names st)
                   (fun id => 0 <=? id) (fun _ => Some 0))), st)
    end
  else
    match refs with
    | Some es =>
        let '(r, slabs) := refAllLoop (names st) es index (fields B) in
        let st' := setBlock st self (setFields B slabs) in
        match r with
        | Return _ => (Return (SameObject es), st')
        | Throw e => (Throw e, st')
        | Overflow => (Overflow, st')
        end
    | None =>
        if bool_decide (map_Forall (fun _ id =>
             0 <= id -> is_Some (zlookup (fields B) id)) (names st))
        then (Return (Snapshot (snapshot (names st)
                (fun id => 0 <=? id)
                (fun id => zlookup (fields B) id ≫= fun slab =>
                           zlookup slab index))), st)
        else (Throw errUndefined, st)
    end.

Fixpoint refAll (fuel : nat) (st : Arena T) (self : nat) (pointer : Z)
    (refs : option Entries) : Outcome Bulk * Arena T :=
  match fuel with
  | O => (Overflow, st)
  | S fuel' =>
      match noNullPointer pointer (bool_decide (is_Some refs)) with
      | Some e => (Throw e, st)
      | None =>
          match blocks st !! self with
          | None => (Throw errUndefined, st)
          | Some B =>
              let id := getBlockId (codec st) pointer in
              if negb (id =? blockId B) then
                match zlookup (blocks st) id with
                | None => (Throw errUndefined, st)
                | Some _ => refAll fuel' st (Z.to_nat id) pointer refs
                end
              else refAllHere st self B (getIndex (codec st) pointer) refs
          end
      end
  end.

(** *** [rawAll] (index.ts, lines 496-552) *)

Fixpoint rawAllLoop (nm : gmap string Z) (es : Entries) (index : Z)
    (slabs : list (list Z)) : Outcome unit * list (list Z) :=
  match es with
  | [] => (Return tt, slabs)
  | (f, num) :: es' =>
      match nm !! f with
      | None => (Throw (errUnknownRawField f), slabs)
      | Some fieldId =>
          if 0 <=? fieldId then (Throw (errPointerAsRaw f), slabs)
          else
            match zlookup slabs (JS.bnot fieldId) with
            | None => (Throw errUndefined, slabs)
            | Some _ =>
                rawAllLoop nm es' index (setSlab slabs (JS.bnot fieldId) index num)
            end
      end
  end.

(** The body of [rawAll] once the pointer is known to be in this block. *)
Definition rawAllHere (st : Arena T) (self : nat) (B : Block T) (index : Z)
    (raws : option Entries) : Outcome Bulk * Arena T :=
  if is_undefined (values B) index then
    match raws with
    | Some es => (Return (SameObject es), st)
    | None =>
        (Return (Snapshot (snapshot (names st)
                   (fun id => id <? 0) (fun _ => Some 0))), st)
    end
  else
    match raws with
    | Some es =>
        let '(r, slabs) := rawAllLoop (names st) es index (rawFields B) in
        let st' := setBlock st self (setRawFields B slabs) in
        match r with
        | Return _ => (Return (SameObject es), st')
        | Throw e => (Throw e, st')
        | Overflow => (Overflow, st')
        end
    | None =>
        if bool_decide (map_Forall (fun _ id =>
             id < 0 -> is_Some (zlookup (rawFields B) (JS.bnot id)))
             (names st))
        then (Return (Snapshot (snapshot (names st)
                (fun id => id <? 0)
                (fun id => zlookup (rawFields B) (JS.bnot id) ≫=
                           fun slab => zlookup slab index))), st)
        else (Throw errUndefined, st)
    end.

Fixpoint rawAll (fuel : nat) (st : Arena T) (self : nat) (pointer : Z)
    (raws : option Entries) : Outcome Bulk * Arena T :=
  match fuel with
  | O => (Overflow, st)
  | S fuel' =>
      match noNullPointer pointer (bool_decide (is_Some raws)) with
      | Some e => (Throw e, st)
      | None =>
          match blocks st !! self with
          | None => (Throw errUndefined, st)
          | Some B =>
              let id := getBlockId (codec st) pointer in
              if negb (id =? blockId B) then
                match zlookup (blocks st) id with
                | None => (Throw errUndefined, st)
                | Some _ => rawAll fuel' st (Z.to_nat id) pointer raws
                end
              else rawAllHere st self B (getIndex (codec st) pointer) raws
          end
      end
  end.

(** *** [value] (index.ts, lines 617-624) *)

(** [value(pointer)] and [value(pointer, val)]. A read returns [None]
    for [undefined]. *)
Definition value (st : Arena T) (pointer : Z) (val : option T)
  : Outcome (option T) * Arena T :=
  match noNullPointer pointer (bool_decide (is_Some val)) with
  | Some e => (Throw e, st)
  | None =>
      let id := getBlockId (codec st) pointer in
      let index := getIndex (codec st) pointer in
      match zlookup (blocks st) id with
      | None => (Throw errUndefined, st)
      | Some B =>
          match val with
          | Some v =>
              (Return (Some v),
               setBlock st (Z.to_nat id)
                 {| values := array_set (values B) (Some index) (Some v);
                    nextFree := nextFree B;
                    blockId := blockId B;
                    firstNextFree := firstNextFree B;
                    fields := fields B;
                    rawFields := rawFields B;
                    freeList := freeList B |})
          | None => (Return (mjoin (zlookup (values B) index)), st)
          end
      end
  end.

(** *** [totalAvailable] (index.ts, lines 688-694) *)

(** The loop of [totalAvailable]: [i] runs from [i] to [blocks.length - 1]. *)
Fixpoint availableLoop (fuel : nat) (st : Arena T) (i : nat) (todo : nat)
    (acc : Z) : Outcome Z :=
  match todo with
  | O => Return acc
  | S todo' =>
      match available fuel st i (Z.of_nat i) with
      | Return n => availableLoop fuel st (S i) todo' (acc + n)
      | r => r
      end
  end.

Definition totalAvailable (fuel : nat) (st : Arena T) : Outcome Z :=
  availableLoop fuel st 0 (List.length (blocks st)) 0.

(** *** Call sequences used by the properties *)

(** [n] calls [store.alloc(value)] on the root block, one after the
    other; the pointers returned are dropped. *)
Fixpoint allocMany (fuel : nat) (n : nat) (st : Arena T) (value : T)
  : Arena T :=
  match n with
  | O => st
  | S n' => allocMany fuel n' (snd (alloc fuel st 0 value None None)) value
  end.

End Model.

(** ** Well-formed arenas and bookkeeping for the proofs *)

(** What the methods maintain for the block at position [i]: its
    [blockId] is its position, [nextFree] is not negative, the free list
    has between 0 and [data.length] live entries, and the elements of the
    unsigned array [data] are not negative. *)
Definition wfBlock {T : Type} (i : nat) (B : Block T) : bool :=
  (blockId B =? Z.of_nat i)
  && (0 <=? nextFree B)
  && (0 <=? Stack.length (freeList B))
  && (Stack.length (freeList B) <=? Z.of_nat (List.length (Stack.data (freeList B))))
  && forallb (fun x => 0 <=? x) (Stack.data (freeList B)).

Fixpoint wfBlocks {T : Type} (i : nat) (bl : list (Block T)) : bool :=
  match bl with
  | [] => true
  | B :: bl' => wfBlock i B && wfBlocks (S i) bl'
  end.

Definition wf {T : Type} (st : Arena T) : bool := wfBlocks 0 (blocks st).

(** [nextFree] and [freeList.length] of the block at position [b]; a
    block that does not exist yet counts as a new one, with both 0. *)
Definition counters {T : Type} (st : Arena T) (b : nat) : Z * Z :=
  match blocks st !! b with
  | Some B => (nextFree B, Stack.length (freeList B))
  | None => (0, 0)
  end.

(** The errors of field validation: unknown field, field of the wrong kind. *)
Definition fieldError (e : Error) : bool :=
  match e with
  | errPointerAsRaw _ | errRawAsPointer _
  | errUnknownRawField _ | errUnknownPointerField _ => true
  | _ => false
  end.

(** [nextFree - freeList.length], summed over a list of blocks. *)
Definition entries {T : Type} (B : Block T) : Z :=
  nextFree B - Stack.length (freeList B).

Definition sumEntries {T : Type} (bl : list (Block T)) : Z :=
  foldr (fun B acc => entries B + acc) 0 bl.

(** ** Bookkeeping for the bulk setters *)

(** [slabs[i][index]], [None] when either lookup is [undefined]. *)
Definition readSlot (slabs : list (list Z)) (i index : Z) : option Z :=
  zlookup slabs i ≫= fun slab => zlookup slab index.

(** The common shape of [refAllLoop] and [rawAllLoop]: [bad] rejects the
    ids of the other kind, [slot] maps an id to its slab number. *)
Fixpoint bulkLoop (bad : Z -> bool) (slot : Z -> Z)
    (eUnknown eKind : string -> Error) (nm : gmap string Z) (es : Entries)
    (index : Z) (slabs : list (list Z)) : Outcome unit * list (list Z) :=
  match es with
  | [] => (Return tt, slabs)
  | (f, x) :: es' =>
      match nm !! f with
      | None => (Throw (eUnknown f), slabs)
      | Some fieldId =>
          if bad fieldId then (Throw (eKind f), slabs)
          else
            match zlookup slabs (slot fieldId) with
            | None => (Throw errUndefined, slabs)
            | Some _ =>
                bulkLoop bad slot eUnknown eKind nm es' index
                  (setSlab slabs (slot fieldId) index x)
            end
      end
  end.

(** The common shape of [refWrites] and [rawWrites]. *)
Fixpoint writesLoop (bad : Z -> bool) (slot : Z -> Z)
    (eUnknown eKind : string -> Error) (nm : gmap string Z) (es : Entries)
    (writes : list (option Z)) : Outcome (list (option Z)) :=
  match es with
  | [] => Return writes
  | (k, x) :: es' =>
      match nm !! k with
      | None => Throw (eUnknown k)
      | Some fieldId =>
          if bad fieldId then Throw (eKind k)
          else writesLoop bad slot eUnknown eKind nm es'
                 (array_set writes (Some (slot fieldId)) (Some x))
      end
  end.

(** A key that names a field of the right kind. *)
Definition validKey (nm : gmap string Z) (bad : Z -> bool) (k : string) : Prop :=
  exists id, nm !! k = Some id /\ bad id = false.

(** The slabs match the names: every id of the right kind has a slab
    that holds [index], and different names have different slabs. *)
Definition slotsOk (nm : gmap string Z) (bad : Z -> bool) (slot : Z -> Z)
    (slabs : list (list Z)) (index : Z) : bool :=
  bool_decide (map_Forall (fun _ id =>
     bad id = false ->
     (0 <=? slot id)
     && match zlookup slabs (slot id) with
        | Some slab => (0 <=? index) && (index <? Z.of_nat (List.length slab))
        | None => false
        end = true) nm)
  && bool_decide (map_Forall (fun k1 id1 =>
       map_Forall (fun k2 id2 =>
         bad id1 = false -> bad id2 = false -> slot id1 = slot id2 -> k1 = k2)
       nm) nm).

(** ** Byte-level views of a raw field *)

Module RawViews.

(** The byte order of the platform. *)
Inductive Endian : Type := Little | Big.

(** The element type of a view: [Uint8Array], [Uint16Array] or
    [Uint32Array]. *)
Inductive Width : Type := W8 | W16 | W32.

(** Modelled from the spec: the four bytes under a uint32 element of a
    slab in memory order, what the 4-byte view of [raw8] shows (the byte
    views are absent from index.ts). *)
Definition bytesOf (e : Endian) (w : Z) : list Z :=
  match e with
  | Little => [w mod 256; (w / 256) mod 256; (w / 65536) mod 256;
               (w / 16777216) mod 256]
  | Big => [(w / 16777216) mod 256; (w / 65536) mod 256; (w / 256) mod 256;
            w mod 256]
  end.

(** Modelled from the spec: the uint32 that four bytes in memory order
    make (for stores through the view of [raw8], absent from index.ts). *)
Definition wordOf (e : Endian) (s : list Z) : Z :=
  match e, s with
  | Little, [b0; b1; b2; b3] => b0 + 256 * b1 + 65536 * b2 + 16777216 * b3
  | Big, [b3; b2; b1; b0] => b0 + 256 * b1 + 65536 * b2 + 16777216 * b3
  | _, _ => 0
  end.

(** Modelled from the spec: the two half-words under a uint32 element in
    memory order, what the 2-half-word view of [raw16] shows (absent
    from index.ts). *)
Definition halvesOf (e : Endian) (w : Z) : list Z :=
  match e with
  | Little => [w mod 65536; (w / 65536) mod 65536]
  | Big => [(w / 65536) mod 65536; w mod 65536]
  end.

(** Modelled from the spec: the uint32 that two half-words in memory
    order make (for stores through the view of [raw16], absent from
    index.ts). *)
Definition wordOfHalves (e : Endian) (s : list Z) : Z :=
  match e, s with
  | Little, [h0; h1] => h0 + 65536 * h1
  | Big, [h1; h0] => h0 + 65536 * h1
  | _, _ => 0
  end.

(** Modelled from the spec: a view as [raw8], [raw16] and [raw32] return
    it (absent from index.ts): a window of the given element type on the
    uint32 slot of a raw field, which is the element [vIndex] of the
    slab [vSlot] of [rawFields] in the block [vBlock]. *)
Record View : Type := mkView {
  vWidth : Width;
  vBlock : Z;
  vSlot : Z;
  vIndex : Z
}.

(** Modelled from the spec: the view on the slot of [raw(pointer,
    field)]. The slot is found as [raw] finds it (index.ts, lines
    590-607): the block and the index the pointer decodes to, and the
    slab [~fieldId]. There is no view when the name is not that of a raw
    field. *)
Definition viewOf {T : Type} (wd : Width) (st : Arena T) (pointer : Z)
    (field : string) : option View :=
  match names st !! field with
  | Some fieldId =>
      if fieldId <? 0
      then Some (mkView wd (getBlockId (codec st) pointer) (JS.bnot fieldId)
                   (getIndex (codec st) pointer))
      else None
  | None => None
  end.

(** Modelled from the spec: [raw8], absent from index.ts. *)
Definition raw8 {T : Type} (st : Arena T) (pointer : Z) (field : string)
  : option View := viewOf W8 st pointer field.

(** Modelled from the spec: [raw16], absent from index.ts. *)
Definition raw16 {T : Type} (st : Arena T) (pointer : Z) (field : string)
  : option View := viewOf W16 st pointer field.

(** Modelled from the spec: [raw32], absent from index.ts. *)
Definition raw32 {T : Type} (st : Arena T) (pointer : Z) (field : string)
  : option View := viewOf W32 st pointer field.

(** Modelled from the spec: the storage under a view, which is the
    storage of the slab: the uint32 element of [rawFields] of the arena
    it is a window on (the views are absent from index.ts). *)
Definition cell {T : Type} (st : Arena T) (v : View) : option Z :=
  match zlookup (blocks st) (vBlock v) with
  | Some B =>
      match zlookup (rawFields B) (vSlot v) with
      | Some slab => zlookup slab (vIndex v)
      | None => None
      end
  | None => None
  end.

(** Modelled from the spec: the elements of a view, read in the state
    [st] (absent from index.ts). The view is live: a view made in an
    earlier state shows what the slot holds now. *)
Definition elements {T : Type} (e : Endian) (st : Arena T) (v : View)
  : option (list Z) :=
  match cell st v with
  | Some w =>
      Some match vWidth v with
           | W8 => bytesOf e w
           | W16 => halvesOf e w
           | W32 => [w]
           end
  | None => None
  end.

(** Modelled from the spec: [view[k] = x] (absent from index.ts). The
    element [k] of the view is replaced, as the typed array stores it,
    in the slot of the slab; a store past the end of the view is
    ignored. *)
Definition store {T : Type} (e : Endian) (st : Arena T) (v : View) (k : nat)
    (x : Z) : Arena T :=
  match zlookup (blocks st) (vBlock v), cell st v with
  | Some B, Some w =>
      let put w' :=
        setBlock st (Z.to_nat (vBlock v))
          (setRawFields B (setSlab (rawFields B) (vSlot v) (vIndex v) w')) in
      match vWidth v with
      | W8 =>
          if (k <? 4)%nat
          then put (wordOf e (<[k := JS.ToUint8 x]> (bytesOf e w)))
          else st
      | W16 =>
          if (k <? 2)%nat
          then put (wordOfHalves e (<[k := JS.ToUint16 x]> (halvesOf e w)))
          else st
      | W32 => if (k =? 0)%nat then put x else st
      end
  | _, _ => st
  end.

(** The states reached from [st] by writes through [raw(q, g, x)], at
    any pointer and field, and stores through views. *)
Inductive writes {T : Type} (e : Endian) (st : Arena T) : Arena T -> Prop :=
  | writes_refl : writes e st st
  | writes_raw (st' : Arena T) (q : Z) (g : string) (x : Z) :
      writes e st st' -> writes e st (snd (raw st' q g (Some x)))
  | writes_store (st' : Arena T) (v : View) (k : nat) (x : Z) :
      writes e st st' -> writes e st (store e st' v k x).

End RawViews.

(** ** The invariant of the allocator *)

(** The live part of the free list: [data[0 .. length)]. *)
Definition live {T : Type} (B : Block T) : list Z :=
  firstn (Z.to_nat (Stack.length (freeList B))) (Stack.data (freeList B)).

(** The test of [alloc]: [nextFree < blockSize || freeList.length]. *)
Definition hasSpace {T : Type} (bs : Z) (B : Block T) : bool :=
  (nextFree B <? bs) || negb (Stack.length (freeList B) =? 0).

(** What the methods keep true of one block, for block size [bs]:
    [firstNextFree] is 1 in block 0 and 0 elsewhere; [nextFree] lies
    between it and the block size; [values] is no longer than
    [nextFree]; the free list is an unsigned array of [bs] elements of
    the width the block size asks for, whose live entries are distinct
    indices below [nextFree] with no value; index 0 of block 0 has no
    value; and every index from [firstNextFree] to [nextFree - 1]
    without a value is on the free list. *)
Definition OkBlock {T : Type} (bs : Z) (B : Block T) : Prop :=
  firstNextFree B = (if blockId B =? 0 then 1 else 0) /\
  firstNextFree B <= nextFree B /\
  nextFree B <= Z.max bs (firstNextFree B) /\
  Z.of_nat (List.length (values B)) <= nextFree B /\
  0 <= Stack.length (freeList B)
    <= Z.of_nat (List.length (Stack.data (freeList B))) /\
  Z.of_nat (List.length (Stack.data (freeList B))) = bs /\
  Stack.wide (freeList B) = negb (bs <=? max8) /\
  Forall (fun x => 0 <= x) (Stack.data (freeList B)) /\
  NoDup (live B) /\
  Forall (fun e => firstNextFree B <= e < nextFree B /\
                   is_undefined (values B) e = true) (live B) /\
  (firstNextFree B = 1 -> is_undefined (values B) 0 = true) /\
  Forall (fun idx => is_undefined (values B) idx = true -> idx ∈ live B)
         (seqZ (firstNextFree B) (nextFree B - firstNextFree B)).

#[global] Instance OkBlock_dec {T : Type} (bs : Z) (B : Block T) :
  Decision (OkBlock bs B).
Proof. unfold OkBlock. apply _. Defined.

#[global] Instance Codec_eq_dec : EqDecision Codec.
Proof. solve_decision. Defined.

(** What the methods keep true of the arena: the codec is the one the
    block size gives, there is a root block, no more blocks than block
    ids, every block sits at the position its [blockId] says, and every
    block is [OkBlock]. *)
Definition Ok {T : Type} (st : Arena T) : Prop :=
  codecOf (blockSize (codec st)) = Some (codec st) /\
  0 <= blockSize (codec st) /\
  (0 < List.length (blocks st))%nat /\
  Z.of_nat (List.length (blocks st)) <= blockIdMask (codec st) + 1 /\
  blockId <$> blocks st = Z.of_nat <$> seq 0 (List.length (blocks st)) /\
  Forall (OkBlock (blockSize (codec st))) (blocks st).

#[global] Instance Ok_dec {T : Type} (st : Arena T) : Decision (Ok st).
Proof. unfold Ok. apply _. Defined.

(** The block [free] writes back: the three branches of [freeHere]. *)
Definition freedBlock {T : Type} (B : Block T) (index : Z) : Block T :=
  let fl := freeList B in
  if Stack.length fl + firstNextFree B =? nextFree B - 1 then
    {| values := if blockId B =? 0 then [None] else [];
       nextFree := firstNextFree B;
       blockId := blockId B;
       firstNextFree := firstNextFree B;
       fields := fields B;
       rawFields := rawFields B;
       freeList := Stack.clear fl |}
  else if index =? nextFree B - 1 then
    {| values := removelast (values B);
       nextFree := nextFree B - 1;
       blockId := blockId B;
       firstNextFree := firstNextFree B;
       fields := fields B;
       rawFields := rawFields B;
       freeList := fl |}
  else
    {| values := array_set (values B) (Some index) None;
       nextFree := nextFree B;
       blockId := blockId B;
       firstNextFree := firstNextFree B;
       fields := fields B;
       rawFields := rawFields B;
       freeList := Stack.push fl index |}.

(** The block [erase] writes back after [free]. *)
Definition erasedBlock {T : Type} (B : Block T) (index : Z) : Block T :=
  {| values := values (freedBlock B index);
     nextFree := nextFree (freedBlock B index);
     blockId := blockId (freedBlock B index);
     firstNextFree := firstNextFree (freedBlock B index);
     fields := zeroAt index (fields (freedBlock B index));
     rawFields := zeroAt index (rawFields (freedBlock B index));
     freeList := freeList (freedBlock B index) |}.

(** The number of slots of a block that hold a value. *)
Definition stored {T : Type} (B : Block T) : Z :=
  Z.of_nat (List.length (List.filter
    (fun o => match o with Some _ => true | None => false end) (values B))).

(** [blocksAvail] holds exactly the blocks with room: every member is a
    block of the arena that has room, and every block that has room is
    a member. *)
Definition AvailOk {T : Type} (st : Arena T) : Prop :=
  Forall (fun b => from_option (hasSpace (blockSize (codec st))) false
                     (blocks st !! b) = true) (blocksAvail st) /\
  Forall (fun B => hasSpace (blockSize (codec st)) B = true ->
                   Z.to_nat (blockId B) ∈ blocksAvail st) (blocks st).

#[global] Instance AvailOk_dec {T : Type} (st : Arena T) : Decision (AvailOk st).
Proof. unfold AvailOk. apply _. Defined.

(** ** The invariant of the slabs *)

(** The number of pointer fields and of raw fields: the slabs of the
    root block, as [new PointerSetBlock] counts them. *)
Definition nFields {T : Type} (st : Arena T) : nat :=
  from_option (fun r => List.length (fields r)) 0%nat (blocks st !! 0%nat).

Definition nRawFields {T : Type} (st : Arena T) : nat :=
  from_option (fun r => List.length (rawFields r)) 0%nat (blocks st !! 0%nat).

(** Two lists of slabs of the same shape. *)
Definition sameShape (F' F : list (list Z)) : Prop :=
  List.length <$> F' = List.length <$> F.

(** What the methods keep true of the slabs and the names: every block
    has one slab of [blockSize] words per pointer field and per raw
    field; every name stands for the position of a pointer slab, or for
    the complement of the position of a raw slab; and no two names
    stand for the same slab. *)
Definition Schema {T : Type} (st : Arena T) : Prop :=
  Forall (fun B =>
            List.length (fields B) = nFields st /\
            List.length (rawFields B) = nRawFields st /\
            Forall (fun slab => Z.of_nat (List.length slab) = blockSize (codec st))
                   (fields B) /\
            Forall (fun slab => Z.of_nat (List.length slab) = blockSize (codec st))
                   (rawFields B)) (blocks st) /\
  Z.of_nat (nRawFields st) <= 2147483648 /\
  map_Forall (fun _ id => 0 <= id < Z.of_nat (nFields st) \/
                          - Z.of_nat (nRawFields st) <= id < 0) (names st) /\
  map_Forall (fun k1 id1 =>
    map_Forall (fun k2 id2 => id1 = id2 -> k1 = k2) (names st)) (names st).

#[global] Instance Schema_dec {T : Type} (st : Arena T) : Decision (Schema st).
Proof. unfold Schema. apply _. Defined.

(** Decide a decidable property of a concrete arena by computation. *)
Ltac decide_by_compute := apply (bool_decide_unpack _); vm_compute; exact I.

(** A budget of nested calls that no call sequence below exhausts. *)
Definition depth : nat := 8.

(** * Properties *)

Section CodecFacts.

Lemma ToInt32_small x : -2147483648 <= x < 2147483648 -> JS.ToInt32 x = x.
Proof. intros H. unfold JS.ToInt32. rewrite Z.mod_small; lia. Qed.

Lemma ToInt32_range x : -2147483648 <= JS.ToInt32 x < 2147483648.
Proof.
  unfold JS.ToInt32.
  pose proof (Z.mod_pos_bound (x + 2147483648) 4294967296 ltac:(lia)). lia.
Qed.

Lemma ToInt32_cases x :
  0 <= x < 4294967296 ->
  (x < 2147483648 /\ JS.ToInt32 x = x) \/
  (2147483648 <= x /\ JS.ToInt32 x = x - 4294967296).
Proof.
  intros H. destruct (Z_lt_ge_dec x 2147483648) as [Hlt|Hge].
  - left. split; [lia|]. apply ToInt32_small. lia.
  - right. split; [lia|]. unfold JS.ToInt32.
    replace (x + 2147483648) with ((x - 2147483648) + 1 * 4294967296) by lia.
    rewrite Z.mod_add by lia. rewrite Z.mod_small; lia.
Qed.

(** OR-ing a multiple of [2^s] with a value below [2^s] adds them. *)
Lemma lor_mul_pow2 (k i s : Z) :
  0 <= s -> 0 <= i < 2 ^ s -> Z.lor (k * 2 ^ s) i = k * 2 ^ s + i.
Proof.
  intros Hs Hi.
  assert (Hland : Z.land (k * 2 ^ s) i = 0).
  { apply Z.bits_inj'. intros n Hn. rewrite Z.land_spec, Z.bits_0.
    destruct (Z_lt_ge_dec n s) as [Hlt|Hge].
    - rewrite Z.mul_pow2_bits_low by lia. reflexivity.
    - assert (Hbit : Z.testbit i n = false).
      { destruct (Z.eq_dec i 0) as [->|Hne]; [apply Z.bits_0|].
        apply Z.bits_above_log2; [lia|].
        apply Z.lt_le_trans with s; [|lia].
        apply Z.log2_lt_pow2; lia. }
      rewrite Hbit. apply andb_false_r. }
  rewrite Z.add_nocarry_lxor by exact Hland.
  symmetry. apply Z.lxor_lor. exact Hland.
Qed.

Lemma shiftl_small_int32 (b s : Z) :
  0 <= s -> 0 <= b -> b * 2 ^ s < 4294967296 ->
  let x := JS.ToInt32 (Z.shiftl b s) in
  (if 0 <=? x then x else max32 + x) = b * 2 ^ s.
Proof.
  intros Hs Hb Hlt. cbv zeta. rewrite Z.shiftl_mul_pow2 by lia.
  assert (Hpos : 0 <= b * 2 ^ s) by (apply Z.mul_nonneg_nonneg; lia).
  destruct (ToInt32_cases (b * 2 ^ s) ltac:(lia)) as [[H1 ->]|[H1 ->]].
  - destruct (Z.leb_spec 0 (b * 2 ^ s)); lia.
  - unfold max32. destruct (Z.leb_spec 0 (b * 2 ^ s - 4294967296)); lia.
Qed.

(** The pointer [getPointer] builds is the signed 32-bit reading of
    [blockId * 2^shift + index]. *)
Lemma getPointer_int32 (c : Codec) (b i : Z) :
  (shift c = 8 \/ shift c = 16) -> shiftUpFix c = max32 ->
  0 <= b -> b * 2 ^ shift c < 4294967296 -> 0 <= i < 2 ^ shift c ->
  getPointer c b i = JS.ToInt32 (b * 2 ^ shift c + i).
Proof.
  intros Hs Hfix Hb Hlt Hi.
  assert (Hs0 : 0 <= shift c < 32) by lia.
  assert (Hpow : 2 ^ shift c <= 65536).
  { destruct Hs as [-> | ->]; simpl; lia. }
  assert (Hbs : b < 4294967296) by nia.
  unfold getPointer, JS.shl, JS.bor.
  assert (Hsh : Z.land (JS.ToUint32 (shift c)) 31 = shift c).
  { destruct Hs as [-> | ->]; reflexivity. }
  rewrite Hsh, Hfix.
  assert (Hbsmall : b < 2147483648).
  { destruct Hs as [Hs | Hs]; rewrite Hs in Hlt; simpl in Hlt; lia. }
  rewrite (ToInt32_small b) by lia.
  pose proof (shiftl_small_int32 b (shift c) ltac:(lia) Hb Hlt) as Hfixed.
  cbv zeta in Hfixed. rewrite Hfixed.
  rewrite (ToInt32_small i) by lia.
  assert (Hpos : 0 <= b * 2 ^ shift c) by (apply Z.mul_nonneg_nonneg; lia).
  destruct (ToInt32_cases (b * 2 ^ shift c) ltac:(lia)) as [[H1 E1]|[H1 E1]];
    rewrite E1.
  - rewrite lor_mul_pow2 by lia. symmetry. apply ToInt32_small.
    assert (b * 2 ^ shift c + i < 2147483648); [|lia].
    assert (Hdiv : (2 ^ shift c | 2147483648)).
    { destruct Hs as [-> | ->]; [exists 8388608 | exists 32768]; reflexivity. }
    destruct Hdiv as [q Hq]. rewrite Hq in H1 |- *.
    assert (Hp : 0 < 2 ^ shift c) by (apply Z.pow_pos_nonneg; lia).
    assert (Hbq : b + 1 <= q) by nia.
    assert ((b + 1) * 2 ^ shift c <= q * 2 ^ shift c) by (apply Z.mul_le_mono_nonneg_r; lia).
    lia.
  - assert (Hdiv : exists q, 4294967296 = q * 2 ^ shift c).
    { destruct Hs as [-> | ->]; [exists 16777216 | exists 65536]; reflexivity. }
    destruct Hdiv as [q Hq].
    replace (b * 2 ^ shift c - 4294967296) with ((b - q) * 2 ^ shift c)
      by (rewrite Hq; ring).
    rewrite lor_mul_pow2 by lia.
    assert (Hp : 0 < 2 ^ shift c) by (apply Z.pow_pos_nonneg; lia).
    assert (Hbq : b + 1 <= q) by nia.
    assert ((b + 1) * 2 ^ shift c <= q * 2 ^ shift c)
      by (apply Z.mul_le_mono_nonneg_r; lia).
    set (P := 2 ^ shift c) in *.
    assert (Hx : 0 <= b * P + i < 4294967296) by lia.
    destruct (ToInt32_cases (b * P + i) Hx) as [[H2 E2]|[H2 E2]]; lia.
Qed.

End CodecFacts.

(** C1. For every block id and index within the codec's range (block id
    below 2^24 and index below 256 when the block size is at most 256;
    block id below 2^16 and index below 65536 when the block size is
    above 256 and at most 65536), decoding the encoded pointer gives back
    the pair: [getBlockId (getPointer b i) = b] and
    [getIndex (getPointer b i) = i]. *)
Theorem getPointer_roundtrip (bs : Z) (c : Codec) (b i : Z) :
  codecOf bs = Some c ->
  0 <= b -> 0 <= i ->
  (bs <= 256 -> b < 2 ^ 24 /\ i < 256) ->
  (256 < bs <= 65536 -> b < 2 ^ 16 /\ i < 65536) ->
  getBlockId c (getPointer c b i) = b /\ getIndex c (getPointer c b i) = i.
Proof.
  intros Hc Hb Hi Hsmall Hbig.
  unfold codecOf, getWordSize, max8, max16 in Hc.
  assert (Hcases :
    (bs <= 256 /\ shift c = 8 /\ mask c = 255 /\ shiftDownFix c = 2 ^ 24) \/
    (256 < bs <= 65536 /\ shift c = 16 /\ mask c = 65535 /\ shiftDownFix c = 2 ^ 16)).
  { destruct (Z.leb_spec bs 256).
    - left. simpl in Hc. inversion Hc; subst; simpl. repeat split; lia.
    - destruct (Z.leb_spec bs 65536); simpl in Hc; [|discriminate].
      right. inversion Hc; subst; simpl. repeat split; lia. }
  assert (Hup : shiftUpFix c = max32).
  { destruct (bs <=? 256); [|destruct (bs <=? 65536)]; simpl in Hc;
      try discriminate; inversion Hc; reflexivity. }
  assert (Hgen : exists s N, shift c = s /\ (s = 8 \/ s = 16) /\
            mask c = 2 ^ s - 1 /\ shiftDownFix c = N /\
            N * 2 ^ s = 4294967296 /\ b < N /\ i < 2 ^ s).
  { destruct Hcases as [(H1 & H2 & H3 & H4)|(H1 & H2 & H3 & H4)].
    - exists 8, (2 ^ 24). destruct (Hsmall H1). rewrite H2, H3, H4.
      repeat split; try reflexivity; lia.
    - exists 16, (2 ^ 16). destruct (Hbig H1). rewrite H2, H3, H4.
      repeat split; try reflexivity; lia. }
  destruct Hgen as (s & N & Hs & Hs' & Hmask & Hdown & HN & HbN & His).
  assert (Hpow : 0 < 2 ^ s) by (apply Z.pow_pos_nonneg; lia).
  rewrite getPointer_int32; rewrite ?Hs; try assumption; try lia; try nia.
  set (x := b * 2 ^ s + i).
  assert (Hx : 0 <= x < 4294967296) by (unfold x; nia).
  assert (Hsh : Z.land (JS.ToUint32 s) 31 = s).
  { destruct Hs' as [-> | ->]; reflexivity. }
  assert (Hdivmod : forall k, (k * 2 ^ s + i) / 2 ^ s = k /\ (k * 2 ^ s + i) mod 2 ^ s = i).
  { intros k. split.
    - rewrite Z.div_add_l by lia. rewrite Z.div_small; lia.
    - rewrite Z.add_comm, Z.mod_add by lia. apply Z.mod_small; lia. }
  unfold getBlockId, getIndex, JS.sar, JS.band.
  rewrite Hs, Hmask, Hdown, Hsh.
  pose proof (ToInt32_range x) as Hr.
  rewrite (ToInt32_small (JS.ToInt32 x)) by exact Hr.
  assert (Hm : JS.ToInt32 (2 ^ s - 1) = 2 ^ s - 1).
  { apply ToInt32_small. destruct Hs' as [-> | ->]; simpl; lia. }
  rewrite Hm, Z.shiftr_div_pow2 by lia.
  replace (2 ^ s - 1) with (Z.ones s) by (rewrite Z.ones_equiv; lia).
  rewrite Z.land_ones by lia.
  destruct (ToInt32_cases x Hx) as [[H1 E1]|[H1 E1]]; rewrite E1.
  - unfold x. destruct (Hdivmod b) as [-> ->].
    destruct (Z.leb_spec 0 b); [split; reflexivity | lia].
  - replace (x - 4294967296) with ((b - N) * 2 ^ s + i) by (unfold x; lia).
    destruct (Hdivmod (b - N)) as [-> ->].
    destruct (Z.leb_spec 0 (b - N)); [lia | split; [lia | reflexivity]].
Qed.

(** The hypotheses of [getPointer_roundtrip] at the last block id of a
    256-entry arena, the pair the test suite decodes. *)
Lemma getPointer_roundtrip_witness :
  getBlockId (mkCodec 1 8 255 16777215 256 16777216 4294967296)
    (getPointer (mkCodec 1 8 255 16777215 256 16777216 4294967296) 16777215 123)
    = 16777215 /\
  getIndex (mkCodec 1 8 255 16777215 256 16777216 4294967296)
    (getPointer (mkCodec 1 8 255 16777215 256 16777216 4294967296) 16777215 123)
    = 123.
Proof.
  apply (getPointer_roundtrip 256); [reflexivity | lia | lia | intros _; split; reflexivity | lia].
Defined.

(** C5. The code at the failing input: with an 8-bit shift, block id
    2^23 and index 0, [getPointer] returns -2^31, not the unsigned
    2^31 = blockId * 2^shift + index: the final [| index] converts the
    corrected value back to a signed 32-bit integer. *)
Theorem getPointer_negative :
  exists c, codecOf 256 = Some c /\
    getPointer c 8388608 0 = -2147483648 /\
    8388608 * 2 ^ shift c + 0 = 2147483648 /\
    getPointer c 16777215 123 = -133.
Proof.
  eexists. split; [reflexivity|]. vm_compute. auto.
Qed.

(** ** Capacity accounting *)

(** C2, as the code has it. In a fresh arena with block size 5 and one
    field, index 0 of the root block is reserved, so four calls of
    [alloc] fill block 0: [available(0)] is 0 and there is still one
    block. The fifth call creates block 1 ([blocksCount()] is 2 and
    [available(0)] is still 0), and after the sixth call [blocksCount()]
    is still 2. *)
Theorem capacity_accounting (T : Type) (uninit : nat -> nat -> Z)
    (f : string) (v : T) :
  exists st : Arena T,
    PointerSet uninit [f] 5 None = Return st /\
    available depth (allocMany uninit depth 4 st v) 0 0 = Return 0 /\
    blocksCount (allocMany uninit depth 4 st v) = 1 /\
    blocksCount (allocMany uninit depth 5 st v) = 2 /\
    available depth (allocMany uninit depth 5 st v) 0 0 = Return 0 /\
    blocksCount (allocMany uninit depth 6 st v) = 2.
Proof.
  eexists. split; [reflexivity|]. vm_compute. repeat split; reflexivity.
Qed.

(** C2 as stated fails: the sixth call of [alloc] does not create block
    1, because after five calls there are already two blocks. *)
Lemma capacity_sixth_alloc_counterexample :
  ~ (exists st : Arena unit,
       PointerSet (fun _ _ => 0) ["x"%string] 5 None = Return st /\
       available depth (allocMany (fun _ _ => 0) depth 5 st tt) 0 0 = Return 0 /\
       blocksCount (allocMany (fun _ _ => 0) depth 5 st tt) = 1 /\
       blocksCount (allocMany (fun _ _ => 0) depth 6 st tt) = 2).
Proof.
  intros (st & Hst & _ & H5 & _).
  vm_compute in Hst. inversion Hst; subst; clear Hst.
  vm_compute in H5. discriminate H5.
Qed.

(** ** Dropping blocks *)

(** [drop] on a block that is not the last one throws and changes
    nothing. *)
Lemma drop_not_last (T : Type) (st : Arena T) (self : nat) (B : Block T) :
  blocks st !! self = Some B ->
  blockId B <> Z.of_nat (List.length (blocks st)) - 1 ->
  drop st self = (Throw errFinalBlock, st).
Proof.
  intros HB Hne. unfold drop. rewrite HB.
  destruct (Z.eqb_spec (blockId B) (Z.of_nat (List.length (blocks st)) - 1));
    [contradiction | reflexivity].
Qed.

(** [drop] on the root block, when it is the only block, wipes it in
    place: the block list keeps its length. *)
Lemma drop_root_wipes (T : Type) (st : Arena T) (B : Block T) :
  blocks st = [B] -> blockId B = 0 ->
  drop st 0 = wipeBlock st 0 /\
  fst (drop st 0) = Return tt /\
  blocksCount (snd (drop st 0)) = 1.
Proof.
  intros HB Hid. unfold drop, wipeBlock, blocksCount. rewrite HB. simpl.
  rewrite Hid. simpl. rewrite HB. repeat split; reflexivity.
Qed.

(** C3. The code at the failing input: block size 2, two calls of
    [alloc]. The second entry lives in block 1, the last block, which
    therefore holds one entry; [drop] on block 1 returns without an
    error and removes the block. *)
Theorem drop_occupied_last_block (T : Type) (uninit : nat -> nat -> Z) (v : T) :
  exists st : Arena T,
    PointerSet uninit [] 2 None = Return st /\
    let st2 := allocMany uninit depth 2 st v in
    blocksCount st2 = 2 /\
    entryCount depth st2 1 1 = Return 1 /\
    fst (drop st2 1) = Return tt /\
    blocksCount (snd (drop st2 1)) = 1.
Proof.
  eexists. split; [reflexivity|]. vm_compute. repeat split; reflexivity.
Qed.

(** C4. The code at the failing input: block size 2, four calls of
    [alloc] (the second and third return pointers 256 and 257 into
    block 1, the fourth goes to block 2), then [free(256)] and
    [free(257)]. Block 1 is now empty and block 2 is not; [dropEmpty]
    skips block 2, calls [drop] on block 1 and throws
    'only the final block may be dropped'. *)
Theorem dropEmpty_throws_behind_occupied_block
    (T : Type) (uninit : nat -> nat -> Z) (v : T) :
  exists st : Arena T,
    PointerSet uninit [] 2 None = Return st /\
    fst (alloc uninit depth (allocMany uninit depth 1 st v) 0 v None None) = Return 256 /\
    fst (alloc uninit depth (allocMany uninit depth 2 st v) 0 v None None) = Return 257 /\
    let s4 := allocMany uninit depth 4 st v in
    let s5 := snd (free depth s4 0 256) in
    let s6 := snd (free depth s5 0 257) in
    blocksCount s6 = 3 /\
    entryCount depth s6 1 1 = Return 0 /\
    entryCount depth s6 2 2 = Return 1 /\
    fst (dropEmpty depth s6) = Throw errFinalBlock /\
    blocksCount (snd (dropEmpty depth s6)) = 3.
Proof.
  eexists. split; [reflexivity|]. vm_compute. repeat split; reflexivity.
Qed.

(** ** The first allocation in a fresh arena *)

Section FreshArena.

Context {T : Type}.
Variable uninit : nat -> nat -> Z.

Lemma addRawFields_disjoint (fs rs : list string) nm slabs ser bs :
  (forall f, f ∈ rs -> f ∉ fs) ->
  exists r, addRawFields uninit fs rs nm slabs ser bs = Return r.
Proof.
  revert nm slabs ser. induction rs as [|f rs IH]; intros nm slabs ser Hdis.
  - eexists; reflexivity.
  - simpl. rewrite bool_decide_eq_false_2 by (apply Hdis; left).
    apply IH. intros g Hg. apply Hdis. right. exact Hg.
Qed.

(** Construction succeeds for every block size from 0 to 65536 when
    the raw field names avoid the field names. *)
Lemma PointerSet_succeeds (fs : list string) (bs : Z) (rs : option (list string)) :
  0 <= bs <= 65536 ->
  (forall l f, rs = Some l -> f ∈ l -> f ∉ fs) ->
  exists st : Arena T, PointerSet uninit fs bs rs = Return st.
Proof.
  intros Hbs Hdis. unfold PointerSet, codecOf, getWordSize, max8, max16.
  assert (Hws : exists ws, (if bs <=? 256 then 1 else if bs <=? 65536 then 2 else 4) = ws
                           /\ (ws = 1 \/ ws = 2)).
  { destruct (Z.leb_spec bs 256); [eexists; split; [reflexivity | lia]|].
    destruct (Z.leb_spec bs 65536); [eexists; split; [reflexivity | lia] | lia]. }
  destruct Hws as (ws & -> & Hws).
  assert (Hneg : negb (ws =? 1) && negb (ws =? 2) = false)
    by (destruct Hws as [-> | ->]; reflexivity).
  rewrite Hneg.
  destruct (Z.ltb_spec bs 0); [lia|].
  destruct (addFields uninit fs ∅ [] 1 bs) as [[nm slabs] ser].
  destruct rs as [l|].
  - destruct (addRawFields_disjoint fs l nm [] ser bs) as [[[nm' raws] ser'] ->].
    + intros f Hf. eapply Hdis; [reflexivity | exact Hf].
    + eexists; reflexivity.
  - eexists; reflexivity.
Qed.

(** The shape of the arena the constructor returns. *)
Lemma PointerSet_shape (fs : list string) (bs : Z) (rs : option (list string))
    (st : Arena T) :
  PointerSet uninit fs bs rs = Return st ->
  exists B, blocks st = [B] /\ values B = [None] /\ nextFree B = 1 /\
    blockId B = 0 /\ firstNextFree B = 1 /\
    Stack.length (freeList B) = 0 /\
    blocksAvail st = [0%nat] /\ blockSize (codec st) = bs /\
    codecOf bs = Some (codec st).
Proof.
  unfold PointerSet. intros H.
  destruct (codecOf bs) as [c|] eqn:Hc; [|discriminate].
  destruct (bs <? 0); [discriminate|].
  destruct (addFields uninit fs ∅ [] 1 bs) as [[nm slabs] ser].
  assert (Hbs : blockSize c = bs).
  { unfold codecOf in Hc.
    destruct (negb (getWordSize bs =? 1) && negb (getWordSize bs =? 2));
      [discriminate|]. inversion Hc; reflexivity. }
  destruct (match rs with
            | Some rs0 => addRawFields uninit fs rs0 nm [] ser bs
            | None => Return (nm, [], ser)
            end) as [[[nm' raws] ser']| |]; try discriminate.
  inversion H; subst; clear H. simpl.
  eexists. repeat split; reflexivity.
Qed.

Lemma storeAll_aligned (writes : list (option Z)) (slabs : list (list Z)) index :
  (List.length writes <= List.length slabs)%nat ->
  fst (storeAll writes slabs index) = Return tt.
Proof.
  revert slabs. induction writes as [|w ws IH]; intros slabs Hlen.
  - reflexivity.
  - destruct slabs as [|slab slabs]; [simpl in Hlen; lia|].
    simpl. specialize (IH slabs ltac:(simpl in Hlen; lia)).
    destruct (storeAll ws slabs index) as [r rest]. exact IH.
Qed.

(** With a block size of at least 2 the first [alloc] returns
    pointer 1, whatever the call budget. *)
Lemma alloc_fresh (fs : list string) (bs : Z) (rs : option (list string))
    (st : Arena T) (v : T) (fuel : nat) :
  PointerSet uninit fs bs rs = Return st -> 2 <= bs ->
  fst (alloc uninit (S fuel) st 0 v None None) = Return 1.
Proof.
  intros Hst Hbs.
  destruct (PointerSet_shape _ _ _ _ Hst)
    as (B & HB & Hv & Hnf & Hid & Hfnf & Hfl & Hav & Hsz & Hc).
  simpl. rewrite HB. simpl. rewrite Hnf, Hsz, Hfl.
  destruct (Z.ltb_spec 1 bs); [|lia]. simpl.
  unfold allocHere, takeIndex. rewrite Hfl. simpl.
  pose proof (storeAll_aligned (map (fun _ => Some 0) (fields B)) (fields B)
                (Some (nextFree B)) ltac:(rewrite length_map; lia)) as H1.
  destruct (storeAll (map (fun _ => Some 0) (fields B)) (fields B)
              (Some (nextFree B))) as [r slabs].
  simpl in H1. subst r.
  pose proof (storeAll_aligned (map (fun _ => Some 0) (rawFields B)) (rawFields B)
                (Some (nextFree B)) ltac:(rewrite length_map; lia)) as H2.
  destruct (storeAll (map (fun _ => Some 0) (rawFields B)) (rawFields B)
              (Some (nextFree B))) as [r' rslabs].
  simpl in H2. subst r'. simpl.
  rewrite Hid, Hnf.
  unfold codecOf in Hc.
  destruct (negb (getWordSize bs =? 1) && negb (getWordSize bs =? 2));
    [discriminate|].
  inversion Hc as [Hc']. unfold getPointer. simpl.
  destruct (getWordSize bs =? 1); reflexivity.
Qed.

End FreshArena.

(** C8. The code at the failing input, block size 1: the root block is
    full from the start (index 0 is reserved) and is the first member of
    [blocksAvail], so [alloc] calls itself on the same block with the
    same state; no call budget is enough, and the arena is left
    unchanged. *)
Theorem alloc_blockSize_1_overflows (T : Type) (uninit : nat -> nat -> Z)
    (fs : list string) (rs : option (list string)) (st : Arena T) (v : T)
    (refs raws : option Entries) (fuel : nat) :
  PointerSet uninit fs 1 rs = Return st ->
  alloc uninit fuel st 0 v refs raws = (Overflow, st).
Proof.
  intros Hst.
  destruct (PointerSet_shape uninit _ _ _ _ Hst)
    as (B & HB & Hv & Hnf & Hid & Hfnf & Hfl & Hav & Hsz & Hc).
  induction fuel as [|fuel IH]; [reflexivity|].
  simpl. rewrite HB. simpl. rewrite Hnf, Hsz, Hfl, Hav. simpl. exact IH.
Qed.

(** A fresh arena with block size 1 and no fields, and a budget of a
    thousand nested calls. *)
Lemma alloc_blockSize_1_overflows_witness :
  exists st : Arena unit,
    PointerSet (fun _ _ => 0) [] 1 None = Return st /\
    alloc (fun _ _ => 0) 1000 st 0 tt None None = (Overflow, st).
Proof.
  eexists. split; [reflexivity|].
  apply (alloc_blockSize_1_overflows unit (fun _ _ => 0) [] None). reflexivity.
Defined.

(** ** [free] leaves the slabs alone *)

Section FreeFrame.

Context {T : Type}.

Lemma fields_insert_same (bl : list (Block T)) (self : nat) (B B' : Block T) :
  bl !! self = Some B -> fields B' = fields B ->
  fields <$> <[self := B']> bl = fields <$> bl.
Proof.
  intros HB Hf. rewrite list_fmap_insert, Hf.
  apply list_insert_id. rewrite list_lookup_fmap, HB. reflexivity.
Qed.

Lemma rawFields_insert_same (bl : list (Block T)) (self : nat) (B B' : Block T) :
  bl !! self = Some B -> rawFields B' = rawFields B ->
  rawFields <$> <[self := B']> bl = rawFields <$> bl.
Proof.
  intros HB Hf. rewrite list_fmap_insert, Hf.
  apply list_insert_id. rewrite list_lookup_fmap, HB. reflexivity.
Qed.

Lemma freeHere_slabs (st : Arena T) (self : nat) (B : Block T) (index : Z) :
  blocks st !! self = Some B ->
  fields <$> blocks (freeHere st self B index) = fields <$> blocks st /\
  rawFields <$> blocks (freeHere st self B index) = rawFields <$> blocks st.
Proof.
  intros HB. unfold freeHere. simpl.
  split; [apply (fields_insert_same _ _ B) | apply (rawFields_insert_same _ _ B)];
    try exact HB;
    destruct (Stack.length (freeList B) + firstNextFree B =? nextFree B - 1);
    try reflexivity; destruct (index =? nextFree B - 1); reflexivity.
Qed.

Lemma free_slabs (fuel : nat) (st : Arena T) (self : nat) (pointer : Z) :
  fields <$> blocks (snd (free fuel st self pointer)) = fields <$> blocks st /\
  rawFields <$> blocks (snd (free fuel st self pointer)) = rawFields <$> blocks st.
Proof.
  revert self. induction fuel as [|fuel IH]; intros self; [split; reflexivity|].
  simpl. destruct (pointer =? 0); [split; reflexivity|].
  destruct (blocks st !! self) as [B|] eqn:HB; [|split; reflexivity].
  destruct (negb (getBlockId (codec st) pointer =? blockId B)).
  - destruct (zlookup (blocks st) (getBlockId (codec st) pointer));
      [apply IH | split; reflexivity].
  - destruct (is_undefined (values B) (getIndex (codec st) pointer));
      [split; reflexivity|].
    simpl. apply freeHere_slabs. exact HB.
Qed.

End FreeFrame.

(** ** [alloc] and field validation errors *)

Section AllocErrors.

Context {T : Type}.
Variable uninit : nat -> nat -> Z.

Lemma zlookup_Some {A : Type} (a : list A) (i : Z) (x : A) :
  zlookup a i = Some x <-> 0 <= i /\ a !! Z.to_nat i = Some x.
Proof.
  unfold zlookup. destruct (Z.ltb_spec i 0); split.
  - discriminate.
  - intros [? _]; lia.
  - intros; split; [lia | assumption].
  - intros [_ ?]; assumption.
Qed.

Lemma array_set_lookup {A : Type} (a : list (option A)) (i : Z) (v : option A) :
  0 <= i -> zlookup (array_set a (Some i) v) i = Some v.
Proof.
  intros Hi. apply zlookup_Some. split; [exact Hi|].
  unfold array_set. destruct (Z.ltb_spec i 0); [lia|].
  destruct (Nat.ltb_spec (Z.to_nat i) (List.length a)).
  - apply list_lookup_insert_eq. assumption.
  - rewrite lookup_app_r by lia.
    rewrite lookup_app_r by (rewrite length_replicate; lia).
    rewrite length_replicate.
    replace (Z.to_nat i - List.length a - (Z.to_nat i - List.length a))%nat
      with 0%nat by lia.
    reflexivity.
Qed.

Lemma wfBlocks_lookup (bl : list (Block T)) (i k : nat) (B : Block T) :
  wfBlocks i bl = true -> bl !! k = Some B -> wfBlock (i + k) B = true.
Proof.
  revert i k. induction bl as [|B0 bl IH]; intros i k Hwf HB; [discriminate|].
  simpl in Hwf. apply andb_true_iff in Hwf as [H0 Hrest].
  destruct k as [|k]; simpl in HB.
  - inversion HB; subst. rewrite Nat.add_0_r. exact H0.
  - replace (i + S k)%nat with (S i + k)%nat by lia. apply IH; assumption.
Qed.

Lemma wfBlocks_insert (bl : list (Block T)) (i k : nat) (B' : Block T) :
  wfBlocks i bl = true -> wfBlock (i + k) B' = true ->
  wfBlocks i (<[k := B']> bl) = true.
Proof.
  revert i k. induction bl as [|B0 bl IH]; intros i k Hwf HB'; [reflexivity|].
  simpl in Hwf. apply andb_true_iff in Hwf as [H0 Hrest].
  destruct k as [|k]; simpl.
  - rewrite Nat.add_0_r in HB'. rewrite HB', Hrest. reflexivity.
  - rewrite H0. simpl. apply IH; [exact Hrest|].
    replace (S i + k)%nat with (i + S k)%nat by lia. exact HB'.
Qed.

Lemma wfBlocks_snoc (bl : list (Block T)) (i : nat) (B' : Block T) :
  wfBlocks i bl = true -> wfBlock (i + List.length bl) B' = true ->
  wfBlocks i (bl ++ [B']) = true.
Proof.
  revert i. induction bl as [|B0 bl IH]; intros i Hwf HB'; simpl in *.
  - rewrite Nat.add_0_r in HB'. rewrite HB'. reflexivity.
  - apply andb_true_iff in Hwf as [H0 Hrest]. rewrite H0. simpl.
    apply IH; [exact Hrest|].
    replace (S i + List.length bl)%nat with (i + S (List.length bl))%nat by lia.
    exact HB'.
Qed.

Lemma wfBlock_spec (i : nat) (B : Block T) :
  wfBlock i B = true <->
  blockId B = Z.of_nat i /\ 0 <= nextFree B /\
  0 <= Stack.length (freeList B) <= Z.of_nat (List.length (Stack.data (freeList B))) /\
  Forall (fun x => 0 <= x) (Stack.data (freeList B)).
Proof.
  unfold wfBlock. rewrite !andb_true_iff, Z.eqb_eq, !Z.leb_le.
  rewrite forallb_forall, Forall_forall.
  split.
  - intros ((((H1 & H2) & H3) & H4) & H5). repeat split; try assumption.
    intros x Hx. apply Z.leb_le, H5, list_elem_of_In, Hx.
  - intros (H1 & H2 & (H3 & H4) & H5). repeat split; try assumption.
    intros x Hx. apply Z.leb_le, H5, list_elem_of_In, Hx.
Qed.

(** *** [size] on a well-formed arena *)

Lemma entryCount_wf (f : nat) (st : Arena T) (i : nat) (B : Block T) :
  wf st = true -> blocks st !! i = Some B ->
  entryCount (S f) st i (Z.of_nat i) = Return (entries B).
Proof.
  intros Hwf HB. simpl. rewrite HB.
  pose proof (wfBlocks_lookup _ 0 i B Hwf HB) as HwB.
  apply wfBlock_spec in HwB as (Hid & _). simpl in Hid.
  rewrite Hid, Z.eqb_refl. reflexivity.
Qed.

Lemma sizeLoop_wf (f : nat) (st : Arena T) (todo i : nat) (acc : Z) :
  wf st = true -> (i + todo <= List.length (blocks st))%nat ->
  sizeLoop (S f) st i todo acc
  = Return (acc + sumEntries (firstn todo (skipn i (blocks st)))).
Proof.
  intros Hwf. revert i acc. induction todo as [|todo IH]; intros i acc Hlen.
  - simpl. f_equal. unfold sumEntries. simpl. lia.
  - destruct (lookup_lt_is_Some_2 (blocks st) i ltac:(lia)) as [B HB].
    cbn [sizeLoop]. rewrite (entryCount_wf f st i B Hwf HB).
    rewrite IH by lia.
    rewrite (drop_S _ _ _ HB). simpl. f_equal. unfold sumEntries. simpl. lia.
Qed.

Lemma size_wf (f : nat) (st : Arena T) :
  wf st = true -> size (S f) st = Return (sumEntries (blocks st)).
Proof.
  intros Hwf. unfold size. rewrite sizeLoop_wf by (assumption || lia).
  rewrite drop_0, firstn_all. reflexivity.
Qed.

Lemma sumEntries_app (l1 l2 : list (Block T)) :
  sumEntries (l1 ++ l2) = sumEntries l1 + sumEntries l2.
Proof.
  unfold sumEntries. induction l1 as [|B l1 IH]; simpl; lia.
Qed.

Lemma sumEntries_insert (bl : list (Block T)) (k : nat) (B B' : Block T) :
  bl !! k = Some B ->
  sumEntries (<[k := B']> bl) = sumEntries bl - entries B + entries B'.
Proof.
  revert k. induction bl as [|B0 bl IH]; intros k HB; [discriminate|].
  destruct k as [|k]; simpl in HB.
  - inversion HB; subst. unfold sumEntries. simpl. lia.
  - specialize (IH k HB). unfold sumEntries in *. simpl. lia.
Qed.

(** *** The state [allocHere] leaves behind, whatever the outcome *)

Lemma allocHere_state (st st' : Arena T) (self : nat) (B : Block T) (v : T)
    (refs raws : option Entries) (r : Outcome Z) :
  allocHere st self B v refs raws = (r, st') ->
  exists B', blocks st' = <[self := B']> (blocks st) /\
    blockId B' = blockId B /\
    values B' = array_set (values B) (takeIndex B).1.1 (Some v) /\
    nextFree B' = (takeIndex B).2 /\
    freeList B' = (takeIndex B).1.2.
Proof.
  unfold allocHere. destruct (takeIndex B) as [[index fl] nf]. simpl.
  intros H.
  destruct (match refs with
            | Some es => refWrites (names st) es (map (fun _ => Some 0) (fields B))
            | None => Return (map (fun _ => Some 0) (fields B))
            end) as [writes|e1|].
  2,3: inversion H; subst; simpl; eexists; repeat split; reflexivity.
  destruct (storeAll writes (fields B) index) as [r1 slabs].
  destruct r1 as [[]|e2|].
  2,3: inversion H; subst; simpl; rewrite list_insert_insert_eq;
       eexists; repeat split; reflexivity.
  destruct (match raws with
            | Some es => rawWrites (names st) es (map (fun _ => Some 0) (rawFields B))
            | None => Return (map (fun _ => Some 0) (rawFields B))
            end) as [rws|e3|].
  2,3: inversion H; subst; simpl; rewrite list_insert_insert_eq;
       eexists; repeat split; reflexivity.
  destruct (storeAll rws (rawFields B) index) as [r2 rslabs].
  destruct r2 as [[]|e4|]; inversion H; subst; simpl;
    rewrite !list_insert_insert_eq; eexists; repeat split; reflexivity.
Qed.

(** On a well-formed block with room, [takeIndex] yields an index that
    is a number, not negative, and moves exactly one of the counters. *)
Lemma takeIndex_wf (i : nat) (B : Block T) :
  wfBlock i B = true ->
  exists idx, (takeIndex B).1.1 = Some idx /\ 0 <= idx /\
    0 <= (takeIndex B).2 /\
    0 <= Stack.length (takeIndex B).1.2
      <= Z.of_nat (List.length (Stack.data (takeIndex B).1.2)) /\
    Forall (fun x => 0 <= x) (Stack.data (takeIndex B).1.2) /\
    (((takeIndex B).2 = nextFree B + 1 /\
      Stack.length (takeIndex B).1.2 = Stack.length (freeList B)) \/
     ((takeIndex B).2 = nextFree B /\
      Stack.length (takeIndex B).1.2 = Stack.length (freeList B) - 1)).
Proof.
  intros Hwf. apply wfBlock_spec in Hwf as (Hid & Hnf & Hlen & Hdata).
  unfold takeIndex.
  destruct (Z.eqb_spec (Stack.length (freeList B)) 0) as [Hz|Hnz]; simpl.
  - exists (nextFree B). repeat split; try assumption; try lia.
  - unfold zlookup. destruct (Z.ltb_spec (Stack.length (freeList B) - 1) 0); [lia|].
    destruct (lookup_lt_is_Some_2 (Stack.data (freeList B))
                (Z.to_nat (Stack.length (freeList B) - 1)) ltac:(lia)) as [x Hx].
    exists x. rewrite Hx. repeat split; try assumption; try lia.
    apply (Forall_lookup_1 _ _ _ _ Hdata Hx).
Qed.

(** *** A new block keeps the arena well formed and adds no entry *)

Lemma unsafe_nonneg (f : Z -> Z) (n : nat) (len : Z) :
  (forall x, 0 <= f x) ->
  Forall (fun x => 0 <= x) (map (fun i => f (uninit n i)) (seq 0 (Z.to_nat len))).
Proof.
  intros Hf. apply Forall_forall. intros x Hx.
  apply list_elem_of_In, in_map_iff in Hx as (i & <- & _). apply Hf.
Qed.

Lemma newStack_wf (n : nat) (max : Z) :
  Stack.length (newStack uninit n max) = 0 /\
  Forall (fun x => 0 <= x) (Stack.data (newStack uninit n max)).
Proof.
  split; [reflexivity|]. unfold newStack. simpl.
  destruct (max <=? max8).
  - apply (unsafe_nonneg JS.ToUint8). intros x. unfold JS.ToUint8.
    apply Z.mod_pos_bound. lia.
  - apply (unsafe_nonneg JS.ToUint16). intros x. unfold JS.ToUint16.
    apply Z.mod_pos_bound. lia.
Qed.

Lemma PointerSetBlock_wf (st st' : Arena T) (b : nat) :
  wf st = true -> PointerSetBlock uninit st = (Return b, st') ->
  wf st' = true /\ b = List.length (blocks st) /\
  exists B, blocks st' = blocks st ++ [B] /\
    nextFree B = 0 /\ Stack.length (freeList B) = 0.
Proof.
  intros Hwf. unfold PointerSetBlock.
  destruct (negb _); [discriminate|].
  destruct (blockSize (codec st) <? 0); [discriminate|].
  intros H. inversion H; subst; clear H. simpl.
  split; [|split; [reflexivity | eexists; repeat split; reflexivity]].
  unfold wf. simpl. apply wfBlocks_snoc; [exact Hwf|].
  apply wfBlock_spec. simpl.
  destruct (newStack_wf (serial st) (blockSize (codec st))) as [_ Hd].
  repeat split; try reflexivity; try lia; exact Hd.
Qed.

Lemma PointerSetBlock_throws (st st' : Arena T) (e : Error) :
  PointerSetBlock uninit st = (Throw e, st') -> fieldError e = false.
Proof.
  unfold PointerSetBlock. destruct (negb _).
  - intros H; inversion H; reflexivity.
  - destruct (blockSize (codec st) <? 0); intros H; inversion H; reflexivity.
Qed.

Lemma PointerSetBlock_no_overflow (st st' : Arena T) :
  PointerSetBlock uninit st <> (Overflow, st').
Proof.
  unfold PointerSetBlock. destruct (negb _); [discriminate|].
  destruct (blockSize (codec st) <? 0); discriminate.
Qed.

(** *** Well-formedness is kept by construction and by [alloc] *)

Lemma PointerSet_wf (fs : list string) (bs : Z) (rs : option (list string))
    (st : Arena T) :
  PointerSet uninit fs bs rs = Return st -> wf st = true.
Proof.
  unfold PointerSet. intros H.
  destruct (codecOf bs) as [c|]; [|discriminate].
  destruct (bs <? 0); [discriminate|].
  destruct (addFields uninit fs ∅ [] 1 bs) as [[nm slabs] ser].
  destruct (match rs with
            | Some rs0 => addRawFields uninit fs rs0 nm [] ser bs
            | None => Return (nm, [], ser)
            end) as [[[nm' raws] ser']| |]; try discriminate.
  inversion H; subst; clear H. unfold wf. simpl.
  rewrite andb_true_r. apply wfBlock_spec. simpl.
  destruct (newStack_wf 0 bs) as [_ Hd].
  repeat split; try reflexivity; try lia; exact Hd.
Qed.

Lemma PointerSetBlock_keeps_wf (st : Arena T) :
  wf st = true -> wf (snd (PointerSetBlock uninit st)) = true.
Proof.
  intros Hwf. unfold PointerSetBlock.
  destruct (negb _); [exact Hwf|].
  assert (Hnew : wfBlocks 0
            (blocks st ++
             [{| values := []; nextFree := 0;
                 blockId := Z.of_nat (List.length (blocks st));
                 firstNextFree := 0;
                 fields := newSlabs uninit
                   (from_option (fun r => List.length (fields r)) 0%nat (blocks st !! 0%nat))
                   (S (serial st)) (blockSize (codec st));
                 rawFields := newSlabs uninit
                   (from_option (fun r => List.length (rawFields r)) 0%nat (blocks st !! 0%nat))
                   (S (serial st) +
                    from_option (fun r => List.length (fields r)) 0%nat (blocks st !! 0%nat))
                   (blockSize (codec st));
                 freeList := newStack uninit (serial st) (blockSize (codec st)) |}])
            = true).
  { apply wfBlocks_snoc; [exact Hwf|]. apply wfBlock_spec. simpl.
    destruct (newStack_wf (serial st) (blockSize (codec st))) as [_ Hd].
    repeat split; try reflexivity; try lia; exact Hd. }
  destruct (blockSize (codec st) <? 0); exact Hnew.
Qed.

Lemma allocHere_keeps_wf (st : Arena T) (self : nat) (B : Block T) (v : T)
    (refs raws : option Entries) :
  wf st = true -> blocks st !! self = Some B ->
  wf (snd (allocHere st self B v refs raws)) = true.
Proof.
  intros Hwf HB.
  destruct (allocHere st self B v refs raws) as [r st'] eqn:Halloc.
  destruct (allocHere_state _ _ _ _ _ _ _ _ Halloc)
    as (B' & Hbl & Hid & Hv & Hnf & Hfl).
  pose proof (wfBlocks_lookup _ 0 self B Hwf HB) as HwB. simpl in HwB.
  destruct (takeIndex_wf self B HwB)
    as (idx & Hidx & Hidx0 & Hnf0 & Hlen & Hdata & Hmove).
  simpl. unfold wf. rewrite Hbl. apply wfBlocks_insert; [exact Hwf|]. simpl.
  apply wfBlock_spec. rewrite Hid, Hnf, Hfl.
  apply wfBlock_spec in HwB as (HidB & _).
  repeat split; try assumption; lia.
Qed.

Lemma alloc_keeps_wf (fuel : nat) (st : Arena T) (self : nat) (v : T)
    (refs raws : option Entries) :
  wf st = true -> wf (snd (alloc uninit fuel st self v refs raws)) = true.
Proof.
  revert st self. induction fuel as [|fuel IH]; intros st self Hwf; [exact Hwf|].
  simpl. destruct (blocks st !! self) as [B|] eqn:HB; [|exact Hwf].
  destruct ((nextFree B <? blockSize (codec st))
            || negb (Stack.length (freeList B) =? 0)).
  - apply allocHere_keeps_wf; assumption.
  - destruct (blocksAvail st) as [|b rest]; [|apply IH; exact Hwf].
    pose proof (PointerSetBlock_keeps_wf st Hwf) as Hnew.
    destruct (PointerSetBlock uninit st) as [[b|e|] st1]; simpl in Hnew.
    + apply IH. exact Hnew.
    + exact Hnew.
    + exact Hnew.
Qed.

End AllocErrors.

(** C10. [alloc] is not atomic on field-validation errors. In a
    well-formed arena, when [alloc(value, refs, raws)] throws an
    unknown-field or wrong-kind error, some block [b] already holds
    [value] at an index, either its [nextFree] was advanced by one or its
    free list was popped (a block created by this call counts from 0),
    and [size()] is one more than before. *)
Theorem alloc_error_consumes_slot (T : Type) (uninit : nat -> nat -> Z)
    (fuel f : nat) (st st' : Arena T) (self : nat) (v : T)
    (refs raws : option Entries) (e : Error) :
  wf st = true ->
  alloc uninit fuel st self v refs raws = (Throw e, st') ->
  fieldError e = true ->
  exists (b : nat) (B' : Block T) (idx : Z),
    blocks st' !! b = Some B' /\
    zlookup (values B') idx = Some (Some v) /\
    ((nextFree B' = (counters st b).1 + 1 /\
      Stack.length (freeList B') = (counters st b).2) \/
     (nextFree B' = (counters st b).1 /\
      Stack.length (freeList B') = (counters st b).2 - 1)) /\
    exists n, size (S f) st = Return n /\ size (S f) st' = Return (n + 1).
Proof.
  revert st self. induction fuel as [|fuel IH]; intros st self Hwf Halloc He;
    [discriminate|].
  simpl in Halloc.
  destruct (blocks st !! self) as [B|] eqn:HB;
    [|inversion Halloc; subst; discriminate].
  destruct ((nextFree B <? blockSize (codec st))
            || negb (Stack.length (freeList B) =? 0)).
  - (* the entry went into this block *)
    destruct (allocHere_state _ _ _ _ _ _ _ _ Halloc)
      as (B' & Hbl & Hid & Hv & Hnf & Hfl).
    pose proof (wfBlocks_lookup _ 0 self B Hwf HB) as HwB. simpl in HwB.
    destruct (takeIndex_wf self B HwB)
      as (idx & Hidx & Hidx0 & Hnf0 & Hlen & Hdata & Hmove).
    assert (Hlt : (self < List.length (blocks st))%nat)
      by (apply lookup_lt_is_Some_1; eauto).
    assert (Hwf' : wf st' = true).
    { unfold wf. rewrite Hbl. apply wfBlocks_insert; [exact Hwf|]. simpl.
      apply wfBlock_spec. rewrite Hid, Hnf, Hfl.
      apply wfBlock_spec in HwB as (HidB & _).
      repeat split; try assumption; lia. }
    exists self, B', idx. repeat split.
    + rewrite Hbl. apply list_lookup_insert_eq. exact Hlt.
    + rewrite Hv, Hidx. apply array_set_lookup. exact Hidx0.
    + unfold counters. rewrite HB. simpl. rewrite Hnf, Hfl. exact Hmove.
    + exists (sumEntries (blocks st)). split; [apply size_wf; exact Hwf|].
      rewrite (size_wf f st' Hwf'), Hbl, (sumEntries_insert _ _ B B' HB).
      f_equal. unfold entries. rewrite Hnf, Hfl. lia.
  - destruct (blocksAvail st) as [|b rest].
    + (* a new block is created *)
      destruct (PointerSetBlock uninit st) as [[b|e0|] st1] eqn:Hnew.
      * destruct (PointerSetBlock_wf uninit _ _ _ Hwf Hnew)
          as (Hwf1 & -> & Bn & Hbl1 & Hnf1 & Hfl1).
        destruct (IH st1 _ Hwf1 Halloc He)
          as (b' & B' & idx & HB' & Hval & Hmove & n & Hn & Hn').
        exists b', B', idx. repeat split; try assumption.
        -- assert (Hc : counters st b' = counters st1 b').
           { unfold counters. rewrite Hbl1.
             destruct (Nat.lt_ge_cases b' (List.length (blocks st))) as [Hlt|Hge].
             - rewrite lookup_app_l by exact Hlt. reflexivity.
             - rewrite (lookup_ge_None_2 (blocks st)) by exact Hge.
               destruct (Nat.eq_dec b' (List.length (blocks st))) as [->|Hne].
               + rewrite list_lookup_middle by reflexivity.
                 rewrite Hnf1, Hfl1. reflexivity.
               + rewrite lookup_ge_None_2; [reflexivity|].
                 rewrite length_app. simpl. lia. }
           rewrite Hc. exact Hmove.
        -- exists n. split; [|exact Hn'].
           rewrite (size_wf f st Hwf). rewrite (size_wf f st1 Hwf1) in Hn.
           rewrite Hbl1, sumEntries_app in Hn. rewrite <- Hn. f_equal.
           unfold sumEntries, entries. simpl. lia.
      * inversion Halloc; subst.
        rewrite (PointerSetBlock_throws uninit _ _ _ Hnew) in He. discriminate.
      * discriminate.
    + (* another block of [blocksAvail] takes the call *)
      exact (IH st b Hwf Halloc He).
Qed.

(** Field 'x', block size 10, three entries allocated and the first one
    freed, so that the free list holds index 1. [alloc(7, {asdf: 0})]
    pops that index, throws [errUnknownPointerField 'asdf'], and the
    theorem applies. *)
Lemma alloc_error_consumes_slot_witness :
  exists st0 : Arena nat,
    PointerSet (fun _ _ => 0) ["x"%string] 10 None = Return st0 /\
    let st := snd (free depth (allocMany (fun _ _ => 0) depth 3 st0 5%nat) 0 1) in
    let st' := snd (alloc (fun _ _ => 0) depth st 0 7%nat
                      (Some [("asdf"%string, 0)]) None) in
    wf st = true /\
    counters st 0 = (4, 1) /\
    alloc (fun _ _ => 0) depth st 0 7%nat (Some [("asdf"%string, 0)]) None
      = (Throw (errUnknownPointerField "asdf"), st') /\
    exists (b : nat) (B' : Block nat) (idx : Z),
      blocks st' !! b = Some B' /\
      zlookup (values B') idx = Some (Some 7%nat) /\
      ((nextFree B' = (counters st b).1 + 1 /\
        Stack.length (freeList B') = (counters st b).2) \/
       (nextFree B' = (counters st b).1 /\
        Stack.length (freeList B') = (counters st b).2 - 1)) /\
      exists n, size (S depth) st = Return n /\ size (S depth) st' = Return (n + 1).
Proof.
  eexists. split; [reflexivity|]. cbv zeta.
  split; [reflexivity|]. split; [reflexivity|]. split; [reflexivity|].
  apply (alloc_error_consumes_slot nat (fun _ _ => 0) depth depth _ _ 0%nat 7%nat
           (Some [("asdf"%string, 0)]) None (errUnknownPointerField "asdf"));
    reflexivity.
Defined.

(** ** The bulk setters [refAll] and [rawAll] *)

Section BulkLoop.

Variable bad : Z -> bool.
Variable slot : Z -> Z.
Variables eUnknown eKind : string -> Error.
Variable nm : gmap string Z.

Lemma length_u32_set (a : list Z) (i : option Z) (v : Z) :
  List.length (u32_set a i v) = List.length a.
Proof.
  destruct i as [i|]; [|reflexivity]. simpl.
  destruct (i <? 0); [reflexivity | apply length_insert].
Qed.

Lemma setSlab_shape (slabs : list (list Z)) (j index v : Z) :
  List.length <$> setSlab slabs j index v = List.length <$> slabs.
Proof.
  unfold setSlab. destruct (zlookup slabs j) as [slab|] eqn:Hj; [|reflexivity].
  apply zlookup_Some in Hj as [Hj0 Hj].
  rewrite list_fmap_insert, length_u32_set.
  apply list_insert_id. rewrite list_lookup_fmap, Hj. reflexivity.
Qed.

Lemma zlookup_shape (slabs slabs' : list (list Z)) (j : Z) (slab : list Z) :
  List.length <$> slabs' = List.length <$> slabs ->
  zlookup slabs j = Some slab ->
  exists slab', zlookup slabs' j = Some slab' /\
                List.length slab' = List.length slab.
Proof.
  intros Hsh Hj. apply zlookup_Some in Hj as [Hj0 Hj].
  assert (H : (List.length <$> slabs') !! Z.to_nat j = Some (List.length slab))
    by (rewrite Hsh, list_lookup_fmap, Hj; reflexivity).
  rewrite list_lookup_fmap in H.
  destruct (slabs' !! Z.to_nat j) as [slab'|] eqn:Hj'; [|discriminate].
  exists slab'. split; [apply zlookup_Some; auto | simpl in H; congruence].
Qed.

Lemma readSlot_set_eq (slabs : list (list Z)) (j index v : Z) (slab : list Z) :
  zlookup slabs j = Some slab -> 0 <= index < Z.of_nat (List.length slab) ->
  readSlot (setSlab slabs j index v) j index = Some (JS.ToUint32 v).
Proof.
  intros Hj Hi. unfold readSlot, setSlab. rewrite Hj.
  apply zlookup_Some in Hj as [Hj0 Hj].
  assert (Hlt : (Z.to_nat j < List.length slabs)%nat)
    by (apply lookup_lt_is_Some_1; eauto).
  assert (E : zlookup (<[Z.to_nat j := u32_set slab (Some index) v]> slabs) j
              = Some (u32_set slab (Some index) v)).
  { apply zlookup_Some. split; [exact Hj0|].
    apply list_lookup_insert_eq. exact Hlt. }
  rewrite E. simpl. destruct (Z.ltb_spec index 0); [lia|].
  apply zlookup_Some. split; [lia|]. apply list_lookup_insert_eq. lia.
Qed.

Lemma readSlot_set_ne (slabs : list (list Z)) (j j' index index' v : Z) :
  j <> j' -> 0 <= j ->
  readSlot (setSlab slabs j index v) j' index' = readSlot slabs j' index'.
Proof.
  intros Hne Hj0. unfold readSlot, setSlab.
  destruct (zlookup slabs j) as [slab|]; [|reflexivity].
  assert (E : zlookup (<[Z.to_nat j := u32_set slab (Some index) v]> slabs) j'
              = zlookup slabs j').
  { unfold zlookup. destruct (Z.ltb_spec j' 0); [reflexivity|].
    apply list_lookup_insert_ne. lia. }
  rewrite E. reflexivity.
Qed.

(** Slots that no key of [es] names keep their contents. *)
Lemma bulkLoop_frame (es : Entries) (index : Z) (slabs : list (list Z))
    (j index' : Z) :
  (forall k v id, (k, v) ∈ es -> nm !! k = Some id -> bad id = false ->
                  slot id <> j /\ 0 <= slot id) ->
  readSlot (snd (bulkLoop bad slot eUnknown eKind nm es index slabs)) j index'
  = readSlot slabs j index'.
Proof.
  revert slabs. induction es as [|[k v] es IH]; intros slabs Hne; [reflexivity|].
  simpl. destruct (nm !! k) as [id|] eqn:Hk; [|reflexivity].
  destruct (bad id) eqn:Hbad; [reflexivity|].
  destruct (zlookup slabs (slot id)); [|reflexivity].
  rewrite IH.
  - destruct (Hne k v id ltac:(left) Hk Hbad) as [H1 H2].
    apply readSlot_set_ne; assumption.
  - intros k' v' id' Hin. apply (Hne k' v' id'). right. exact Hin.
Qed.

Lemma bulkLoop_shape (es : Entries) (index : Z) (slabs : list (list Z)) :
  List.length <$> snd (bulkLoop bad slot eUnknown eKind nm es index slabs)
  = List.length <$> slabs.
Proof.
  revert slabs. induction es as [|[k v] es IH]; intros slabs; [reflexivity|].
  simpl. destruct (nm !! k) as [id|]; [|reflexivity].
  destruct (bad id); [reflexivity|].
  destruct (zlookup slabs (slot id)); [|reflexivity].
  rewrite IH. apply setSlab_shape.
Qed.

(** What [slotsOk] gives, in terms of lookups. *)
Lemma slotsOk_spec (slabs : list (list Z)) (index : Z) :
  slotsOk nm bad slot slabs index = true ->
  (forall k id, nm !! k = Some id -> bad id = false ->
     0 <= slot id /\
     exists slab, zlookup slabs (slot id) = Some slab /\
                  0 <= index < Z.of_nat (List.length slab)) /\
  (forall k1 k2 id1 id2, nm !! k1 = Some id1 -> nm !! k2 = Some id2 ->
     bad id1 = false -> bad id2 = false -> slot id1 = slot id2 -> k1 = k2).
Proof.
  unfold slotsOk. rewrite andb_true_iff, !bool_decide_eq_true.
  intros [H1 H2]. split.
  - intros k id Hk Hbad. specialize (H1 k id Hk Hbad).
    apply andb_true_iff in H1 as [Hs H1]. apply Z.leb_le in Hs.
    split; [exact Hs|].
    destruct (zlookup slabs (slot id)) as [slab|]; [|discriminate].
    exists slab. split; [reflexivity|].
    apply andb_true_iff in H1 as [Ha Hb].
    apply Z.leb_le in Ha. apply Z.ltb_lt in Hb. lia.
  - intros k1 k2 id1 id2 Hk1 Hk2. exact (H2 k1 id1 Hk1 k2 id2 Hk2).
Qed.

Lemma slotsOk_shape (slabs slabs' : list (list Z)) (index : Z) :
  List.length <$> slabs' = List.length <$> slabs ->
  slotsOk nm bad slot slabs index = true ->
  slotsOk nm bad slot slabs' index = true.
Proof.
  intros Hsh Hok. pose proof (slotsOk_spec _ _ Hok) as [H1 _].
  unfold slotsOk in *. apply andb_true_iff in Hok as [_ Hinj].
  rewrite Hinj, andb_true_r. apply bool_decide_eq_true.
  intros k id Hk Hbad. destruct (H1 k id Hk Hbad) as (Hs & slab & Hslab & Hi).
  destruct (zlookup_shape _ _ _ _ Hsh Hslab) as (slab' & -> & Hlen).
  rewrite Hlen. apply andb_true_iff. split; [apply Z.leb_le; exact Hs|].
  apply andb_true_iff. split; [apply Z.leb_le | apply Z.ltb_lt]; lia.
Qed.

(** All keys valid: the loop returns, and every key reads back. *)
Lemma bulkLoop_valid (es : Entries) (index : Z) (slabs : list (list Z)) :
  slotsOk nm bad slot slabs index = true ->
  Forall (fun kv => validKey nm bad kv.1) es ->
  fst (bulkLoop bad slot eUnknown eKind nm es index slabs) = Return tt /\
  (NoDup es.*1 ->
   forall k v id, (k, v) ∈ es -> nm !! k = Some id ->
     readSlot (snd (bulkLoop bad slot eUnknown eKind nm es index slabs))
              (slot id) index = Some (JS.ToUint32 v)).
Proof.
  revert slabs. induction es as [|[k0 v0] es IH]; intros slabs Hok Hall.
  - split; [reflexivity|]. intros _ k v id Hin. inversion Hin.
  - inversion Hall as [|? ? (id0 & Hk0 & Hbad0) Hall']; subst. simpl in Hk0.
    pose proof (slotsOk_spec _ _ Hok) as [Hslots Hinj].
    destruct (Hslots k0 id0 Hk0 Hbad0) as (Hs0 & slab0 & Hslab0 & Hi0).
    simpl. rewrite Hk0, Hbad0, Hslab0.
    assert (Hok' : slotsOk nm bad slot (setSlab slabs (slot id0) index v0) index = true)
      by (eapply slotsOk_shape; [apply setSlab_shape | exact Hok]).
    destruct (IH _ Hok' Hall') as [Hret Hread].
    split; [exact Hret|].
    intros Hnd k v id Hin Hk. simpl in Hnd. apply NoDup_cons in Hnd as [Hnotin Hnd].
    apply elem_of_cons in Hin as [Heq|Hin].
    + inversion Heq; subst. assert (id = id0) by congruence. subst id.
      rewrite bulkLoop_frame.
      * eapply readSlot_set_eq; eassumption.
      * intros k' v' id' Hin' Hk' Hbad'. split.
        -- intros Hslot. apply Hnotin.
           rewrite (Hinj k0 k' id0 id' Hk0 Hk' Hbad0 Hbad' (eq_sym Hslot)).
           apply list_elem_of_fmap. exists (k', v'). split; [reflexivity | exact Hin'].
        -- apply (Hslots k' id' Hk' Hbad').
    + apply (Hread Hnd k v id Hin Hk).
Qed.

(** The first key that fails validation decides the error. *)
Lemma bulkLoop_invalid (es1 es2 : Entries) (k : string) (v index : Z)
    (slabs : list (list Z)) :
  slotsOk nm bad slot slabs index = true ->
  Forall (fun kv => validKey nm bad kv.1) es1 ->
  ~ validKey nm bad k ->
  fst (bulkLoop bad slot eUnknown eKind nm (es1 ++ (k, v) :: es2) index slabs)
  = Throw (match nm !! k with None => eUnknown k | Some _ => eKind k end).
Proof.
  revert slabs. induction es1 as [|[k0 v0] es1 IH]; intros slabs Hok Hall Hinv.
  - simpl. destruct (nm !! k) as [id|] eqn:Hk; [|reflexivity].
    destruct (bad id) eqn:Hbad; [reflexivity|].
    exfalso. apply Hinv. exists id. split; [exact Hk | exact Hbad].
  - inversion Hall as [|? ? (id0 & Hk0 & Hbad0) Hall']; subst. simpl in Hk0.
    pose proof (slotsOk_spec _ _ Hok) as [Hslots _].
    destruct (Hslots k0 id0 Hk0 Hbad0) as (Hs0 & slab0 & Hslab0 & Hi0).
    simpl. rewrite Hk0, Hbad0, Hslab0.
    apply IH; try assumption.
    eapply slotsOk_shape; [apply setSlab_shape | exact Hok].
Qed.

End BulkLoop.

Lemma refAllLoop_bulk (nm : gmap string Z) (es : Entries) (index : Z)
    (slabs : list (list Z)) :
  refAllLoop nm es index slabs
  = bulkLoop (fun id => id <? 0) (fun id => id)
      errUnknownPointerField errRawAsPointer nm es index slabs.
Proof.
  revert slabs. induction es as [|[k v] es IH]; intros slabs; [reflexivity|].
  simpl. destruct (nm !! k) as [id|]; [|reflexivity].
  destruct (id <? 0); [reflexivity|].
  destruct (zlookup slabs id); [apply IH | reflexivity].
Qed.

Lemma rawAllLoop_bulk (nm : gmap string Z) (es : Entries) (index : Z)
    (slabs : list (list Z)) :
  rawAllLoop nm es index slabs
  = bulkLoop (fun id => 0 <=? id) JS.bnot
      errUnknownRawField errPointerAsRaw nm es index slabs.
Proof.
  revert slabs. induction es as [|[k v] es IH]; intros slabs; [reflexivity|].
  simpl. destruct (nm !! k) as [id|]; [|reflexivity].
  destruct (0 <=? id); [reflexivity|].
  destruct (zlookup slabs (JS.bnot id)); [apply IH | reflexivity].
Qed.

Section BulkSet.

Context {T : Type}.

(** The block that owns [p] in a well-formed arena. *)
Lemma owner_spec (st : Arena T) (p : Z) (B : Block T) :
  wf st = true ->
  zlookup (blocks st) (getBlockId (codec st) p) = Some B ->
  blocks st !! Z.to_nat (getBlockId (codec st) p) = Some B /\
  blockId B = getBlockId (codec st) p.
Proof.
  intros Hwf Ho. apply zlookup_Some in Ho as [H0 Ho]. split; [exact Ho|].
  pose proof (wfBlocks_lookup _ 0 _ B Hwf Ho) as HwB.
  apply wfBlock_spec in HwB as (Hid & _). simpl in Hid. lia.
Qed.

(** Two nested calls are enough to reach the owning block. *)
Lemma refAll_owner (fuel : nat) (st : Arena T) (self : nat) (p : Z)
    (B : Block T) (refs : option Entries) :
  p <> 0 -> wf st = true -> is_Some (blocks st !! self) ->
  zlookup (blocks st) (getBlockId (codec st) p) = Some B ->
  refAll (S (S fuel)) st self p refs
  = refAllHere st (Z.to_nat (getBlockId (codec st) p)) B
      (getIndex (codec st) p) refs.
Proof.
  intros Hp Hwf [Bs HBs] Ho.
  destruct (owner_spec st p B Hwf Ho) as [HB Hid].
  assert (Hnull : forall w, noNullPointer p w = None).
  { intros w. unfold noNullPointer. destruct (Z.eqb_spec p 0); [contradiction | reflexivity]. }
  cbn [refAll]. rewrite Hnull, HBs.
  destruct (Z.eqb_spec (getBlockId (codec st) p) (blockId Bs)) as [Heq|Hne]; simpl.
  - pose proof (wfBlocks_lookup _ 0 _ Bs Hwf HBs) as HwB.
    apply wfBlock_spec in HwB as (HidBs & _). simpl in HidBs.
    assert (Hself : self = Z.to_nat (getBlockId (codec st) p)) by lia.
    subst self. assert (Bs = B) by congruence. subst Bs. reflexivity.
  - rewrite Ho, HB, Hid, Z.eqb_refl. reflexivity.
Qed.

Lemma rawAll_owner (fuel : nat) (st : Arena T) (self : nat) (p : Z)
    (B : Block T) (raws : option Entries) :
  p <> 0 -> wf st = true -> is_Some (blocks st !! self) ->
  zlookup (blocks st) (getBlockId (codec st) p) = Some B ->
  rawAll (S (S fuel)) st self p raws
  = rawAllHere st (Z.to_nat (getBlockId (codec st) p)) B
      (getIndex (codec st) p) raws.
Proof.
  intros Hp Hwf [Bs HBs] Ho.
  destruct (owner_spec st p B Hwf Ho) as [HB Hid].
  assert (Hnull : forall w, noNullPointer p w = None).
  { intros w. unfold noNullPointer. destruct (Z.eqb_spec p 0); [contradiction | reflexivity]. }
  cbn [rawAll]. rewrite Hnull, HBs.
  destruct (Z.eqb_spec (getBlockId (codec st) p) (blockId Bs)) as [Heq|Hne]; simpl.
  - pose proof (wfBlocks_lookup _ 0 _ Bs Hwf HBs) as HwB.
    apply wfBlock_spec in HwB as (HidBs & _). simpl in HidBs.
    assert (Hself : self = Z.to_nat (getBlockId (codec st) p)) by lia.
    subst self. assert (Bs = B) by congruence. subst Bs. reflexivity.
  - rewrite Ho, HB, Hid, Z.eqb_refl. reflexivity.
Qed.

(** Replacing the slabs of the owner keeps the arena well formed and
    the owner in place. *)
Lemma setBlock_owner (st : Arena T) (p : Z) (B B' : Block T) :
  wf st = true ->
  zlookup (blocks st) (getBlockId (codec st) p) = Some B ->
  blockId B' = blockId B -> nextFree B' = nextFree B ->
  freeList B' = freeList B ->
  let st' := setBlock st (Z.to_nat (getBlockId (codec st) p)) B' in
  wf st' = true /\
  zlookup (blocks st') (getBlockId (codec st') p) = Some B' /\
  (forall self, is_Some (blocks st !! self) -> is_Some (blocks st' !! self)).
Proof.
  intros Hwf Ho Hid Hnf Hfl st'.
  destruct (owner_spec st p B Hwf Ho) as [HB HidB].
  apply zlookup_Some in Ho as [H0 _].
  assert (Hlt : (Z.to_nat (getBlockId (codec st) p) < List.length (blocks st))%nat)
    by (apply lookup_lt_is_Some_1; eauto).
  repeat split.
  - unfold wf, st'. simpl. apply wfBlocks_insert; [exact Hwf|]. simpl.
    pose proof (wfBlocks_lookup _ 0 _ B Hwf HB) as HwB. simpl in HwB.
    unfold wfBlock in *. rewrite Hid, Hnf, Hfl. exact HwB.
  - unfold st'. simpl. apply zlookup_Some. split; [exact H0|].
    apply list_lookup_insert_eq. exact Hlt.
  - intros self Hs. unfold st'. simpl.
    apply lookup_lt_is_Some_2. rewrite length_insert.
    apply lookup_lt_is_Some_1. exact Hs.
Qed.

End BulkSet.

Section BulkSetAt.

Context {T : Type}.
Variables (st : Arena T) (self : nat) (p : Z) (B : Block T) (fuel : nat).

Hypothesis Hp : p <> 0.
Hypothesis Hwf : wf st = true.
Hypothesis Hself : is_Some (blocks st !! self).
Hypothesis Howner : zlookup (blocks st) (getBlockId (codec st) p) = Some B.

Local Abbreviation index := (getIndex (codec st) p).
Local Abbreviation owner := (Z.to_nat (getBlockId (codec st) p)).

Lemma noNull_ok (w : bool) : noNullPointer p w = None.
Proof. unfold noNullPointer. destruct (Z.eqb_spec p 0); [contradiction | reflexivity]. Qed.

(** An unoccupied slot: both bulk setters hand the argument back and
    leave the arena as it is. *)
Lemma bulk_set_unoccupied (es : Entries) :
  is_undefined (values B) index = true ->
  refAll (S (S fuel)) st self p (Some es) = (Return (SameObject es), st) /\
  rawAll (S (S fuel)) st self p (Some es) = (Return (SameObject es), st).
Proof.
  intros Hun.
  rewrite (refAll_owner fuel st self p B _ Hp Hwf Hself Howner).
  rewrite (rawAll_owner fuel st self p B _ Hp Hwf Hself Howner).
  unfold refAllHere, rawAllHere. rewrite Hun. split; reflexivity.
Qed.

Hypothesis Hocc : is_undefined (values B) index = false.

Section Refs.

Hypothesis Hslots :
  slotsOk (names st) (fun id => id <? 0) (fun id => id) (fields B) index = true.

Lemma refAll_set_valid (es : Entries) :
  Forall (fun kv => validKey (names st) (fun id => id <? 0) kv.1) es ->
  NoDup es.*1 ->
  let st' := snd (refAll (S (S fuel)) st self p (Some es)) in
  fst (refAll (S (S fuel)) st self p (Some es)) = Return (SameObject es) /\
  forall k v, (k, v) ∈ es ->
    fst (ref st' p k None) = Return (Some (JS.ToUint32 v)) /\
    exists m, fst (refAll (S (S fuel)) st' self p None) = Return (Snapshot m) /\
              m !! k = Some (Some (JS.ToUint32 v)).
Proof.
  intros Hall Hnd.
  rewrite (refAll_owner fuel st self p B _ Hp Hwf Hself Howner).
  unfold refAllHere. rewrite Hocc, refAllLoop_bulk.
  pose proof (bulkLoop_valid _ _ errUnknownPointerField errRawAsPointer
                _ es index (fields B) Hslots Hall) as [Hret Hread].
  pose proof (bulkLoop_shape (fun id => id <? 0) (fun id => id)
                errUnknownPointerField errRawAsPointer (names st)
                es index (fields B)) as Hshape.
  destruct (bulkLoop _ _ _ _ _ es index (fields B)) as [r slabs].
  simpl in Hret, Hread, Hshape. subst r. cbv zeta. cbn [fst snd].
  split; [reflexivity|].
  destruct (setBlock_owner st p B (setFields B slabs) Hwf Howner
              eq_refl eq_refl eq_refl) as (Hwf' & Howner' & Hself').
  pose proof (slotsOk_shape _ _ _ _ _ index Hshape Hslots) as Hslots'.
  destruct (slotsOk_spec _ _ _ _ _ Hslots') as [Hex _].
  intros k v Hin.
  assert (Hvalid : validKey (names st) (fun id => id <? 0) k).
  { rewrite Forall_forall in Hall. apply (Hall (k, v) Hin). }
  destruct Hvalid as (id & Hk & Hbad).
  specialize (Hread Hnd k v id Hin Hk).
  destruct (Hex k id Hk Hbad) as (_ & slab & Hslab & _).
  split.
  - unfold ref. rewrite noNull_ok. cbn [names setBlock codec].
    rewrite Hk. simpl from_option. rewrite Hbad.
    change (codec (setBlock st owner (setFields B slabs))) with (codec st) in Howner'.
    rewrite Howner'. simpl. rewrite Hslab.
    unfold readSlot in Hread. rewrite Hslab in Hread. simpl in Hread.
    rewrite Hread. reflexivity.
  - rewrite (refAll_owner fuel _ self p (setFields B slabs) None Hp Hwf'
               (Hself' self Hself) Howner').
    unfold refAllHere. cbn [names setBlock codec values setFields fields].
    rewrite Hocc.
    rewrite bool_decide_eq_true_2.
    + eexists. split; [reflexivity|].
      unfold snapshot. rewrite lookup_omap, Hk. simpl.
      destruct (Z.leb_spec 0 id); [|apply Z.ltb_ge in Hbad; lia].
      f_equal. exact Hread.
    + intros k' id' Hk' Hpos.
      destruct (Hex k' id' Hk' ltac:(apply Z.ltb_ge; exact Hpos))
        as (_ & slab' & -> & _). eexists; reflexivity.
Qed.

Lemma refAll_set_invalid (es1 es2 : Entries) (k : string) (v : Z) :
  Forall (fun kv => validKey (names st) (fun id => id <? 0) kv.1) es1 ->
  ~ validKey (names st) (fun id => id <? 0) k ->
  exists e, fieldError e = true /\
    fst (ref st p k (Some v)) = Throw e /\
    fst (refAll (S (S fuel)) st self p (Some (es1 ++ (k, v) :: es2))) = Throw e.
Proof.
  intros Hall Hinv.
  rewrite (refAll_owner fuel st self p B _ Hp Hwf Hself Howner).
  unfold refAllHere. rewrite Hocc, refAllLoop_bulk.
  pose proof (bulkLoop_invalid _ _ errUnknownPointerField errRawAsPointer
                _ es1 es2 k v index (fields B) Hslots Hall Hinv) as Hthrow.
  destruct (bulkLoop _ _ _ _ _ (es1 ++ (k, v) :: es2) index (fields B))
    as [r slabs].
  simpl in Hthrow. subst r. simpl fst.
  unfold ref. rewrite noNull_ok.
  destruct (names st !! k) as [id|] eqn:Hk.
  - destruct (id <? 0) eqn:Hbad.
    + exists (errRawAsPointer k). simpl. rewrite Hbad. repeat split; reflexivity.
    + exfalso. apply Hinv. exists id. split; assumption.
  - exists (errUnknownPointerField k). simpl. rewrite Howner. simpl.
    repeat split; reflexivity.
Qed.

End Refs.

Section Raws.

Hypothesis Hslots :
  slotsOk (names st) (fun id => 0 <=? id) JS.bnot (rawFields B) index = true.

Lemma rawAll_set_valid (es : Entries) :
  Forall (fun kv => validKey (names st) (fun id => 0 <=? id) kv.1) es ->
  NoDup es.*1 ->
  let st' := snd (rawAll (S (S fuel)) st self p (Some es)) in
  fst (rawAll (S (S fuel)) st self p (Some es)) = Return (SameObject es) /\
  forall k v, (k, v) ∈ es ->
    fst (raw st' p k None) = Return (Some (JS.ToUint32 v)) /\
    exists m, fst (rawAll (S (S fuel)) st' self p None) = Return (Snapshot m) /\
              m !! k = Some (Some (JS.ToUint32 v)).
Proof.
  intros Hall Hnd.
  rewrite (rawAll_owner fuel st self p B _ Hp Hwf Hself Howner).
  unfold rawAllHere. rewrite Hocc, rawAllLoop_bulk.
  pose proof (bulkLoop_valid _ _ errUnknownRawField errPointerAsRaw
                _ es index (rawFields B) Hslots Hall) as [Hret Hread].
  pose proof (bulkLoop_shape (fun id => 0 <=? id) JS.bnot
                errUnknownRawField errPointerAsRaw (names st)
                es index (rawFields B)) as Hshape.
  destruct (bulkLoop _ _ _ _ _ es index (rawFields B)) as [r slabs].
  simpl in Hret, Hread, Hshape. subst r. cbv zeta. cbn [fst snd].
  split; [reflexivity|].
  destruct (setBlock_owner st p B (setRawFields B slabs) Hwf Howner
              eq_refl eq_refl eq_refl) as (Hwf' & Howner' & Hself').
  pose proof (slotsOk_shape _ _ _ _ _ index Hshape Hslots) as Hslots'.
  destruct (slotsOk_spec _ _ _ _ _ Hslots') as [Hex _].
  intros k v Hin.
  assert (Hvalid : validKey (names st) (fun id => 0 <=? id) k).
  { rewrite Forall_forall in Hall. apply (Hall (k, v) Hin). }
  destruct Hvalid as (id & Hk & Hbad).
  specialize (Hread Hnd k v id Hin Hk).
  destruct (Hex k id Hk Hbad) as (_ & slab & Hslab & _).
  split.
  - unfold raw. rewrite noNull_ok. cbn [names setBlock codec].
    rewrite Hk. simpl from_option. rewrite Hbad.
    change (codec (setBlock st owner (setRawFields B slabs))) with (codec st) in Howner'.
    rewrite Howner'. cbn [number_or_undefined default setRawFields rawFields].
    change (JS.bnot (Datatypes.id id)) with (JS.bnot id). rewrite Hslab.
    unfold readSlot in Hread. rewrite Hslab in Hread. simpl in Hread.
    rewrite Hread. reflexivity.
  - rewrite (rawAll_owner fuel _ self p (setRawFields B slabs) None Hp Hwf'
               (Hself' self Hself) Howner').
    unfold rawAllHere. cbn [names setBlock codec values setRawFields rawFields].
    rewrite Hocc.
    rewrite bool_decide_eq_true_2.
    + eexists. split; [reflexivity|].
      unfold snapshot. rewrite lookup_omap, Hk. simpl.
      destruct (Z.ltb_spec id 0); [|apply Z.leb_gt in Hbad; lia].
      f_equal. exact Hread.
    + intros k' id' Hk' Hneg.
      destruct (Hex k' id' Hk' ltac:(apply Z.leb_gt; exact Hneg))
        as (_ & slab' & -> & _). eexists; reflexivity.
Qed.

Lemma rawAll_set_invalid (es1 es2 : Entries) (k : string) (v : Z) :
  Forall (fun kv => validKey (names st) (fun id => 0 <=? id) kv.1) es1 ->
  ~ validKey (names st) (fun id => 0 <=? id) k ->
  exists e, fieldError e = true /\
    fst (raw st p k (Some v)) = Throw e /\
    fst (rawAll (S (S fuel)) st self p (Some (es1 ++ (k, v) :: es2))) = Throw e.
Proof.
  intros Hall Hinv.
  rewrite (rawAll_owner fuel st self p B _ Hp Hwf Hself Howner).
  unfold rawAllHere. rewrite Hocc, rawAllLoop_bulk.
  pose proof (bulkLoop_invalid _ _ errUnknownRawField errPointerAsRaw
                _ es1 es2 k v index (rawFields B) Hslots Hall Hinv) as Hthrow.
  destruct (bulkLoop _ _ _ _ _ (es1 ++ (k, v) :: es2) index (rawFields B))
    as [r slabs].
  simpl in Hthrow. subst r. simpl fst.
  unfold raw. rewrite noNull_ok.
  destruct (names st !! k) as [id|] eqn:Hk.
  - destruct (0 <=? id) eqn:Hbad.
    + exists (errPointerAsRaw k). simpl. rewrite Hbad. repeat split; reflexivity.
    + exfalso. apply Hinv. exists id. split; assumption.
  - exists (errUnknownRawField k). simpl. rewrite Howner. simpl.
    repeat split; reflexivity.
Qed.

End Raws.

End BulkSetAt.




(** * The allocator as a whole *)


(** ** Arrays with holes *)

Section ArrayFacts.

Context {A : Type}.

Lemma is_undefined_ge (a : list (option A)) (j : Z) :
  Z.of_nat (List.length a) <= j -> is_undefined a j = true.
Proof.
  intros Hj. unfold is_undefined, zlookup.
  destruct (Z.ltb_spec j 0); [reflexivity|].
  rewrite lookup_ge_None_2 by lia. reflexivity.
Qed.

Lemma is_undefined_neg (a : list (option A)) (j : Z) :
  j < 0 -> is_undefined a j = true.
Proof.
  intros Hj. unfold is_undefined, zlookup.
  destruct (Z.ltb_spec j 0); [reflexivity | lia].
Qed.

Lemma is_defined_lt (a : list (option A)) (j : Z) :
  is_undefined a j = false -> 0 <= j < Z.of_nat (List.length a).
Proof.
  intros H. destruct (Z_lt_ge_dec j 0) as [Hn|Hn].
  - rewrite is_undefined_neg in H by lia. discriminate.
  - destruct (Z_lt_ge_dec j (Z.of_nat (List.length a))); [lia|].
    rewrite is_undefined_ge in H by lia. discriminate.
Qed.

Lemma length_array_set (a : list (option A)) (i : Z) (v : option A) :
  0 <= i ->
  List.length (array_set a (Some i) v)
  = Nat.max (List.length a) (S (Z.to_nat i)).
Proof.
  intros Hi. unfold array_set. destruct (Z.ltb_spec i 0); [lia|].
  destruct (Nat.ltb_spec (Z.to_nat i) (List.length a)).
  - rewrite length_insert. lia.
  - rewrite !length_app, length_replicate. simpl. lia.
Qed.

Lemma zlookup_array_set_eq (a : list (option A)) (i : Z) (v : option A) :
  0 <= i -> zlookup (array_set a (Some i) v) i = Some v.
Proof. apply array_set_lookup. Qed.

Lemma zlookup_array_set_ne (a : list (option A)) (i j : Z) (v : option A) :
  0 <= i -> i <> j ->
  mjoin (zlookup (array_set a (Some i) v) j) = mjoin (zlookup a j).
Proof.
  intros Hi Hne. unfold array_set, zlookup.
  destruct (Z.ltb_spec i 0); [lia|].
  destruct (Z.ltb_spec j 0); [reflexivity|].
  destruct (Nat.ltb_spec (Z.to_nat i) (List.length a)).
  - rewrite list_lookup_insert_ne by lia. reflexivity.
  - destruct (Nat.lt_ge_cases (Z.to_nat j) (List.length a)) as [Hlt|Hge].
    + rewrite lookup_app_l by lia. reflexivity.
    + rewrite (lookup_ge_None_2 a) by lia.
      rewrite lookup_app_r by lia.
      destruct (Nat.lt_ge_cases (Z.to_nat j - List.length a)
                  (Z.to_nat i - List.length a)) as [Hlt'|Hge'].
      * rewrite lookup_app_l by (rewrite length_replicate; lia).
        rewrite lookup_replicate_2 by lia. reflexivity.
      * rewrite lookup_app_r by (rewrite length_replicate; lia).
        rewrite length_replicate.
        rewrite lookup_ge_None_2; [reflexivity|]. simpl. lia.
Qed.

Lemma is_undefined_mjoin (a : list (option A)) (j : Z) :
  is_undefined a j = match mjoin (zlookup a j) with Some _ => false | None => true end.
Proof.
  unfold is_undefined. destruct (zlookup a j) as [[x|]|]; reflexivity.
Qed.

Lemma is_undefined_array_set_eq (a : list (option A)) (i : Z) (v : option A) :
  0 <= i ->
  is_undefined (array_set a (Some i) v) i
  = match v with Some _ => false | None => true end.
Proof.
  intros Hi. unfold is_undefined. rewrite zlookup_array_set_eq by exact Hi.
  destruct v; reflexivity.
Qed.

Lemma is_undefined_array_set_ne (a : list (option A)) (i j : Z) (v : option A) :
  0 <= i -> i <> j ->
  is_undefined (array_set a (Some i) v) j = is_undefined a j.
Proof.
  intros Hi Hne. rewrite !is_undefined_mjoin.
  rewrite zlookup_array_set_ne by assumption. reflexivity.
Qed.

Lemma zlookup_removelast (a : list (option A)) (j : Z) :
  j <> Z.of_nat (List.length a) - 1 ->
  mjoin (zlookup (removelast a) j) = mjoin (zlookup a j).
Proof.
  intros Hne. unfold zlookup. destruct (Z.ltb_spec j 0); [reflexivity|].
  destruct (Nat.lt_ge_cases (Z.to_nat j) (List.length a - 1)) as [Hlt|Hge].
  - destruct a as [|x a] using rev_ind; [reflexivity|].
    rewrite removelast_last.
    rewrite length_app in Hlt. simpl in Hlt.
    rewrite lookup_app_l by lia. reflexivity.
  - rewrite (lookup_ge_None_2 a) by lia.
    rewrite lookup_ge_None_2; [reflexivity|].
    destruct a as [|x a] using rev_ind; [simpl; lia|].
    rewrite removelast_last. rewrite length_app in Hge. simpl in Hge. lia.
Qed.

Lemma is_undefined_removelast (a : list (option A)) (j : Z) :
  j <> Z.of_nat (List.length a) - 1 ->
  is_undefined (removelast a) j = is_undefined a j.
Proof.
  intros Hne. rewrite !is_undefined_mjoin, zlookup_removelast by exact Hne.
  reflexivity.
Qed.

Lemma length_removelast (a : list (option A)) :
  List.length (removelast a) = (List.length a - 1)%nat.
Proof.
  destruct a as [|x a] using rev_ind; [reflexivity|].
  rewrite removelast_last, length_app. simpl. lia.
Qed.

End ArrayFacts.

(** Distinct integers from an interval are no more than its length. *)
Lemma NoDup_interval_length (l : list Z) (a b : Z) :
  NoDup l -> Forall (fun e => a <= e < b) l ->
  Z.of_nat (List.length l) <= Z.max 0 (b - a).
Proof.
  intros Hnd Hall.
  assert (Hsub : l ⊆ seqZ a (Z.max 0 (b - a))).
  { intros e He. rewrite Forall_forall in Hall. specialize (Hall e He).
    apply elem_of_seqZ. lia. }
  pose proof (submseteq_length _ _ (NoDup_submseteq _ _ Hnd Hsub)) as Hlen.
  rewrite length_seqZ in Hlen. lia.
Qed.

(** When they fill the interval, every member of it is among them. *)
Lemma NoDup_interval_full (l : list Z) (a b e : Z) :
  NoDup l -> Forall (fun e => a <= e < b) l ->
  Z.of_nat (List.length l) = b - a -> a <= e < b -> e ∈ l.
Proof.
  intros Hnd Hall Hlen He.
  assert (Hsub : l ⊆ seqZ a (b - a)).
  { intros x Hx. rewrite Forall_forall in Hall. specialize (Hall x Hx).
    apply elem_of_seqZ. lia. }
  pose proof (NoDup_submseteq _ _ Hnd Hsub) as Hsm.
  assert (Hperm : l ≡ₚ seqZ a (b - a)).
  { apply submseteq_length_Permutation; [exact Hsm|].
    rewrite length_seqZ. lia. }
  rewrite Hperm. apply elem_of_seqZ. lia.
Qed.

(** ** The block invariant under [alloc] and [free] *)

Section BlockInvariant.

Context {T : Type}.

Lemma live_nil (B : Block T) :
  Stack.length (freeList B) = 0 -> live B = [].
Proof. intros H. unfold live. rewrite H. reflexivity. Qed.

(** The free list with its last live entry split off. *)
Lemma live_pop (B : Block T) :
  0 < Stack.length (freeList B)
      <= Z.of_nat (List.length (Stack.data (freeList B))) ->
  exists e, fst (Stack.pop (freeList B)) = Some e /\
    live B = firstn (Z.to_nat (Stack.length (freeList B) - 1))
               (Stack.data (freeList B)) ++ [e].
Proof.
  intros Hlen. unfold Stack.pop, live, zlookup. simpl.
  destruct (Z.ltb_spec (Stack.length (freeList B) - 1) 0); [lia|].
  destruct (lookup_lt_is_Some_2 (Stack.data (freeList B))
              (Z.to_nat (Stack.length (freeList B) - 1)) ltac:(lia)) as [e He].
  exists e. split; [exact He|].
  replace (Z.to_nat (Stack.length (freeList B)))
    with (S (Z.to_nat (Stack.length (freeList B) - 1))) by lia.
  apply take_S_r. exact He.
Qed.

(** The index [alloc] takes in a block with room is not occupied, and
    the block with the value stored there is again [OkBlock]. *)
Lemma OkBlock_alloc (bs : Z) (B : Block T) (v : T)
    (F R : list (list Z)) :
  OkBlock bs B -> hasSpace bs B = true ->
  exists idx,
    (takeIndex B).1.1 = Some idx /\
    firstNextFree B <= idx < bs /\
    is_undefined (values B) idx = true /\
    entries B + 1 = (takeIndex B).2 - Stack.length (takeIndex B).1.2 /\
    OkBlock bs {| values := array_set (values B) (Some idx) (Some v);
                  nextFree := (takeIndex B).2;
                  blockId := blockId B;
                  firstNextFree := firstNextFree B;
                  fields := F;
                  rawFields := R;
                  freeList := (takeIndex B).1.2 |}.
Proof.
  intros (Hb & Hc & Hd & He & Hf & Hg & Hh & Hi & Hj & Hk & Hl & Hm) Hspace.
  unfold hasSpace in Hspace. unfold takeIndex, entries.
  assert (Hfnf : 0 <= firstNextFree B <= 1)
    by (rewrite Hb; destruct (blockId B =? 0); lia).
  destruct (Z.eqb_spec (Stack.length (freeList B)) 0) as [Hz|Hnz]; cbn [negb fst snd].
  - (* nextFree++ *)
    rewrite orb_false_r in Hspace. apply Z.ltb_lt in Hspace.
    exists (nextFree B). split; [reflexivity|]. split; [lia|].
    split; [apply is_undefined_ge; lia|]. split; [lia|].
    unfold OkBlock, live.
    cbn [values nextFree blockId firstNextFree freeList].
    rewrite Hz. change (firstn (Z.to_nat 0) (Stack.data (freeList B))) with (@nil Z).
    repeat split; try assumption; try lia.
    + rewrite length_array_set by lia. lia.
    + constructor.
    + constructor.
    + intros H1. rewrite is_undefined_array_set_ne by lia. apply Hl. exact H1.
    + apply Forall_forall. intros idx Hin Hun.
      apply elem_of_seqZ in Hin.
      destruct (Z.eq_dec idx (nextFree B)) as [->|Hne].
      * rewrite is_undefined_array_set_eq in Hun by lia. discriminate.
      * rewrite is_undefined_array_set_ne in Hun by lia.
        rewrite Forall_forall in Hm.
        specialize (Hm idx ltac:(apply elem_of_seqZ; lia) Hun).
        rewrite live_nil in Hm by exact Hz. inversion Hm.
  - (* freeList.pop() *)
    destruct (live_pop B ltac:(lia)) as (e & Hpop & Hlive).
    unfold Stack.pop in *. cbn [fst snd] in *. rewrite Hpop.
    cbn [Stack.length Stack.data Stack.wide].
    rewrite Hlive in Hj, Hk, Hm.
    apply NoDup_app in Hj as (Hnd0 & Hdisj & _).
    apply Forall_app in Hk as [Hk0 Hke].
    apply Forall_singleton in Hke as [Hrange Hun].
    assert (Hnotin : e ∉ firstn (Z.to_nat (Stack.length (freeList B) - 1))
                          (Stack.data (freeList B))).
    { intros Hin. apply (Hdisj e Hin). apply list_elem_of_singleton. reflexivity. }
    assert (Hnb : nextFree B <= bs) by lia.
    exists e. split; [reflexivity|]. split; [lia|]. split; [exact Hun|].
    split; [lia|].
    unfold OkBlock, live.
    cbn [values nextFree blockId firstNextFree freeList
         Stack.length Stack.data Stack.wide].
    repeat split; try assumption; try lia.
    + rewrite length_array_set by lia. lia.
    + apply Forall_forall. intros x Hx.
      rewrite Forall_forall in Hk0. destruct (Hk0 x Hx) as [Hr Hu].
      split; [exact Hr|].
      rewrite is_undefined_array_set_ne; [exact Hu | lia | congruence].
    + intros H1. rewrite is_undefined_array_set_ne by lia. apply Hl. exact H1.
    + apply Forall_forall. intros idx Hin Hun'.
      destruct (Z.eq_dec idx e) as [->|Hne].
      * rewrite is_undefined_array_set_eq in Hun' by lia. discriminate.
      * rewrite is_undefined_array_set_ne in Hun' by lia.
        rewrite Forall_forall in Hm. specialize (Hm idx Hin Hun').
        apply elem_of_app in Hm as [Hm|Hm]; [exact Hm|].
        apply list_elem_of_singleton in Hm. contradiction.
Qed.

End BlockInvariant.

Section BlockInvariantFree.

Context {T : Type}.

Lemma freeHere_freedBlock (st : Arena T) (self : nat) (B : Block T) (index : Z) :
  freeHere st self B index
  = setAvail (setBlock st self (freedBlock B index))
      (set_add self (blocksAvail st)).
Proof. reflexivity. Qed.

(** An occupied index lies between [firstNextFree] and [nextFree] and
    is not on the free list. *)
Lemma OkBlock_occupied (bs : Z) (B : Block T) (index : Z) :
  OkBlock bs B -> is_undefined (values B) index = false ->
  firstNextFree B <= index < nextFree B /\ nextFree B <= bs /\ index ∉ live B.
Proof.
  intros (Hb & Hc & Hd & He & Hf & Hg & Hh & Hi & Hj & Hk & Hl & Hm) Hocc.
  pose proof (is_defined_lt _ _ Hocc) as Hlt.
  assert (Hfnf : 0 <= firstNextFree B <= 1)
    by (rewrite Hb; destruct (blockId B =? 0); lia).
  assert (Hlow : firstNextFree B <= index).
  { destruct (Z.eq_dec (firstNextFree B) 1) as [H1|H1]; [|lia].
    destruct (Z.eq_dec index 0) as [->|]; [|lia].
    rewrite (Hl H1) in Hocc. discriminate. }
  repeat split; try lia.
  intros Hin. rewrite Forall_forall in Hk. destruct (Hk index Hin) as [_ Hu].
  congruence.
Qed.

Lemma live_push (B : Block T) (index : Z) :
  0 <= Stack.length (freeList B)
    < Z.of_nat (List.length (Stack.data (freeList B))) ->
  firstn (Z.to_nat (Stack.length (freeList B) + 1))
    (Stack.data (Stack.push (freeList B) index))
  = live B ++ [if Stack.wide (freeList B) then JS.ToUint16 index
               else JS.ToUint8 index].
Proof.
  intros Hlen. unfold Stack.push, live. cbn [Stack.data].
  destruct (Z.ltb_spec (Stack.length (freeList B)) 0); [lia|].
  replace (Z.to_nat (Stack.length (freeList B) + 1))
    with (S (Z.to_nat (Stack.length (freeList B)))) by lia.
  erewrite take_S_r; [|apply list_lookup_insert_eq; lia].
  rewrite take_insert_ge by lia. reflexivity.
Qed.

Lemma OkBlock_free (bs : Z) (B : Block T) (index : Z) :
  OkBlock bs B -> bs <= 65536 -> is_undefined (values B) index = false ->
  OkBlock bs (freedBlock B index) /\
  entries (freedBlock B index) = entries B - 1 /\
  hasSpace bs (freedBlock B index) = true /\
  is_undefined (values (freedBlock B index)) index = true /\
  (forall j, j <> index ->
     mjoin (zlookup (values (freedBlock B index)) j)
     = mjoin (zlookup (values B) j)).
Proof.
  intros HOk Hbs Hocc.
  destruct (OkBlock_occupied bs B index HOk Hocc) as (Hidx & Hnb & Hnotin).
  destruct HOk as (Hb & Hc & Hd & He & Hf & Hg & Hh & Hi & Hj & Hk & Hl & Hm).
  pose proof (is_defined_lt _ _ Hocc) as Hlt.
  assert (Hfnf : 0 <= firstNextFree B <= 1)
    by (rewrite Hb; destruct (blockId B =? 0); lia).
  assert (Hlive_len : Z.of_nat (List.length (live B)) = Stack.length (freeList B)).
  { unfold live. rewrite length_take. lia. }
  assert (Hnd' : NoDup (index :: live B)) by (apply NoDup_cons; split; assumption).
  assert (Hall' : Forall (fun e => firstNextFree B <= e < nextFree B) (index :: live B)).
  { constructor; [lia|]. eapply Forall_impl; [exact Hk|]. intros x [Hx _]. exact Hx. }
  pose proof (NoDup_interval_length _ _ _ Hnd' Hall') as Hpig.
  simpl in Hpig.
  unfold freedBlock, entries, hasSpace.
  destruct (Z.eqb_spec (Stack.length (freeList B) + firstNextFree B)
              (nextFree B - 1)) as [Hfull|Hnfull].
  - (* the block becomes empty *)
    cbn [values nextFree blockId firstNextFree freeList fields rawFields
         Stack.clear Stack.length Stack.data Stack.wide].
    assert (Hvals : forall j, is_undefined
              (if blockId B =? 0 then [@None T] else []) j = true).
    { intros j. destruct (blockId B =? 0); unfold is_undefined, zlookup;
        destruct (j <? 0); try reflexivity;
        destruct (Z.to_nat j) as [|[|n]]; reflexivity. }
    split; [|split; [lia|split; [|split]]].
    + unfold OkBlock, live.
      cbn [values nextFree blockId firstNextFree freeList
           Stack.clear Stack.length Stack.data Stack.wide].
      change (firstn (Z.to_nat 0) (Stack.data (freeList B))) with (@nil Z).
      rewrite Z.sub_diag. change (seqZ (firstNextFree B) 0) with (@nil Z).
      repeat apply conj; try assumption; try lia; try constructor.
      * rewrite Hb. destruct (blockId B =? 0); simpl; lia.
      * intros _. apply Hvals.
    + apply orb_true_iff. left. apply Z.ltb_lt. lia.
    + apply Hvals.
    + intros j Hne.
      assert (Hu : is_undefined (values B) j = true).
      { destruct (Z_lt_ge_dec j (firstNextFree B)) as [Hlo|Hlo].
        - destruct (Z_lt_ge_dec j 0); [apply is_undefined_neg; lia|].
          assert (j = 0) by lia. subst j. apply Hl. lia.
        - destruct (Z_lt_ge_dec j (nextFree B)) as [Hhi|Hhi];
            [|apply is_undefined_ge; lia].
          assert (Hin : j ∈ index :: live B).
          { apply (NoDup_interval_full _ (firstNextFree B) (nextFree B));
              try assumption; [simpl; lia | lia]. }
          apply elem_of_cons in Hin as [?|Hin]; [contradiction|].
          rewrite Forall_forall in Hk. apply (Hk j Hin). }
      specialize (Hvals j). rewrite is_undefined_mjoin in Hu, Hvals.
      destruct (mjoin (zlookup (values B) j)); [discriminate|].
      destruct (mjoin (zlookup (if blockId B =? 0 then [None] else []) j));
        [discriminate | reflexivity].
  - destruct (Z.eqb_spec index (nextFree B - 1)) as [Hlast|Hnlast].
    + (* the last index: [nextFree--] *)
      cbn [values nextFree blockId firstNextFree freeList fields rawFields].
      assert (Hvlen : Z.of_nat (List.length (values B)) = nextFree B) by lia.
      split; [|split; [lia|split; [|split]]].
      * unfold OkBlock, live.
        cbn [values nextFree blockId firstNextFree freeList].
        fold (live B).
        repeat apply conj; try assumption; try lia.
        -- rewrite length_removelast. lia.
        -- apply Forall_forall. intros x Hx.
           rewrite Forall_forall in Hk. destruct (Hk x Hx) as [Hr Hu].
           assert (x <> index) by congruence.
           split; [lia|]. rewrite is_undefined_removelast by lia. exact Hu.
        -- intros H1. rewrite is_undefined_removelast by lia. apply Hl. exact H1.
        -- apply Forall_forall. intros idx Hin Hun.
           apply elem_of_seqZ in Hin.
           rewrite is_undefined_removelast in Hun by lia.
           rewrite Forall_forall in Hm.
           apply (Hm idx ltac:(apply elem_of_seqZ; lia) Hun).
      * apply orb_true_iff. left. apply Z.ltb_lt. lia.
      * apply is_undefined_ge. rewrite length_removelast. lia.
      * intros j Hne. apply zlookup_removelast. lia.
    + (* any other index: push it on the free list *)
      cbn [values nextFree blockId firstNextFree freeList fields rawFields].
      assert (Hroom : Stack.length (freeList B)
                      < Z.of_nat (List.length (Stack.data (freeList B)))) by lia.
      assert (Hwrap : (if Stack.wide (freeList B) then JS.ToUint16 index
                       else JS.ToUint8 index) = index).
      { rewrite Hh. unfold max8, JS.ToUint16, JS.ToUint8.
        destruct (Z.leb_spec bs 256); simpl; apply Z.mod_small; lia. }
      pose proof (live_push B index ltac:(lia)) as Hpush. rewrite Hwrap in Hpush.
      split; [|split; [|split; [|split]]].
      * assert (Hlen' : Stack.length (Stack.push (freeList B) index)
                        = Stack.length (freeList B) + 1) by reflexivity.
        assert (Hwide' : Stack.wide (Stack.push (freeList B) index)
                         = Stack.wide (freeList B)) by reflexivity.
        assert (Hdata' : Stack.data (Stack.push (freeList B) index)
                         = <[Z.to_nat (Stack.length (freeList B)) := index]>
                             (Stack.data (freeList B))).
        { unfold Stack.push. cbn [Stack.data].
          destruct (Z.ltb_spec (Stack.length (freeList B)) 0); [lia|].
          rewrite Hwrap. reflexivity. }
        unfold OkBlock, live.
        cbn [values nextFree blockId firstNextFree freeList].
        rewrite Hlen', Hpush, Hwide', Hdata', length_insert.
        repeat apply conj; try assumption; try lia.
        -- rewrite length_array_set by lia. lia.
        -- apply Forall_insert; [exact Hi | lia].
        -- apply NoDup_app. repeat apply conj; [exact Hj | | apply NoDup_singleton].
           intros x Hx Hx'. apply list_elem_of_singleton in Hx'. subst x.
           contradiction.
        -- apply Forall_app. split.
           ++ apply Forall_forall. intros x Hx.
              rewrite Forall_forall in Hk. destruct (Hk x Hx) as [Hr Hu].
              split; [exact Hr|].
              rewrite is_undefined_array_set_ne; [exact Hu | lia | congruence].
           ++ apply Forall_singleton. split; [lia|].
              apply is_undefined_array_set_eq. lia.
        -- intros H1. rewrite is_undefined_array_set_ne by lia. apply Hl. exact H1.
        -- apply Forall_forall. intros idx Hin Hun.
           apply elem_of_app.
           destruct (Z.eq_dec idx index) as [->|Hne].
           ++ right. apply list_elem_of_singleton. reflexivity.
           ++ left. rewrite is_undefined_array_set_ne in Hun by lia.
              rewrite Forall_forall in Hm. apply (Hm idx Hin Hun).
      * unfold Stack.push. cbn [Stack.length]. lia.
      * apply orb_true_iff. right. unfold Stack.push. cbn [Stack.length].
        destruct (Z.eqb_spec (Stack.length (freeList B) + 1) 0); [lia | reflexivity].
      * apply is_undefined_array_set_eq. lia.
      * intros j Hne. apply zlookup_array_set_ne; [lia | congruence].
Qed.

End BlockInvariantFree.

(** ** The arena invariant *)

Section ArenaInvariant.

Context {T : Type}.
Variable uninit : nat -> nat -> Z.

Lemma Ok_lookup (st : Arena T) (i : nat) (B : Block T) :
  Ok st -> blocks st !! i = Some B ->
  OkBlock (blockSize (codec st)) B /\ blockId B = Z.of_nat i.
Proof.
  intros (_ & _ & _ & _ & Hids & Hall) HB. split.
  - rewrite Forall_forall in Hall. apply Hall.
    apply list_elem_of_lookup. eauto.
  - assert (H : (blockId <$> blocks st) !! i = Some (blockId B))
      by (rewrite list_lookup_fmap, HB; reflexivity).
    rewrite Hids, list_lookup_fmap in H.
    assert (Hlt : (i < List.length (blocks st))%nat)
      by (apply lookup_lt_is_Some_1; eauto).
    rewrite lookup_seq_lt in H by exact Hlt. simpl in H. congruence.
Qed.

Lemma Ok_codec (st : Arena T) :
  Ok st ->
  0 <= blockSize (codec st) <= 65536 /\
  ((blockSize (codec st) <= 256 /\ shift (codec st) = 8 /\
    mask (codec st) = 255 /\ blockIdMask (codec st) = 16777215 /\
    shiftDownFix (codec st) = 16777216) \/
   (256 < blockSize (codec st) /\ shift (codec st) = 16 /\
    mask (codec st) = 65535 /\ blockIdMask (codec st) = 65535 /\
    shiftDownFix (codec st) = 65536)) /\
  shiftUpFix (codec st) = 4294967296.
Proof.
  intros (Hc & Hbs & _). unfold codecOf, getWordSize, max8, max16 in Hc.
  destruct (Z.leb_spec (blockSize (codec st)) 256).
  - simpl in Hc. inversion Hc as [Hc']. rewrite <- Hc' at 2 3 4 5 6 7.
    simpl. split; [lia|]. split; [left; repeat split; reflexivity || lia | reflexivity].
  - destruct (Z.leb_spec (blockSize (codec st)) 65536); simpl in Hc; [|discriminate].
    inversion Hc as [Hc']. rewrite <- Hc' at 2 3 4 5 6 7.
    simpl. split; [lia|]. split; [right; repeat split; reflexivity || lia | reflexivity].
Qed.

(** A block that keeps its [blockId] and is [OkBlock] may replace the
    one at its position. *)
Lemma Ok_setBlock (st : Arena T) (self : nat) (B B' : Block T)
    (avail : list nat) :
  Ok st -> blocks st !! self = Some B -> blockId B' = blockId B ->
  OkBlock (blockSize (codec st)) B' ->
  Ok (setAvail (setBlock st self B') avail).
Proof.
  intros (Hc & Hbs & Hne & Hmax & Hids & Hall) HB Hid HOk.
  unfold Ok. cbn [setAvail setBlock blocks codec].
  rewrite length_insert.
  repeat apply conj; try assumption; try lia.
  - rewrite list_fmap_insert, Hid, Hids.
    apply list_insert_id.
    rewrite <- Hids, list_lookup_fmap, HB. reflexivity.
  - apply Forall_insert; assumption.
Qed.

(** [OkBlock] does not look at the slabs. *)
Lemma OkBlock_slabs (bs : Z) (B : Block T) (F R : list (list Z)) :
  OkBlock bs B ->
  OkBlock bs {| values := values B; nextFree := nextFree B;
                blockId := blockId B; firstNextFree := firstNextFree B;
                fields := F; rawFields := R; freeList := freeList B |}.
Proof. intros H. exact H. Qed.

Lemma Ok_wf (st : Arena T) : Ok st -> wf st = true.
Proof.
  intros HOk. unfold wf.
  assert (H : forall (bl : list (Block T)) (i : nat),
             (forall k B, bl !! k = Some B ->
                wfBlock (i + k) B = true) -> wfBlocks i bl = true).
  { induction bl as [|B0 bl IH]; intros i Hk; [reflexivity|].
    simpl. apply andb_true_iff. split.
    - specialize (Hk 0%nat B0 eq_refl). rewrite Nat.add_0_r in Hk. exact Hk.
    - apply IH. intros k B HB. specialize (Hk (S k) B HB).
      replace (S i + k)%nat with (i + S k)%nat by lia. exact Hk. }
  apply H. intros k B HB. simpl.
  destruct (Ok_lookup st k B HOk HB)
    as ((Hb & Hc & Hd & He & Hf & Hg & Hh & Hi & _) & Hid).
  apply wfBlock_spec. repeat apply conj; try assumption; lia.
Qed.

Lemma length_unsafe (f : Z -> Z) (n : nat) (len : Z) :
  List.length (map (fun i => f (uninit n i)) (seq 0 (Z.to_nat len)))
  = Z.to_nat len.
Proof. rewrite length_map, length_seq. reflexivity. Qed.

(** A new free list is empty, as long as the block size and as wide as
    the block size asks. *)
Lemma newStack_ok (n : nat) (bs : Z) :
  0 <= bs ->
  Stack.length (newStack uninit n bs) = 0 /\
  Z.of_nat (List.length (Stack.data (newStack uninit n bs))) = bs /\
  Stack.wide (newStack uninit n bs) = negb (bs <=? max8) /\
  Forall (fun x => 0 <= x) (Stack.data (newStack uninit n bs)).
Proof.
  intros Hbs. destruct (newStack_wf uninit n bs) as [H0 Hd].
  repeat apply conj; try assumption; try reflexivity.
  unfold newStack. cbn [Stack.data].
  destruct (bs <=? max8); unfold unsafeUint8Array, unsafeUint16Array;
    rewrite length_unsafe; lia.
Qed.

(** The constructor returns an arena that satisfies the invariant. *)
Lemma PointerSet_Ok (fs : list string) (bs : Z) (rs : option (list string))
    (st : Arena T) :
  PointerSet uninit fs bs rs = Return st -> Ok st.
Proof.
  unfold PointerSet. intros H.
  destruct (codecOf bs) as [c|] eqn:Hc; [|discriminate].
  destruct (Z.ltb_spec bs 0); [discriminate|].
  destruct (addFields uninit fs ∅ [] 1 bs) as [[nm slabs] ser].
  assert (Hbs : blockSize c = bs).
  { unfold codecOf in Hc.
    destruct (negb (getWordSize bs =? 1) && negb (getWordSize bs =? 2));
      [discriminate|]. inversion Hc; reflexivity. }
  assert (Hmask : 0 <= blockIdMask c).
  { unfold codecOf in Hc.
    destruct (negb (getWordSize bs =? 1) && negb (getWordSize bs =? 2));
      [discriminate|]. inversion Hc; simpl.
    destruct (getWordSize bs =? 1); unfold mask24, mask16; lia. }
  destruct (match rs with
            | Some rs0 => addRawFields uninit fs rs0 nm [] ser bs
            | None => Return (nm, [], ser)
            end) as [[[nm' raws] ser']| |]; try discriminate.
  inversion H; subst st; clear H.
  destruct (newStack_ok 0 bs ltac:(lia)) as (Hl & Hd & Hw & Hnn).
  unfold Ok. cbn [blocks codec]. rewrite Hbs.
  repeat apply conj; try assumption; try (simpl; lia).
  - reflexivity.
  - constructor; [|constructor].
    unfold OkBlock, live.
    cbn [values nextFree blockId firstNextFree freeList].
    rewrite Hl. simpl firstn.
    repeat apply conj; try assumption; try lia; try reflexivity;
      try constructor.
Qed.

End ArenaInvariant.

Section AllocInvariant.

Context {T : Type}.
Variable uninit : nat -> nat -> Z.

(** The arena [allocHere] leaves, whatever the outcome: only the block
    at [self] and [blocksAvail] change. *)
Lemma allocHere_arena (st st' : Arena T) (self : nat) (B : Block T) (v : T)
    (refs raws : option Entries) (r : Outcome Z) :
  allocHere st self B v refs raws = (r, st') ->
  exists F R,
    st' = {| blocks :=
               <[self := {| values := array_set (values B) (takeIndex B).1.1 (Some v);
                            nextFree := (takeIndex B).2;
                            blockId := blockId B;
                            firstNextFree := firstNextFree B;
                            fields := F;
                            rawFields := R;
                            freeList := (takeIndex B).1.2 |}]> (blocks st);
             blocksAvail :=
               if (Stack.length (takeIndex B).1.2 =? 0)
                  && (blockSize (codec st) <=? (takeIndex B).2)
               then set_delete self (blocksAvail st) else blocksAvail st;
             names := names st;
             codec := codec st;
             serial := serial st |}.
Proof.
  unfold allocHere. destruct (takeIndex B) as [[index fl] nf].
  cbn [fst snd]. intros H.
  destruct (match refs with
            | Some es => refWrites (names st) es (map (fun _ => Some 0) (fields B))
            | None => Return (map (fun _ => Some 0) (fields B))
            end) as [writes|e1|].
  2,3: inversion H; subst; unfold setAvail, setBlock; cbn;
       eexists _, _; reflexivity.
  destruct (storeAll writes (fields B) index) as [r1 slabs].
  destruct r1 as [[]|e2|].
  2,3: inversion H; subst; unfold setAvail, setBlock; cbn;
       rewrite list_insert_insert_eq; eexists _, _; reflexivity.
  destruct (match raws with
            | Some es => rawWrites (names st) es (map (fun _ => Some 0) (rawFields B))
            | None => Return (map (fun _ => Some 0) (rawFields B))
            end) as [rws|e3|].
  2,3: inversion H; subst; unfold setAvail, setBlock; cbn;
       rewrite list_insert_insert_eq; eexists _, _; reflexivity.
  destruct (storeAll rws (rawFields B) index) as [r2 rslabs].
  destruct r2 as [[]|e4|]; inversion H; subst; unfold setAvail, setBlock; cbn;
    rewrite !list_insert_insert_eq; eexists _, _; reflexivity.
Qed.

Lemma allocHere_Ok (st : Arena T) (self : nat) (B : Block T) (v : T)
    (refs raws : option Entries) :
  Ok st -> blocks st !! self = Some B ->
  hasSpace (blockSize (codec st)) B = true ->
  Ok (snd (allocHere st self B v refs raws)).
Proof.
  intros HOk HB Hspace.
  destruct (allocHere st self B v refs raws) as [r st'] eqn:Halloc.
  destruct (allocHere_arena _ _ _ _ _ _ _ _ Halloc) as (F & R & ->).
  destruct (Ok_lookup st self B HOk HB) as [HOkB Hid].
  destruct (OkBlock_alloc _ B v F R HOkB Hspace)
    as (idx & Hidx & _ & _ & _ & HOk').
  rewrite Hidx. cbn [snd].
  refine (Ok_setBlock st self B _ _ HOk HB _ HOk'). reflexivity.
Qed.

Lemma band_blockIdMask (st : Arena T) (id : Z) :
  Ok st -> 0 <= id <= blockIdMask (codec st) + 1 ->
  id = JS.band id (blockIdMask (codec st)) -> id <= blockIdMask (codec st).
Proof.
  intros HOk Hid Heq.
  destruct (Ok_codec st HOk) as (_ & Hcases & _).
  assert (Hm : 0 <= blockIdMask (codec st) < 2147483647)
    by (destruct Hcases as [(_ & _ & _ & -> & _)|(_ & _ & _ & -> & _)]; lia).
  unfold JS.band in Heq.
  rewrite (ToInt32_small id), (ToInt32_small (blockIdMask (codec st))) in Heq by lia.
  destruct (Z.eq_dec id (blockIdMask (codec st) + 1)) as [->|Hne]; [|lia].
  exfalso.
  destruct Hcases as [(_ & _ & _ & Hmask & _)|(_ & _ & _ & Hmask & _)];
    rewrite Hmask in Heq; vm_compute in Heq; discriminate.
Qed.

Lemma PointerSetBlock_Ok (st : Arena T) :
  Ok st -> Ok (snd (PointerSetBlock uninit st)).
Proof.
  intros HOk. pose proof HOk as (Hc & Hbs & Hne & Hmax & Hids & Hall).
  unfold PointerSetBlock.
  destruct (Z.eqb_spec (Z.of_nat (List.length (blocks st)))
              (JS.band (Z.of_nat (List.length (blocks st)))
                 (blockIdMask (codec st)))) as [Heq|Hneq];
    cbn [negb]; [|exact HOk].
  destruct (Z.ltb_spec (blockSize (codec st)) 0); [lia|]. cbn [snd].
  pose proof (band_blockIdMask st (Z.of_nat (List.length (blocks st))) HOk
                ltac:(lia) Heq) as Hle.
  destruct (newStack_ok uninit (serial st) (blockSize (codec st)) Hbs)
    as (Hl & Hd & Hw & Hnn).
  unfold Ok. cbn [blocks codec].
  rewrite length_app. cbn [List.length].
  repeat apply conj; try assumption; try lia.
  - rewrite fmap_app, Hids. cbn [fmap list_fmap blockId].
    replace (List.length (blocks st) + 1)%nat with (S (List.length (blocks st))) by lia.
    rewrite seq_S, fmap_app. reflexivity.
  - apply Forall_app. split; [exact Hall|]. constructor; [|constructor].
    unfold OkBlock, live.
    cbn [values nextFree blockId firstNextFree freeList].
    rewrite Hl. simpl firstn.
    destruct (Z.eqb_spec (Z.of_nat (List.length (blocks st))) 0); [lia|].
    repeat apply conj; try assumption; try lia; try reflexivity;
      try constructor.
Qed.

(** [alloc] keeps the invariant, whatever it is given and whatever it
    returns or throws. *)
Lemma alloc_Ok (fuel : nat) (st : Arena T) (self : nat) (v : T)
    (refs raws : option Entries) :
  Ok st -> Ok (snd (alloc uninit fuel st self v refs raws)).
Proof.
  revert st self. induction fuel as [|fuel IH]; intros st self HOk; [exact HOk|].
  simpl. destruct (blocks st !! self) as [B|] eqn:HB; [|exact HOk].
  destruct ((nextFree B <? blockSize (codec st))
            || negb (Stack.length (freeList B) =? 0)) eqn:Hspace.
  - apply allocHere_Ok; assumption.
  - destruct (blocksAvail st) as [|b rest]; [|apply IH; exact HOk].
    pose proof (PointerSetBlock_Ok st HOk) as Hnew.
    destruct (PointerSetBlock uninit st) as [[b|e|] st1]; cbn [snd] in Hnew.
    + apply IH. exact Hnew.
    + exact Hnew.
    + exact Hnew.
Qed.

End AllocInvariant.

Section FreeInvariant.

Context {T : Type}.

Lemma blockId_freedBlock (B : Block T) (index : Z) :
  blockId (freedBlock B index) = blockId B /\
  firstNextFree (freedBlock B index) = firstNextFree B /\
  fields (freedBlock B index) = fields B /\
  rawFields (freedBlock B index) = rawFields B.
Proof.
  unfold freedBlock.
  destruct (Stack.length (freeList B) + firstNextFree B =? nextFree B - 1);
    [|destruct (index =? nextFree B - 1)]; repeat split; reflexivity.
Qed.

(** The block [wipeBlock] and the first branch of [free] write back. *)
Lemma OkBlock_reset (bs : Z) (B : Block T) (F R : list (list Z)) :
  OkBlock bs B ->
  OkBlock (T := T) bs {| values := if blockId B =? 0 then [None] else [];
                nextFree := firstNextFree B;
                blockId := blockId B;
                firstNextFree := firstNextFree B;
                fields := F;
                rawFields := R;
                freeList := Stack.clear (freeList B) |}.
Proof.
  intros (Hb & Hc & Hd & He & Hf & Hg & Hh & Hi & Hj & Hk & Hl & Hm).
  unfold OkBlock, live.
  cbn [values nextFree blockId firstNextFree freeList
       Stack.clear Stack.length Stack.data Stack.wide].
  change (firstn (Z.to_nat 0) (Stack.data (freeList B))) with (@nil Z).
  rewrite Z.sub_diag. change (seqZ (firstNextFree B) 0) with (@nil Z).
  repeat apply conj; try assumption; try lia; try constructor.
  - rewrite Hb. destruct (blockId B =? 0); simpl; lia.
  - intros _. destruct (blockId B =? 0); reflexivity.
Qed.

Lemma free_Ok (fuel : nat) (st : Arena T) (self : nat) (pointer : Z) :
  Ok st -> Ok (snd (free fuel st self pointer)).
Proof.
  intros HOk. revert self. induction fuel as [|fuel IH]; intros self; [exact HOk|].
  simpl. destruct (pointer =? 0); [exact HOk|].
  destruct (blocks st !! self) as [B|] eqn:HB; [|exact HOk].
  destruct (negb (getBlockId (codec st) pointer =? blockId B)).
  - destruct (zlookup (blocks st) (getBlockId (codec st) pointer));
      [apply IH | exact HOk].
  - destruct (is_undefined (values B) (getIndex (codec st) pointer)) eqn:Hocc;
      [exact HOk|].
    cbn [snd]. rewrite freeHere_freedBlock.
    destruct (Ok_lookup st self B HOk HB) as [HOkB Hid].
    destruct (Ok_codec st HOk) as (Hbs & _).
    destruct (OkBlock_free _ B _ HOkB ltac:(lia) Hocc) as (HOk' & _).
    refine (Ok_setBlock st self B _ _ HOk HB _ HOk').
    apply blockId_freedBlock.
Qed.

Lemma wipeBlock_Ok (st : Arena T) (self : nat) :
  Ok st -> Ok (snd (wipeBlock st self)).
Proof.
  intros HOk. unfold wipeBlock.
  destruct (blocks st !! self) as [B|] eqn:HB; [|exact HOk].
  cbn [snd]. destruct (Ok_lookup st self B HOk HB) as [HOkB Hid].
  refine (Ok_setBlock st self B _ _ HOk HB _ (OkBlock_reset _ B _ _ HOkB)).
  reflexivity.
Qed.

Lemma erase_Ok (fuel : nat) (st : Arena T) (self : nat) (pointer : Z) :
  Ok st -> Ok (snd (erase fuel st self pointer)).
Proof.
  intros HOk. revert self. induction fuel as [|fuel IH]; intros self; [exact HOk|].
  simpl. destruct (pointer =? 0); [exact HOk|].
  destruct (blocks st !! self) as [B|] eqn:HB; [|exact HOk].
  destruct (negb (getBlockId (codec st) pointer =? blockId B)).
  - destruct (zlookup (blocks st) (getBlockId (codec st) pointer));
      [apply IH | exact HOk].
  - destruct (is_undefined (values B) (getIndex (codec st) pointer));
      [exact HOk|].
    pose proof (free_Ok fuel st self pointer HOk) as Hfree.
    destruct (free fuel st self pointer) as [[[]|e|] st']; cbn [snd] in *;
      try exact Hfree.
    destruct (blocks st' !! self) as [B'|] eqn:HB'; [|exact Hfree].
    cbn [snd]. destruct (Ok_lookup st' self B' Hfree HB') as [HOkB' Hid'].
    refine (Ok_setBlock st' self B' _ (blocksAvail st') Hfree HB' _
              (OkBlock_slabs _ B' _ _ HOkB')).
    reflexivity.
Qed.

Lemma removelast_take {A : Type} (l : list A) :
  removelast l = firstn (List.length l - 1) l.
Proof.
  destruct l as [|x l] using rev_ind; [reflexivity|].
  rewrite removelast_last, length_app. simpl.
  replace (List.length l + 1 - 1)%nat with (List.length l) by lia.
  rewrite take_app_length. reflexivity.
Qed.

Lemma drop_Ok (st : Arena T) (self : nat) :
  Ok st -> Ok (snd (drop st self)).
Proof.
  intros HOk. unfold drop.
  destruct (blocks st !! self) as [B|] eqn:HB; [|exact HOk].
  destruct (negb (blockId B =? Z.of_nat (List.length (blocks st)) - 1));
    [exact HOk|].
  destruct (Z.eqb_spec (blockId B) 0) as [Hz|Hnz]; [apply wipeBlock_Ok; exact HOk|].
  cbn [snd].
  destruct (Ok_lookup st self B HOk HB) as [HOkB Hid].
  destruct HOk as (Hc & Hbs & Hne & Hmax & Hids & Hall).
  assert (Hlt : (self < List.length (blocks st))%nat)
    by (apply lookup_lt_is_Some_1; eauto).
  unfold Ok. cbn [blocks codec].
  rewrite removelast_take, length_take.
  repeat apply conj; try assumption; try lia.
  - rewrite fmap_take, Hids, <- fmap_take, take_seq.
    repeat f_equal; lia.
  - apply Forall_take. exact Hall.
Qed.

(** The setters of fields and raw fields only change slabs. *)
Lemma ref_Ok (st : Arena T) (p : Z) (f : string) (t : option Z) :
  Ok st -> Ok (snd (ref st p f t)).
Proof.
  intros HOk. unfold ref.
  destruct (noNullPointer p _); [exact HOk|].
  destruct (from_option _ false (names st !! f)); [exact HOk|].
  destruct (zlookup (blocks st) (getBlockId (codec st) p)) as [B|] eqn:HB;
    [|exact HOk].
  destruct (names st !! f ≫= zlookup (fields B)); [|exact HOk].
  destruct t as [t|]; [|exact HOk]. cbn [snd].
  apply zlookup_Some in HB as [_ HB].
  destruct (Ok_lookup st _ B HOk HB) as [HOkB Hid].
  refine (Ok_setBlock st _ B _ (blocksAvail st) HOk HB _
            (OkBlock_slabs _ B _ _ HOkB)).
  reflexivity.
Qed.

Lemma raw_Ok (st : Arena T) (p : Z) (f : string) (t : option Z) :
  Ok st -> Ok (snd (raw st p f t)).
Proof.
  intros HOk. unfold raw.
  destruct (noNullPointer p _); [exact HOk|].
  destruct (from_option _ false (names st !! f)); [exact HOk|].
  destruct (zlookup (blocks st) (getBlockId (codec st) p)) as [B|] eqn:HB;
    [|exact HOk].
  destruct (zlookup (rawFields B) _); [|exact HOk].
  destruct t as [t|]; [|exact HOk]. cbn [snd].
  apply zlookup_Some in HB as [_ HB].
  destruct (Ok_lookup st _ B HOk HB) as [HOkB Hid].
  refine (Ok_setBlock st _ B _ (blocksAvail st) HOk HB _
            (OkBlock_slabs _ B _ _ HOkB)).
  reflexivity.
Qed.

End FreeInvariant.

Section MoreInvariant.

Context {T : Type}.

Lemma refAllHere_Ok (st : Arena T) (self : nat) (B : Block T) (index : Z)
    (refs : option Entries) :
  Ok st -> blocks st !! self = Some B ->
  Ok (snd (refAllHere st self B index refs)).
Proof.
  intros HOk HB. unfold refAllHere.
  destruct (is_undefined (values B) index); [destruct refs; exact HOk|].
  destruct refs as [es|].
  - destruct (refAllLoop (names st) es index (fields B)) as [r slabs].
    destruct (Ok_lookup st _ B HOk HB) as [HOkB Hid].
    assert (H : Ok (setBlock st self (setFields B slabs))).
    { refine (Ok_setBlock st _ B _ (blocksAvail st) HOk HB _
                (OkBlock_slabs _ B _ _ HOkB)). reflexivity. }
    destruct r; exact H.
  - destruct (bool_decide _); exact HOk.
Qed.

Lemma rawAllHere_Ok (st : Arena T) (self : nat) (B : Block T) (index : Z)
    (raws : option Entries) :
  Ok st -> blocks st !! self = Some B ->
  Ok (snd (rawAllHere st self B index raws)).
Proof.
  intros HOk HB. unfold rawAllHere.
  destruct (is_undefined (values B) index); [destruct raws; exact HOk|].
  destruct raws as [es|].
  - destruct (rawAllLoop (names st) es index (rawFields B)) as [r slabs].
    destruct (Ok_lookup st _ B HOk HB) as [HOkB Hid].
    assert (H : Ok (setBlock st self (setRawFields B slabs))).
    { refine (Ok_setBlock st _ B _ (blocksAvail st) HOk HB _
                (OkBlock_slabs _ B _ _ HOkB)). reflexivity. }
    destruct r; exact H.
  - destruct (bool_decide _); exact HOk.
Qed.

Lemma refAll_Ok (fuel : nat) (st : Arena T) (self : nat) (p : Z)
    (refs : option Entries) :
  Ok st -> Ok (snd (refAll fuel st self p refs)).
Proof.
  intros HOk. revert self. induction fuel as [|fuel IH]; intros self; [exact HOk|].
  simpl. destruct (noNullPointer p _); [exact HOk|].
  destruct (blocks st !! self) as [B|] eqn:HB; [|exact HOk].
  destruct (negb (getBlockId (codec st) p =? blockId B)).
  - destruct (zlookup (blocks st) (getBlockId (codec st) p));
      [apply IH | exact HOk].
  - apply refAllHere_Ok; assumption.
Qed.

Lemma rawAll_Ok (fuel : nat) (st : Arena T) (self : nat) (p : Z)
    (raws : option Entries) :
  Ok st -> Ok (snd (rawAll fuel st self p raws)).
Proof.
  intros HOk. revert self. induction fuel as [|fuel IH]; intros self; [exact HOk|].
  simpl. destruct (noNullPointer p _); [exact HOk|].
  destruct (blocks st !! self) as [B|] eqn:HB; [|exact HOk].
  destruct (negb (getBlockId (codec st) p =? blockId B)).
  - destruct (zlookup (blocks st) (getBlockId (codec st) p));
      [apply IH | exact HOk].
  - apply rawAllHere_Ok; assumption.
Qed.

Lemma dropEmptyLoop_Ok (fuel : nat) (i : nat) (st : Arena T) :
  Ok st -> Ok (snd (dropEmptyLoop fuel st i)).
Proof.
  revert st. induction i as [|i IH]; intros st HOk; [exact HOk|].
  cbn [dropEmptyLoop].
  destruct (entryCount fuel st (S i) (Z.of_nat (S i))) as [n|e|]; try exact HOk.
  destruct (n =? 0); [|apply IH; exact HOk].
  pose proof (drop_Ok st (S i) HOk) as Hd.
  destruct (drop st (S i)) as [[[]|e|] st']; cbn [snd] in Hd;
    [apply IH; exact Hd | exact Hd | exact Hd].
Qed.

Lemma dropEmpty_Ok (fuel : nat) (st : Arena T) :
  Ok st -> Ok (snd (dropEmpty fuel st)).
Proof. apply dropEmptyLoop_Ok. Qed.

End MoreInvariant.

(** ** [blocksAvail] *)

Lemma elem_of_set_add (x y : nat) (s : list nat) :
  x ∈ set_add y s <-> x = y \/ x ∈ s.
Proof.
  unfold set_add. destruct (bool_decide_reflect (y ∈ s)) as [Hin|Hnin].
  - split; [auto | intros [->|H]; assumption].
  - rewrite elem_of_app, list_elem_of_singleton. tauto.
Qed.

Lemma elem_of_set_delete (x y : nat) (s : list nat) :
  x ∈ set_delete y s <-> x <> y /\ x ∈ s.
Proof. unfold set_delete. rewrite list_elem_of_filter. tauto. Qed.

Section Avail.

Context {T : Type}.
Variable uninit : nat -> nat -> Z.

Lemma AvailOk_spec (st : Arena T) :
  Ok st ->
  (AvailOk st <->
   (forall b, b ∈ blocksAvail st ->
      exists B, blocks st !! b = Some B /\
                hasSpace (blockSize (codec st)) B = true) /\
   (forall b B, blocks st !! b = Some B ->
      hasSpace (blockSize (codec st)) B = true -> b ∈ blocksAvail st)).
Proof.
  intros HOk. unfold AvailOk. rewrite !Forall_forall. split.
  - intros [H1 H2]. split.
    + intros b Hb. specialize (H1 b Hb).
      destruct (blocks st !! b) as [B|]; [|discriminate]. eauto.
    + intros b B HB Hs.
      destruct (Ok_lookup st b B HOk HB) as [_ Hid].
      specialize (H2 B ltac:(apply list_elem_of_lookup; eauto) Hs).
      rewrite Hid, Nat2Z.id in H2. exact H2.
  - intros [H1 H2]. split.
    + intros b Hb. destruct (H1 b Hb) as (B & -> & Hs). exact Hs.
    + intros B HB Hs. apply list_elem_of_lookup in HB as [b HB].
      destruct (Ok_lookup st b B HOk HB) as [_ Hid].
      rewrite Hid, Nat2Z.id. apply (H2 b B HB Hs).
Qed.

(** Replacing the block at [self]: [blocksAvail] stays right when
    [self] is in the new set exactly if the new block has room and
    nothing else moves. *)
Lemma AvailOk_setBlock (st : Arena T) (self : nat) (B B' : Block T)
    (avail : list nat) :
  Ok st -> AvailOk st -> blocks st !! self = Some B ->
  blockId B' = blockId B -> OkBlock (blockSize (codec st)) B' ->
  (self ∈ avail <-> hasSpace (blockSize (codec st)) B' = true) ->
  (forall b, b <> self -> (b ∈ avail <-> b ∈ blocksAvail st)) ->
  AvailOk (setAvail (setBlock st self B') avail).
Proof.
  intros HOk HA HB Hid HOkB Hself Hothers.
  pose proof (Ok_setBlock st self B B' avail HOk HB Hid HOkB) as HOk'.
  apply (AvailOk_spec st HOk) in HA as [H1 H2].
  apply (AvailOk_spec _ HOk'). cbn [setAvail setBlock blocks blocksAvail codec].
  assert (Hlt : (self < List.length (blocks st))%nat)
    by (apply lookup_lt_is_Some_1; eauto).
  split.
  - intros b Hb. destruct (Nat.eq_dec b self) as [->|Hne].
    + exists B'. split; [apply list_lookup_insert_eq; exact Hlt|].
      apply Hself. exact Hb.
    + rewrite list_lookup_insert_ne by congruence.
      apply H1. apply Hothers; assumption.
  - intros b B0 HB0 Hs. destruct (Nat.eq_dec b self) as [->|Hne].
    + rewrite list_lookup_insert_eq in HB0 by exact Hlt.
      inversion HB0; subst. apply Hself. exact Hs.
    + rewrite list_lookup_insert_ne in HB0 by congruence.
      apply Hothers; [exact Hne|]. apply (H2 b B0 HB0 Hs).
Qed.

Lemma allocHere_AvailOk (st : Arena T) (self : nat) (B : Block T) (v : T)
    (refs raws : option Entries) :
  Ok st -> AvailOk st -> blocks st !! self = Some B ->
  hasSpace (blockSize (codec st)) B = true ->
  AvailOk (snd (allocHere st self B v refs raws)).
Proof.
  clear uninit. intros HOk HA HB Hspace.
  destruct (allocHere st self B v refs raws) as [r st'] eqn:Halloc.
  destruct (allocHere_arena _ _ _ _ _ _ _ _ Halloc) as (F & R & ->).
  destruct (Ok_lookup st self B HOk HB) as [HOkB Hid].
  destruct (OkBlock_alloc _ B v F R HOkB Hspace)
    as (idx & Hidx & _ & _ & _ & HOk').
  rewrite Hidx in *. cbn [snd].
  pose proof (proj2 (proj1 (AvailOk_spec st HOk) HA) self B HB Hspace) as Hin.
  refine (AvailOk_setBlock st self B _ _ HOk HA HB _ HOk' _ _);
    [reflexivity | |].
  - unfold hasSpace. cbn [nextFree freeList].
    destruct (Stack.length (takeIndex B).1.2 =? 0) eqn:E1;
      destruct (Z.leb_spec (blockSize (codec st)) (takeIndex B).2) as [E2|E2];
      destruct (Z.ltb_spec (takeIndex B).2 (blockSize (codec st))) as [E3|E3];
      cbn [andb orb negb]; try lia;
      rewrite ?elem_of_set_delete; split; auto; try discriminate.
    intros [Hne _]. contradiction.
  - intros b Hne.
    destruct ((Stack.length (takeIndex B).1.2 =? 0)
              && (blockSize (codec st) <=? (takeIndex B).2));
      [rewrite elem_of_set_delete; tauto | tauto].
Qed.

Lemma free_AvailOk (fuel : nat) (st : Arena T) (self : nat) (pointer : Z) :
  Ok st -> AvailOk st -> AvailOk (snd (free fuel st self pointer)).
Proof.
  clear uninit. intros HOk HA. revert self.
  induction fuel as [|fuel IH]; intros self; [exact HA|].
  simpl. destruct (pointer =? 0); [exact HA|].
  destruct (blocks st !! self) as [B|] eqn:HB; [|exact HA].
  destruct (negb (getBlockId (codec st) pointer =? blockId B)).
  - destruct (zlookup (blocks st) (getBlockId (codec st) pointer));
      [apply IH | exact HA].
  - destruct (is_undefined (values B) (getIndex (codec st) pointer)) eqn:Hocc;
      [exact HA|].
    cbn [snd]. rewrite freeHere_freedBlock.
    destruct (Ok_lookup st self B HOk HB) as [HOkB Hid].
    destruct (Ok_codec st HOk) as (Hbs & _).
    destruct (OkBlock_free _ B _ HOkB ltac:(lia) Hocc) as (HOk' & _ & Hs & _).
    refine (AvailOk_setBlock st self B _ _ HOk HA HB _ HOk' _ _).
    + apply blockId_freedBlock.
    + rewrite elem_of_set_add. split; auto.
    + intros b Hne. rewrite elem_of_set_add. tauto.
Qed.

Lemma PointerSetBlock_AvailOk (st : Arena T) :
  Ok st -> AvailOk st -> 1 <= blockSize (codec st) ->
  AvailOk (snd (PointerSetBlock uninit st)).
Proof.
  intros HOk HA Hbs.
  pose proof (PointerSetBlock_Ok uninit st HOk) as HOk'.
  revert HOk'. unfold PointerSetBlock.
  destruct (negb _); [intros _; exact HA|].
  destruct (Z.ltb_spec (blockSize (codec st)) 0); [lia|]. cbn [snd].
  intros HOk'.
  apply (AvailOk_spec st HOk) in HA as [H1 H2].
  apply (AvailOk_spec _ HOk'). cbn [blocks blocksAvail codec].
  split.
  - intros b Hb. apply elem_of_set_add in Hb as [->|Hb].
    + eexists. split; [apply list_lookup_middle; reflexivity|].
      unfold hasSpace. cbn [nextFree].
      destruct (Z.ltb_spec 0 (blockSize (codec st))); [reflexivity | lia].
    + destruct (H1 b Hb) as (B & HB & Hs). exists B. split; [|exact Hs].
      rewrite lookup_app_l; [exact HB|]. apply lookup_lt_is_Some_1. eauto.
  - intros b B HB Hs. apply elem_of_set_add.
    destruct (Nat.lt_ge_cases b (List.length (blocks st))) as [Hlt|Hge].
    + right. rewrite lookup_app_l in HB by exact Hlt. apply (H2 b B HB Hs).
    + left. apply lookup_lt_Some in HB. rewrite length_app in HB.
      simpl in HB. lia.
Qed.

(** [alloc] keeps [blocksAvail] right. *)
Lemma alloc_AvailOk (fuel : nat) (st : Arena T) (self : nat) (v : T)
    (refs raws : option Entries) :
  Ok st -> AvailOk st -> 1 <= blockSize (codec st) ->
  AvailOk (snd (alloc uninit fuel st self v refs raws)).
Proof.
  revert st self. induction fuel as [|fuel IH]; intros st self HOk HA Hbs;
    [exact HA|].
  simpl. destruct (blocks st !! self) as [B|] eqn:HB; [|exact HA].
  destruct ((nextFree B <? blockSize (codec st))
            || negb (Stack.length (freeList B) =? 0)) eqn:Hspace.
  - apply allocHere_AvailOk; assumption.
  - destruct (blocksAvail st) as [|b rest]; [|apply IH; assumption].
    pose proof (PointerSetBlock_Ok uninit st HOk) as HOk1.
    pose proof (PointerSetBlock_AvailOk st HOk HA Hbs) as HA1.
    assert (Hc : codec (snd (PointerSetBlock uninit st)) = codec st).
    { unfold PointerSetBlock.
      destruct (negb (Z.of_nat (List.length (blocks st)) =? _)); [reflexivity|].
      destruct (blockSize (codec st) <? 0); reflexivity. }
    destruct (PointerSetBlock uninit st) as [[b|e|] st1]; cbn [snd] in *;
      try exact HA1.
    apply IH; try assumption. rewrite Hc. exact Hbs.
Qed.

End Avail.

Section AvailMore.

Context {T : Type}.
Variable uninit : nat -> nat -> Z.

Lemma PointerSet_AvailOk (fs : list string) (bs : Z) (rs : option (list string))
    (st : Arena T) :
  PointerSet uninit fs bs rs = Return st -> 2 <= bs -> AvailOk st.
Proof.
  intros Hst Hbs. pose proof (PointerSet_Ok uninit _ _ _ _ Hst) as HOk.
  destruct (PointerSet_shape uninit _ _ _ _ Hst)
    as (B & HB & Hv & Hnf & Hid & Hfnf & Hfl & Hav & Hsz & Hc).
  apply (AvailOk_spec st HOk). rewrite HB, Hav, Hsz.
  assert (Hs : hasSpace bs B = true).
  { unfold hasSpace. rewrite Hnf.
    destruct (Z.ltb_spec 1 bs); [reflexivity | lia]. }
  split.
  - intros b Hb. apply list_elem_of_singleton in Hb. subst b.
    exists B. split; [reflexivity | exact Hs].
  - intros b B0 HB0 _. destruct b as [|b]; [|destruct b; discriminate].
    apply list_elem_of_singleton. reflexivity.
Qed.

(** A block whose counters do not change keeps its place in
    [blocksAvail]. *)
End AvailMore.

Section AvailDrop.

Context {T : Type}.

Lemma AvailOk_slabs (st : Arena T) (self : nat) (B B' : Block T) :
  Ok st -> AvailOk st -> blocks st !! self = Some B ->
  blockId B' = blockId B -> OkBlock (blockSize (codec st)) B' ->
  hasSpace (blockSize (codec st)) B' = hasSpace (blockSize (codec st)) B ->
  AvailOk (setBlock st self B').
Proof.
  intros HOk HA HB Hid HOkB Hs.
  apply (AvailOk_setBlock st self B B' (blocksAvail st) HOk HA HB Hid HOkB);
    [|tauto].
  rewrite Hs. apply (AvailOk_spec st HOk) in HA as [H1 H2]. split.
  - intros Hin. destruct (H1 self Hin) as (B0 & HB0 & Hs0). congruence.
  - apply (H2 self B HB).
Qed.

Lemma wipeBlock_AvailOk (st : Arena T) (self : nat) :
  Ok st -> AvailOk st -> 2 <= blockSize (codec st) ->
  AvailOk (snd (wipeBlock st self)).
Proof.
  intros HOk HA Hbs. unfold wipeBlock.
  destruct (blocks st !! self) as [B|] eqn:HB; [|exact HA].
  cbn [snd]. destruct (Ok_lookup st self B HOk HB) as [HOkB Hid].
  refine (AvailOk_setBlock st self B _ _ HOk HA HB _
            (OkBlock_reset _ B _ _ HOkB) _ _); [reflexivity | |].
  - rewrite elem_of_set_add. split; [intros _|auto].
    unfold hasSpace. cbn [nextFree].
    destruct HOkB as (Hb & _).
    destruct (Z.ltb_spec (firstNextFree B) (blockSize (codec st)));
      [reflexivity|]. rewrite Hb in *. destruct (blockId B =? 0); lia.
  - intros b Hne. rewrite elem_of_set_add. tauto.
Qed.

Lemma erase_AvailOk (fuel : nat) (st : Arena T) (self : nat) (pointer : Z) :
  Ok st -> AvailOk st -> AvailOk (snd (erase fuel st self pointer)).
Proof.
  intros HOk HA. revert self.
  induction fuel as [|fuel IH]; intros self; [exact HA|].
  simpl. destruct (pointer =? 0); [exact HA|].
  destruct (blocks st !! self) as [B|] eqn:HB; [|exact HA].
  destruct (negb (getBlockId (codec st) pointer =? blockId B)).
  - destruct (zlookup (blocks st) (getBlockId (codec st) pointer));
      [apply IH | exact HA].
  - destruct (is_undefined (values B) (getIndex (codec st) pointer));
      [exact HA|].
    pose proof (free_Ok fuel st self pointer HOk) as HOk'.
    pose proof (free_AvailOk fuel st self pointer HOk HA) as HA'.
    destruct (free fuel st self pointer) as [[[]|e|] st']; cbn [snd] in *;
      try exact HA'.
    destruct (blocks st' !! self) as [B'|] eqn:HB'; [|exact HA'].
    cbn [snd]. destruct (Ok_lookup st' self B' HOk' HB') as [HOkB' Hid'].
    refine (AvailOk_slabs st' self B' _ HOk' HA' HB' _
              (OkBlock_slabs _ B' _ _ HOkB') _); reflexivity.
Qed.

Lemma drop_AvailOk (st : Arena T) (self : nat) :
  Ok st -> AvailOk st -> 2 <= blockSize (codec st) ->
  AvailOk (snd (drop st self)).
Proof.
  intros HOk HA Hbs. pose proof (drop_Ok st self HOk) as HOk'.
  revert HOk'. unfold drop.
  destruct (blocks st !! self) as [B|] eqn:HB; [|intros _; exact HA].
  destruct (Z.eqb_spec (blockId B) (Z.of_nat (List.length (blocks st)) - 1))
    as [Hlast|Hnl]; cbn [negb]; [|intros _; exact HA].
  destruct (Z.eqb_spec (blockId B) 0) as [Hz|Hnz];
    [intros _; apply wipeBlock_AvailOk; assumption|].
  cbn [snd]. intros HOk'.
  destruct (Ok_lookup st self B HOk HB) as [HOkB Hid].
  apply (AvailOk_spec st HOk) in HA as [H1 H2].
  apply (AvailOk_spec _ HOk'). cbn [blocks blocksAvail codec].
  rewrite removelast_take. split.
  - intros b Hb. apply elem_of_set_delete in Hb as [Hne Hb].
    destruct (H1 b Hb) as (B0 & HB0 & Hs). exists B0. split; [|exact Hs].
    apply lookup_lt_Some in HB0 as Hlt.
    rewrite lookup_take_lt by lia. exact HB0.
  - intros b B0 HB0 Hs.
    destruct (Nat.lt_ge_cases b (List.length (blocks st) - 1)) as [Hlt|Hge].
    + rewrite lookup_take_lt in HB0 by exact Hlt.
      apply elem_of_set_delete. split; [lia | apply (H2 b B0 HB0 Hs)].
    + rewrite lookup_take_ge in HB0 by exact Hge. discriminate.
Qed.

End AvailDrop.


(** ** Pointers of an arena that satisfies the invariant *)

Lemma getPointer_decode (c : Codec) (b i : Z) :
  (shift c = 8 /\ mask c = 255 /\ shiftDownFix c = 16777216) \/
  (shift c = 16 /\ mask c = 65535 /\ shiftDownFix c = 65536) ->
  shiftUpFix c = 4294967296 ->
  0 <= b < shiftDownFix c -> 0 <= i <= mask c ->
  getBlockId c (getPointer c b i) = b /\ getIndex c (getPointer c b i) = i.
Proof.
  intros Hcases Hup Hb Hi.
  assert (Hgen : exists s N, shift c = s /\ (s = 8 \/ s = 16) /\
            mask c = 2 ^ s - 1 /\ shiftDownFix c = N /\
            N * 2 ^ s = 4294967296 /\ b < N /\ i < 2 ^ s).
  { destruct Hcases as [(H2 & H3 & H4)|(H2 & H3 & H4)].
    - exists 8, 16777216. rewrite H2, H3, H4 in *.
      repeat apply conj; try reflexivity; try lia.
    - exists 16, 65536. rewrite H2, H3, H4 in *.
      repeat apply conj; try reflexivity; try lia. }
  destruct Hgen as (s & N & Hs & Hs' & Hmask & Hdown & HN & HbN & His).
  assert (Hpow : 0 < 2 ^ s) by (apply Z.pow_pos_nonneg; lia).
  rewrite getPointer_int32; rewrite ?Hs; try assumption; try lia; try nia.
  set (x := b * 2 ^ s + i).
  assert (Hx : 0 <= x < 4294967296) by (unfold x; nia).
  assert (Hsh : Z.land (JS.ToUint32 s) 31 = s).
  { destruct Hs' as [-> | ->]; reflexivity. }
  assert (Hdivmod : forall k, (k * 2 ^ s + i) / 2 ^ s = k /\ (k * 2 ^ s + i) mod 2 ^ s = i).
  { intros k. split.
    - rewrite Z.div_add_l by lia. rewrite Z.div_small; lia.
    - rewrite Z.add_comm, Z.mod_add by lia. apply Z.mod_small; lia. }
  unfold getBlockId, getIndex, JS.sar, JS.band.
  rewrite Hs, Hmask, Hdown, Hsh.
  pose proof (ToInt32_range x) as Hr.
  rewrite (ToInt32_small (JS.ToInt32 x)) by exact Hr.
  assert (Hm : JS.ToInt32 (2 ^ s - 1) = 2 ^ s - 1).
  { apply ToInt32_small. destruct Hs' as [-> | ->]; simpl; lia. }
  rewrite Hm, Z.shiftr_div_pow2 by lia.
  replace (2 ^ s - 1) with (Z.ones s) by (rewrite Z.ones_equiv; lia).
  rewrite Z.land_ones by lia.
  destruct (ToInt32_cases x Hx) as [[H1 E1]|[H1 E1]]; rewrite E1.
  - unfold x. destruct (Hdivmod b) as [-> ->].
    destruct (Z.leb_spec 0 b); [split; reflexivity | lia].
  - replace (x - 4294967296) with ((b - N) * 2 ^ s + i) by (unfold x; lia).
    destruct (Hdivmod (b - N)) as [-> ->].
    destruct (Z.leb_spec 0 (b - N)); [lia | split; [lia | reflexivity]].
Qed.

Section Pointers.

Context {T : Type}.

Lemma Ok_decode (st : Arena T) (self : nat) (B : Block T) (i : Z) :
  Ok st -> blocks st !! self = Some B -> 0 <= i < blockSize (codec st) ->
  getBlockId (codec st) (getPointer (codec st) (blockId B) i) = Z.of_nat self /\
  getIndex (codec st) (getPointer (codec st) (blockId B) i) = i.
Proof.
  intros HOk HB Hi. destruct (Ok_lookup st self B HOk HB) as [_ Hid].
  destruct (Ok_codec st HOk) as (Hbs & Hc & Hup).
  pose proof HOk as (_ & _ & _ & Hlen & _).
  apply lookup_lt_Some in HB. rewrite Hid.
  apply getPointer_decode; [| exact Hup | |].
  - destruct Hc as [(_ & H1 & H2 & _ & H3)|(_ & H1 & H2 & _ & H3)];
      [left | right]; auto.
  - destruct Hc as [(_ & _ & _ & H1 & H3)|(_ & _ & _ & H1 & H3)]; lia.
  - destruct Hc as [(H0 & _ & H2 & _)|(H0 & _ & H2 & _)]; lia.
Qed.

End Pointers.

(** ** What [alloc] returns *)

Section AllocOutcome.

Context {T : Type}.
Variable uninit : nat -> nat -> Z.

Lemma refWrites_outcome (nm : gmap string Z) (es : Entries)
    (w : list (option Z)) :
  match refWrites nm es w with
  | Return _ => True
  | Throw e => fieldError e = true
  | Overflow => False
  end.
Proof.
  revert w. induction es as [|[k p] es IH]; intros w; simpl; [exact I|].
  destruct (nm !! k) as [id|]; [|reflexivity].
  destruct (id <? 0); [reflexivity | apply IH].
Qed.

Lemma rawWrites_outcome (nm : gmap string Z) (es : Entries)
    (w : list (option Z)) :
  match rawWrites nm es w with
  | Return _ => True
  | Throw e => fieldError e = true
  | Overflow => False
  end.
Proof.
  revert w. induction es as [|[k p] es IH]; intros w; simpl; [exact I|].
  destruct (nm !! k) as [id|]; [|reflexivity].
  destruct (0 <=? id); [reflexivity | apply IH].
Qed.

Lemma storeAll_outcome (w : list (option Z)) (slabs : list (list Z))
    (index : option Z) :
  fst (storeAll w slabs index) = Return tt \/
  fst (storeAll w slabs index) = Throw errUndefined.
Proof.
  revert slabs. induction w as [|x w IH]; intros slabs; simpl; [left; reflexivity|].
  destruct slabs as [|slab slabs]; [right; reflexivity|].
  specialize (IH slabs). destruct (storeAll w slabs index) as [r rest].
  exact IH.
Qed.

Lemma allocHere_outcome (st : Arena T) (self : nat) (B : Block T) (v : T)
    (refs raws : option Entries) :
  match fst (allocHere st self B v refs raws) with
  | Return p =>
      p = getPointer (codec st) (blockId B)
            (number_or_undefined (takeIndex B).1.1)
  | Throw e => fieldError e = true \/ e = errUndefined
  | Overflow => False
  end.
Proof.
  unfold allocHere. destruct (takeIndex B) as [[index fl] nf]. cbn [fst snd].
  pose proof (refWrites_outcome (names st)) as Hrefs.
  pose proof (rawWrites_outcome (names st)) as Hraws.
  assert (H1 : match (match refs with
            | Some es => refWrites (names st) es (map (fun _ => Some 0) (fields B))
            | None => Return (map (fun _ => Some 0) (fields B))
            end) with Return _ => True | Throw e => fieldError e = true
                 | Overflow => False end).
  { destruct refs; [apply Hrefs | exact I]. }
  destruct (match refs with
            | Some es => refWrites (names st) es (map (fun _ => Some 0) (fields B))
            | None => Return (map (fun _ => Some 0) (fields B))
            end) as [writes|e1|]; cbn [fst]; [|left; exact H1|exact H1].
  pose proof (storeAll_outcome writes (fields B) index) as H2.
  destruct (storeAll writes (fields B) index) as [r1 slabs]. cbn [fst] in H2.
  destruct H2 as [-> | ->]; [|cbn [fst]; right; reflexivity].
  assert (H3 : match (match raws with
            | Some es => rawWrites (names st) es (map (fun _ => Some 0) (rawFields B))
            | None => Return (map (fun _ => Some 0) (rawFields B))
            end) with Return _ => True | Throw e => fieldError e = true
                 | Overflow => False end).
  { destruct raws; [apply Hraws | exact I]. }
  destruct (match raws with
            | Some es => rawWrites (names st) es (map (fun _ => Some 0) (rawFields B))
            | None => Return (map (fun _ => Some 0) (rawFields B))
            end) as [rws|e3|]; cbn [fst]; [|left; exact H3|exact H3].
  pose proof (storeAll_outcome rws (rawFields B) index) as H4.
  destruct (storeAll rws (rawFields B) index) as [r2 rslabs]. cbn [fst] in H4.
  destruct H4 as [-> | ->]; cbn [fst]; [reflexivity | right; reflexivity].
Qed.

Lemma allocHere_plain (st : Arena T) (self : nat) (B : Block T) (v : T) :
  fst (allocHere st self B v None None)
  = Return (getPointer (codec st) (blockId B)
              (number_or_undefined (takeIndex B).1.1)).
Proof.
  unfold allocHere. destruct (takeIndex B) as [[index fl] nf]. cbn [fst snd].
  pose proof (storeAll_aligned (map (fun _ => Some 0) (fields B)) (fields B) index)
    as H1.
  rewrite length_map in H1. specialize (H1 (Nat.le_refl _)).
  destruct (storeAll (map (fun _ => Some 0) (fields B)) (fields B) index)
    as [r1 slabs]. cbn [fst] in H1. subst r1.
  pose proof (storeAll_aligned (map (fun _ => Some 0) (rawFields B))
                (rawFields B) index) as H2.
  rewrite length_map in H2. specialize (H2 (Nat.le_refl _)).
  destruct (storeAll (map (fun _ => Some 0) (rawFields B)) (rawFields B) index)
    as [r2 rslabs]. cbn [fst] in H2. subst r2. reflexivity.
Qed.

(** How [alloc] finds the block that takes the entry. *)
Lemma alloc_route (fuel : nat) (st : Arena T) (self : nat) (B0 : Block T)
    (v : T) (refs raws : option Entries) :
  Ok st -> AvailOk st -> 1 <= blockSize (codec st) ->
  blocks st !! self = Some B0 ->
  (exists b B, blocks st !! b = Some B /\
     hasSpace (blockSize (codec st)) B = true /\
     alloc uninit (S (S fuel)) st self v refs raws
     = allocHere st b B v refs raws) \/
  (Forall (fun B => hasSpace (blockSize (codec st)) B = false) (blocks st) /\
   ((Z.of_nat (List.length (blocks st)) = blockIdMask (codec st) + 1 /\
     alloc uninit (S (S fuel)) st self v refs raws = (Throw errOutOfMemory, st)) \/
    (exists st1 B,
       PointerSetBlock uninit st = (Return (List.length (blocks st)), st1) /\
       Ok st1 /\ AvailOk st1 /\ codec st1 = codec st /\
       blocks st1 = blocks st ++ [B] /\
       values B = [] /\ nextFree B = 0 /\ Stack.length (freeList B) = 0 /\
       hasSpace (blockSize (codec st)) B = true /\
       alloc uninit (S (S fuel)) st self v refs raws
       = allocHere st1 (List.length (blocks st)) B v refs raws))).
Proof.
  intros HOk HA Hbs HB0.
  destruct (proj1 (AvailOk_spec st HOk) HA) as [H1 H2].
  cbn [alloc]. rewrite HB0.
  destruct ((nextFree B0 <? blockSize (codec st))
            || negb (Stack.length (freeList B0) =? 0)) eqn:Hs0.
  { left. exists self, B0. auto. }
  destruct (blocksAvail st) as [|b rest] eqn:Hav.
  - right. split.
    { apply Forall_forall. intros B HB.
      apply list_elem_of_lookup in HB as [i HB].
      destruct (hasSpace (blockSize (codec st)) B) eqn:Hs; [|reflexivity].
      pose proof (H2 i B HB Hs) as Hin. inversion Hin. }
    pose proof (PointerSetBlock_Ok uninit st HOk) as HOk1.
    pose proof (PointerSetBlock_AvailOk uninit st HOk HA Hbs) as HA1.
    pose proof HOk as (_ & _ & _ & Hlen & _).
    revert HOk1 HA1. unfold PointerSetBlock.
    destruct (Z.eqb_spec (Z.of_nat (List.length (blocks st)))
                (JS.band (Z.of_nat (List.length (blocks st)))
                   (blockIdMask (codec st)))) as [Heq|Hne]; cbn [negb].
    + destruct (Z.ltb_spec (blockSize (codec st)) 0); [lia|].
      cbn [snd]. intros HOk1 HA1. right.
      eexists _, _. split; [reflexivity|].
      split; [exact HOk1|]. split; [exact HA1|].
      cbn [blocks codec values nextFree freeList].
      split; [reflexivity|]. split; [reflexivity|].
      split; [reflexivity|]. split; [reflexivity|].
      split; [reflexivity|].
      assert (Hsp : forall R F fl, hasSpace (T := T) (blockSize (codec st))
                 {| values := []; nextFree := 0;
                    blockId := Z.of_nat (List.length (blocks st));
                    firstNextFree := 0; fields := F; rawFields := R;
                    freeList := fl |} = true).
      { intros. unfold hasSpace. cbn [nextFree].
        destruct (Z.ltb_spec 0 (blockSize (codec st))); [reflexivity|lia]. }
      split; [apply Hsp|].
      rewrite list_lookup_middle by reflexivity.
      cbn [nextFree freeList codec].
      destruct (Z.ltb_spec 0 (blockSize (codec st))); [|lia].
      reflexivity.
    + intros _ _. left. split; [|reflexivity].
      assert (Hle : ~ Z.of_nat (List.length (blocks st))
                      <= blockIdMask (codec st)).
      { intros Hle. apply Hne.
        destruct (Ok_codec st HOk) as (_ & Hc & _).
        unfold JS.band.
        assert (Hm : exists s, blockIdMask (codec st) = Z.ones s /\ 0 <= s
                     /\ Z.ones s < 2147483648).
        { destruct Hc as [(_ & _ & _ & -> & _)|(_ & _ & _ & -> & _)];
            [exists 24 | exists 16]; repeat apply conj; try reflexivity; lia. }
        destruct Hm as (s & Hm & Hs & Hlt). rewrite Hm in *.
        rewrite !ToInt32_small by lia.
        rewrite Z.land_ones by lia. symmetry. apply Z.mod_small.
        rewrite Z.ones_equiv in Hle. lia. }
      lia.
  - left. assert (Hin : b ∈ b :: rest) by left.
    destruct (H1 b Hin) as (B & HB & Hs). exists b, B.
    split; [exact HB|]. split; [exact Hs|].
    cbn [alloc]. rewrite HB. unfold hasSpace in Hs. rewrite Hs. reflexivity.
Qed.

End AllocOutcome.

Section AllocSpec.

Context {T : Type}.
Variable uninit : nat -> nat -> Z.

Lemma allocHere_spec (st : Arena T) (self : nat) (B : Block T) (v : T)
    (refs raws : option Entries) :
  Ok st -> blocks st !! self = Some B ->
  hasSpace (blockSize (codec st)) B = true ->
  exists idx B',
    (takeIndex B).1.1 = Some idx /\
    firstNextFree B <= idx < blockSize (codec st) /\
    is_undefined (values B) idx = true /\
    blocks (snd (allocHere st self B v refs raws)) = <[self := B']> (blocks st) /\
    codec (snd (allocHere st self B v refs raws)) = codec st /\
    names (snd (allocHere st self B v refs raws)) = names st /\
    values B' = array_set (values B) (Some idx) (Some v) /\
    blockId B' = blockId B /\
    entries B' = entries B + 1.
Proof.
  clear uninit. intros HOk HB Hs.
  destruct (allocHere st self B v refs raws) as [r st'] eqn:Halloc.
  destruct (allocHere_arena _ _ _ _ _ _ _ _ Halloc) as (F & R & ->).
  destruct (Ok_lookup st self B HOk HB) as [HOkB Hid].
  destruct (OkBlock_alloc _ B v F R HOkB Hs)
    as (idx & Hidx & Hrange & Hund & Hent & _).
  rewrite Hidx. eexists idx, _. cbn [snd blocks codec names].
  split; [reflexivity|]. split; [exact Hrange|]. split; [exact Hund|].
  split; [reflexivity|]. split; [reflexivity|]. split; [reflexivity|].
  cbn [values blockId]. split; [reflexivity|]. split; [reflexivity|].
  unfold entries at 1. cbn [nextFree freeList]. lia.
Qed.

Lemma sumEntries_snoc (bl : list (Block T)) (B : Block T) :
  sumEntries (bl ++ [B]) = sumEntries bl + entries B.
Proof. rewrite sumEntries_app. unfold sumEntries at 2. simpl. lia. Qed.

(** The effect of [alloc] on an arena that satisfies the invariants:
    either the arena is full and has all its blocks, or one slot [idx]
    of one block [b] that held no value now holds [v]. [Bold] is the
    block before: the block at [b], or the new block. *)
Lemma alloc_spec (fuel : nat) (st : Arena T) (self : nat) (v : T)
    (refs raws : option Entries) :
  Ok st -> AvailOk st -> 1 <= blockSize (codec st) ->
  is_Some (blocks st !! self) ->
  (alloc uninit (S (S fuel)) st self v refs raws = (Throw errOutOfMemory, st) /\
   Forall (fun B => hasSpace (blockSize (codec st)) B = false) (blocks st) /\
   Z.of_nat (List.length (blocks st)) = blockIdMask (codec st) + 1) \/
  (exists (b : nat) (idx : Z) (Bold B' : Block T),
     let r := alloc uninit (S (S fuel)) st self v refs raws in
     ((blocks st !! b = Some Bold /\
       hasSpace (blockSize (codec st)) Bold = true /\
       blocks (snd r) = <[b := B']> (blocks st)) \/
      (b = List.length (blocks st) /\
       Forall (fun B => hasSpace (blockSize (codec st)) B = false) (blocks st) /\
       Z.of_nat (List.length (blocks st)) <= blockIdMask (codec st) /\
       values Bold = [] /\ entries Bold = 0 /\
       blocks (snd r) = blocks st ++ [B'])) /\
     codec (snd r) = codec st /\
     names (snd r) = names st /\
     blockId B' = Z.of_nat b /\
     (b = 0%nat -> 1 <= idx) /\
     0 <= idx < blockSize (codec st) /\
     is_undefined (values Bold) idx = true /\
     values B' = array_set (values Bold) (Some idx) (Some v) /\
     entries B' = entries Bold + 1 /\
     match fst r with
     | Return p => p = getPointer (codec st) (Z.of_nat b) idx
     | Throw e => fieldError e = true \/ e = errUndefined
     | Overflow => False
     end /\
     (refs = None -> raws = None ->
      fst r = Return (getPointer (codec st) (Z.of_nat b) idx)) /\
     getBlockId (codec st) (getPointer (codec st) (Z.of_nat b) idx) = Z.of_nat b /\
     getIndex (codec st) (getPointer (codec st) (Z.of_nat b) idx) = idx).
Proof.
  intros HOk HA Hbs [B0 HB0].
  destruct (alloc_route uninit fuel st self B0 v refs raws HOk HA Hbs HB0)
    as [(b & B & HB & Hs & Heq)|(Hfull & [[Hlen Heq]|Hnew])].
  - right. rewrite Heq.
    destruct (allocHere_spec st b B v refs raws HOk HB Hs)
      as (idx & B' & Hidx & Hrange & Hund & Hbl & Hc & Hn & Hv & Hid & Hent).
    destruct (Ok_lookup st b B HOk HB) as [HOkB HidB].
    pose proof HOkB as (Hfnf & _).
    exists b, idx, B, B'. cbn zeta.
    pose proof (allocHere_outcome st b B v refs raws) as Hout.
    pose proof (allocHere_plain st b B v) as Hplain.
    rewrite Hidx in Hout, Hplain. cbn [number_or_undefined default] in Hout, Hplain.
    rewrite HidB in Hout, Hplain.
    destruct (Ok_decode st b B idx HOk HB) as [Hd1 Hd2].
    { rewrite Hfnf in Hrange. destruct (blockId B =? 0); lia. }
    rewrite HidB in Hd1, Hd2.
    split; [left; auto|]. split; [exact Hc|]. split; [exact Hn|].
    split; [congruence|]. split.
    { intros ->. rewrite Hfnf, HidB in Hrange. simpl in Hrange. lia. }
    split. { rewrite Hfnf in Hrange. destruct (blockId B =? 0); lia. }
    split; [exact Hund|]. split; [exact Hv|]. split; [exact Hent|].
    split; [exact Hout|]. split; [|split; assumption].
    intros -> ->. exact Hplain.
  - left. auto.
  - destruct Hnew as (st1 & B & HPSB & HOk1 & HA1 & Hc1 & Hbl1 & Hval & Hnf
                      & Hfl & Hs & Heq).
    right. rewrite Heq.
    assert (HB : blocks st1 !! List.length (blocks st) = Some B).
    { rewrite Hbl1. apply list_lookup_middle. reflexivity. }
    rewrite <- Hc1 in Hs.
    destruct (allocHere_spec st1 _ B v refs raws HOk1 HB Hs)
      as (idx & B' & Hidx & Hrange & Hund & Hbl & Hc & Hn & Hv & Hid & Hent).
    destruct (Ok_lookup st1 _ B HOk1 HB) as [HOkB HidB].
    pose proof HOkB as (Hfnf & _).
    exists (List.length (blocks st)), idx, B, B'. cbn zeta.
    pose proof (allocHere_outcome st1 (List.length (blocks st)) B v refs raws)
      as Hout.
    pose proof (allocHere_plain st1 (List.length (blocks st)) B v) as Hplain.
    rewrite Hidx in Hout, Hplain. cbn [number_or_undefined default] in Hout, Hplain.
    rewrite HidB in Hout, Hplain.
    destruct (Ok_decode st1 _ B idx HOk1 HB) as [Hd1 Hd2].
    { rewrite Hfnf in Hrange. destruct (blockId B =? 0); lia. }
    rewrite HidB in Hd1, Hd2. rewrite Hc1 in *.
    assert (Hnames : names st1 = names st).
    { revert HPSB. unfold PointerSetBlock.
      destruct (negb _); [intros H; inversion H; reflexivity|].
      destruct (blockSize (codec st) <? 0); intros H; inversion H; reflexivity. }
    pose proof HOk as (_ & _ & Hpos & _).
    pose proof HOk1 as (_ & _ & _ & Hlen1 & _).
    rewrite Hbl1, length_app in Hlen1. simpl in Hlen1. rewrite Hc1 in Hlen1.
    split.
    { right. split; [reflexivity|]. split; [exact Hfull|].
      split; [lia|]. split; [exact Hval|]. split; [unfold entries; lia|].
      rewrite Hbl, Hbl1.
      rewrite insert_app_r_alt by lia. rewrite Nat.sub_diag. reflexivity. }
    split; [exact Hc|]. split; [congruence|].
    split; [congruence|]. split; [intros H0; lia|].
    split. { rewrite Hfnf in Hrange. destruct (blockId B =? 0); lia. }
    split; [exact Hund|]. split; [exact Hv|]. split; [exact Hent|].
    split; [exact Hout|]. split; [|split; assumption].
    intros -> ->. exact Hplain.
Qed.

End AllocSpec.

(** ** Reading a value; the block that owns a pointer *)

Section Owner.

Context {T : Type}.

Lemma value_read (st : Arena T) (p : Z) :
  p <> 0 ->
  fst (value st p None)
  = match zlookup (blocks st) (getBlockId (codec st) p) with
    | Some B => Return (mjoin (zlookup (values B) (getIndex (codec st) p)))
    | None => Throw errUndefined
    end.
Proof.
  intros Hp. unfold value, noNullPointer.
  destruct (Z.eqb_spec p 0); [contradiction|].
  destruct (zlookup (blocks st) (getBlockId (codec st) p)); reflexivity.
Qed.

Lemma value_null (st : Arena T) : fst (value st 0 None) = Throw errReadNull.
Proof. reflexivity. Qed.

Lemma value_occupied (st : Arena T) (p : Z) (w : T) :
  fst (value st p None) = Return (Some w) ->
  p <> 0 /\
  exists B, zlookup (blocks st) (getBlockId (codec st) p) = Some B /\
    mjoin (zlookup (values B) (getIndex (codec st) p)) = Some w /\
    is_undefined (values B) (getIndex (codec st) p) = false.
Proof.
  intros H. assert (Hp : p <> 0).
  { intros ->. rewrite value_null in H. discriminate. }
  split; [exact Hp|]. rewrite value_read in H by exact Hp.
  destruct (zlookup (blocks st) (getBlockId (codec st) p)) as [B|];
    [|discriminate].
  exists B. split; [reflexivity|]. inversion H as [H1]. split; [reflexivity|].
  rewrite is_undefined_mjoin, H1. reflexivity.
Qed.

Lemma value_unoccupied (st : Arena T) (p : Z) :
  fst (value st p None) = Return None ->
  p <> 0 /\
  exists B, zlookup (blocks st) (getBlockId (codec st) p) = Some B /\
    is_undefined (values B) (getIndex (codec st) p) = true.
Proof.
  intros H. assert (Hp : p <> 0).
  { intros ->. rewrite value_null in H. discriminate. }
  split; [exact Hp|]. rewrite value_read in H by exact Hp.
  destruct (zlookup (blocks st) (getBlockId (codec st) p)) as [B|];
    [|discriminate].
  exists B. split; [reflexivity|]. inversion H as [H1].
  rewrite is_undefined_mjoin, H1. reflexivity.
Qed.

Lemma free_owner (fuel : nat) (st : Arena T) (self : nat) (p : Z)
    (B : Block T) :
  p <> 0 -> wf st = true -> is_Some (blocks st !! self) ->
  zlookup (blocks st) (getBlockId (codec st) p) = Some B ->
  free (S (S fuel)) st self p
  = if is_undefined (values B) (getIndex (codec st) p) then (Return tt, st)
    else (Return tt,
          freeHere st (Z.to_nat (getBlockId (codec st) p)) B
            (getIndex (codec st) p)).
Proof.
  intros Hp Hwf [Bs HBs] Ho.
  destruct (owner_spec st p B Hwf Ho) as [HB Hid].
  cbn [free]. destruct (Z.eqb_spec p 0); [contradiction|]. rewrite HBs.
  destruct (Z.eqb_spec (getBlockId (codec st) p) (blockId Bs)) as [Heq|Hne];
    cbn [negb].
  - pose proof (wfBlocks_lookup _ 0 _ Bs Hwf HBs) as HwB.
    apply wfBlock_spec in HwB as (HidBs & _). simpl in HidBs.
    assert (Hself : self = Z.to_nat (getBlockId (codec st) p)) by lia.
    subst self. assert (Bs = B) by congruence. subst Bs. reflexivity.
  - rewrite Ho, HB, Hid, Z.eqb_refl. reflexivity.
Qed.

Lemma freeHere_lookup (st : Arena T) (self : nat) (B : Block T) (index : Z) :
  blocks st !! self = Some B ->
  blocks (freeHere st self B index) !! self = Some (freedBlock B index).
Proof.
  intros HB. rewrite freeHere_freedBlock. cbn [blocks setAvail setBlock].
  apply list_lookup_insert_eq. apply lookup_lt_Some in HB. exact HB.
Qed.

Lemma erase_owner (fuel : nat) (st : Arena T) (self : nat) (p : Z)
    (B : Block T) :
  p <> 0 -> wf st = true -> is_Some (blocks st !! self) ->
  zlookup (blocks st) (getBlockId (codec st) p) = Some B ->
  erase (S (S (S fuel))) st self p
  = if is_undefined (values B) (getIndex (codec st) p) then (Return tt, st)
    else (Return tt,
          setBlock (freeHere st (Z.to_nat (getBlockId (codec st) p)) B
                      (getIndex (codec st) p))
            (Z.to_nat (getBlockId (codec st) p))
            (erasedBlock B (getIndex (codec st) p))).
Proof.
  intros Hp Hwf [Bs HBs] Ho.
  destruct (owner_spec st p B Hwf Ho) as [HB Hid].
  assert (Hhere : forall k,
    erase (S (S k)) st (Z.to_nat (getBlockId (codec st) p)) p
    = if is_undefined (values B) (getIndex (codec st) p) then (Return tt, st)
      else (Return tt,
            setBlock (freeHere st (Z.to_nat (getBlockId (codec st) p)) B
                        (getIndex (codec st) p))
              (Z.to_nat (getBlockId (codec st) p))
              (erasedBlock B (getIndex (codec st) p)))).
  { intros k. cbn [erase]. destruct (Z.eqb_spec p 0); [contradiction|].
    rewrite HB, Hid, Z.eqb_refl. cbn [negb].
    destruct (is_undefined (values B) (getIndex (codec st) p)) eqn:Hocc;
      [reflexivity|].
    cbn [free]. destruct (Z.eqb_spec p 0); [contradiction|].
    rewrite HB, Hid, Z.eqb_refl. cbn [negb]. rewrite Hocc.
    rewrite (freeHere_lookup st _ B _ HB). reflexivity. }
  destruct (Z.eq_dec (getBlockId (codec st) p) (blockId Bs)) as [Heq|Hne].
  - pose proof (wfBlocks_lookup _ 0 _ Bs Hwf HBs) as HwB.
    apply wfBlock_spec in HwB as (HidBs & _). simpl in HidBs.
    assert (Hself : self = Z.to_nat (getBlockId (codec st) p)) by lia.
    subst self. apply Hhere.
  - remember (S (S fuel)) as k eqn:Hk. cbn [erase].
    destruct (Z.eqb_spec p 0); [contradiction|]. rewrite HBs.
    destruct (Z.eqb_spec (getBlockId (codec st) p) (blockId Bs));
      [contradiction|]. cbn [negb]. rewrite Ho. subst k. apply Hhere.
Qed.

End Owner.

(** ** Lookups by a number *)

Section ZLookup.

Context {A : Type}.

Lemma zlookup_insert_eq (l : list A) (b : nat) (x : A) :
  (b < List.length l)%nat -> zlookup (<[b := x]> l) (Z.of_nat b) = Some x.
Proof.
  intros Hb. apply zlookup_Some. split; [lia|].
  rewrite Nat2Z.id. apply list_lookup_insert_eq. exact Hb.
Qed.

Lemma zlookup_insert_ne (l : list A) (b : nat) (x : A) (j : Z) :
  j <> Z.of_nat b -> zlookup (<[b := x]> l) j = zlookup l j.
Proof.
  intros Hne. unfold zlookup. destruct (j <? 0) eqn:Hj; [reflexivity|].
  apply list_lookup_insert_ne. apply Z.ltb_ge in Hj. lia.
Qed.

Lemma zlookup_app_l (l l' : list A) (j : Z) :
  is_Some (zlookup l j) -> zlookup (l ++ l') j = zlookup l j.
Proof.
  intros [x Hx]. unfold zlookup in *. destruct (j <? 0); [discriminate|].
  apply lookup_app_l. apply lookup_lt_Some in Hx. exact Hx.
Qed.

Lemma zlookup_snoc (l : list A) (x : A) :
  zlookup (l ++ [x]) (Z.of_nat (List.length l)) = Some x.
Proof.
  apply zlookup_Some. split; [lia|]. rewrite Nat2Z.id.
  apply list_lookup_middle. reflexivity.
Qed.

Lemma zlookup_lt (l : list A) (j : Z) (x : A) :
  zlookup l j = Some x -> 0 <= j < Z.of_nat (List.length l).
Proof.
  intros H. apply zlookup_Some in H as [H0 H]. apply lookup_lt_Some in H. lia.
Qed.

End ZLookup.

Lemma getBlockId_null (c : Codec) : getBlockId c 0 = 0.
Proof. unfold getBlockId, JS.sar. rewrite Z.shiftr_0_l. reflexivity. Qed.

Lemma getIndex_null (c : Codec) : getIndex c 0 = 0.
Proof. unfold getIndex, JS.band. reflexivity. Qed.

(** ** [alloc] *)

(** X4. In an arena that satisfies the invariants and whose block size
    is at least 1, [alloc] called on any block with a budget of two
    nested calls never exhausts the call stack. It throws 'out of memory'
    only when every block is full and the arena has all the blocks its
    pointers can address, and then it changes nothing. Without [refs]
    and [raw] it returns a pointer or throws 'out of memory'. It adds a
    block only when no block has room, and then one block. *)
Theorem alloc_never_overflows (T : Type) (uninit : nat -> nat -> Z)
    (fuel : nat) (st : Arena T) (self : nat) (v : T)
    (refs raws : option Entries) :
  Ok st -> AvailOk st -> 1 <= blockSize (codec st) ->
  is_Some (blocks st !! self) ->
  let r := alloc uninit (S (S fuel)) st self v refs raws in
  fst r <> Overflow /\
  (fst r = Throw errOutOfMemory ->
   snd r = st /\
   Forall (fun B => hasSpace (blockSize (codec st)) B = false) (blocks st) /\
   blocksCount st = blockIdMask (codec st) + 1) /\
  (refs = None -> raws = None ->
   (exists p, fst r = Return p) \/ fst r = Throw errOutOfMemory) /\
  (blocksCount (snd r) = blocksCount st \/
   (blocksCount (snd r) = blocksCount st + 1 /\
    Forall (fun B => hasSpace (blockSize (codec st)) B = false) (blocks st))).
Proof.
  intros HOk HA Hbs Hself. cbn zeta.
  destruct (alloc_spec uninit fuel st self v refs raws HOk HA Hbs Hself)
    as [(Heq & Hfull & Hlen)|(b & idx & Bold & B' & Hcase & _ & _ & _ & _ & _
                              & _ & _ & _ & Hout & Hplain & _)].
  - rewrite Heq. cbn [fst snd]. split; [discriminate|].
    split; [intros _; auto|]. split; [intros _ _; right; reflexivity|].
    left; reflexivity.
  - cbn zeta in *.
    destruct (alloc uninit (S (S fuel)) st self v refs raws) as [r st'].
    cbn [fst snd] in *. split; [intros ->; exact Hout|].
    split.
    { intros ->. destruct Hout as [Hout|Hout]; discriminate. }
    split.
    { intros H1 H2. left. eexists. apply Hplain; assumption. }
    unfold blocksCount.
    destruct Hcase as [(_ & _ & ->)|(_ & Hfull & _ & _ & _ & ->)].
    + left. rewrite length_insert. reflexivity.
    + right. rewrite length_app. simpl. split; [lia | exact Hfull].
Qed.

(** X5. When [alloc] returns a pointer, in an arena that satisfies the
    invariants: the pointer is not the null pointer; it decodes to a
    block of the arena and to an index below the block size; the slot
    held no value before and holds the value afterwards; the value at
    every pointer that decodes to another slot of a block that existed
    is as before; and [size()] is one more. *)
Theorem alloc_returns_fresh_slot (T : Type) (uninit : nat -> nat -> Z)
    (fuel f : nat) (st st' : Arena T) (self : nat) (v : T)
    (refs raws : option Entries) (p : Z) :
  Ok st -> AvailOk st -> 1 <= blockSize (codec st) ->
  alloc uninit (S (S fuel)) st self v refs raws = (Return p, st') ->
  p <> 0 /\
  0 <= getBlockId (codec st) p < blocksCount st' /\
  0 <= getIndex (codec st) p < blockSize (codec st) /\
  (forall w, fst (value st p None) <> Return (Some w)) /\
  fst (value st' p None) = Return (Some v) /\
  (forall q,
     getBlockId (codec st) q <> getBlockId (codec st) p \/
     getIndex (codec st) q <> getIndex (codec st) p ->
     is_Some (zlookup (blocks st) (getBlockId (codec st) q)) ->
     fst (value st' q None) = fst (value st q None)) /\
  exists n, size (S f) st = Return n /\ size (S f) st' = Return (n + 1).
Proof.
  intros HOk HA Hbs Halloc.
  assert (Hself : is_Some (blocks st !! self)).
  { destruct (blocks st !! self) eqn:E; [eauto|].
    cbn [alloc] in Halloc. rewrite E in Halloc. discriminate. }
  pose proof (alloc_Ok uninit (S (S fuel)) st self v refs raws HOk) as HOk'.
  destruct (alloc_spec uninit fuel st self v refs raws HOk HA Hbs Hself)
    as [(Heq & _)|(b & idx & Bold & B' & Hcase & Hc & _ & Hid & Hroot & Hidx
                   & Hund & Hval & Hent & Hout & _ & Hd1 & Hd2)].
  { rewrite Heq in Halloc. discriminate. }
  cbn zeta in *. rewrite Halloc in *. cbn [fst snd] in *. subst p.
  set (p := getPointer (codec st) (Z.of_nat b) idx) in *.
  assert (Hp : p <> 0).
  { intros H0. rewrite H0, getBlockId_null in Hd1.
    rewrite H0, getIndex_null in Hd2. specialize (Hroot ltac:(lia)). lia. }
  assert (Hlook' : zlookup (blocks st') (Z.of_nat b) = Some B').
  { destruct Hcase as [(HB & _ & ->)|(-> & _ & _ & _ & _ & ->)].
    - apply zlookup_insert_eq. apply lookup_lt_Some in HB. exact HB.
    - apply zlookup_snoc. }
  assert (Hold : forall B, zlookup (blocks st) (Z.of_nat b) = Some B ->
                           B = Bold).
  { intros B HB. destruct Hcase as [(HB' & _)|(-> & _)].
    - apply zlookup_Some in HB as [_ HB]. rewrite Nat2Z.id in HB. congruence.
    - apply zlookup_lt in HB. lia. }
  split; [exact Hp|]. rewrite Hd1, Hd2.
  split.
  { apply zlookup_lt in Hlook'. unfold blocksCount. lia. }
  split; [exact Hidx|].
  split.
  { intros w Hw. apply value_occupied in Hw as (_ & B & HB & _ & Hocc).
    fold p in HB, Hocc. rewrite Hd1 in HB. rewrite Hd2 in Hocc.
    rewrite (Hold B HB) in Hocc. congruence. }
  split.
  { rewrite value_read by exact Hp. rewrite Hc. fold p. rewrite Hd1, Hd2, Hlook'.
    rewrite Hval, zlookup_array_set_eq by lia. reflexivity. }
  split.
  { intros q Hq [Bq HBq].
    destruct (Z.eq_dec q 0) as [->|Hq0]; [reflexivity|].
    rewrite !value_read by exact Hq0. rewrite Hc, HBq.
    destruct (Z.eq_dec (getBlockId (codec st) q) (Z.of_nat b)) as [Heq|Hne].
    - rewrite Heq in *. rewrite Hlook'. rewrite (Hold Bq HBq).
      rewrite Hval, zlookup_array_set_ne; [reflexivity | lia |].
      destruct Hq as [Hq|Hq]; congruence.
    - destruct Hcase as [(_ & _ & ->)|(_ & _ & _ & _ & _ & ->)].
      + rewrite zlookup_insert_ne by exact Hne. rewrite HBq. reflexivity.
      + rewrite zlookup_app_l by (rewrite HBq; eauto). rewrite HBq.
        reflexivity. }
  exists (sumEntries (blocks st)).
  split; [apply size_wf, Ok_wf, HOk|].
  rewrite (size_wf f st') by (apply Ok_wf, HOk').
  f_equal. destruct Hcase as [(HB & _ & ->)|(_ & _ & _ & _ & Hz & ->)].
  - rewrite (sumEntries_insert _ _ Bold) by exact HB. lia.
  - rewrite sumEntries_snoc. lia.
Qed.

(** ** [free] *)

Section FreeSpec.

Context {T : Type}.

(** The arena [free] leaves when the slot holds a value. *)
Lemma free_spec (fuel : nat) (st : Arena T) (self : nat) (p : Z) (B : Block T) :
  Ok st -> is_Some (blocks st !! self) -> p <> 0 ->
  zlookup (blocks st) (getBlockId (codec st) p) = Some B ->
  is_undefined (values B) (getIndex (codec st) p) = false ->
  free (S (S fuel)) st self p
  = (Return tt,
     setAvail (setBlock st (Z.to_nat (getBlockId (codec st) p))
                 (freedBlock B (getIndex (codec st) p)))
       (set_add (Z.to_nat (getBlockId (codec st) p)) (blocksAvail st))).
Proof.
  intros HOk Hself Hp HB Hocc.
  rewrite (free_owner fuel st self p B Hp (Ok_wf st HOk) Hself HB), Hocc.
  rewrite freeHere_freedBlock. reflexivity.
Qed.

Lemma value_setBlock (st : Arena T) (b : nat) (B B' : Block T)
    (avail : list nat) (q : Z) :
  blocks st !! b = Some B ->
  (getBlockId (codec st) q = Z.of_nat b ->
   mjoin (zlookup (values B') (getIndex (codec st) q))
   = mjoin (zlookup (values B) (getIndex (codec st) q))) ->
  fst (value (setAvail (setBlock st b B') avail) q None)
  = fst (value st q None).
Proof.
  intros HB Hsame.
  destruct (Z.eq_dec q 0) as [->|Hq0]; [reflexivity|].
  rewrite !value_read by exact Hq0. cbn [blocks codec setAvail setBlock].
  destruct (Z.eq_dec (getBlockId (codec st) q) (Z.of_nat b)) as [Heq|Hne].
  - rewrite Heq, zlookup_insert_eq by (apply lookup_lt_Some in HB; exact HB).
    assert (HB' : zlookup (blocks st) (Z.of_nat b) = Some B).
    { apply zlookup_Some. rewrite Nat2Z.id. split; [lia | exact HB]. }
    rewrite HB'. f_equal. apply Hsame. exact Heq.
  - rewrite zlookup_insert_ne by exact Hne. reflexivity.
Qed.

End FreeSpec.

(** X6. [free] in an arena that satisfies the invariant, called on any
    block with a budget of two nested calls. When the slot of the pointer
    holds a value: [free] returns, the slot holds no value afterwards,
    the value at every pointer that decodes to another slot is as
    before, the block of the pointer is in [blocksAvail], and [size()]
    is one less. When the slot holds no value (a second [free] of the
    same pointer) nothing changes. *)
Theorem free_releases_slot (T : Type) (fuel f : nat) (st : Arena T)
    (self : nat) (p : Z) :
  Ok st -> is_Some (blocks st !! self) ->
  let r := free (S (S fuel)) st self p in
  (forall w, fst (value st p None) = Return (Some w) ->
     fst r = Return tt /\
     fst (value (snd r) p None) = Return None /\
     (forall q,
        getBlockId (codec st) q <> getBlockId (codec st) p \/
        getIndex (codec st) q <> getIndex (codec st) p ->
        fst (value (snd r) q None) = fst (value st q None)) /\
     Z.to_nat (getBlockId (codec st) p) ∈ blocksAvail (snd r) /\
     exists n, size (S f) st = Return n /\ size (S f) (snd r) = Return (n - 1)) /\
  (fst (value st p None) = Return None -> r = (Return tt, st)).
Proof.
  intros HOk Hself. cbn zeta. split.
  - intros w Hw. apply value_occupied in Hw as (Hp & B & HB & _ & Hocc).
    pose proof (free_Ok (S (S fuel)) st self p HOk) as HOk'.
    rewrite (free_spec fuel st self p B HOk Hself Hp HB Hocc) in *.
    cbn [fst snd] in *.
    destruct (owner_spec st p B (Ok_wf st HOk) HB) as [HBn Hid].
    destruct (Ok_lookup st _ B HOk HBn) as [HOkB _].
    destruct (Ok_codec st HOk) as (Hbs & _).
    destruct (OkBlock_free _ B _ HOkB ltac:(lia) Hocc)
      as (_ & Hent & _ & Hund & Hframe).
    assert (Hnn : Z.of_nat (Z.to_nat (getBlockId (codec st) p))
                  = getBlockId (codec st) p).
    { apply zlookup_lt in HB. lia. }
    split; [reflexivity|]. split.
    { rewrite value_read by exact Hp. cbn [blocks codec setAvail setBlock].
      rewrite <- Hnn at 2.
      rewrite zlookup_insert_eq by (apply lookup_lt_Some in HBn; exact HBn).
      rewrite is_undefined_mjoin in Hund.
      destruct (mjoin _); [discriminate | reflexivity]. }
    split.
    { intros q Hq. apply (value_setBlock st _ B); [exact HBn|].
      intros Heq. apply Hframe. rewrite Hnn in Heq.
      destruct Hq as [Hq|Hq]; congruence. }
    split.
    { cbn [blocksAvail setAvail]. apply elem_of_set_add. left; reflexivity. }
    exists (sumEntries (blocks st)).
    split; [apply size_wf, Ok_wf, HOk|].
    rewrite size_wf by (apply Ok_wf, HOk'). f_equal.
    cbn [blocks setAvail setBlock].
    rewrite (sumEntries_insert _ _ B) by exact HBn. lia.
  - intros Hnone. apply value_unoccupied in Hnone as (Hp & B & HB & Hund).
    rewrite (free_owner fuel st self p B Hp (Ok_wf st HOk) Hself HB), Hund.
    reflexivity.
Qed.

(** ** Reading and writing one field *)

Section Slabs.

Lemma zlookup_fmap {A B : Type} (g : A -> B) (l : list A) (j : Z) :
  zlookup (g <$> l) j = g <$> zlookup l j.
Proof.
  unfold zlookup. destruct (j <? 0); [reflexivity | apply list_lookup_fmap].
Qed.

Lemma zlookup_u32_set_eq (slab : list Z) (idx v : Z) :
  0 <= idx < Z.of_nat (List.length slab) ->
  zlookup (u32_set slab (Some idx) v) idx = Some (JS.ToUint32 v).
Proof.
  intros Hi. simpl. destruct (Z.ltb_spec idx 0); [lia|].
  apply zlookup_Some. split; [lia|]. apply list_lookup_insert_eq. lia.
Qed.

Lemma zlookup_u32_set_ne (slab : list Z) (idx j v : Z) :
  j <> idx -> zlookup (u32_set slab (Some idx) v) j = zlookup slab j.
Proof.
  intros Hne. simpl. destruct (Z.ltb_spec idx 0); [reflexivity|].
  unfold zlookup. destruct (Z.ltb_spec j 0); [reflexivity|].
  apply list_lookup_insert_ne. lia.
Qed.

Lemma zlookup_setSlab_eq (slabs : list (list Z)) (i idx v : Z) (slab : list Z) :
  zlookup slabs i = Some slab ->
  zlookup (setSlab slabs i idx v) i = Some (u32_set slab (Some idx) v).
Proof.
  intros Hi. unfold setSlab. rewrite Hi.
  pose proof (zlookup_lt _ _ _ Hi) as Hlt.
  replace i with (Z.of_nat (Z.to_nat i)) at 2 by lia.
  apply zlookup_insert_eq. lia.
Qed.

Lemma zlookup_setSlab_ne (slabs : list (list Z)) (i j idx v : Z) :
  j <> i -> zlookup (setSlab slabs i idx v) j = zlookup slabs j.
Proof.
  intros Hne. unfold setSlab.
  destruct (zlookup slabs i) as [slab|] eqn:Hi; [|reflexivity].
  pose proof (zlookup_lt _ _ _ Hi) as Hlt.
  apply zlookup_insert_ne. lia.
Qed.

Lemma zlookup_zeroAt (slabs : list (list Z)) (idx i : Z) :
  zlookup (zeroAt idx slabs) i
  = (fun slab => u32_set slab (Some idx) 0) <$> zlookup slabs i.
Proof. unfold zeroAt. apply (zlookup_fmap _ slabs i). Qed.

End Slabs.

Section ReadField.

Context {T : Type}.

Lemma ref_read (st : Arena T) (p : Z) (f : string) :
  p <> 0 ->
  fst (ref st p f None)
  = if from_option (fun i => i <? 0) false (names st !! f)
    then Throw (errRawAsPointer f)
    else match zlookup (blocks st) (getBlockId (codec st) p) with
         | None => Throw errUndefined
         | Some B =>
             match names st !! f ≫= zlookup (fields B) with
             | None => Throw (errUnknownPointerField f)
             | Some slab => Return (zlookup slab (getIndex (codec st) p))
             end
         end.
Proof.
  intros Hp. unfold ref, noNullPointer.
  destruct (Z.eqb_spec p 0); [contradiction|].
  destruct (from_option _ _ _); [reflexivity|].
  destruct (zlookup (blocks st) _); [|reflexivity].
  destruct (_ ≫= _); reflexivity.
Qed.

Lemma raw_read (st : Arena T) (p : Z) (f : string) :
  p <> 0 ->
  fst (raw st p f None)
  = if from_option (fun i => 0 <=? i) false (names st !! f)
    then Throw (errPointerAsRaw f)
    else match zlookup (blocks st) (getBlockId (codec st) p) with
         | None => Throw errUndefined
         | Some B =>
             match zlookup (rawFields B)
                     (JS.bnot (number_or_undefined (names st !! f))) with
             | None => Throw (errUnknownRawField f)
             | Some slab => Return (zlookup slab (getIndex (codec st) p))
             end
         end.
Proof.
  intros Hp. unfold raw, noNullPointer.
  destruct (Z.eqb_spec p 0); [contradiction|].
  destruct (from_option _ _ _); [reflexivity|].
  destruct (zlookup (blocks st) _); [|reflexivity].
  destruct (zlookup (rawFields _) _); reflexivity.
Qed.

Lemma ref_read_Some (st : Arena T) (p : Z) (f : string) (x : Z) :
  fst (ref st p f None) = Return (Some x) <->
  p <> 0 /\
  exists B fid slab,
    names st !! f = Some fid /\ 0 <= fid /\
    zlookup (blocks st) (getBlockId (codec st) p) = Some B /\
    zlookup (fields B) fid = Some slab /\
    zlookup slab (getIndex (codec st) p) = Some x.
Proof.
  split.
  - intros H. assert (Hp : p <> 0) by (intros ->; discriminate H).
    split; [exact Hp|]. rewrite ref_read in H by exact Hp.
    destruct (names st !! f) as [fid|] eqn:Hf; cbn [from_option] in H.
    + destruct (Z.ltb_spec fid 0); [discriminate|].
      destruct (zlookup (blocks st) _) as [B|]; [|discriminate].
      cbn [mbind option_bind] in H.
      destruct (zlookup (fields B) fid) as [slab|] eqn:Hs; [|discriminate].
      exists B, fid, slab. inversion H. auto.
    + destruct (zlookup (blocks st) _) as [B|]; discriminate.
  - intros (Hp & B & fid & slab & Hf & H0 & HB & Hs & Hx).
    rewrite ref_read by exact Hp. rewrite Hf. cbn [from_option].
    destruct (Z.ltb_spec fid 0); [lia|]. rewrite HB.
    cbn [mbind option_bind]. rewrite Hs, Hx. reflexivity.
Qed.

Lemma raw_read_Some (st : Arena T) (p : Z) (f : string) (x : Z) :
  fst (raw st p f None) = Return (Some x) <->
  p <> 0 /\
  from_option (fun i => 0 <=? i) false (names st !! f) = false /\
  exists B slab,
    zlookup (blocks st) (getBlockId (codec st) p) = Some B /\
    zlookup (rawFields B) (JS.bnot (number_or_undefined (names st !! f)))
      = Some slab /\
    zlookup slab (getIndex (codec st) p) = Some x.
Proof.
  split.
  - intros H. assert (Hp : p <> 0) by (intros ->; discriminate H).
    split; [exact Hp|]. rewrite raw_read in H by exact Hp.
    destruct (from_option _ _ _); [discriminate|]. split; [reflexivity|].
    destruct (zlookup (blocks st) _) as [B|]; [|discriminate].
    destruct (zlookup (rawFields B) _) as [slab|] eqn:Hs; [|discriminate].
    exists B, slab. inversion H. auto.
  - intros (Hp & Hk & B & slab & HB & Hs & Hx).
    rewrite raw_read by exact Hp. rewrite Hk, HB, Hs, Hx. reflexivity.
Qed.

(** Reads of an arena in which one block was replaced. *)
Lemma ref_read_insert (st st' : Arena T) (b : nat) (B B' : Block T)
    (q : Z) (g : string) :
  blocks st !! b = Some B -> blocks st' = <[b := B']> (blocks st) ->
  codec st' = codec st -> names st' = names st ->
  (getBlockId (codec st) q = Z.of_nat b ->
   forall ig, names st !! g = Some ig -> 0 <= ig ->
     (fun slab => zlookup slab (getIndex (codec st) q)) <$> zlookup (fields B') ig
     = (fun slab => zlookup slab (getIndex (codec st) q)) <$> zlookup (fields B) ig) ->
  fst (ref st' q g None) = fst (ref st q g None).
Proof.
  intros HB Hbl Hc Hn Hsame.
  destruct (Z.eq_dec q 0) as [->|Hq0]; [reflexivity|].
  rewrite !ref_read by exact Hq0. rewrite Hbl, Hc, Hn.
  destruct (Z.eq_dec (getBlockId (codec st) q) (Z.of_nat b)) as [Heq|Hne].
  - rewrite Heq. apply lookup_lt_Some in HB as Hlt.
    rewrite zlookup_insert_eq by exact Hlt.
    assert (E2 : zlookup (blocks st) (Z.of_nat b) = Some B)
      by (apply zlookup_Some; rewrite Nat2Z.id; split; [lia|exact HB]).
    rewrite E2.
    destruct (names st !! g) as [ig|] eqn:Hg; cbn [from_option];
      [|reflexivity].
    destruct (Z.ltb_spec ig 0); [reflexivity|].
    cbn [mbind option_bind].
    specialize (Hsame Heq ig eq_refl ltac:(lia)).
    destruct (zlookup (fields B') ig), (zlookup (fields B) ig);
      cbn in Hsame; try discriminate; [|reflexivity].
    inversion Hsame as [E]. rewrite E. reflexivity.
  - rewrite zlookup_insert_ne by exact Hne. reflexivity.
Qed.

Lemma raw_read_insert (st st' : Arena T) (b : nat) (B B' : Block T)
    (q : Z) (g : string) :
  blocks st !! b = Some B -> blocks st' = <[b := B']> (blocks st) ->
  codec st' = codec st -> names st' = names st ->
  (getBlockId (codec st) q = Z.of_nat b ->
   from_option (fun i => 0 <=? i) false (names st !! g) = false ->
   let slot := JS.bnot (number_or_undefined (names st !! g)) in
   (fun slab => zlookup slab (getIndex (codec st) q)) <$> zlookup (rawFields B') slot
   = (fun slab => zlookup slab (getIndex (codec st) q)) <$> zlookup (rawFields B) slot) ->
  fst (raw st' q g None) = fst (raw st q g None).
Proof.
  intros HB Hbl Hc Hn Hsame.
  destruct (Z.eq_dec q 0) as [->|Hq0]; [reflexivity|].
  rewrite !raw_read by exact Hq0. rewrite Hbl, Hc, Hn.
  destruct (from_option _ _ _) eqn:Hk; [reflexivity|].
  destruct (Z.eq_dec (getBlockId (codec st) q) (Z.of_nat b)) as [Heq|Hne].
  - rewrite Heq. apply lookup_lt_Some in HB as Hlt.
    rewrite zlookup_insert_eq by exact Hlt.
    assert (E2 : zlookup (blocks st) (Z.of_nat b) = Some B)
      by (apply zlookup_Some; rewrite Nat2Z.id; split; [lia|exact HB]).
    rewrite E2. specialize (Hsame Heq eq_refl). cbn zeta in Hsame.
    destruct (zlookup (rawFields B') _), (zlookup (rawFields B) _);
      cbn in Hsame; try discriminate; [|reflexivity].
    inversion Hsame as [E]. rewrite E. reflexivity.
  - rewrite zlookup_insert_ne by exact Hne. reflexivity.
Qed.

Lemma value_read_insert (st st' : Arena T) (b : nat) (B B' : Block T) (q : Z) :
  blocks st !! b = Some B -> blocks st' = <[b := B']> (blocks st) ->
  codec st' = codec st ->
  (getBlockId (codec st) q = Z.of_nat b ->
   mjoin (zlookup (values B') (getIndex (codec st) q))
   = mjoin (zlookup (values B) (getIndex (codec st) q))) ->
  fst (value st' q None) = fst (value st q None).
Proof.
  intros HB Hbl Hc Hsame.
  destruct (Z.eq_dec q 0) as [->|Hq0]; [reflexivity|].
  rewrite !value_read by exact Hq0. rewrite Hbl, Hc.
  destruct (Z.eq_dec (getBlockId (codec st) q) (Z.of_nat b)) as [Heq|Hne].
  - rewrite Heq, zlookup_insert_eq by (apply lookup_lt_Some in HB; exact HB).
    assert (HB' : zlookup (blocks st) (Z.of_nat b) = Some B).
    { apply zlookup_Some. rewrite Nat2Z.id. split; [lia | exact HB]. }
    rewrite HB'. f_equal. apply Hsame. exact Heq.
  - rewrite zlookup_insert_ne by exact Hne. reflexivity.
Qed.

End ReadField.

(** X7. [ref] as a setter and a getter. When field [f] can be read at
    pointer [p] and the read gives a number, [ref(p, f, t)] returns [t]
    and a read of [f] at [p] then gives [t] as the unsigned 32-bit slab
    stores it. Reads of pointer fields at pointers that decode to
    another slot, or of fields registered under another id, give what
    they gave before, and so do all reads of raw fields and of values. *)
Theorem ref_write_read (T : Type) (st : Arena T) (p : Z) (f : string)
    (t x : Z) :
  fst (ref st p f None) = Return (Some x) ->
  let r := ref st p f (Some t) in
  fst r = Return (Some t) /\
  fst (ref (snd r) p f None) = Return (Some (JS.ToUint32 t)) /\
  (forall q g,
     getBlockId (codec st) q <> getBlockId (codec st) p \/
     getIndex (codec st) q <> getIndex (codec st) p \/
     names st !! g <> names st !! f ->
     fst (ref (snd r) q g None) = fst (ref st q g None)) /\
  (forall q g, fst (raw (snd r) q g None) = fst (raw st q g None)) /\
  (forall q, fst (value (snd r) q None) = fst (value st q None)).
Proof.
  intros Hread. cbn zeta.
  apply ref_read_Some in Hread
    as (Hp & B & fid & slab & Hf & H0 & HB & Hs & Hx).
  assert (Hw : ref st p f (Some t)
    = (Return (Some t),
       setBlock st (Z.to_nat (getBlockId (codec st) p))
         (setFields B (setSlab (fields B) fid (getIndex (codec st) p) t)))).
  { unfold ref, noNullPointer. destruct (Z.eqb_spec p 0); [contradiction|].
    rewrite Hf. cbn [from_option]. destruct (Z.ltb_spec fid 0); [lia|].
    rewrite HB. cbn [mbind option_bind]. rewrite Hs. reflexivity. }
  rewrite Hw. cbn [fst snd].
  set (b := Z.to_nat (getBlockId (codec st) p)).
  pose proof (zlookup_lt _ _ _ HB) as Hblt.
  assert (Hb : Z.of_nat b = getBlockId (codec st) p) by (unfold b; lia).
  assert (HBn : blocks st !! b = Some B).
  { apply zlookup_Some in HB as [_ HB]. exact HB. }
  pose proof (zlookup_lt _ _ _ Hx) as Hidx.
  split; [reflexivity|]. split.
  { apply ref_read_Some. split; [exact Hp|].
    eexists _, fid, _. cbn [names codec blocks setBlock].
    split; [exact Hf|]. split; [exact H0|].
    split. { rewrite <- Hb. apply zlookup_insert_eq.
             apply lookup_lt_Some in HBn. exact HBn. }
    cbn [fields setFields].
    split; [apply zlookup_setSlab_eq; exact Hs|].
    apply zlookup_u32_set_eq. exact Hidx. }
  split.
  { intros q g Hq. eapply (ref_read_insert st _ b B);
      [exact HBn | reflexivity | reflexivity | reflexivity |].
    intros Heq ig Hg Hig. cbn [fields setFields].
    destruct (Z.eq_dec ig fid) as [->|Hne].
    - rewrite (zlookup_setSlab_eq _ _ _ _ _ Hs), Hs. cbn.
      f_equal. apply zlookup_u32_set_ne.
      destruct Hq as [Hq|[Hq|Hq]]; congruence.
    - rewrite zlookup_setSlab_ne by exact Hne. reflexivity. }
  split.
  { intros q g. eapply (raw_read_insert st _ b B);
      [exact HBn | reflexivity | reflexivity | reflexivity |]. reflexivity. }
  intros q. eapply (value_read_insert st _ b B);
    [exact HBn | reflexivity | reflexivity |]. reflexivity.
Qed.

(** X8. [raw] as a setter and a getter: the same as [ref], on the raw
    slabs. When raw field [f] can be read at [p] and the read gives a
    number, [raw(p, f, v)] returns [v] and a read then gives [v] modulo
    2^32; reads of raw fields at other slots or under another id, and
    all reads of pointer fields and of values, are as before. *)
Theorem raw_write_read (T : Type) (st : Arena T) (p : Z) (f : string)
    (v x : Z) :
  fst (raw st p f None) = Return (Some x) ->
  let r := raw st p f (Some v) in
  fst r = Return (Some v) /\
  fst (raw (snd r) p f None) = Return (Some (JS.ToUint32 v)) /\
  (forall q g,
     getBlockId (codec st) q <> getBlockId (codec st) p \/
     getIndex (codec st) q <> getIndex (codec st) p \/
     JS.bnot (number_or_undefined (names st !! g))
       <> JS.bnot (number_or_undefined (names st !! f)) ->
     fst (raw (snd r) q g None) = fst (raw st q g None)) /\
  (forall q g, fst (ref (snd r) q g None) = fst (ref st q g None)) /\
  (forall q, fst (value (snd r) q None) = fst (value st q None)).
Proof.
  intros Hread. cbn zeta.
  apply raw_read_Some in Hread as (Hp & Hk & B & slab & HB & Hs & Hx).
  set (slot := JS.bnot (number_or_undefined (names st !! f))) in *.
  assert (Hw : raw st p f (Some v)
    = (Return (Some v),
       setBlock st (Z.to_nat (getBlockId (codec st) p))
         (setRawFields B (setSlab (rawFields B) slot (getIndex (codec st) p) v)))).
  { unfold raw, noNullPointer. destruct (Z.eqb_spec p 0); [contradiction|].
    rewrite Hk, HB. fold slot. rewrite Hs. reflexivity. }
  rewrite Hw. cbn [fst snd].
  set (b := Z.to_nat (getBlockId (codec st) p)).
  pose proof (zlookup_lt _ _ _ HB) as Hblt.
  assert (Hb : Z.of_nat b = getBlockId (codec st) p) by (unfold b; lia).
  assert (HBn : blocks st !! b = Some B).
  { apply zlookup_Some in HB as [_ HB]. exact HB. }
  pose proof (zlookup_lt _ _ _ Hx) as Hidx.
  split; [reflexivity|]. split.
  { apply raw_read_Some. split; [exact Hp|].
    cbn [names codec blocks setBlock]. split; [exact Hk|].
    eexists _, _.
    split. { rewrite <- Hb. apply zlookup_insert_eq.
             apply lookup_lt_Some in HBn. exact HBn. }
    cbn [rawFields setRawFields]. fold slot.
    split; [apply zlookup_setSlab_eq; exact Hs|].
    apply zlookup_u32_set_eq. exact Hidx. }
  split.
  { intros q g Hq. eapply (raw_read_insert st _ b B);
      [exact HBn | reflexivity | reflexivity | reflexivity |].
    intros Heq Hkg. cbn zeta. cbn [rawFields setRawFields].
    destruct (Z.eq_dec (JS.bnot (number_or_undefined (names st !! g))) slot)
      as [Heqs|Hne].
    - rewrite Heqs, (zlookup_setSlab_eq _ _ _ _ _ Hs), Hs. cbn.
      f_equal. apply zlookup_u32_set_ne.
      destruct Hq as [Hq|[Hq|Hq]];
        [congruence | congruence | exfalso; apply Hq; exact Heqs].
    - rewrite zlookup_setSlab_ne by exact Hne. reflexivity. }
  split.
  { intros q g. eapply (ref_read_insert st _ b B);
      [exact HBn | reflexivity | reflexivity | reflexivity |]. reflexivity. }
  intros q. eapply (value_read_insert st _ b B);
    [exact HBn | reflexivity | reflexivity |]. reflexivity.
Qed.

(** ** [erase] *)

Section EraseSpec.

Context {T : Type}.

Lemma erase_spec (fuel : nat) (st : Arena T) (self : nat) (p : Z) (B : Block T) :
  Ok st -> is_Some (blocks st !! self) -> p <> 0 ->
  zlookup (blocks st) (getBlockId (codec st) p) = Some B ->
  is_undefined (values B) (getIndex (codec st) p) = false ->
  fst (erase (S (S (S fuel))) st self p) = Return tt /\
  blocks (snd (erase (S (S (S fuel))) st self p))
  = <[Z.to_nat (getBlockId (codec st) p) :=
        erasedBlock B (getIndex (codec st) p)]> (blocks st) /\
  codec (snd (erase (S (S (S fuel))) st self p)) = codec st /\
  names (snd (erase (S (S (S fuel))) st self p)) = names st.
Proof.
  intros HOk Hself Hp HB Hocc.
  rewrite (erase_owner fuel st self p B Hp (Ok_wf st HOk) Hself HB), Hocc.
  rewrite freeHere_freedBlock. cbn [fst snd blocks codec names setBlock setAvail].
  rewrite list_insert_insert_eq. auto.
Qed.

End EraseSpec.

(** X9. [erase] in an arena that satisfies the invariant, called on any
    block with a budget of three nested calls. When the slot of the
    pointer holds a value: [erase] returns, the slot holds no value
    afterwards, every pointer field and raw field that could be read at
    the pointer now reads 0, reads at pointers that decode to another
    slot are as before, and [size()] is one less. When the slot holds
    no value nothing changes. *)
Theorem erase_zeroes_entry (T : Type) (fuel f : nat) (st : Arena T)
    (self : nat) (p : Z) :
  Ok st -> is_Some (blocks st !! self) ->
  let r := erase (S (S (S fuel))) st self p in
  (forall w, fst (value st p None) = Return (Some w) ->
     fst r = Return tt /\
     fst (value (snd r) p None) = Return None /\
     (forall g x, fst (ref st p g None) = Return (Some x) ->
                  fst (ref (snd r) p g None) = Return (Some 0)) /\
     (forall g x, fst (raw st p g None) = Return (Some x) ->
                  fst (raw (snd r) p g None) = Return (Some 0)) /\
     (forall q g,
        getBlockId (codec st) q <> getBlockId (codec st) p \/
        getIndex (codec st) q <> getIndex (codec st) p ->
        fst (value (snd r) q None) = fst (value st q None) /\
        fst (ref (snd r) q g None) = fst (ref st q g None) /\
        fst (raw (snd r) q g None) = fst (raw st q g None)) /\
     exists n, size (S f) st = Return n /\ size (S f) (snd r) = Return (n - 1)) /\
  (fst (value st p None) = Return None -> r = (Return tt, st)).
Proof.
  intros HOk Hself. cbn zeta. split.
  - intros w Hw. apply value_occupied in Hw as (Hp & B & HB & _ & Hocc).
    pose proof (erase_Ok (S (S (S fuel))) st self p HOk) as HOk'.
    destruct (erase_spec fuel st self p B HOk Hself Hp HB Hocc)
      as (Hr & Hbl & Hc & Hn).
    destruct (erase (S (S (S fuel))) st self p) as [r st'].
    cbn [fst snd] in *.
    destruct (owner_spec st p B (Ok_wf st HOk) HB) as [HBn Hid].
    destruct (Ok_lookup st _ B HOk HBn) as [HOkB _].
    destruct (Ok_codec st HOk) as (Hbs & _).
    destruct (OkBlock_free _ B _ HOkB ltac:(lia) Hocc)
      as (_ & Hent & _ & Hund & Hframe).
    destruct (blockId_freedBlock B (getIndex (codec st) p))
      as (_ & _ & HF & HR).
    set (b := Z.to_nat (getBlockId (codec st) p)) in *.
    set (idx := getIndex (codec st) p) in *.
    assert (Hnn : Z.of_nat b = getBlockId (codec st) p).
    { apply zlookup_lt in HB. unfold b. lia. }
    assert (Hlook : zlookup (blocks st') (getBlockId (codec st) p)
                    = Some (erasedBlock B idx)).
    { rewrite Hbl, <- Hnn. apply zlookup_insert_eq.
      apply lookup_lt_Some in HBn. exact HBn. }
    split; [exact Hr|]. split.
    { rewrite value_read by exact Hp. rewrite Hc, Hlook.
      cbn [values erasedBlock]. fold idx.
      rewrite is_undefined_mjoin in Hund.
      destruct (mjoin _); [discriminate | reflexivity]. }
    split.
    { intros g x Hg. apply ref_read_Some in Hg
        as (_ & B0 & fid & slab & Hf & H0 & HB0 & Hs & Hx).
      assert (B0 = B) by congruence. subst B0.
      apply ref_read_Some. split; [exact Hp|].
      exists (erasedBlock B idx), fid, (u32_set slab (Some idx) 0).
      rewrite Hn, Hc. split; [exact Hf|]. split; [exact H0|].
      split; [exact Hlook|]. cbn [fields erasedBlock]. rewrite HF.
      split; [rewrite zlookup_zeroAt, Hs; reflexivity|].
      fold idx. apply (zlookup_u32_set_eq slab idx 0).
      apply (zlookup_lt _ _ _ Hx). }
    split.
    { intros g x Hg. apply raw_read_Some in Hg
        as (_ & Hk & B0 & slab & HB0 & Hs & Hx).
      assert (B0 = B) by congruence. subst B0.
      apply raw_read_Some. split; [exact Hp|].
      rewrite Hn, Hc. split; [exact Hk|].
      exists (erasedBlock B idx), (u32_set slab (Some idx) 0).
      split; [exact Hlook|]. cbn [rawFields erasedBlock]. rewrite HR.
      split; [rewrite zlookup_zeroAt, Hs; reflexivity|].
      fold idx. apply (zlookup_u32_set_eq slab idx 0).
      apply (zlookup_lt _ _ _ Hx). }
    split.
    { intros q g Hq.
      assert (Hi : getBlockId (codec st) q = Z.of_nat b ->
                   getIndex (codec st) q <> idx).
      { intros Heq. destruct Hq as [Hq|Hq]; [congruence | exact Hq]. }
      split; [|split].
      - apply (value_read_insert st st' b B (erasedBlock B idx) q HBn Hbl Hc).
        intros Heq. cbn [values erasedBlock]. apply Hframe, Hi, Heq.
      - apply (ref_read_insert st st' b B (erasedBlock B idx) q g HBn Hbl Hc Hn).
        intros Heq ig _ _. cbn [fields erasedBlock]. rewrite HF, zlookup_zeroAt.
        destruct (zlookup (fields B) ig); [|reflexivity]. cbn. f_equal.
        apply zlookup_u32_set_ne, Hi, Heq.
      - apply (raw_read_insert st st' b B (erasedBlock B idx) q g HBn Hbl Hc Hn).
        intros Heq _. cbn zeta. cbn [rawFields erasedBlock].
        rewrite HR, zlookup_zeroAt.
        destruct (zlookup (rawFields B) _); [|reflexivity]. cbn. f_equal.
        apply zlookup_u32_set_ne, Hi, Heq. }
    exists (sumEntries (blocks st)).
    split; [apply size_wf, Ok_wf, HOk|].
    rewrite size_wf by (apply Ok_wf, HOk'). f_equal.
    rewrite Hbl, (sumEntries_insert _ _ B) by exact HBn.
    assert (He : entries (erasedBlock B idx) = entries (freedBlock B idx))
      by reflexivity.
    lia.
  - intros Hnone. apply value_unoccupied in Hnone as (Hp & B & HB & Hund).
    rewrite (erase_owner fuel st self p B Hp (Ok_wf st HOk) Hself HB), Hund.
    reflexivity.
Qed.

(** ** [blocksAvail] and the methods that do not allocate *)

Section AvailFrame.

Context {T : Type}.

Lemma AvailOk_fields (st : Arena T) (self : nat) (B : Block T)
    (F R : list (list Z)) :
  Ok st -> AvailOk st -> blocks st !! self = Some B ->
  AvailOk (setBlock st self
             {| values := values B; nextFree := nextFree B;
                blockId := blockId B; firstNextFree := firstNextFree B;
                fields := F; rawFields := R; freeList := freeList B |}).
Proof.
  intros HOk HA HB. destruct (Ok_lookup st _ B HOk HB) as [HOkB _].
  apply (AvailOk_slabs st self B _ HOk HA HB);
    [reflexivity | apply OkBlock_slabs; exact HOkB | reflexivity].
Qed.

Lemma ref_AvailOk (st : Arena T) (p : Z) (f : string) (t : option Z) :
  Ok st -> AvailOk st -> AvailOk (snd (ref st p f t)).
Proof.
  intros HOk HA. unfold ref.
  destruct (noNullPointer p _); [exact HA|].
  destruct (from_option _ false (names st !! f)); [exact HA|].
  destruct (zlookup (blocks st) (getBlockId (codec st) p)) as [B|] eqn:HB;
    [|exact HA].
  destruct (names st !! f ≫= zlookup (fields B)); [|exact HA].
  destruct t as [t|]; [|exact HA]. cbn [snd].
  apply zlookup_Some in HB as [_ HB].
  apply (AvailOk_fields st _ B _ _ HOk HA HB).
Qed.

Lemma raw_AvailOk (st : Arena T) (p : Z) (f : string) (t : option Z) :
  Ok st -> AvailOk st -> AvailOk (snd (raw st p f t)).
Proof.
  intros HOk HA. unfold raw.
  destruct (noNullPointer p _); [exact HA|].
  destruct (from_option _ false (names st !! f)); [exact HA|].
  destruct (zlookup (blocks st) (getBlockId (codec st) p)) as [B|] eqn:HB;
    [|exact HA].
  destruct (zlookup (rawFields B) _); [|exact HA].
  destruct t as [t|]; [|exact HA]. cbn [snd].
  apply zlookup_Some in HB as [_ HB].
  apply (AvailOk_fields st _ B _ _ HOk HA HB).
Qed.

Lemma refAll_AvailOk (fuel : nat) (st : Arena T) (self : nat) (p : Z)
    (refs : option Entries) :
  Ok st -> AvailOk st -> AvailOk (snd (refAll fuel st self p refs)).
Proof.
  intros HOk HA. revert self.
  induction fuel as [|fuel IH]; intros self; [exact HA|].
  simpl. destruct (noNullPointer p _); [exact HA|].
  destruct (blocks st !! self) as [B|] eqn:HB; [|exact HA].
  destruct (negb (getBlockId (codec st) p =? blockId B)).
  - destruct (zlookup (blocks st) (getBlockId (codec st) p));
      [apply IH | exact HA].
  - unfold refAllHere.
    destruct (is_undefined (values B) _); [destruct refs; exact HA|].
    destruct refs as [es|].
    + destruct (refAllLoop (names st) es _ (fields B)) as [r slabs].
      pose proof (AvailOk_fields st _ B slabs (rawFields B) HOk HA HB) as H.
      destruct r; exact H.
    + destruct (bool_decide _); exact HA.
Qed.

Lemma rawAll_AvailOk (fuel : nat) (st : Arena T) (self : nat) (p : Z)
    (raws : option Entries) :
  Ok st -> AvailOk st -> AvailOk (snd (rawAll fuel st self p raws)).
Proof.
  intros HOk HA. revert self.
  induction fuel as [|fuel IH]; intros self; [exact HA|].
  simpl. destruct (noNullPointer p _); [exact HA|].
  destruct (blocks st !! self) as [B|] eqn:HB; [|exact HA].
  destruct (negb (getBlockId (codec st) p =? blockId B)).
  - destruct (zlookup (blocks st) (getBlockId (codec st) p));
      [apply IH | exact HA].
  - unfold rawAllHere.
    destruct (is_undefined (values B) _); [destruct raws; exact HA|].
    destruct raws as [es|].
    + destruct (rawAllLoop (names st) es _ (rawFields B)) as [r slabs].
      pose proof (AvailOk_fields st _ B (fields B) slabs HOk HA HB) as H.
      destruct r; exact H.
    + destruct (bool_decide _); exact HA.
Qed.

Lemma drop_codec (st : Arena T) (self : nat) :
  codec (snd (drop st self)) = codec st.
Proof.
  unfold drop, wipeBlock. destruct (blocks st !! self) as [B|]; [|reflexivity].
  destruct (negb _); [reflexivity|]. destruct (blockId B =? 0); reflexivity.
Qed.

Lemma dropEmptyLoop_AvailOk (fuel : nat) (i : nat) (st : Arena T) :
  Ok st -> AvailOk st -> 2 <= blockSize (codec st) ->
  AvailOk (snd (dropEmptyLoop fuel st i)).
Proof.
  revert st. induction i as [|i IH]; intros st HOk HA Hbs; [exact HA|].
  cbn [dropEmptyLoop].
  destruct (entryCount fuel st (S i) (Z.of_nat (S i))) as [n|e|]; try exact HA.
  destruct (n =? 0); [|apply IH; assumption].
  pose proof (drop_Ok st (S i) HOk) as Hd.
  pose proof (drop_AvailOk st (S i) HOk HA Hbs) as Hd'.
  pose proof (drop_codec st (S i)) as Hc.
  destruct (drop st (S i)) as [[[]|e|] st']; cbn [snd] in *;
    [apply IH; [exact Hd | exact Hd' | rewrite Hc; exact Hbs]
    | exact Hd' | exact Hd'].
Qed.

End AvailFrame.

(** ** The invariants *)

(** X1. The constructor establishes the invariant. An arena built by
    [new PointerSet(fields, blockSize, rawFields)] satisfies [Ok]; for a
    block size of at least 2 its [blocksAvail] is exact; it has one
    block, [size()] is 1 (the reserved null slot) and no pointer reads a
    value. *)
Theorem constructor_establishes_invariant (T : Type)
    (uninit : nat -> nat -> Z) (fs : list string) (bs : Z)
    (rs : option (list string)) (st : Arena T) (f : nat) :
  PointerSet uninit fs bs rs = Return st ->
  Ok st /\
  (2 <= bs -> AvailOk st) /\
  blocksCount st = 1 /\
  size (S f) st = Return 1 /\
  forall p w, fst (value st p None) <> Return (Some w).
Proof.
  intros Hnew. pose proof (PointerSet_Ok uninit fs bs rs st Hnew) as HOk.
  destruct (PointerSet_shape uninit fs bs rs st Hnew)
    as (B & Hbl & Hv & Hnf & Hid & Hfnf & Hfl & Hav & Hbs & Hc).
  split; [exact HOk|].
  split; [apply (PointerSet_AvailOk uninit fs bs rs st Hnew)|].
  split; [unfold blocksCount; rewrite Hbl; reflexivity|].
  split.
  { rewrite size_wf by (apply Ok_wf, HOk). rewrite Hbl.
    unfold sumEntries, entries. simpl. rewrite Hnf, Hfl. reflexivity. }
  intros p w Hw. apply value_occupied in Hw as (_ & B0 & HB0 & Hval & _).
  rewrite Hbl in HB0. apply zlookup_Some in HB0 as [H0 HB0].
  destruct (Z.to_nat (getBlockId (codec st) p)) as [|k]; [|discriminate].
  inversion HB0; subst B0. rewrite Hv in Hval.
  unfold zlookup in Hval. destruct (_ <? 0); [discriminate|].
  destruct (Z.to_nat (getIndex (codec st) p)) as [|j]; discriminate.
Qed.

(** X2. Every method keeps the invariant [Ok]: [alloc], [free],
    [erase], [wipeBlock], [drop], [dropEmpty], [ref], [raw], [refAll],
    [rawAll] and the [PointerSetBlock] constructor, whatever they
    return or throw and from whichever block they are called. *)
Theorem methods_keep_invariant (T : Type) (uninit : nat -> nat -> Z)
    (st : Arena T) :
  Ok st ->
  (forall fuel self v refs raws,
     Ok (snd (alloc uninit fuel st self v refs raws))) /\
  (forall fuel self p, Ok (snd (free fuel st self p))) /\
  (forall fuel self p, Ok (snd (erase fuel st self p))) /\
  (forall self, Ok (snd (wipeBlock st self))) /\
  (forall self, Ok (snd (drop st self))) /\
  (forall fuel, Ok (snd (dropEmpty fuel st))) /\
  (forall p f t, Ok (snd (ref st p f t))) /\
  (forall p f t, Ok (snd (raw st p f t))) /\
  (forall fuel self p refs, Ok (snd (refAll fuel st self p refs))) /\
  (forall fuel self p raws, Ok (snd (rawAll fuel st self p raws))) /\
  Ok (snd (PointerSetBlock uninit st)).
Proof.
  intros HOk.
  split; [intros; apply alloc_Ok, HOk|].
  split; [intros; apply free_Ok, HOk|].
  split; [intros; apply erase_Ok, HOk|].
  split; [intros; apply wipeBlock_Ok, HOk|].
  split; [intros; apply drop_Ok, HOk|].
  split; [intros; apply dropEmpty_Ok, HOk|].
  split; [intros; apply ref_Ok, HOk|].
  split; [intros; apply raw_Ok, HOk|].
  split; [intros; apply refAll_Ok, HOk|].
  split; [intros; apply rawAll_Ok, HOk|].
  apply PointerSetBlock_Ok, HOk.
Qed.

(** X3. [blocksAvail] stays exact. In an arena that satisfies [Ok] and
    whose [blocksAvail] holds exactly the blocks with room, it still
    does after [free], [erase], [ref], [raw], [refAll] and [rawAll];
    after [alloc] and a new block when the block size is at least 1;
    and after [wipeBlock], [drop] and [dropEmpty] when the block size is
    at least 2. *)
Theorem blocksAvail_stays_exact (T : Type) (uninit : nat -> nat -> Z)
    (st : Arena T) :
  Ok st -> AvailOk st ->
  (forall fuel self p, AvailOk (snd (free fuel st self p))) /\
  (forall fuel self p, AvailOk (snd (erase fuel st self p))) /\
  (forall p f t, AvailOk (snd (ref st p f t))) /\
  (forall p f t, AvailOk (snd (raw st p f t))) /\
  (forall fuel self p refs, AvailOk (snd (refAll fuel st self p refs))) /\
  (forall fuel self p raws, AvailOk (snd (rawAll fuel st self p raws))) /\
  (1 <= blockSize (codec st) ->
   (forall fuel self v refs raws,
      AvailOk (snd (alloc uninit fuel st self v refs raws))) /\
   AvailOk (snd (PointerSetBlock uninit st))) /\
  (2 <= blockSize (codec st) ->
   (forall self, AvailOk (snd (wipeBlock st self))) /\
   (forall self, AvailOk (snd (drop st self))) /\
   (forall fuel, AvailOk (snd (dropEmpty fuel st)))).
Proof.
  intros HOk HA.
  split; [intros; apply free_AvailOk; assumption|].
  split; [intros; apply erase_AvailOk; assumption|].
  split; [intros; apply ref_AvailOk; assumption|].
  split; [intros; apply raw_AvailOk; assumption|].
  split; [intros; apply refAll_AvailOk; assumption|].
  split; [intros; apply rawAll_AvailOk; assumption|].
  split; intros Hbs.
  - split; [intros; apply alloc_AvailOk; assumption|].
    apply PointerSetBlock_AvailOk; assumption.
  - split; [intros; apply wipeBlock_AvailOk; assumption|].
    split; [intros; apply drop_AvailOk; assumption|].
    intros; apply dropEmptyLoop_AvailOk; assumption.
Qed.

(** X11. The null pointer is reserved. It decodes to index 0 of the
    root block; in an arena that satisfies the invariant that slot holds
    no value, is not on the free list and lies below [nextFree], so
    [alloc] never hands it out. Every method rejects the null pointer
    before anything is read or changed: [free] and [erase] throw their
    own errors, a getter throws 'cannot read from null pointer' and a
    setter 'cannot write to null pointer'. *)
Theorem null_pointer_reserved (T : Type) (st : Arena T) (fuel self : nat)
    (f : string) (x : Z) (v : T) (es : Entries) :
  (getBlockId (codec st) 0 = 0 /\ getIndex (codec st) 0 = 0) /\
  (Ok st -> forall B, blocks st !! 0%nat = Some B ->
     is_undefined (values B) 0 = true /\ (0 ∉ live B) /\ 1 <= nextFree B) /\
  free (S fuel) st self 0 = (Throw errFreeNull, st) /\
  erase (S fuel) st self 0 = (Throw errEraseNull, st) /\
  ref st 0 f None = (Throw errReadNull, st) /\
  ref st 0 f (Some x) = (Throw errWriteNull, st) /\
  raw st 0 f None = (Throw errReadNull, st) /\
  raw st 0 f (Some x) = (Throw errWriteNull, st) /\
  value st 0 None = (Throw errReadNull, st) /\
  value st 0 (Some v) = (Throw errWriteNull, st) /\
  refAll (S fuel) st self 0 None = (Throw errReadNull, st) /\
  refAll (S fuel) st self 0 (Some es) = (Throw errWriteNull, st) /\
  rawAll (S fuel) st self 0 None = (Throw errReadNull, st) /\
  rawAll (S fuel) st self 0 (Some es) = (Throw errWriteNull, st).
Proof.
  split; [split; [apply getBlockId_null | apply getIndex_null]|].
  split; [|repeat apply conj; reflexivity].
  intros HOk B HB. destruct (Ok_lookup st 0 B HOk HB) as [HOkB Hid].
  destruct HOkB as (Hfnf & Hnf & _ & _ & _ & _ & _ & _ & _ & Hlive & H0 & _).
  rewrite Hid in Hfnf. simpl in Hfnf.
  split; [apply H0; exact Hfnf|]. split; [|lia].
  intros Hin. rewrite Forall_forall in Hlive.
  destruct (Hlive 0 Hin) as [Hr _]. lia.
Qed.

(** ** Counting: [entryCount], [available], [size], [totalAvailable] *)

Section Counting.

Context {T : Type}.

Lemma length_live (bs : Z) (B : Block T) :
  OkBlock bs B -> Z.of_nat (List.length (live B)) = Stack.length (freeList B).
Proof.
  intros (_ & _ & _ & _ & Hl & _). unfold live.
  rewrite length_take. lia.
Qed.

Lemma entries_bounds (bs : Z) (B : Block T) :
  OkBlock bs B ->
  firstNextFree B <= entries B <= Z.max bs (firstNextFree B).
Proof.
  intros HOk. pose proof (length_live bs B HOk) as Hlen.
  destruct HOk as (_ & H1 & H2 & _ & Hl & _ & _ & _ & Hnd & Hin & _).
  pose proof (NoDup_interval_length (live B) (firstNextFree B) (nextFree B) Hnd)
    as Hpig.
  unfold entries. rewrite <- Hlen.
  assert (Hr : Forall (fun e => firstNextFree B <= e < nextFree B) (live B)).
  { eapply Forall_impl; [exact Hin|]. intros e [He _]. exact He. }
  specialize (Hpig Hr). lia.
Qed.

Lemma sumEntries_bounds (bs : Z) (bl : list (Block T)) :
  Forall (OkBlock bs) bl ->
  0 <= sumEntries bl /\
  (1 <= bs -> sumEntries bl <= Z.of_nat (List.length bl) * bs).
Proof.
  induction 1 as [|B bl HB _ IH]; [unfold sumEntries; simpl; lia|].
  pose proof (entries_bounds bs B HB) as Hb.
  pose proof HB as (Hfnf & _).
  change (sumEntries (B :: bl)) with (entries B + sumEntries bl).
  rewrite length_cons.
  destruct (blockId B =? 0); split; nia.
Qed.

Lemma available_wf (f : nat) (st : Arena T) (i : nat) (B : Block T) :
  wf st = true -> blocks st !! i = Some B ->
  available (S (S f)) st i (Z.of_nat i)
  = Return (blockSize (codec st) - entries B).
Proof.
  intros Hwf HB. cbn [available]. rewrite HB.
  pose proof (wfBlocks_lookup _ 0 i B Hwf HB) as HwB.
  apply wfBlock_spec in HwB as (Hid & _). simpl in Hid.
  rewrite Hid, Z.eqb_refl. cbn [negb].
  pose proof (entryCount_wf f st i B Hwf HB) as He. rewrite He. reflexivity.
Qed.

Lemma availableLoop_wf (f : nat) (st : Arena T) (todo i : nat) (acc : Z) :
  wf st = true -> (i + todo <= List.length (blocks st))%nat ->
  availableLoop (S (S f)) st i todo acc
  = Return (acc + Z.of_nat todo * blockSize (codec st)
            - sumEntries (firstn todo (skipn i (blocks st)))).
Proof.
  intros Hwf. revert i acc. induction todo as [|todo IH]; intros i acc Hlen.
  - cbn [availableLoop]. f_equal. unfold sumEntries. simpl. lia.
  - destruct (lookup_lt_is_Some_2 (blocks st) i ltac:(lia)) as [B HB].
    cbn [availableLoop]. rewrite (available_wf f st i B Hwf HB).
    rewrite IH by lia.
    rewrite (drop_S _ _ _ HB). rewrite firstn_cons.
    change (sumEntries (B :: firstn todo (skipn (S i) (blocks st))))
      with (entries B + sumEntries (firstn todo (skipn (S i) (blocks st)))).
    f_equal. lia.
Qed.

Lemma totalAvailable_wf (f : nat) (st : Arena T) :
  wf st = true ->
  totalAvailable (S (S f)) st
  = Return (Z.of_nat (List.length (blocks st)) * blockSize (codec st)
            - sumEntries (blocks st)).
Proof.
  intros Hwf. unfold totalAvailable.
  rewrite availableLoop_wf by (assumption || lia).
  rewrite drop_0, firstn_all. f_equal.
Qed.

End Counting.

(** X12. Accounting. In an arena that satisfies the invariant, [size()]
    and [totalAvailable()] return, their sum is
    [blocksCount() * blockSize], [size()] is at least 1 (the reserved
    null slot of the root block), and [totalAvailable()] is not
    negative when the block size is at least 1. For every block,
    [entryCount] and [available] add up to the block size and
    [entryCount] is at least 1 in the root block and at least 0
    elsewhere. *)
Theorem size_plus_totalAvailable (T : Type) (f : nat) (st : Arena T) :
  Ok st ->
  (exists n m,
     size (S f) st = Return n /\
     totalAvailable (S (S f)) st = Return m /\
     n + m = blocksCount st * blockSize (codec st) /\
     1 <= n /\
     (1 <= blockSize (codec st) -> 0 <= m)) /\
  (forall i, is_Some (blocks st !! i) ->
     exists e a,
       entryCount (S f) st i (Z.of_nat i) = Return e /\
       available (S (S f)) st i (Z.of_nat i) = Return a /\
       e + a = blockSize (codec st) /\
       (if (i =? 0)%nat then 1 else 0) <= e /\
       (1 <= blockSize (codec st) -> 0 <= a)).
Proof.
  intros HOk. pose proof (Ok_wf st HOk) as Hwf.
  pose proof HOk as (_ & _ & Hpos & _ & _ & Hall). split.
  - exists (sumEntries (blocks st)),
      (Z.of_nat (List.length (blocks st)) * blockSize (codec st)
       - sumEntries (blocks st)).
    split; [apply size_wf, Hwf|]. split; [apply totalAvailable_wf, Hwf|].
    unfold blocksCount. split; [lia|].
    destruct (sumEntries_bounds _ _ Hall) as [_ Hup].
    split; [|intros Hbs; specialize (Hup Hbs); lia].
    destruct (blocks st) as [|B0 bl] eqn:Hbl; [simpl in Hpos; lia|].
    assert (HB0 : blocks st !! 0%nat = Some B0) by (rewrite Hbl; reflexivity).
    destruct (Ok_lookup st 0 B0 HOk HB0) as [HOk0 Hid0].
    pose proof (entries_bounds _ _ HOk0) as Hb0.
    pose proof HOk0 as (Hfnf & _). rewrite Hid0 in Hfnf. simpl in Hfnf.
    apply Forall_cons in Hall as [_ Hrest].
    destruct (sumEntries_bounds _ _ Hrest) as [Hlow _].
    change (sumEntries (B0 :: bl)) with (entries B0 + sumEntries bl). lia.
  - intros i [B HB]. exists (entries B), (blockSize (codec st) - entries B).
    split; [apply entryCount_wf; assumption|].
    split; [apply available_wf; assumption|]. split; [lia|].
    destruct (Ok_lookup st i B HOk HB) as [HOkB Hid].
    pose proof (entries_bounds _ _ HOkB) as Hb.
    pose proof HOkB as (Hfnf & _). rewrite Hid in Hfnf.
    destruct i as [|i]; simpl in *; [lia|].
    split; [|intros Hbs]; destruct (Z.of_nat (S i) =? 0) eqn:E; lia.
Qed.

(** ** The slots that hold a value *)

Section Stored.

Lemma filter_bool_none (h : Z -> bool) (l : list Z) :
  (forall x, x ∈ l -> h x = false) -> filter (fun i => h i = true) l = [].
Proof.
  induction l as [|a l IH]; intros H; [reflexivity|].
  rewrite filter_cons. destruct (decide (h a = true)) as [Ha|_].
  - rewrite (H a) in Ha by left. discriminate.
  - apply IH. intros x Hx. apply H. right. exact Hx.
Qed.

Lemma filter_bool_split (h : Z -> bool) (l : list Z) :
  (List.length (filter (fun i => h i = true) l)
   + List.length (filter (fun i => negb (h i) = true) l))%nat
  = List.length l.
Proof.
  induction l as [|a l IH]; [reflexivity|].
  rewrite !filter_cons.
  destruct (decide (h a = true)) as [Ha|Ha],
           (decide (negb (h a) = true)) as [Hb|Hb]; simpl.
  - rewrite Ha in Hb. discriminate.
  - lia.
  - lia.
  - destruct (h a); [contradiction | simpl in Hb; contradiction].
Qed.

Lemma count_Some_seqZ {A : Type} (V : list (option A)) (h : Z -> bool) (o : Z) :
  (forall k x, V !! k = Some x ->
     h (o + Z.of_nat k) = match x with Some _ => true | None => false end) ->
  List.length (List.filter
    (fun x => match x with Some _ => true | None => false end) V)
  = List.length (filter (fun i => h i = true)
                   (seqZ o (Z.of_nat (List.length V)))).
Proof.
  revert o. induction V as [|x V IH]; intros o H; [reflexivity|].
  rewrite length_cons, seqZ_cons by lia.
  replace (Z.pred (Z.of_nat (S (List.length V))))
    with (Z.of_nat (List.length V)) by lia.
  rewrite filter_cons. cbn [List.filter].
  pose proof (H 0%nat x eq_refl) as H0. rewrite Z.add_0_r in H0.
  assert (IH' : List.length (List.filter
            (fun x => match x with Some _ => true | None => false end) V)
          = List.length (filter (fun i => h i = true)
                           (seqZ (Z.succ o) (Z.of_nat (List.length V))))).
  { apply IH. intros k y Hk. rewrite <- (H (S k) y Hk). f_equal. lia. }
  destruct x as [a|]; destruct (decide (h o = true)) as [Ho|Ho];
    cbn [List.length]; rewrite ?IH'; try reflexivity; congruence.
Qed.

Context {T : Type}.

Lemma stored_entries (bs : Z) (B : Block T) :
  OkBlock bs B -> entries B = firstNextFree B + stored B.
Proof.
  intros HOk. pose proof (length_live bs B HOk) as Hlen.
  destruct HOk as (Hfnf & H1 & H2 & Hv & Hl & _ & _ & _ & Hnd & Hin & H0 & Hcov).
  set (V := values B) in *. set (a := firstNextFree B) in *.
  set (n := nextFree B) in *.
  set (D := fun i => negb (is_undefined V i)).
  assert (Ha : 0 <= a) by (rewrite Hfnf; destruct (blockId B =? 0); lia).
  (* the values counted over the indices of [values] *)
  assert (HA : stored B
    = Z.of_nat (List.length (filter (fun i => D i = true)
                  (seqZ 0 (Z.of_nat (List.length V)))))).
  { unfold stored. f_equal. apply count_Some_seqZ. intros k x Hk.
    unfold D, is_undefined, zlookup. rewrite Z.add_0_l.
    destruct (Z.ltb_spec (Z.of_nat k) 0); [lia|]. rewrite Nat2Z.id, Hk.
    destruct x; reflexivity. }
  (* the same over [0, n) and over [a, n) *)
  assert (HB1 : filter (fun i => D i = true) (seqZ 0 n)
                = filter (fun i => D i = true)
                    (seqZ 0 (Z.of_nat (List.length V)))).
  { replace n with (Z.of_nat (List.length V) + (n - Z.of_nat (List.length V)))
      at 1 by lia.
    rewrite seqZ_app, filter_app by lia.
    rewrite (filter_bool_none D (seqZ _ (n - _))), app_nil_r; [reflexivity|].
    intros x Hx. apply elem_of_seqZ in Hx. unfold D.
    rewrite is_undefined_ge by lia. reflexivity. }
  assert (HB2 : filter (fun i => D i = true) (seqZ 0 n)
                = filter (fun i => D i = true) (seqZ a (n - a))).
  { replace n with (a + (n - a)) at 1 by lia.
    rewrite seqZ_app, filter_app by lia.
    rewrite (filter_bool_none D (seqZ 0 a)); [reflexivity|].
    intros x Hx. apply elem_of_seqZ in Hx. unfold D.
    assert (a = 1 /\ x = 0) as [Ha1 ->].
    { rewrite Hfnf in *. destruct (blockId B =? 0); lia. }
    rewrite (H0 Ha1). reflexivity. }
  (* the indices without a value are the live free-list entries *)
  assert (HU : filter (fun i => negb (D i) = true) (seqZ a (n - a)) ≡ₚ live B).
  { apply NoDup_Permutation; [apply NoDup_filter, NoDup_seqZ | exact Hnd |].
    intros x. rewrite list_elem_of_filter, elem_of_seqZ. unfold D.
    rewrite negb_involutive. split.
    - intros [Hu Hr]. rewrite Forall_forall in Hcov.
      apply Hcov; [apply elem_of_seqZ; lia | exact Hu].
    - intros Hx. rewrite Forall_forall in Hin.
      destruct (Hin x Hx) as [Hr Hu]. split; [exact Hu | lia]. }
  apply Permutation_length in HU.
  pose proof (filter_bool_split D (seqZ a (n - a))) as Hsplit.
  rewrite length_seqZ in Hsplit.
  rewrite HA, <- HB1, HB2. unfold entries. fold n. lia.
Qed.

End Stored.

(** X13. What [entryCount] counts. In an arena that satisfies the
    invariant, [entryCount] of a block is the number of its slots that
    hold a value, plus 1 in the root block for the reserved null slot. *)
Theorem entryCount_counts_values (T : Type) (f : nat) (st : Arena T)
    (i : nat) (B : Block T) :
  Ok st -> blocks st !! i = Some B ->
  entryCount (S f) st i (Z.of_nat i)
  = Return ((if (i =? 0)%nat then 1 else 0) + stored B).
Proof.
  intros HOk HB. destruct (Ok_lookup st i B HOk HB) as [HOkB Hid].
  rewrite (entryCount_wf f st i B (Ok_wf st HOk) HB). f_equal.
  rewrite (stored_entries _ B HOkB). f_equal.
  pose proof HOkB as (Hfnf & _). rewrite Hfnf, Hid.
  destruct i; reflexivity.
Qed.

(** ** The number of blocks *)

Section BlockLimit.

Context {T : Type}.

Lemma band_blockIdMask_le (st : Arena T) (id : Z) :
  Ok st -> 0 <= id <= blockIdMask (codec st) ->
  id = JS.band id (blockIdMask (codec st)).
Proof.
  intros HOk Hid. destruct (Ok_codec st HOk) as (_ & Hc & _).
  unfold JS.band.
  assert (Hm : exists s, blockIdMask (codec st) = Z.ones s /\ 0 <= s
               /\ Z.ones s < 2147483648).
  { destruct Hc as [(_ & _ & _ & -> & _)|(_ & _ & _ & -> & _)];
      [exists 24 | exists 16]; repeat apply conj; try reflexivity; lia. }
  destruct Hm as (s & Hm & Hs & Hlt). rewrite Hm in *.
  rewrite !ToInt32_small by lia.
  rewrite Z.land_ones by lia. symmetry. apply Z.mod_small.
  rewrite Z.ones_equiv in Hid. lia.
Qed.

End BlockLimit.

(** X14. The block limit. An arena that satisfies the invariant has at
    most [blockIdMask + 1] blocks: 2^24 for a block size up to 256,
    2^16 above. Below the limit [new PointerSetBlock] appends one empty
    block with the next id, which holds no value and is in
    [blocksAvail]; at the limit it throws 'out of memory' and changes
    nothing. *)
Theorem block_limit (T : Type) (uninit : nat -> nat -> Z) (st : Arena T) :
  Ok st ->
  blocksCount st <= blockIdMask (codec st) + 1 /\
  blockIdMask (codec st)
  = (if blockSize (codec st) <=? 256 then 16777215 else 65535) /\
  (blocksCount st <= blockIdMask (codec st) ->
   exists B,
     fst (PointerSetBlock uninit st) = Return (List.length (blocks st)) /\
     blocks (snd (PointerSetBlock uninit st)) = blocks st ++ [B] /\
     blockId B = blocksCount st /\ values B = [] /\ entries B = 0 /\
     List.length (blocks st) ∈ blocksAvail (snd (PointerSetBlock uninit st))) /\
  (blocksCount st = blockIdMask (codec st) + 1 ->
   PointerSetBlock uninit st = (Throw errOutOfMemory, st)).
Proof.
  intros HOk. pose proof HOk as (_ & Hbs & _ & Hlen & _).
  destruct (Ok_codec st HOk) as (_ & Hc & _).
  unfold blocksCount. split; [exact Hlen|]. split.
  { destruct Hc as [(H1 & _ & _ & -> & _)|(H1 & _ & _ & -> & _)].
    - destruct (Z.leb_spec (blockSize (codec st)) 256); [reflexivity | lia].
    - destruct (Z.leb_spec (blockSize (codec st)) 256); [lia | reflexivity]. }
  split.
  - intros Hle. unfold PointerSetBlock.
    rewrite <- (band_blockIdMask_le st _ HOk) by lia.
    rewrite Z.eqb_refl. cbn [negb].
    destruct (Z.ltb_spec (blockSize (codec st)) 0); [lia|].
    eexists. cbn [fst snd blocks blocksAvail].
    split; [reflexivity|]. split; [reflexivity|].
    cbn [blockId values]. split; [reflexivity|]. split; [reflexivity|].
    split; [reflexivity|]. apply elem_of_set_add. left; reflexivity.
  - intros Heq. unfold PointerSetBlock.
    destruct (Z.eqb_spec (Z.of_nat (List.length (blocks st)))
                (JS.band (Z.of_nat (List.length (blocks st)))
                   (blockIdMask (codec st)))) as [E|E]; [|reflexivity].
    apply (band_blockIdMask st) in E; [lia | exact HOk | lia].
Qed.

(** ** The constructor *)

Section Constructor.

Context {T : Type}.
Variable uninit : nat -> nat -> Z.

Lemma addRawFields_overlap (fs l1 l2 : list string) (f : string)
    (nm : gmap string Z) (slabs : list (list Z)) (ser : nat) (bs : Z) :
  Forall (fun g => g ∉ fs) l1 -> f ∈ fs ->
  addRawFields uninit fs (l1 ++ f :: l2) nm slabs ser bs
  = Throw (errInvalidRawField f).
Proof.
  intros H1 Hf. revert nm slabs ser.
  induction H1 as [|g l1 Hg _ IH]; intros nm slabs ser; simpl.
  - rewrite bool_decide_eq_true_2 by exact Hf. reflexivity.
  - rewrite bool_decide_eq_false_2 by exact Hg. apply IH.
Qed.

End Constructor.

(** X15. What the constructor returns. A block size above 65536 is
    refused with 'block size must be less than or equal to 65536', a
    negative one with the [RangeError] of the free list's typed array;
    a raw field that is also a pointer field is refused with 'invalid
    raw field', at the first such name; every other call returns an
    arena. *)
Theorem constructor_outcome (T : Type) (uninit : nat -> nat -> Z)
    (fs : list string) (bs : Z) (rs : option (list string)) :
  (65536 < bs -> PointerSet (T := T) uninit fs bs rs = Throw errBlockSize) /\
  (bs < 0 -> PointerSet (T := T) uninit fs bs rs = Throw errArrayLength) /\
  (0 <= bs <= 65536 ->
   (forall l1 f l2, rs = Some (l1 ++ f :: l2) ->
      Forall (fun g => g ∉ fs) l1 -> f ∈ fs ->
      PointerSet (T := T) uninit fs bs rs = Throw (errInvalidRawField f)) /\
   ((forall l f, rs = Some l -> f ∈ l -> f ∉ fs) ->
    exists st : Arena T, PointerSet uninit fs bs rs = Return st)).
Proof.
  split; [|split].
  - intros Hbs. unfold PointerSet, codecOf, getWordSize, max8, max16.
    destruct (Z.leb_spec bs 256); [lia|].
    destruct (Z.leb_spec bs 65536); [lia|]. reflexivity.
  - intros Hbs. unfold PointerSet, codecOf, getWordSize, max8, max16.
    destruct (Z.leb_spec bs 256); [|lia]. cbn.
    destruct (Z.ltb_spec bs 0); [reflexivity | lia].
  - intros Hbs. split; [|apply PointerSet_succeeds; exact Hbs].
    intros l1 f l2 -> H1 Hf.
    unfold PointerSet, codecOf, getWordSize, max8, max16.
    assert (Hneg : negb ((if bs <=? 256 then 1 else if bs <=? 65536 then 2 else 4) =? 1)
                   && negb ((if bs <=? 256 then 1 else if bs <=? 65536 then 2 else 4) =? 2)
                   = false).
    { destruct (Z.leb_spec bs 256); [reflexivity|].
      destruct (Z.leb_spec bs 65536); [reflexivity | lia]. }
    rewrite Hneg. destruct (Z.ltb_spec bs 0); [lia|].
    destruct (addFields uninit fs ∅ [] 1 bs) as [[nm slabs] ser].
    rewrite (addRawFields_overlap uninit fs l1 l2 f nm [] ser bs H1 Hf).
    reflexivity.
Qed.

(** ** The free list *)

(** X16. The free list is a stack. A push onto a stack with room
    followed by a pop returns the pushed number as the typed array
    stores it (modulo 256, or modulo 65536 for the wide array) and
    restores the length; the elements below are not touched. A push
    onto a full stack is lost: the array does not change and the pop
    returns [undefined]. *)
Theorem stack_push_pop (s : Stack.t) (n : Z) :
  0 <= Stack.length s <= Z.of_nat (List.length (Stack.data s)) ->
  Stack.length (snd (Stack.pop (Stack.push s n))) = Stack.length s /\
  (forall i, i < Stack.length s ->
     zlookup (Stack.data (Stack.push s n)) i = zlookup (Stack.data s) i) /\
  (Stack.length s < Z.of_nat (List.length (Stack.data s)) ->
   fst (Stack.pop (Stack.push s n))
   = Some (if Stack.wide s then JS.ToUint16 n else JS.ToUint8 n)) /\
  (Stack.length s = Z.of_nat (List.length (Stack.data s)) ->
   Stack.data (Stack.push s n) = Stack.data s /\
   fst (Stack.pop (Stack.push s n)) = None).
Proof.
  intros Hl. unfold Stack.pop, Stack.push.
  cbn [fst snd Stack.length Stack.data Stack.wide].
  destruct (Z.ltb_spec (Stack.length s) 0); [lia|].
  replace (Stack.length s + 1 - 1) with (Stack.length s) by lia.
  split; [reflexivity|]. split.
  { intros i Hi. unfold zlookup. destruct (Z.ltb_spec i 0); [reflexivity|].
    apply list_lookup_insert_ne. lia. }
  split.
  - intros Hlt. apply zlookup_Some. split; [lia|].
    apply list_lookup_insert_eq. lia.
  - intros Heq. split.
    + apply list_insert_ge. lia.
    + unfold zlookup. destruct (Z.ltb_spec (Stack.length s) 0); [lia|].
      apply lookup_ge_None_2. rewrite length_insert. lia.
Qed.

(** ** [wipeBlock] *)

Lemma zlookup_u32_fill (slab : list Z) (idx : Z) (x : Z) :
  zlookup slab idx = Some x -> zlookup (u32_fill slab 0) idx = Some 0.
Proof.
  intros H. apply zlookup_Some in H as [H0 H]. apply lookup_lt_Some in H.
  apply zlookup_Some. split; [exact H0|]. unfold u32_fill.
  apply lookup_replicate_2. exact H.
Qed.

(** X17. [wipeBlock] on a block of an arena that satisfies the
    invariant returns and resets the block: [entryCount] is back to 0
    (1 in the root block), no pointer into the block reads a value,
    every pointer field and raw field that could be read at a pointer
    into the block reads 0, and the block is in [blocksAvail]. Reads at
    pointers into other blocks are as before. *)
Theorem wipeBlock_resets (T : Type) (f : nat) (st : Arena T) (self : nat)
    (B : Block T) :
  Ok st -> blocks st !! self = Some B ->
  let r := wipeBlock st self in
  fst r = Return tt /\
  entryCount (S f) (snd r) self (Z.of_nat self)
  = Return (if (self =? 0)%nat then 1 else 0) /\
  self ∈ blocksAvail (snd r) /\
  (forall q, getBlockId (codec st) q = Z.of_nat self ->
     (forall w, fst (value (snd r) q None) <> Return (Some w)) /\
     (forall g x, fst (ref st q g None) = Return (Some x) ->
                  fst (ref (snd r) q g None) = Return (Some 0)) /\
     (forall g x, fst (raw st q g None) = Return (Some x) ->
                  fst (raw (snd r) q g None) = Return (Some 0))) /\
  (forall q g, getBlockId (codec st) q <> Z.of_nat self ->
     fst (value (snd r) q None) = fst (value st q None) /\
     fst (ref (snd r) q g None) = fst (ref st q g None) /\
     fst (raw (snd r) q g None) = fst (raw st q g None)).
Proof.
  intros HOk HB. cbn zeta.
  pose proof (wipeBlock_Ok st self HOk) as HOk'.
  unfold wipeBlock in *. rewrite HB in *. cbn [fst snd] in *.
  set (B' := {| values := if blockId B =? 0 then [None] else [];
                nextFree := firstNextFree B; blockId := blockId B;
                firstNextFree := firstNextFree B;
                fields := map (fun slab => u32_fill slab 0) (fields B);
                rawFields := map (fun slab => u32_fill slab 0) (rawFields B);
                freeList := Stack.clear (freeList B) |}) in *.
  set (st' := setAvail (setBlock st self B') (set_add self (blocksAvail st))) in *.
  destruct (Ok_lookup st self B HOk HB) as [HOkB Hid].
  apply lookup_lt_Some in HB as Hlt.
  assert (HB' : blocks st' !! self = Some B').
  { apply list_lookup_insert_eq. exact Hlt. }
  assert (Hz : forall q, getBlockId (codec st) q = Z.of_nat self ->
               zlookup (blocks st') (getBlockId (codec st) q) = Some B' /\
               zlookup (blocks st) (getBlockId (codec st) q) = Some B).
  { intros q ->. split; [apply zlookup_insert_eq; exact Hlt|].
    apply zlookup_Some. rewrite Nat2Z.id. split; [lia | exact HB]. }
  split; [reflexivity|]. split.
  { rewrite (entryCount_wf f st' self B' (Ok_wf st' HOk') HB').
    f_equal. unfold entries. cbn [nextFree freeList B' Stack.clear Stack.length].
    destruct HOkB as (-> & _). rewrite Hid.
    destruct self; reflexivity. }
  split; [apply elem_of_set_add; left; reflexivity|].
  split.
  - intros q Hq. destruct (Hz q Hq) as [Hq' Hq0]. split; [|split].
    + intros w Hw. apply value_occupied in Hw as (_ & B0 & HB0 & Hv & _).
      change (codec st') with (codec st) in *.
      rewrite Hq' in HB0. inversion HB0; subst B0. cbn [values B'] in Hv.
      unfold zlookup in Hv. destruct (_ <? 0); [discriminate|].
      destruct (blockId B =? 0);
        destruct (Z.to_nat (getIndex (codec st) q)) as [|[|j]]; discriminate.
    + intros g x Hg. apply ref_read_Some in Hg
        as (Hq0' & B0 & fid & slab & Hf & H0 & HB0 & Hs & Hx).
      assert (B0 = B) by congruence. subst B0.
      apply ref_read_Some. split; [exact Hq0'|].
      exists B', fid, (u32_fill slab 0).
      split; [exact Hf|]. split; [exact H0|]. split; [exact Hq'|].
      cbn [fields B']. split.
      * rewrite (zlookup_fmap (fun slab => u32_fill slab 0) (fields B)), Hs.
        reflexivity.
      * apply (zlookup_u32_fill slab _ x). exact Hx.
    + intros g x Hg. apply raw_read_Some in Hg
        as (Hq0' & Hk & B0 & slab & HB0 & Hs & Hx).
      assert (B0 = B) by congruence. subst B0.
      apply raw_read_Some. split; [exact Hq0'|]. split; [exact Hk|].
      exists B', (u32_fill slab 0). split; [exact Hq'|].
      cbn [rawFields B']. split.
      * change (names st') with (names st).
        rewrite (zlookup_fmap (fun slab => u32_fill slab 0) (rawFields B)), Hs.
        reflexivity.
      * apply (zlookup_u32_fill slab _ x). exact Hx.
  - intros q g Hq. split; [|split].
    + eapply (value_read_insert st st' self B B');
        [exact HB | reflexivity | reflexivity |]. intros Heq. contradiction.
    + eapply (ref_read_insert st st' self B B');
        [exact HB | reflexivity | reflexivity | reflexivity |].
      intros Heq. contradiction.
    + eapply (raw_read_insert st st' self B B');
        [exact HB | reflexivity | reflexivity | reflexivity |].
      intros Heq. contradiction.
Qed.

(** ** [dropEmpty] *)

Section DropEmpty.

Context {T : Type}.

(** The loop below the last block that holds an entry: no block is
    dropped, and an empty block makes [drop] throw. *)
Lemma dropEmptyLoop_below (f : nat) (st : Arena T) (i : nat) :
  Ok st -> (i < List.length (blocks st))%nat ->
  (forall B, (1 <= i)%nat -> S i = List.length (blocks st) ->
             blocks st !! i = Some B -> entries B <> 0) ->
  snd (dropEmptyLoop (S f) st i) = st /\
  (fst (dropEmptyLoop (S f) st i) = Return tt \/
   fst (dropEmptyLoop (S f) st i) = Throw errFinalBlock) /\
  (fst (dropEmptyLoop (S f) st i) = Return tt <->
   forall j B, (1 <= j <= i)%nat -> blocks st !! j = Some B -> entries B <> 0).
Proof.
  intros HOk. induction i as [|i IH]; intros Hlt Hlast.
  - cbn [dropEmptyLoop fst snd]. split; [reflexivity|].
    split; [left; reflexivity|]. split; [intros _ j B Hj; lia | reflexivity].
  - destruct (lookup_lt_is_Some_2 (blocks st) (S i) Hlt) as [B HB].
    cbn [dropEmptyLoop].
    rewrite (entryCount_wf f st (S i) B (Ok_wf st HOk) HB).
    destruct (Ok_lookup st (S i) B HOk HB) as [_ Hid].
    destruct (Z.eqb_spec (entries B) 0) as [He|He].
    + assert (Hnl : blockId B <> Z.of_nat (List.length (blocks st)) - 1).
      { intros Heq. apply (Hlast B); [lia | lia | exact HB | exact He]. }
      rewrite (drop_not_last T st (S i) B HB Hnl). cbn [fst snd].
      split; [reflexivity|]. split; [right; reflexivity|].
      split; [discriminate|]. intros H. exfalso.
      apply (H (S i) B); [lia | exact HB | exact He].
    + destruct IH as (H1 & H2 & H3); [lia | intros; lia |].
      split; [exact H1|]. split; [exact H2|]. rewrite H3. split.
      * intros H j B0 Hj HB0. destruct (Nat.eq_dec j (S i)) as [->|Hne].
        -- assert (B0 = B) by congruence. subst. exact He.
        -- apply (H j B0); [lia | exact HB0].
      * intros H j B0 Hj HB0. apply (H j B0); [lia | exact HB0].
Qed.

(** The loop over the empty blocks at the end: each one is dropped. *)
Lemma dropEmptyLoop_trailing (f : nat) (k n : nat) (st : Arena T) :
  Ok st -> (1 <= k)%nat -> List.length (blocks st) = (k + n)%nat ->
  (forall i B, (k <= i)%nat -> blocks st !! i = Some B -> entries B = 0) ->
  exists st', Ok st' /\ blocks st' = firstn k (blocks st) /\
    dropEmptyLoop (S f) st (k + n - 1) = dropEmptyLoop (S f) st' (k - 1).
Proof.
  revert st. induction n as [|n IH]; intros st HOk Hk Hlen Hempty.
  - exists st. split; [exact HOk|]. split.
    + symmetry. apply firstn_all2. lia.
    + replace (k + 0 - 1)%nat with (k - 1)%nat by lia. reflexivity.
  - replace (k + S n - 1)%nat with (S (k + n - 1)) by lia.
    assert (Hlt : (S (k + n - 1) < List.length (blocks st))%nat) by lia.
    destruct (lookup_lt_is_Some_2 (blocks st) _ Hlt) as [B HB].
    cbn [dropEmptyLoop].
    rewrite (entryCount_wf f st _ B (Ok_wf st HOk) HB).
    assert (He : entries B = 0)
      by (apply (Hempty (S (k + n - 1)) B); [lia | exact HB]).
    rewrite He. cbn [Z.eqb].
    destruct (Ok_lookup st _ B HOk HB) as [_ Hid].
    pose proof (drop_Ok st (S (k + n - 1)) HOk) as HOk'.
    unfold drop in *. rewrite HB in *.
    destruct (Z.eqb_spec (blockId B) (Z.of_nat (List.length (blocks st)) - 1))
      as [_|Hne]; [|lia].
    cbn [negb] in *.
    destruct (Z.eqb_spec (blockId B) 0) as [H0|_]; [lia|].
    cbn [snd] in HOk'.
    set (st1 := {| blocks := removelast (blocks st);
                   blocksAvail := set_delete (S (k + n - 1)) (blocksAvail st);
                   names := names st; codec := codec st;
                   serial := serial st |}) in *.
    assert (Hbl1 : blocks st1 = firstn (k + n) (blocks st)).
    { cbn [blocks st1]. rewrite removelast_take. f_equal. lia. }
    destruct (IH st1 HOk' Hk) as (st' & HOk2 & Hbl2 & Heq).
    + rewrite Hbl1, length_take. lia.
    + intros i B0 Hi HB0. rewrite Hbl1 in HB0.
      destruct (Nat.lt_ge_cases i (k + n)) as [Hl|Hg].
      * rewrite lookup_take_lt in HB0 by exact Hl.
        apply (Hempty i B0 Hi HB0).
      * rewrite lookup_take_ge in HB0 by exact Hg. discriminate.
    + exists st'. split; [exact HOk2|]. split.
      * rewrite Hbl2, Hbl1, take_take. f_equal. lia.
      * exact Heq.
Qed.

End DropEmpty.

(** X18. What [dropEmpty] does. In an arena that satisfies the
    invariant, let the blocks from position [k] on (with [k] at least 1)
    be the empty blocks at the end, the block before them holding an
    entry. [dropEmpty] removes exactly these blocks. It returns when
    every block between the root and position [k] holds an entry;
    otherwise it throws 'only the final block may be dropped', after the
    blocks at the end are gone. *)
Theorem dropEmpty_removes_trailing (T : Type) (f : nat) (st : Arena T)
    (k : nat) :
  Ok st -> (1 <= k <= List.length (blocks st))%nat ->
  (forall i B, (k <= i)%nat -> blocks st !! i = Some B -> entries B = 0) ->
  (forall B, (1 < k)%nat -> blocks st !! (k - 1)%nat = Some B ->
             entries B <> 0) ->
  let r := dropEmpty (S f) st in
  blocks (snd r) = firstn k (blocks st) /\
  (fst r = Return tt \/ fst r = Throw errFinalBlock) /\
  (fst r = Return tt <->
   forall j B, (1 <= j < k)%nat -> blocks st !! j = Some B -> entries B <> 0).
Proof.
  intros HOk Hk Hempty Hlast. cbn zeta. unfold dropEmpty.
  destruct (dropEmptyLoop_trailing f k (List.length (blocks st) - k) st HOk)
    as (st' & HOk' & Hbl & Heq); [lia | lia | exact Hempty |].
  replace (k + (List.length (blocks st) - k) - 1)%nat
    with (List.length (blocks st) - 1)%nat in Heq by lia.
  rewrite Heq.
  assert (Hlen' : List.length (blocks st') = k).
  { rewrite Hbl, length_take. lia. }
  destruct (dropEmptyLoop_below f st' (k - 1) HOk') as (H1 & H2 & H3).
  - lia.
  - intros B Hk1 _ HB. rewrite Hbl in HB.
    rewrite lookup_take_lt in HB by lia. apply (Hlast B); [lia | exact HB].
  - rewrite H1. split; [exact Hbl|]. split; [exact H2|]. rewrite H3.
    split.
    + intros H j B Hj HB. apply (H j B); [lia|].
      rewrite Hbl, lookup_take_lt by lia. exact HB.
    + intros H j B Hj HB. rewrite Hbl in HB.
      rewrite lookup_take_lt in HB by lia. apply (H j B); [lia | exact HB].
Qed.

(** ** [value] as a setter *)

Section ValueWrite.

Context {T : Type}.

Lemma is_undefined_overwrite (V : list (option T)) (idx j : Z) (v : T) :
  is_undefined V idx = false ->
  is_undefined (array_set V (Some idx) (Some v)) j = is_undefined V j.
Proof.
  intros Hocc. pose proof (is_defined_lt V idx Hocc) as Hr.
  destruct (Z.eq_dec j idx) as [->|Hne].
  - rewrite is_undefined_array_set_eq by lia. symmetry. exact Hocc.
  - apply is_undefined_array_set_ne; [lia | congruence].
Qed.

Lemma OkBlock_overwrite (bs : Z) (B : Block T) (idx : Z) (v : T) :
  OkBlock bs B -> is_undefined (values B) idx = false ->
  OkBlock bs {| values := array_set (values B) (Some idx) (Some v);
                nextFree := nextFree B; blockId := blockId B;
                firstNextFree := firstNextFree B; fields := fields B;
                rawFields := rawFields B; freeList := freeList B |}.
Proof.
  intros (H1 & H2 & H3 & H4 & H5 & H6 & H7 & H8 & H9 & H10 & H11 & H12) Hocc.
  pose proof (is_defined_lt _ idx Hocc) as Hr.
  unfold OkBlock, live in *.
  cbn [values nextFree blockId firstNextFree freeList].
  split; [exact H1|]. split; [exact H2|]. split; [exact H3|].
  split. { rewrite length_array_set by lia. lia. }
  split; [exact H5|]. split; [exact H6|]. split; [exact H7|].
  split; [exact H8|]. split; [exact H9|].
  split.
  { eapply Forall_impl; [exact H10|]. intros e [He Hu].
    rewrite is_undefined_overwrite by exact Hocc. auto. }
  split.
  { intros Hf. rewrite is_undefined_overwrite by exact Hocc. auto. }
  eapply Forall_impl; [exact H12|]. intros e He.
  rewrite is_undefined_overwrite by exact Hocc. exact He.
Qed.

End ValueWrite.

(** X10. [value] as a setter and a getter. When the slot of the pointer
    holds a value, [value(p, v)] returns [v], a read then gives [v],
    reads of values at pointers that decode to another slot and all
    reads of fields are as before, and in an arena that satisfies the
    invariants both invariants and [size()] are kept. *)
Theorem value_write_read (T : Type) (f : nat) (st : Arena T) (p : Z)
    (v w : T) :
  fst (value st p None) = Return (Some w) ->
  let r := value st p (Some v) in
  fst r = Return (Some v) /\
  fst (value (snd r) p None) = Return (Some v) /\
  (forall q,
     getBlockId (codec st) q <> getBlockId (codec st) p \/
     getIndex (codec st) q <> getIndex (codec st) p ->
     fst (value (snd r) q None) = fst (value st q None)) /\
  (forall q g, fst (ref (snd r) q g None) = fst (ref st q g None) /\
               fst (raw (snd r) q g None) = fst (raw st q g None)) /\
  (Ok st -> Ok (snd r) /\ size (S f) (snd r) = size (S f) st /\
            (AvailOk st -> AvailOk (snd r))).
Proof.
  intros Hread. cbn zeta.
  apply value_occupied in Hread as (Hp & B & HB & Hval & Hocc).
  set (b := Z.to_nat (getBlockId (codec st) p)).
  set (idx := getIndex (codec st) p) in *.
  set (B' := {| values := array_set (values B) (Some idx) (Some v);
                nextFree := nextFree B; blockId := blockId B;
                firstNextFree := firstNextFree B; fields := fields B;
                rawFields := rawFields B; freeList := freeList B |}).
  assert (Hw : value st p (Some v) = (Return (Some v), setBlock st b B')).
  { unfold value, noNullPointer. destruct (Z.eqb_spec p 0); [contradiction|].
    rewrite HB. reflexivity. }
  rewrite Hw. cbn [fst snd].
  pose proof (zlookup_lt _ _ _ HB) as Hblt.
  assert (Hb : Z.of_nat b = getBlockId (codec st) p) by (unfold b; lia).
  assert (HBn : blocks st !! b = Some B).
  { apply zlookup_Some in HB as [_ HB]. exact HB. }
  pose proof (is_defined_lt _ idx Hocc) as Hidx.
  split; [reflexivity|]. split.
  { rewrite value_read by exact Hp. cbn [blocks codec setBlock].
    rewrite <- Hb at 1.
    rewrite zlookup_insert_eq by (apply lookup_lt_Some in HBn; exact HBn).
    cbn [values B']. fold idx. rewrite zlookup_array_set_eq by lia.
    reflexivity. }
  split.
  { intros q Hq. eapply (value_read_insert st _ b B B');
      [exact HBn | reflexivity | reflexivity |].
    intros Heq. cbn [values B']. apply zlookup_array_set_ne; [lia|].
    fold idx in Hq. destruct Hq as [Hq|Hq]; congruence. }
  split.
  { intros q g. split.
    - eapply (ref_read_insert st _ b B B');
        [exact HBn | reflexivity | reflexivity | reflexivity |]. reflexivity.
    - eapply (raw_read_insert st _ b B B');
        [exact HBn | reflexivity | reflexivity | reflexivity |]. reflexivity. }
  intros HOk. destruct (Ok_lookup st b B HOk HBn) as [HOkB Hid].
  pose proof (OkBlock_overwrite _ B idx v HOkB Hocc) as HOkB'.
  fold B' in HOkB'.
  assert (HOk' : Ok (setBlock st b B')).
  { apply (Ok_setBlock st b B B' (blocksAvail st) HOk HBn eq_refl HOkB'). }
  split; [exact HOk'|]. split.
  - rewrite !size_wf by (apply Ok_wf; assumption). f_equal.
    cbn [blocks setBlock]. rewrite (sumEntries_insert _ _ B) by exact HBn.
    unfold entries. cbn [nextFree freeList B']. lia.
  - intros HA. apply (AvailOk_slabs st b B B' HOk HA HBn eq_refl HOkB').
    reflexivity.
Qed.


(** ** The slabs and the names *)

Section Shapes.

Lemma sameShape_refl (F : list (list Z)) : sameShape F F.
Proof. reflexivity. Qed.

Lemma sameShape_trans (F1 F2 F3 : list (list Z)) :
  sameShape F1 F2 -> sameShape F2 F3 -> sameShape F1 F3.
Proof. unfold sameShape. congruence. Qed.

Lemma sameShape_length (F' F : list (list Z)) :
  sameShape F' F -> List.length F' = List.length F.
Proof.
  intros H. apply (f_equal List.length) in H.
  rewrite !length_fmap in H. exact H.
Qed.

Lemma sameShape_Forall (F' F : list (list Z)) (bs : Z) :
  sameShape F' F ->
  Forall (fun slab => Z.of_nat (List.length slab) = bs) F ->
  Forall (fun slab => Z.of_nat (List.length slab) = bs) F'.
Proof.
  intros H HF.
  assert (HF' : Forall (fun n => Z.of_nat n = bs) (List.length <$> F)).
  { apply Forall_fmap. exact HF. }
  rewrite <- H in HF'. apply Forall_fmap in HF'. exact HF'.
Qed.

Lemma sameShape_setSlab (F : list (list Z)) (i idx v : Z) :
  sameShape (setSlab F i idx v) F.
Proof. apply setSlab_shape. Qed.

Lemma sameShape_zeroAt (F : list (list Z)) (idx : Z) :
  sameShape (zeroAt idx F) F.
Proof.
  unfold sameShape, zeroAt. rewrite <- list_fmap_compose.
  apply list_fmap_ext. intros i slab _. apply length_u32_set.
Qed.

Lemma sameShape_fill (F : list (list Z)) :
  sameShape (map (fun slab => u32_fill slab 0) F) F.
Proof.
  unfold sameShape. change (map ?g F) with (g <$> F).
  rewrite <- list_fmap_compose.
  apply list_fmap_ext. intros i slab _. unfold u32_fill. cbn.
  apply length_replicate.
Qed.

Lemma sameShape_storeAll (w : list (option Z)) (F : list (list Z))
    (index : option Z) :
  sameShape (snd (storeAll w F index)) F.
Proof.
  revert F. induction w as [|x w IH]; intros F; [reflexivity|].
  destruct F as [|slab F]; [reflexivity|]. cbn [storeAll].
  specialize (IH F). destruct (storeAll w F index) as [r rest].
  cbn [snd] in *. unfold sameShape in *. cbn [fmap list_fmap].
  rewrite length_u32_set. f_equal. exact IH.
Qed.

End Shapes.

Section SchemaKept.

Context {T : Type}.
Variable uninit : nat -> nat -> Z.

Lemma Schema_setBlock (st : Arena T) (b : nat) (B B' : Block T)
    (avail : list nat) :
  Schema st -> blocks st !! b = Some B ->
  sameShape (fields B') (fields B) ->
  sameShape (rawFields B') (rawFields B) ->
  Schema (setAvail (setBlock st b B') avail).
Proof.
  clear uninit. intros (H1 & H2 & H3 & H4) HB HF HR.
  assert (HnF : nFields (setAvail (setBlock st b B') avail) = nFields st).
  { unfold nFields. cbn [blocks setAvail setBlock].
    destruct b as [|b].
    - rewrite list_lookup_insert_eq by (apply lookup_lt_Some in HB; exact HB).
      rewrite HB. cbn. apply sameShape_length, HF.
    - rewrite list_lookup_insert_ne by lia. reflexivity. }
  assert (HnR : nRawFields (setAvail (setBlock st b B') avail) = nRawFields st).
  { unfold nRawFields. cbn [blocks setAvail setBlock].
    destruct b as [|b].
    - rewrite list_lookup_insert_eq by (apply lookup_lt_Some in HB; exact HB).
      rewrite HB. cbn. apply sameShape_length, HR.
    - rewrite list_lookup_insert_ne by lia. reflexivity. }
  unfold Schema. rewrite HnF, HnR. cbn [blocks names codec setAvail setBlock].
  split; [|split; [exact H2|split; [exact H3|exact H4]]].
  apply Forall_insert; [exact H1|].
  rewrite Forall_forall in H1.
  destruct (H1 B) as (A1 & A2 & A3 & A4).
  { apply list_elem_of_lookup. eauto. }
  split; [rewrite (sameShape_length _ _ HF); exact A1|].
  split; [rewrite (sameShape_length _ _ HR); exact A2|].
  split; [apply (sameShape_Forall _ _ _ HF A3)
         |apply (sameShape_Forall _ _ _ HR A4)].
Qed.

Lemma allocHere_shape (st : Arena T) (self : nat) (B : Block T) (v : T)
    (refs raws : option Entries) :
  exists B',
    blocks (snd (allocHere st self B v refs raws)) = <[self := B']> (blocks st) /\
    names (snd (allocHere st self B v refs raws)) = names st /\
    codec (snd (allocHere st self B v refs raws)) = codec st /\
    sameShape (fields B') (fields B) /\
    sameShape (rawFields B') (rawFields B).
Proof.
  clear uninit. unfold allocHere. destruct (takeIndex B) as [[index fl] nf].
  destruct (match refs with
            | Some es => refWrites (names st) es (map (fun _ => Some 0) (fields B))
            | None => Return (map (fun _ => Some 0) (fields B))
            end) as [writes|e1|].
  2,3: eexists; cbn; repeat apply conj; reflexivity.
  pose proof (sameShape_storeAll writes (fields B) index) as HsF.
  destruct (storeAll writes (fields B) index) as [r1 slabs]. cbn [snd] in HsF.
  destruct r1 as [[]|e2|].
  2,3: eexists; cbn; rewrite list_insert_insert_eq;
       repeat apply conj; try reflexivity; exact HsF.
  destruct (match raws with
            | Some es => rawWrites (names st) es (map (fun _ => Some 0) (rawFields B))
            | None => Return (map (fun _ => Some 0) (rawFields B))
            end) as [rws|e3|].
  2,3: eexists; cbn; rewrite list_insert_insert_eq;
       repeat apply conj; try reflexivity; exact HsF.
  pose proof (sameShape_storeAll rws (rawFields B) index) as HsR.
  destruct (storeAll rws (rawFields B) index) as [r2 rslabs]. cbn [snd] in HsR.
  destruct r2 as [[]|e4|]; eexists; cbn; rewrite !list_insert_insert_eq;
    repeat apply conj; try reflexivity; assumption.
Qed.

Lemma allocHere_Schema (st : Arena T) (self : nat) (B : Block T) (v : T)
    (refs raws : option Entries) :
  Schema st -> blocks st !! self = Some B ->
  Schema (snd (allocHere st self B v refs raws)).
Proof.
  clear uninit. intros HS HB.
  destruct (allocHere_shape st self B v refs raws)
    as (B' & Hbl & Hn & Hc & HF & HR).
  pose proof (Schema_setBlock st self B B' (blocksAvail st) HS HB HF HR) as H.
  destruct (allocHere st self B v refs raws) as [r st']. cbn [snd] in *.
  unfold Schema, nFields, nRawFields in *.
  cbn [blocks names codec setAvail setBlock] in H.
  rewrite Hbl, Hn, Hc. exact H.
Qed.

Lemma length_newSlabs (n ser : nat) (len : Z) :
  List.length (newSlabs uninit n ser len) = n /\
  Forall (fun slab => List.length slab = Z.to_nat len)
         (newSlabs uninit n ser len).
Proof.
  revert ser. induction n as [|n IH]; intros ser; [split; [reflexivity|constructor]|].
  cbn [newSlabs]. destruct (IH (S ser)) as [H1 H2]. split.
  - simpl. rewrite H1. reflexivity.
  - constructor; [|exact H2]. unfold unsafeUint32Array.
    rewrite length_map, length_seq. reflexivity.
Qed.

Lemma PointerSetBlock_Schema (st : Arena T) :
  Ok st -> Schema st -> Schema (snd (PointerSetBlock uninit st)).
Proof.
  intros HOk (H1 & H2 & H3 & H4). unfold PointerSetBlock.
  destruct (negb _); [repeat split; assumption|].
  pose proof HOk as (_ & Hbs & Hpos & _).
  destruct (Z.ltb_spec (blockSize (codec st)) 0); [lia|]. cbn [snd].
  destruct (blocks st) as [|B0 bl] eqn:Hbl; [simpl in Hpos; lia|].
  unfold Schema, nFields, nRawFields in *. rewrite Hbl in *.
  cbn [blocks names codec lookup list_lookup from_option app] in *.
  split; [|split; [exact H2|split; [exact H3|exact H4]]].
  change (B0 :: bl ++ ?x) with ((B0 :: bl) ++ x).
  apply Forall_app. split; [exact H1|]. constructor; [|constructor].
  cbn [fields rawFields].
  destruct (length_newSlabs (List.length (fields B0)) (S (serial st))
              (blockSize (codec st))) as [A1 A2].
  destruct (length_newSlabs (List.length (rawFields B0))
              (S (serial st) + List.length (fields B0))
              (blockSize (codec st))) as [A3 A4].
  split; [exact A1|]. split; [exact A3|].
  split; (eapply Forall_impl; [eassumption|]); intros slab Hs; cbn in Hs; lia.
Qed.

Lemma alloc_Schema (fuel : nat) (st : Arena T) (self : nat) (v : T)
    (refs raws : option Entries) :
  Ok st -> Schema st -> Schema (snd (alloc uninit fuel st self v refs raws)).
Proof.
  revert st self. induction fuel as [|fuel IH]; intros st self HOk HS;
    [exact HS|].
  simpl. destruct (blocks st !! self) as [B|] eqn:HB; [|exact HS].
  destruct ((nextFree B <? blockSize (codec st))
            || negb (Stack.length (freeList B) =? 0)) eqn:Hspace.
  - apply allocHere_Schema; assumption.
  - destruct (blocksAvail st) as [|b rest]; [|apply IH; assumption].
    pose proof (PointerSetBlock_Ok uninit st HOk) as HOk1.
    pose proof (PointerSetBlock_Schema st HOk HS) as HS1.
    destruct (PointerSetBlock uninit st) as [[b|e|] st1]; cbn [snd] in *.
    + apply IH; assumption.
    + exact HS1.
    + exact HS1.
Qed.

End SchemaKept.

Section SchemaKeptMore.

Context {T : Type}.

Lemma free_Schema (fuel : nat) (st : Arena T) (self : nat) (p : Z) :
  Schema st -> Schema (snd (free fuel st self p)).
Proof.
  intros HS. revert self.
  induction fuel as [|fuel IH]; intros self; [exact HS|].
  simpl. destruct (p =? 0); [exact HS|].
  destruct (blocks st !! self) as [B|] eqn:HB; [|exact HS].
  destruct (negb (getBlockId (codec st) p =? blockId B)).
  - destruct (zlookup (blocks st) (getBlockId (codec st) p));
      [apply IH | exact HS].
  - destruct (is_undefined (values B) (getIndex (codec st) p)); [exact HS|].
    cbn [snd]. rewrite freeHere_freedBlock.
    destruct (blockId_freedBlock B (getIndex (codec st) p))
      as (_ & _ & HF & HR).
    apply (Schema_setBlock st self B _ _ HS HB).
    + rewrite HF. apply sameShape_refl.
    + rewrite HR. apply sameShape_refl.
Qed.

Lemma erase_Schema (fuel : nat) (st : Arena T) (self : nat) (p : Z) :
  Schema st -> Schema (snd (erase fuel st self p)).
Proof.
  intros HS. revert self.
  induction fuel as [|fuel IH]; intros self; [exact HS|].
  simpl. destruct (p =? 0); [exact HS|].
  destruct (blocks st !! self) as [B|] eqn:HB; [|exact HS].
  destruct (negb (getBlockId (codec st) p =? blockId B)).
  - destruct (zlookup (blocks st) (getBlockId (codec st) p));
      [apply IH | exact HS].
  - destruct (is_undefined (values B) (getIndex (codec st) p)); [exact HS|].
    pose proof (free_Schema fuel st self p HS) as HS'.
    destruct (free fuel st self p) as [[[]|e|] st']; cbn [snd] in *;
      try exact HS'.
    destruct (blocks st' !! self) as [B'|] eqn:HB'; [|exact HS'].
    cbn [snd].
    apply (Schema_setBlock st' self B' _ (blocksAvail st') HS' HB');
      apply sameShape_zeroAt.
Qed.

Lemma wipeBlock_Schema (st : Arena T) (self : nat) :
  Schema st -> Schema (snd (wipeBlock st self)).
Proof.
  intros HS. unfold wipeBlock.
  destruct (blocks st !! self) as [B|] eqn:HB; [|exact HS]. cbn [snd].
  apply (Schema_setBlock st self B _ _ HS HB); apply sameShape_fill.
Qed.

Lemma drop_Schema (st : Arena T) (self : nat) :
  Ok st -> Schema st -> Schema (snd (drop st self)).
Proof.
  intros HOk HS. unfold drop.
  destruct (blocks st !! self) as [B|] eqn:HB; [|exact HS].
  destruct (Z.eqb_spec (blockId B) (Z.of_nat (List.length (blocks st)) - 1))
    as [Hlast|_]; cbn [negb]; [|exact HS].
  destruct (Z.eqb_spec (blockId B) 0) as [_|Hnz];
    [apply wipeBlock_Schema; exact HS|].
  cbn [snd]. destruct HS as (H1 & H2 & H3 & H4).
  destruct (Ok_lookup st self B HOk HB) as [_ Hid].
  assert (Hroot : removelast (blocks st) !! 0%nat = blocks st !! 0%nat).
  { rewrite removelast_take. apply lookup_take_lt. lia. }
  unfold Schema, nFields, nRawFields in *. cbn [blocks names codec].
  rewrite Hroot.
  split; [|split; [exact H2|split; [exact H3|exact H4]]].
  rewrite removelast_take. apply Forall_take. exact H1.
Qed.

Lemma dropEmptyLoop_Schema (fuel : nat) (i : nat) (st : Arena T) :
  Ok st -> Schema st -> Schema (snd (dropEmptyLoop fuel st i)).
Proof.
  revert st. induction i as [|i IH]; intros st HOk HS; [exact HS|].
  cbn [dropEmptyLoop].
  destruct (entryCount fuel st (S i) (Z.of_nat (S i))) as [n|e|]; try exact HS.
  destruct (n =? 0); [|apply IH; assumption].
  pose proof (drop_Ok st (S i) HOk) as Hd.
  pose proof (drop_Schema st (S i) HOk HS) as Hd'.
  destruct (drop st (S i)) as [[[]|e|] st']; cbn [snd] in *;
    [apply IH; assumption | exact Hd' | exact Hd'].
Qed.

Lemma Schema_fields (st : Arena T) (b : nat) (B : Block T)
    (V : list (option T)) (F R : list (list Z)) :
  Schema st -> blocks st !! b = Some B ->
  sameShape F (fields B) -> sameShape R (rawFields B) ->
  Schema (setBlock st b
            {| values := V; nextFree := nextFree B; blockId := blockId B;
               firstNextFree := firstNextFree B; fields := F; rawFields := R;
               freeList := freeList B |}).
Proof.
  intros HS HB HF HR.
  apply (Schema_setBlock st b B _ (blocksAvail st) HS HB); assumption.
Qed.

Lemma ref_Schema (st : Arena T) (p : Z) (f : string) (t : option Z) :
  Schema st -> Schema (snd (ref st p f t)).
Proof.
  intros HS. unfold ref.
  destruct (noNullPointer p _); [exact HS|].
  destruct (from_option _ false (names st !! f)); [exact HS|].
  destruct (zlookup (blocks st) (getBlockId (codec st) p)) as [B|] eqn:HB;
    [|exact HS].
  destruct (names st !! f ≫= zlookup (fields B)); [|exact HS].
  destruct t as [t|]; [|exact HS]. cbn [snd].
  apply zlookup_Some in HB as [_ HB].
  apply (Schema_fields st _ B _ _ _ HS HB);
    [apply sameShape_setSlab | apply sameShape_refl].
Qed.

Lemma raw_Schema (st : Arena T) (p : Z) (f : string) (t : option Z) :
  Schema st -> Schema (snd (raw st p f t)).
Proof.
  intros HS. unfold raw.
  destruct (noNullPointer p _); [exact HS|].
  destruct (from_option _ false (names st !! f)); [exact HS|].
  destruct (zlookup (blocks st) (getBlockId (codec st) p)) as [B|] eqn:HB;
    [|exact HS].
  destruct (zlookup (rawFields B) _); [|exact HS].
  destruct t as [t|]; [|exact HS]. cbn [snd].
  apply zlookup_Some in HB as [_ HB].
  apply (Schema_fields st _ B _ _ _ HS HB);
    [apply sameShape_refl | apply sameShape_setSlab].
Qed.

Lemma refAll_Schema (fuel : nat) (st : Arena T) (self : nat) (p : Z)
    (refs : option Entries) :
  Schema st -> Schema (snd (refAll fuel st self p refs)).
Proof.
  intros HS. revert self.
  induction fuel as [|fuel IH]; intros self; [exact HS|].
  simpl. destruct (noNullPointer p _); [exact HS|].
  destruct (blocks st !! self) as [B|] eqn:HB; [|exact HS].
  destruct (negb (getBlockId (codec st) p =? blockId B)).
  - destruct (zlookup (blocks st) (getBlockId (codec st) p));
      [apply IH | exact HS].
  - unfold refAllHere.
    destruct (is_undefined (values B) _); [destruct refs; exact HS|].
    destruct refs as [es|].
    + pose proof (bulkLoop_shape (fun id => id <? 0) (fun id => id)
                    errUnknownPointerField errRawAsPointer (names st) es
                    (getIndex (codec st) p) (fields B)) as Hsh.
      rewrite <- refAllLoop_bulk in Hsh.
      destruct (refAllLoop (names st) es _ (fields B)) as [r slabs].
      cbn [snd] in Hsh.
      pose proof (Schema_fields st _ B (values B) slabs (rawFields B) HS HB
                    Hsh (sameShape_refl _)) as H.
      destruct r; exact H.
    + destruct (bool_decide _); exact HS.
Qed.

Lemma rawAll_Schema (fuel : nat) (st : Arena T) (self : nat) (p : Z)
    (raws : option Entries) :
  Schema st -> Schema (snd (rawAll fuel st self p raws)).
Proof.
  intros HS. revert self.
  induction fuel as [|fuel IH]; intros self; [exact HS|].
  simpl. destruct (noNullPointer p _); [exact HS|].
  destruct (blocks st !! self) as [B|] eqn:HB; [|exact HS].
  destruct (negb (getBlockId (codec st) p =? blockId B)).
  - destruct (zlookup (blocks st) (getBlockId (codec st) p));
      [apply IH | exact HS].
  - unfold rawAllHere.
    destruct (is_undefined (values B) _); [destruct raws; exact HS|].
    destruct raws as [es|].
    + pose proof (bulkLoop_shape (fun id => 0 <=? id) JS.bnot
                    errUnknownRawField errPointerAsRaw (names st) es
                    (getIndex (codec st) p) (rawFields B)) as Hsh.
      rewrite <- rawAllLoop_bulk in Hsh.
      destruct (rawAllLoop (names st) es _ (rawFields B)) as [r slabs].
      cbn [snd] in Hsh.
      pose proof (Schema_fields st _ B (values B) (fields B) slabs HS HB
                    (sameShape_refl _) Hsh) as H.
      destruct r; exact H.
    + destruct (bool_decide _); exact HS.
Qed.

Lemma value_Schema (st : Arena T) (p : Z) (v : option T) :
  Schema st -> Schema (snd (value st p v)).
Proof.
  intros HS. unfold value.
  destruct (noNullPointer p _); [exact HS|].
  destruct (zlookup (blocks st) (getBlockId (codec st) p)) as [B|] eqn:HB;
    [|exact HS].
  destruct v as [v|]; [|exact HS]. cbn [snd].
  apply zlookup_Some in HB as [_ HB].
  apply (Schema_fields st _ B _ _ _ HS HB); apply sameShape_refl.
Qed.

End SchemaKeptMore.

(** ** The names the constructor registers *)

Section Registry.

Context {T : Type}.
Variable uninit : nat -> nat -> Z.

Lemma length_rootSlab (ser : nat) (bs : Z) :
  0 <= bs -> Z.of_nat (List.length (rootSlab uninit ser bs)) = bs.
Proof.
  intros Hbs. unfold rootSlab. rewrite length_u32_set.
  unfold unsafeUint32Array. rewrite length_map, length_seq. lia.
Qed.

Lemma bnot_nat (n : nat) :
  Z.of_nat n < 2147483648 -> JS.bnot (Z.of_nat n) = - Z.of_nat n - 1.
Proof.
  intros Hn. unfold JS.bnot. rewrite ToInt32_small by lia.
  unfold Z.lnot. lia.
Qed.

Lemma bnot_neg (id : Z) :
  -2147483648 <= id < 0 -> JS.bnot id = - id - 1.
Proof.
  intros Hn. unfold JS.bnot. rewrite ToInt32_small by lia.
  unfold Z.lnot. lia.
Qed.

Lemma addFields_inv (fs : list string) (bs : Z) :
  0 <= bs ->
  forall (nm : gmap string Z) (slabs : list (list Z)) (ser : nat),
  map_Forall (fun _ id => 0 <= id < Z.of_nat (List.length slabs)) nm ->
  map_Forall (fun k1 id1 => map_Forall (fun k2 id2 => id1 = id2 -> k1 = k2) nm) nm ->
  Forall (fun slab => Z.of_nat (List.length slab) = bs) slabs ->
  let r := addFields uninit fs nm slabs ser bs in
  map_Forall (fun _ id => 0 <= id < Z.of_nat (List.length (r.1.2))) (r.1.1) /\
  map_Forall (fun k1 id1 =>
    map_Forall (fun k2 id2 => id1 = id2 -> k1 = k2) (r.1.1)) (r.1.1) /\
  Forall (fun slab => Z.of_nat (List.length slab) = bs) (r.1.2) /\
  List.length (r.1.2) = (List.length slabs + List.length fs)%nat /\
  (forall k, is_Some ((r.1.1) !! k) <-> is_Some (nm !! k) \/ k ∈ fs).
Proof.
  intros Hbs. induction fs as [|f fs IH]; intros nm slabs ser H1 H2 H3.
  - cbn. split; [exact H1|]. split; [exact H2|]. split; [exact H3|].
    split; [lia|]. intros k. split; [auto|]. intros [H|H]; [exact H|].
    inversion H.
  - cbn [addFields].
    destruct (IH (<[f := Z.of_nat (List.length slabs)]> nm)
                 (slabs ++ [rootSlab uninit ser bs]) (S ser))
      as (A1 & A2 & A3 & A4 & A5).
    + intros k id Hk. rewrite length_app. simpl.
      apply lookup_insert_Some in Hk as [[_ <-]|[_ Hk]]; [lia|].
      specialize (H1 k id Hk). simpl in H1. lia.
    + intros k1 id1 Hk1 k2 id2 Hk2 Heq.
      apply lookup_insert_Some in Hk1 as [[<- <-]|[Hne1 Hk1]];
        apply lookup_insert_Some in Hk2 as [[<- <-]|[Hne2 Hk2]].
      * reflexivity.
      * specialize (H1 k2 id2 Hk2). simpl in H1. lia.
      * specialize (H1 k1 id1 Hk1). simpl in H1. lia.
      * apply (H2 k1 id1 Hk1 k2 id2 Hk2 Heq).
    + apply Forall_app. split; [exact H3|]. constructor; [|constructor].
      apply length_rootSlab. exact Hbs.
    + cbn zeta in *. split; [exact A1|]. split; [exact A2|].
      split; [exact A3|]. split.
      { rewrite A4, length_app. simpl. lia. }
      intros k. rewrite A5. rewrite lookup_insert_is_Some, elem_of_cons.
      destruct (decide (f = k)) as [->|Hne]; [tauto|].
      split; [intros [[H|[_ H]]|H]; auto; congruence
             |intros [H|[H|H]]; auto; congruence].
Qed.

Lemma addRawFields_inv (fs : list string) (bs : Z) (nf : nat) :
  0 <= bs ->
  forall (rs : list string) (nm : gmap string Z) (slabs : list (list Z))
         (ser : nat) nm' raws ser',
  Z.of_nat (List.length slabs + List.length rs) <= 2147483648 ->
  map_Forall (fun _ id => 0 <= id < Z.of_nat nf \/
                          - Z.of_nat (List.length slabs) <= id < 0) nm ->
  map_Forall (fun k1 id1 => map_Forall (fun k2 id2 => id1 = id2 -> k1 = k2) nm) nm ->
  Forall (fun slab => Z.of_nat (List.length slab) = bs) slabs ->
  addRawFields uninit fs rs nm slabs ser bs = Return (nm', raws, ser') ->
  map_Forall (fun _ id => 0 <= id < Z.of_nat nf \/
                          - Z.of_nat (List.length raws) <= id < 0) nm' /\
  map_Forall (fun k1 id1 =>
    map_Forall (fun k2 id2 => id1 = id2 -> k1 = k2) nm') nm' /\
  Forall (fun slab => Z.of_nat (List.length slab) = bs) raws /\
  List.length raws = (List.length slabs + List.length rs)%nat /\
  (forall k, k ∈ rs -> (k ∉ fs) /\ exists id, nm' !! k = Some id /\ id < 0) /\
  (forall k, k ∉ rs -> nm' !! k = nm !! k).
Proof.
  intros Hbs. induction rs as [|f rs IH];
    intros nm slabs ser nm' raws ser' Hlen H1 H2 H3 Hrun.
  - cbn in Hrun. inversion Hrun; subst. split; [exact H1|].
    split; [exact H2|]. split; [exact H3|]. split; [simpl; lia|].
    split; [intros k Hk; inversion Hk | reflexivity].
  - cbn [addRawFields] in Hrun.
    destruct (bool_decide_reflect (f ∈ fs)) as [Hin|Hnin]; [discriminate|].
    rewrite length_cons in Hlen.
    rewrite bnot_nat in Hrun by lia.
    destruct (IH (<[f := - Z.of_nat (List.length slabs) - 1]> nm)
                 (slabs ++ [rootSlab uninit ser bs]) (S ser) nm' raws ser')
      as (A1 & A2 & A3 & A4 & A5 & A6); [| | | |exact Hrun|].
    + rewrite length_app. simpl. lia.
    + intros k id Hk. rewrite length_app. simpl.
      apply lookup_insert_Some in Hk as [[_ <-]|[_ Hk]]; [lia|].
      specialize (H1 k id Hk). simpl in H1. lia.
    + intros k1 id1 Hk1 k2 id2 Hk2 Heq.
      apply lookup_insert_Some in Hk1 as [[<- <-]|[Hne1 Hk1]];
        apply lookup_insert_Some in Hk2 as [[<- <-]|[Hne2 Hk2]].
      * reflexivity.
      * specialize (H1 k2 id2 Hk2). simpl in H1. lia.
      * specialize (H1 k1 id1 Hk1). simpl in H1. lia.
      * apply (H2 k1 id1 Hk1 k2 id2 Hk2 Heq).
    + apply Forall_app. split; [exact H3|]. constructor; [|constructor].
      apply length_rootSlab. exact Hbs.
    + split; [exact A1|]. split; [exact A2|]. split; [exact A3|]. split.
      { rewrite A4, length_app. simpl. lia. }
      split.
      * intros k Hk. destruct (decide (k ∈ rs)) as [Hr|Hr]; [apply A5, Hr|].
        apply elem_of_cons in Hk as [->|Hk]; [|contradiction].
        split; [exact Hnin|]. rewrite (A6 f Hr), lookup_insert_eq.
        eexists. split; [reflexivity | lia].
      * intros k Hk. rewrite not_elem_of_cons in Hk. destruct Hk as [Hne Hk].
        rewrite (A6 k Hk). apply lookup_insert_ne. congruence.
Qed.

End Registry.

Section ConstructorSchema.

Context {T : Type}.
Variable uninit : nat -> nat -> Z.

Lemma PointerSet_Schema (fs : list string) (bs : Z)
    (rs : option (list string)) (st : Arena T) :
  PointerSet uninit fs bs rs = Return st ->
  Z.of_nat (List.length (default [] rs)) <= 2147483648 ->
  Schema st /\
  nFields st = List.length fs /\
  nRawFields st = List.length (default [] rs) /\
  (forall f, f ∈ fs <-> exists id, names st !! f = Some id /\ 0 <= id) /\
  (forall f, f ∈ default [] rs <-> exists id, names st !! f = Some id /\ id < 0).
Proof.
  unfold PointerSet. intros H Hrs.
  destruct (codecOf bs) as [c|] eqn:Hc; [|discriminate].
  destruct (Z.ltb_spec bs 0); [discriminate|].
  assert (Hbs : blockSize c = bs).
  { unfold codecOf in Hc.
    destruct (negb (getWordSize bs =? 1) && negb (getWordSize bs =? 2));
      [discriminate|]. inversion Hc; reflexivity. }
  destruct (addFields_inv uninit fs bs ltac:(lia) ∅ [] 1%nat)
    as (A1 & A2 & A3 & A4 & A5).
  { apply map_Forall_empty. }
  { apply map_Forall_empty. }
  { constructor. }
  cbn zeta in *.
  destruct (addFields uninit fs ∅ [] 1 bs) as [[nm slabs] ser].
  cbn [fst snd] in *. simpl in A4.
  assert (Hdom : forall k, is_Some (nm !! k) <-> k ∈ fs).
  { intros k. rewrite A5, lookup_empty. split; [intros [[? ?]|?]|]; auto.
    discriminate. }
  assert (Hraw : exists nm' raws ser',
    (match rs with
     | Some rs0 => addRawFields uninit fs rs0 nm [] ser bs
     | None => Return (nm, [], ser)
     end) = Return (nm', raws, ser') /\
    map_Forall (fun _ id => 0 <= id < Z.of_nat (List.length slabs) \/
                            - Z.of_nat (List.length raws) <= id < 0) nm' /\
    map_Forall (fun k1 id1 =>
      map_Forall (fun k2 id2 => id1 = id2 -> k1 = k2) nm') nm' /\
    Forall (fun slab => Z.of_nat (List.length slab) = bs) raws /\
    List.length raws = List.length (default [] rs) /\
    (forall k, k ∈ default [] rs ->
       (k ∉ fs) /\ exists id, nm' !! k = Some id /\ id < 0) /\
    (forall k, k ∉ default [] rs -> nm' !! k = nm !! k)).
  { destruct rs as [rs0|]; cbn [default from_option id] in *.
    - destruct (addRawFields uninit fs rs0 nm [] ser bs)
        as [[[nm' raws] ser']|e|] eqn:Hrun; try discriminate.
      exists nm', raws, ser'. split; [reflexivity|].
      destruct (addRawFields_inv uninit fs bs (List.length slabs) ltac:(lia)
                  rs0 nm [] ser nm' raws ser') as (B1 & B2 & B3 & B4 & B5 & B6);
        try assumption.
      + intros k id Hk. left. apply (A1 k id Hk).
      + constructor.
      + auto 10.
    - exists nm, [], ser. split; [reflexivity|].
      split. { intros k id Hk. left. apply (A1 k id Hk). }
      split; [exact A2|]. split; [constructor|]. split; [reflexivity|].
      split; [intros k Hk; inversion Hk | reflexivity]. }
  destruct Hraw as (nm' & raws & ser' & Hrun & B1 & B2 & B3 & B4 & B5 & B6).
  rewrite Hrun in H. inversion H; subst st; clear H.
  unfold Schema, nFields, nRawFields.
  cbn [blocks names codec lookup list_lookup from_option fields rawFields].
  rewrite Hbs.
  split; [|split; [exact A4|split; [exact B4|split]]].
  - split; [|split; [lia|split; [exact B1|exact B2]]].
    constructor; [|constructor]. cbn [fields rawFields]. auto.
  - intros f. split.
    + intros Hf. destruct (proj2 (Hdom f) Hf) as [id Hid].
      exists id. split; [|apply (A1 f id Hid)].
      rewrite B6; [exact Hid|]. intros Hr. apply B5 in Hr as [Hr _].
      contradiction.
    + intros (id & Hid & Hge).
      destruct (decide (f ∈ default [] rs)) as [Hr|Hr].
      * destruct (B5 f Hr) as (_ & id' & Hid' & Hneg).
        rewrite Hid in Hid'. inversion Hid'. lia.
      * rewrite (B6 f Hr) in Hid. apply Hdom. eauto.
  - intros f. split.
    + intros Hf. apply (B5 f Hf).
    + intros (id & Hid & Hlt).
      destruct (decide (f ∈ default [] rs)) as [Hr|Hr]; [exact Hr|].
      rewrite (B6 f Hr) in Hid. pose proof (A1 f id Hid) as Hpos.
      simpl in Hpos. lia.
Qed.

End ConstructorSchema.

(** ** The names and the codec never change *)

Section Static.

Context {T : Type}.
Variable uninit : nat -> nat -> Z.

Local Abbreviation static st st' :=
  (names st' = names st /\ codec st' = codec st).

Lemma PointerSetBlock_static (st : Arena T) :
  static st (snd (PointerSetBlock uninit st)).
Proof.
  unfold PointerSetBlock. destruct (negb _); [split; reflexivity|].
  destruct (blockSize (codec st) <? 0); split; reflexivity.
Qed.

Lemma alloc_static (fuel : nat) (st : Arena T) (self : nat) (v : T)
    (refs raws : option Entries) :
  static st (snd (alloc uninit fuel st self v refs raws)).
Proof.
  revert st self. induction fuel as [|fuel IH]; intros st self;
    [split; reflexivity|].
  simpl. destruct (blocks st !! self) as [B|] eqn:HB; [|split; reflexivity].
  destruct ((nextFree B <? blockSize (codec st))
            || negb (Stack.length (freeList B) =? 0)).
  - destruct (allocHere_shape st self B v refs raws) as (B' & _ & Hn & Hc & _).
    split; assumption.
  - destruct (blocksAvail st) as [|b rest]; [|apply IH].
    pose proof (PointerSetBlock_static st) as [Hn Hc].
    destruct (PointerSetBlock uninit st) as [[b|e|] st1]; cbn [snd] in *;
      [|split; assumption..].
    destruct (IH st1 b) as [Hn' Hc']. split; congruence.
Qed.

Lemma free_static (fuel : nat) (st : Arena T) (self : nat) (p : Z) :
  static st (snd (free fuel st self p)).
Proof.
  clear uninit. revert self.
  induction fuel as [|fuel IH]; intros self; [split; reflexivity|].
  simpl. destruct (p =? 0); [split; reflexivity|].
  destruct (blocks st !! self) as [B|]; [|split; reflexivity].
  destruct (negb _).
  - destruct (zlookup (blocks st) _); [apply IH | split; reflexivity].
  - destruct (is_undefined _ _); split; reflexivity.
Qed.

Lemma erase_static (fuel : nat) (st : Arena T) (self : nat) (p : Z) :
  static st (snd (erase fuel st self p)).
Proof.
  clear uninit. revert self.
  induction fuel as [|fuel IH]; intros self; [split; reflexivity|].
  simpl. destruct (p =? 0); [split; reflexivity|].
  destruct (blocks st !! self) as [B|]; [|split; reflexivity].
  destruct (negb _).
  - destruct (zlookup (blocks st) _); [apply IH | split; reflexivity].
  - destruct (is_undefined _ _); [split; reflexivity|].
    pose proof (free_static fuel st self p) as H.
    destruct (free fuel st self p) as [[[]|e|] st']; cbn [snd] in *;
      try exact H.
    destruct (blocks st' !! self); exact H.
Qed.

Lemma drop_static (st : Arena T) (self : nat) :
  static st (snd (drop st self)).
Proof.
  clear uninit. unfold drop, wipeBlock.
  destruct (blocks st !! self) as [B|]; [|split; reflexivity].
  destruct (negb _); [split; reflexivity|].
  destruct (blockId B =? 0); split; reflexivity.
Qed.

Lemma dropEmptyLoop_static (fuel : nat) (i : nat) (st : Arena T) :
  static st (snd (dropEmptyLoop fuel st i)).
Proof.
  clear uninit. revert st. induction i as [|i IH]; intros st;
    [split; reflexivity|].
  cbn [dropEmptyLoop].
  destruct (entryCount fuel st (S i) (Z.of_nat (S i))) as [n|e|];
    try (split; reflexivity).
  destruct (n =? 0); [|apply IH].
  pose proof (drop_static st (S i)) as [Hn Hc].
  destruct (drop st (S i)) as [[[]|e|] st']; cbn [snd] in *;
    [|split; assumption..].
  destruct (IH st') as [Hn' Hc']. split; congruence.
Qed.

Lemma refAll_static (fuel : nat) (st : Arena T) (self : nat) (p : Z)
    (refs : option Entries) :
  static st (snd (refAll fuel st self p refs)).
Proof.
  clear uninit. revert self.
  induction fuel as [|fuel IH]; intros self; [split; reflexivity|].
  simpl. destruct (noNullPointer p _); [split; reflexivity|].
  destruct (blocks st !! self) as [B|]; [|split; reflexivity].
  destruct (negb _).
  - destruct (zlookup (blocks st) _); [apply IH | split; reflexivity].
  - unfold refAllHere.
    destruct (is_undefined _ _); [destruct refs; split; reflexivity|].
    destruct refs as [es|].
    + destruct (refAllLoop _ _ _ _) as [r slabs]. destruct r; split; reflexivity.
    + destruct (bool_decide _); split; reflexivity.
Qed.

Lemma rawAll_static (fuel : nat) (st : Arena T) (self : nat) (p : Z)
    (raws : option Entries) :
  static st (snd (rawAll fuel st self p raws)).
Proof.
  clear uninit. revert self.
  induction fuel as [|fuel IH]; intros self; [split; reflexivity|].
  simpl. destruct (noNullPointer p _); [split; reflexivity|].
  destruct (blocks st !! self) as [B|]; [|split; reflexivity].
  destruct (negb _).
  - destruct (zlookup (blocks st) _); [apply IH | split; reflexivity].
  - unfold rawAllHere.
    destruct (is_undefined _ _); [destruct raws; split; reflexivity|].
    destruct raws as [es|].
    + destruct (rawAllLoop _ _ _ _) as [r slabs]. destruct r; split; reflexivity.
    + destruct (bool_decide _); split; reflexivity.
Qed.

Lemma ref_static (st : Arena T) (p : Z) (f : string) (t : option Z) :
  static st (snd (ref st p f t)).
Proof.
  clear uninit. unfold ref. destruct (noNullPointer p _); [split; reflexivity|].
  destruct (from_option _ _ _); [split; reflexivity|].
  destruct (zlookup (blocks st) _) as [B|]; [|split; reflexivity].
  destruct (_ ≫= _); [|split; reflexivity]. destruct t; split; reflexivity.
Qed.

Lemma raw_static (st : Arena T) (p : Z) (f : string) (t : option Z) :
  static st (snd (raw st p f t)).
Proof.
  clear uninit. unfold raw. destruct (noNullPointer p _); [split; reflexivity|].
  destruct (from_option _ _ _); [split; reflexivity|].
  destruct (zlookup (blocks st) _) as [B|]; [|split; reflexivity].
  destruct (zlookup (rawFields B) _); [|split; reflexivity].
  destruct t; split; reflexivity.
Qed.

Lemma value_static (st : Arena T) (p : Z) (v : option T) :
  static st (snd (value st p v)).
Proof.
  clear uninit. unfold value. destruct (noNullPointer p _); [split; reflexivity|].
  destruct (zlookup (blocks st) _) as [B|]; [|split; reflexivity].
  destruct v; split; reflexivity.
Qed.

End Static.

(** X19. The registry the constructor builds. For at most 2^31 raw
    fields, the arena [new PointerSet(fields, blockSize, rawFields)]
    returns satisfies [Schema]: its root block has one slab of
    [blockSize] words per pointer field and per raw field, the names
    with an id of 0 or more are exactly the pointer fields and the names
    with a negative id exactly the raw fields, and no two names share a
    slab. *)
Theorem constructor_registers_fields (T : Type) (uninit : nat -> nat -> Z)
    (fs : list string) (bs : Z) (rs : option (list string)) (st : Arena T) :
  PointerSet uninit fs bs rs = Return st ->
  Z.of_nat (List.length (default [] rs)) <= 2147483648 ->
  Schema st /\
  nFields st = List.length fs /\
  nRawFields st = List.length (default [] rs) /\
  (forall f, f ∈ fs <-> exists id, names st !! f = Some id /\ 0 <= id) /\
  (forall f, f ∈ default [] rs <-> exists id, names st !! f = Some id /\ id < 0).
Proof. apply PointerSet_Schema. Qed.

(** X20. Every method keeps [Schema], the names and the codec: [alloc],
    [free], [erase], [wipeBlock], [drop], [dropEmpty], [ref], [raw],
    [refAll], [rawAll], [value] and the [PointerSetBlock] constructor,
    in an arena that satisfies [Ok] and [Schema]. *)
Theorem methods_keep_schema (T : Type) (uninit : nat -> nat -> Z)
    (st : Arena T) :
  Ok st -> Schema st ->
  let kept st' := Schema st' /\ names st' = names st /\ codec st' = codec st in
  (forall fuel self v refs raws,
     kept (snd (alloc uninit fuel st self v refs raws))) /\
  (forall fuel self p, kept (snd (free fuel st self p))) /\
  (forall fuel self p, kept (snd (erase fuel st self p))) /\
  (forall self, kept (snd (wipeBlock st self))) /\
  (forall self, kept (snd (drop st self))) /\
  (forall fuel, kept (snd (dropEmpty fuel st))) /\
  (forall p f t, kept (snd (ref st p f t))) /\
  (forall p f t, kept (snd (raw st p f t))) /\
  (forall fuel self p refs, kept (snd (refAll fuel st self p refs))) /\
  (forall fuel self p raws, kept (snd (rawAll fuel st self p raws))) /\
  (forall p v, kept (snd (value st p v))) /\
  kept (snd (PointerSetBlock uninit st)).
Proof.
  intros HOk HS. cbn zeta.
  split; [intros; split; [apply alloc_Schema; assumption | apply alloc_static]|].
  split; [intros; split; [apply free_Schema; assumption | apply free_static]|].
  split; [intros; split; [apply erase_Schema; assumption | apply erase_static]|].
  split.
  { intros self. split; [apply wipeBlock_Schema; assumption|].
    unfold wipeBlock. destruct (blocks st !! self); split; reflexivity. }
  split; [intros; split; [apply drop_Schema; assumption | apply drop_static]|].
  split; [intros; split; [apply dropEmptyLoop_Schema; assumption
                         | apply dropEmptyLoop_static]|].
  split; [intros; split; [apply ref_Schema; assumption | apply ref_static]|].
  split; [intros; split; [apply raw_Schema; assumption | apply raw_static]|].
  split; [intros; split; [apply refAll_Schema; assumption | apply refAll_static]|].
  split; [intros; split; [apply rawAll_Schema; assumption | apply rawAll_static]|].
  split; [intros; split; [apply value_Schema; assumption | apply value_static]|].
  split; [apply PointerSetBlock_Schema; assumption | apply PointerSetBlock_static].
Qed.


(** ** Declared fields *)

Section Declared.

Context {T : Type}.

Lemma Schema_lookup (st : Arena T) (j : Z) (B : Block T) :
  Schema st -> zlookup (blocks st) j = Some B ->
  List.length (fields B) = nFields st /\
  List.length (rawFields B) = nRawFields st /\
  Forall (fun slab => Z.of_nat (List.length slab) = blockSize (codec st))
         (fields B) /\
  Forall (fun slab => Z.of_nat (List.length slab) = blockSize (codec st))
         (rawFields B).
Proof.
  intros (H1 & _) HB. apply zlookup_Some in HB as [_ HB].
  rewrite Forall_forall in H1. apply H1. apply list_elem_of_lookup. eauto.
Qed.

Lemma slab_cell (F : list (list Z)) (bs i idx : Z) :
  Forall (fun slab => Z.of_nat (List.length slab) = bs) F ->
  0 <= i < Z.of_nat (List.length F) -> 0 <= idx < bs ->
  exists slab x, zlookup F i = Some slab /\ zlookup slab idx = Some x.
Proof.
  intros HF Hi Hidx.
  destruct (lookup_lt_is_Some_2 F (Z.to_nat i) ltac:(lia)) as [slab Hs].
  rewrite Forall_forall in HF.
  assert (Hlen : Z.of_nat (List.length slab) = bs).
  { apply HF. apply list_elem_of_lookup. eauto. }
  destruct (lookup_lt_is_Some_2 slab (Z.to_nat idx) ltac:(lia)) as [x Hx].
  exists slab, x. split; apply zlookup_Some; split; (lia || assumption).
Qed.

End Declared.

(** X21. Declared fields can be read. In an arena that satisfies
    [Schema], at a pointer that is not null and decodes to a block of
    the arena and an index below the block size: [ref] of a pointer
    field and [raw] of a raw field return a number; [raw] of a pointer
    field throws 'pointer field accessed as raw', [ref] of a raw field
    'raw field accessed as pointer', and a name that is no field is
    unknown to both. *)
Theorem declared_fields_readable (T : Type) (st : Arena T) (p : Z)
    (f : string) :
  Schema st -> p <> 0 ->
  is_Some (zlookup (blocks st) (getBlockId (codec st) p)) ->
  0 <= getIndex (codec st) p < blockSize (codec st) ->
  match names st !! f with
  | Some id =>
      if 0 <=? id
      then (exists x, fst (ref st p f None) = Return (Some x)) /\
           fst (raw st p f None) = Throw (errPointerAsRaw f)
      else (exists x, fst (raw st p f None) = Return (Some x)) /\
           fst (ref st p f None) = Throw (errRawAsPointer f)
  | None =>
      fst (ref st p f None) = Throw (errUnknownPointerField f) /\
      fst (raw st p f None) = Throw (errUnknownRawField f)
  end.
Proof.
  intros HS Hp [B HB] Hidx.
  destruct (Schema_lookup st _ B HS HB) as (A1 & A2 & A3 & A4).
  destruct HS as (_ & Hnr & Hids & _).
  destruct (names st !! f) as [id|] eqn:Hf.
  - specialize (Hids f id Hf). cbn in Hids.
    destruct (Z.leb_spec 0 id) as [H0|H0].
    + destruct (slab_cell (fields B) _ id _ A3 ltac:(lia) Hidx)
        as (slab & x & Hs & Hx).
      split.
      * exists x. apply ref_read_Some. split; [exact Hp|].
        exists B, id, slab. auto.
      * rewrite raw_read by exact Hp. rewrite Hf. cbn [from_option].
        destruct (Z.leb_spec 0 id); [reflexivity | lia].
    + assert (Hb : JS.bnot id = - id - 1) by (apply bnot_neg; lia).
      destruct (slab_cell (rawFields B) _ (JS.bnot id) _ A4 ltac:(lia) Hidx)
        as (slab & x & Hs & Hx).
      split.
      * exists x. apply raw_read_Some. split; [exact Hp|].
        rewrite Hf. cbn [from_option number_or_undefined default].
        split; [destruct (Z.leb_spec 0 id); [lia | reflexivity]|].
        exists B, slab. auto.
      * rewrite ref_read by exact Hp. rewrite Hf. cbn [from_option].
        destruct (Z.ltb_spec id 0); [reflexivity | lia].
  - split.
    + rewrite ref_read by exact Hp. rewrite Hf, HB. reflexivity.
    + rewrite raw_read by exact Hp. rewrite Hf, HB. reflexivity.
Qed.

(** ** The fields of a new entry *)

Section Writes.

Lemma refWrites_loop (nm : gmap string Z) (es : Entries) (w : list (option Z)) :
  refWrites nm es w
  = writesLoop (fun id => id <? 0) (fun id => id)
      errUnknownPointerField errRawAsPointer nm es w.
Proof.
  revert w. induction es as [|[k x] es IH]; intros w; [reflexivity|].
  cbn [refWrites writesLoop]. destruct (nm !! k) as [id|]; [|reflexivity].
  destruct (id <? 0); [reflexivity | apply IH].
Qed.

Lemma rawWrites_loop (nm : gmap string Z) (es : Entries) (w : list (option Z)) :
  rawWrites nm es w
  = writesLoop (fun id => 0 <=? id) JS.bnot
      errUnknownRawField errPointerAsRaw nm es w.
Proof.
  revert w. induction es as [|[k x] es IH]; intros w; [reflexivity|].
  cbn [rawWrites writesLoop]. destruct (nm !! k) as [id|]; [|reflexivity].
  destruct (0 <=? id); [reflexivity | apply IH].
Qed.

Lemma array_set_inside {A : Type} (a : list (option A)) (i : Z) (v : option A) :
  0 <= i < Z.of_nat (List.length a) ->
  array_set a (Some i) v = <[Z.to_nat i := v]> a.
Proof.
  intros Hi. unfold array_set. destruct (Z.ltb_spec i 0); [lia|].
  destruct (Nat.ltb_spec (Z.to_nat i) (List.length a)); [reflexivity | lia].
Qed.

Variable bad : Z -> bool.
Variable slot : Z -> Z.
Variables eUnknown eKind : string -> Error.
Variable nm : gmap string Z.
Variable n : nat.

Hypothesis slots_inside :
  forall k id, nm !! k = Some id -> bad id = false ->
               0 <= slot id < Z.of_nat n.

Lemma writesLoop_spec (es : Entries) (w w' : list (option Z)) :
  List.length w = n ->
  writesLoop bad slot eUnknown eKind nm es w = Return w' ->
  List.length w' = n /\
  (forall j, (forall k t id, (k, t) ∈ es -> nm !! k = Some id ->
                             slot id <> j) ->
             zlookup w' j = zlookup w j) /\
  (NoDup es.*1 ->
   (forall k1 k2 id1 id2, nm !! k1 = Some id1 -> nm !! k2 = Some id2 ->
      bad id1 = false -> bad id2 = false -> slot id1 = slot id2 -> k1 = k2) ->
   forall k t id, (k, t) ∈ es -> nm !! k = Some id ->
                  zlookup w' (slot id) = Some (Some t)).
Proof.
  revert w. induction es as [|[k x] es IH]; intros w Hlen Hrun.
  - cbn in Hrun. inversion Hrun; subst w'. split; [exact Hlen|].
    split; [reflexivity|]. intros _ _ k t id Hin. inversion Hin.
  - cbn [writesLoop] in Hrun.
    destruct (nm !! k) as [id|] eqn:Hk; [|discriminate].
    destruct (bad id) eqn:Hbad; [discriminate|].
    pose proof (slots_inside k id Hk Hbad) as Hin.
    rewrite array_set_inside in Hrun by lia.
    destruct (IH _ ltac:(rewrite length_insert; exact Hlen) Hrun)
      as (A1 & A2 & A3).
    split; [exact A1|]. split.
    + intros j Hj. rewrite A2.
      * unfold zlookup. destruct (Z.ltb_spec j 0); [reflexivity|].
        apply list_lookup_insert_ne.
        specialize (Hj k x id ltac:(left) Hk). lia.
      * intros k' t' id' Hin' Hk'. apply (Hj k' t' id'); [right|]; assumption.
    + intros Hnd Hinj k' t' id' Hin' Hk'.
      cbn [fmap list_fmap fst] in Hnd. apply NoDup_cons in Hnd as [Hnin Hnd].
      apply elem_of_cons in Hin' as [Heq|Hin'].
      * inversion Heq; subst k' t'. assert (id' = id) by congruence. subst id'.
        rewrite A2.
        -- apply zlookup_Some. split; [lia|].
           apply list_lookup_insert_eq. lia.
        -- intros k2 t2 id2 Hin2 Hk2 Hs.
           assert (Hb2 : bad id2 = false).
           { clear -Hin2 Hk2 Hrun. revert Hrun.
             generalize (<[Z.to_nat (slot id):=Some x]> w).
             induction es as [|[k0 x0] es IH0]; intros w0 Hrun;
               [inversion Hin2|].
             cbn [writesLoop] in Hrun.
             destruct (nm !! k0) as [id0|] eqn:Hk0; [|discriminate].
             destruct (bad id0) eqn:Hb0; [discriminate|].
             apply elem_of_cons in Hin2 as [Heq|Hin2].
             - inversion Heq; subst. congruence.
             - apply (IH0 Hin2 _ Hrun). }
           assert (k2 = k) by (apply (Hinj k2 k id2 id); assumption).
           subst k2. apply Hnin.
           apply list_elem_of_fmap. exists (k, t2). split; [reflexivity|exact Hin2].
      * apply (A3 Hnd Hinj k' t' id' Hin' Hk').
Qed.

Lemma writesLoop_total (es : Entries) (w : list (option Z)) :
  (forall k t, (k, t) ∈ es -> exists id, nm !! k = Some id /\ bad id = false) ->
  exists w', writesLoop bad slot eUnknown eKind nm es w = Return w'.
Proof.
  revert w. induction es as [|[k x] es IH]; intros w Hv; [eexists; reflexivity|].
  cbn [writesLoop]. destruct (Hv k x ltac:(left)) as (id & -> & ->).
  apply IH. intros k' t' Hin. apply (Hv k' t'). right. exact Hin.
Qed.

End Writes.

Section StoreAll.

Lemma storeAll_zip (w : list (option Z)) (F : list (list Z))
    (index : option Z) :
  List.length w = List.length F ->
  storeAll w F index
  = (Return tt,
     zip_with (fun x slab => u32_set slab index (number_or_undefined x)) w F).
Proof.
  revert F. induction w as [|x w IH]; intros F Hlen.
  - destruct F; [reflexivity | discriminate].
  - destruct F as [|slab F]; [discriminate|]. cbn [storeAll].
    rewrite IH by (simpl in Hlen; lia). reflexivity.
Qed.

Lemma zlookup_zip_with {A B C : Type} (g : A -> B -> C) (l : list A)
    (k : list B) (j : Z) (x : A) (y : B) :
  zlookup l j = Some x -> zlookup k j = Some y ->
  zlookup (zip_with g l k) j = Some (g x y).
Proof.
  intros Hx Hy. apply zlookup_Some in Hx as [H0 Hx].
  apply zlookup_Some in Hy as [_ Hy]. apply zlookup_Some.
  split; [exact H0|]. rewrite lookup_zip_with, Hx. cbn. rewrite Hy. reflexivity.
Qed.

End StoreAll.

Section AllocFields.

Context {T : Type}.
Variable uninit : nat -> nat -> Z.

Lemma allocHere_Return (st st' : Arena T) (self : nat) (B : Block T) (v : T)
    (refs raws : option Entries) (p : Z) :
  allocHere st self B v refs raws = (Return p, st') ->
  exists w rw B',
    refWrites (names st) (default [] refs) (map (fun _ => Some 0) (fields B))
      = Return w /\
    rawWrites (names st) (default [] raws) (map (fun _ => Some 0) (rawFields B))
      = Return rw /\
    blocks st' = <[self := B']> (blocks st) /\
    fields B' = snd (storeAll w (fields B) (takeIndex B).1.1) /\
    rawFields B' = snd (storeAll rw (rawFields B) (takeIndex B).1.1).
Proof.
  clear uninit. unfold allocHere. destruct (takeIndex B) as [[index fl] nf].
  cbn [fst snd].
  assert (E1 : (match refs with
            | Some es => refWrites (names st) es (map (fun _ => Some 0) (fields B))
            | None => Return (map (fun _ => Some 0) (fields B))
            end) = refWrites (names st) (default [] refs)
                     (map (fun _ => Some 0) (fields B)))
    by (destruct refs; reflexivity).
  assert (E2 : (match raws with
            | Some es => rawWrites (names st) es (map (fun _ => Some 0) (rawFields B))
            | None => Return (map (fun _ => Some 0) (rawFields B))
            end) = rawWrites (names st) (default [] raws)
                     (map (fun _ => Some 0) (rawFields B)))
    by (destruct raws; reflexivity).
  rewrite E1, E2.
  destruct (refWrites (names st) (default [] refs) _) as [w|e1|];
    [|discriminate..].
  destruct (storeAll w (fields B) index) as [r1 slabs] eqn:Hs1.
  destruct r1 as [[]|e2|]; [|discriminate..].
  destruct (rawWrites (names st) (default [] raws) _) as [rw|e3|];
    [|discriminate..].
  destruct (storeAll rw (rawFields B) index) as [r2 rslabs] eqn:Hs2.
  destruct r2 as [[]|e4|]; [|discriminate..].
  intros H. inversion H; subst. exists w, rw. eexists.
  split; [reflexivity|]. split; [reflexivity|].
  cbn [blocks setBlock setAvail]. rewrite !list_insert_insert_eq.
  split; [reflexivity|]. cbn [fields rawFields]. rewrite Hs1, Hs2.
  split; reflexivity.
Qed.

Lemma allocHere_valid (st : Arena T) (self : nat) (B : Block T) (v : T)
    (refs raws : option Entries) :
  Schema st -> blocks st !! self = Some B ->
  (forall k t, (k, t) ∈ default [] refs ->
     exists id, names st !! k = Some id /\ 0 <= id) ->
  (forall k t, (k, t) ∈ default [] raws ->
     exists id, names st !! k = Some id /\ id < 0) ->
  exists p, fst (allocHere st self B v refs raws) = Return p.
Proof.
  clear uninit. intros HS HB Hrefs Hraws.
  assert (HBz : zlookup (blocks st) (Z.of_nat self) = Some B).
  { apply zlookup_Some. rewrite Nat2Z.id. split; [lia | exact HB]. }
  destruct (Schema_lookup st _ B HS HBz) as (A1 & A2 & _).
  destruct HS as (_ & Hnr & Hids & _).
  unfold allocHere. destruct (takeIndex B) as [[index fl] nf]. cbn [fst snd].
  assert (E1 : (match refs with
            | Some es => refWrites (names st) es (map (fun _ => Some 0) (fields B))
            | None => Return (map (fun _ => Some 0) (fields B))
            end) = refWrites (names st) (default [] refs)
                     (map (fun _ => Some 0) (fields B)))
    by (destruct refs; reflexivity).
  assert (E2 : (match raws with
            | Some es => rawWrites (names st) es (map (fun _ => Some 0) (rawFields B))
            | None => Return (map (fun _ => Some 0) (rawFields B))
            end) = rawWrites (names st) (default [] raws)
                     (map (fun _ => Some 0) (rawFields B)))
    by (destruct raws; reflexivity).
  rewrite E1, E2, refWrites_loop, rawWrites_loop.
  destruct (writesLoop_total (fun id => id <? 0) (fun id => id)
              errUnknownPointerField errRawAsPointer (names st)
              (default [] refs) (map (fun _ => Some 0) (fields B)))
    as [w Hw].
  { intros k t Hin. destruct (Hrefs k t Hin) as (id & Hk & H0).
    exists id. split; [exact Hk|]. apply Z.ltb_ge. exact H0. }
  destruct (writesLoop_spec (fun id => id <? 0) (fun id => id)
              errUnknownPointerField errRawAsPointer (names st)
              (List.length (fields B))) with (3 := Hw) as (Hlw & _).
  { intros k id Hk Hb. apply Z.ltb_ge in Hb.
    specialize (Hids k id Hk). cbn in Hids. lia. }
  { apply length_map. }
  rewrite Hw, (storeAll_zip w (fields B) index Hlw).
  destruct (writesLoop_total (fun id => 0 <=? id) JS.bnot
              errUnknownRawField errPointerAsRaw (names st)
              (default [] raws) (map (fun _ => Some 0) (rawFields B)))
    as [rw Hrw].
  { intros k t Hin. destruct (Hraws k t Hin) as (id & Hk & H0).
    exists id. split; [exact Hk|]. apply Z.leb_gt. exact H0. }
  destruct (writesLoop_spec (fun id => 0 <=? id) JS.bnot
              errUnknownRawField errPointerAsRaw (names st)
              (List.length (rawFields B))) with (3 := Hrw) as (Hlrw & _).
  { intros k id Hk Hb. apply Z.leb_gt in Hb.
    specialize (Hids k id Hk). cbn in Hids.
    rewrite bnot_neg by lia. lia. }
  { apply length_map. }
  rewrite Hrw, (storeAll_zip rw (rawFields B) index Hlrw).
  eexists. reflexivity.
Qed.

End AllocFields.

Section AllocReads.

Context {T : Type}.
Variable uninit : nat -> nat -> Z.

(** The block [alloc] puts the entry in, and the arena it belongs to:
    the arena itself, or the arena with a new block. *)
Lemma alloc_at (fuel : nat) (st : Arena T) (self : nat) (v : T)
    (refs raws : option Entries) :
  Ok st -> AvailOk st -> Schema st -> 1 <= blockSize (codec st) ->
  is_Some (blocks st !! self) ->
  alloc uninit (S (S fuel)) st self v refs raws = (Throw errOutOfMemory, st) \/
  exists stb b B,
    Ok stb /\ Schema stb /\ names stb = names st /\ codec stb = codec st /\
    blocks stb !! b = Some B /\
    hasSpace (blockSize (codec stb)) B = true /\
    alloc uninit (S (S fuel)) st self v refs raws
    = allocHere stb b B v refs raws.
Proof.
  intros HOk HA HS Hbs [B0 HB0].
  destruct (alloc_route uninit fuel st self B0 v refs raws HOk HA Hbs HB0)
    as [(b & B & HB & Hs & Heq)|(_ & [[_ Heq]|Hnew])].
  - right. exists st, b, B. auto 10.
  - left. exact Heq.
  - destruct Hnew as (st1 & B & HPSB & HOk1 & _ & Hc1 & Hbl1 & _ & _ & _
                      & Hs & Heq).
    right. exists st1, (List.length (blocks st)), B.
    pose proof (PointerSetBlock_Schema uninit st HOk HS) as HS1.
    pose proof (PointerSetBlock_static uninit st) as [Hn1 _].
    rewrite HPSB in HS1, Hn1. cbn [snd] in HS1, Hn1.
    split; [exact HOk1|]. split; [exact HS1|]. split; [exact Hn1|].
    split; [exact Hc1|]. split.
    { rewrite Hbl1. apply list_lookup_middle. reflexivity. }
    rewrite Hc1. auto.
Qed.

Lemma allocHere_reads (st st' : Arena T) (b : nat) (B : Block T) (v : T)
    (refs raws : option Entries) (p : Z) :
  Ok st -> Schema st -> blocks st !! b = Some B ->
  hasSpace (blockSize (codec st)) B = true ->
  allocHere st b B v refs raws = (Return p, st') ->
  NoDup (default [] refs).*1 -> NoDup (default [] raws).*1 ->
  forall f id, names st !! f = Some id ->
    (0 <= id ->
     (forall t, (f, t) ∈ default [] refs ->
        fst (ref st' p f None) = Return (Some (JS.ToUint32 t))) /\
     (f ∉ (default [] refs).*1 ->
        fst (ref st' p f None) = Return (Some 0))) /\
    (id < 0 ->
     (forall t, (f, t) ∈ default [] raws ->
        fst (raw st' p f None) = Return (Some (JS.ToUint32 t))) /\
     (f ∉ (default [] raws).*1 ->
        fst (raw st' p f None) = Return (Some 0))).
Proof.
  clear uninit. intros HOk HS HB Hs Hrun Hnd1 Hnd2 f id Hf.
  destruct (allocHere_spec st b B v refs raws HOk HB Hs)
    as (idx & B1 & Hidx & Hrange & _ & _ & Hc & Hn & _).
  pose proof (allocHere_outcome st b B v refs raws) as Hout.
  rewrite Hrun in Hc, Hn, Hout. cbn [fst snd] in Hc, Hn, Hout.
  rewrite Hidx in Hout. change (number_or_undefined (Some idx)) with idx in Hout.
  destruct (allocHere_Return st st' b B v refs raws p Hrun)
    as (w & rw & B' & Hw & Hrw & Hbl & HF & HR).
  rewrite Hidx in HF, HR.
  destruct (Ok_lookup st b B HOk HB) as [HOkB Hid].
  pose proof HOkB as (Hfnf & _).
  assert (Hidx0 : 0 <= idx < blockSize (codec st)).
  { rewrite Hfnf in Hrange. destruct (blockId B =? 0); lia. }
  destruct (Ok_decode st b B idx HOk HB Hidx0) as [Hd1 Hd2].
  rewrite <- Hout in Hd1, Hd2.
  assert (Hp : p <> 0).
  { intros H0. rewrite H0, getBlockId_null in Hd1.
    rewrite H0, getIndex_null in Hd2.
    rewrite Hfnf, Hid in Hrange. destruct b; simpl in Hrange; lia. }
  assert (HBz : zlookup (blocks st) (Z.of_nat b) = Some B).
  { apply zlookup_Some. rewrite Nat2Z.id. split; [lia | exact HB]. }
  destruct (Schema_lookup st _ B HS HBz) as (A1 & A2 & A3 & A4).
  destruct HS as (_ & Hnr & Hids & Hinj).
  assert (Hlook : zlookup (blocks st') (getBlockId (codec st') p) = Some B').
  { rewrite Hc, Hd1, Hbl. apply zlookup_insert_eq.
    apply lookup_lt_Some in HB. exact HB. }
  rewrite refWrites_loop in Hw. rewrite rawWrites_loop in Hrw.
  destruct (writesLoop_spec (fun id => id <? 0) (fun id => id)
              errUnknownPointerField errRawAsPointer (names st)
              (List.length (fields B))) with (3 := Hw) as (Hlw & Hw1 & Hw2).
  { intros k id0 Hk Hb. apply Z.ltb_ge in Hb.
    specialize (Hids k id0 Hk). cbn in Hids. lia. }
  { apply length_map. }
  destruct (writesLoop_spec (fun id => 0 <=? id) JS.bnot
              errUnknownRawField errPointerAsRaw (names st)
              (List.length (rawFields B))) with (3 := Hrw) as (Hlrw & Hr1 & Hr2).
  { intros k id0 Hk Hb. apply Z.leb_gt in Hb.
    specialize (Hids k id0 Hk). cbn in Hids.
    rewrite bnot_neg by lia. lia. }
  { apply length_map. }
  rewrite (storeAll_zip w (fields B) _ Hlw) in HF.
  rewrite (storeAll_zip rw (rawFields B) _ Hlrw) in HR.
  cbn [snd] in HF, HR.
  pose proof (Hids f id Hf) as Hfid. cbn in Hfid.
  (* reading a cell of the zipped slabs *)
  assert (Hcell : forall (ws : list (option Z)) (F : list (list Z)) j x,
    Forall (fun slab => Z.of_nat (List.length slab) = blockSize (codec st)) F ->
    0 <= j < Z.of_nat (List.length F) ->
    zlookup ws j = Some x ->
    exists slab',
      zlookup (zip_with (fun x slab =>
                 u32_set slab (Some idx) (number_or_undefined x)) ws F) j
      = Some slab' /\
      zlookup slab' idx = Some (JS.ToUint32 (number_or_undefined x))).
  { intros ws F j x HFa Hj Hx.
    destruct (slab_cell F _ j idx HFa Hj Hidx0) as (slab & y & Hsl & Hy).
    eexists. split; [apply (zlookup_zip_with _ ws F j x slab Hx Hsl)|].
    apply zlookup_u32_set_eq. apply (zlookup_lt _ _ _ Hy). }
  assert (Hzero : forall (F : list (list Z)) j,
    0 <= j < Z.of_nat (List.length F) ->
    zlookup (map (fun _ : list Z => Some 0) F) j = Some (Some 0)).
  { intros F j Hj. change (map ?g F) with (g <$> F).
    rewrite zlookup_fmap.
    destruct (lookup_lt_is_Some_2 F (Z.to_nat j) ltac:(lia)) as [slab Hsl].
    assert (E : zlookup F j = Some slab)
      by (apply zlookup_Some; split; [lia | exact Hsl]).
    rewrite E. reflexivity. }
  split.
  - intros H0. assert (Hin : 0 <= id < Z.of_nat (List.length (fields B))) by lia.
    assert (Hgo : forall x, zlookup w id = Some x ->
              fst (ref st' p f None)
              = Return (Some (JS.ToUint32 (number_or_undefined x)))).
    { intros x Hx.
      destruct (Hcell w (fields B) id x A3 Hin Hx) as (slab' & Hs1 & Hs2).
      apply ref_read_Some. split; [exact Hp|].
      exists B', id, slab'. rewrite Hn, Hc, Hd2.
      split; [exact Hf|]. split; [exact H0|].
      split; [rewrite <- Hc; exact Hlook|]. rewrite HF. auto. }
    split.
    + intros t Hin'. apply (Hgo (Some t)).
      apply (Hw2 Hnd1) with (k := f); [|exact Hin'|exact Hf].
      intros k1 k2 id1 id2 Hk1 Hk2 _ _ Heq.
      apply (Hinj k1 id1 Hk1 k2 id2 Hk2 Heq).
    + intros Hnot. apply (Hgo (Some 0)).
      rewrite Hw1; [apply Hzero; exact Hin|].
      intros k t id' Hin' Hk' Heq. apply Hnot.
      assert (k = f) by (apply (Hinj k id' Hk' f id Hf Heq)). subst k.
      apply list_elem_of_fmap. exists (f, t). split; [reflexivity | exact Hin'].
  - intros H0.
    assert (Hb : JS.bnot id = - id - 1) by (apply bnot_neg; lia).
    assert (Hin : 0 <= JS.bnot id < Z.of_nat (List.length (rawFields B))) by lia.
    assert (Hgo : forall x, zlookup rw (JS.bnot id) = Some x ->
              fst (raw st' p f None)
              = Return (Some (JS.ToUint32 (number_or_undefined x)))).
    { intros x Hx.
      destruct (Hcell rw (rawFields B) (JS.bnot id) x A4 Hin Hx)
        as (slab' & Hs1 & Hs2).
      apply raw_read_Some. split; [exact Hp|].
      rewrite Hn, Hc, Hd2, Hf. cbn [from_option number_or_undefined default].
      split; [destruct (Z.leb_spec 0 id); [lia | reflexivity]|].
      exists B', slab'. split; [rewrite <- Hc; exact Hlook|].
      rewrite HR. auto. }
    assert (Hinj' : forall k1 k2 id1 id2,
      names st !! k1 = Some id1 -> names st !! k2 = Some id2 ->
      (0 <=? id1) = false -> (0 <=? id2) = false ->
      JS.bnot id1 = JS.bnot id2 -> k1 = k2).
    { intros k1 k2 id1 id2 Hk1 Hk2 Hb1 Hb2 Heq.
      apply Z.leb_gt in Hb1, Hb2.
      pose proof (Hids k1 id1 Hk1) as R1. pose proof (Hids k2 id2 Hk2) as R2.
      cbn in R1, R2. rewrite !bnot_neg in Heq by lia.
      apply (Hinj k1 id1 Hk1 k2 id2 Hk2). lia. }
    split.
    + intros t Hin'. apply (Hgo (Some t)).
      apply (Hr2 Hnd2 Hinj') with (k := f); [exact Hin'|exact Hf].
    + intros Hnot. apply (Hgo (Some 0)).
      rewrite Hr1; [apply Hzero; exact Hin|].
      intros k t id' Hin' Hk' Heq. apply Hnot.
      assert (Hneg : (0 <=? id') = false).
      { clear -Hin' Hk' Hrw. revert Hrw.
        generalize (map (fun _ : list Z => Some 0) (rawFields B)).
        induction (default [] raws) as [|[k0 x0] es IH0]; intros w0 Hrun;
          [inversion Hin'|].
        cbn [writesLoop] in Hrun.
        destruct (names st !! k0) as [id0|] eqn:Hk0; [|discriminate].
        destruct (0 <=? id0) eqn:Hb0; [discriminate|].
        apply elem_of_cons in Hin' as [Heq|Hin'].
        - inversion Heq; subst. congruence.
        - apply (IH0 Hin' _ Hrun). }
      assert (k = f).
      { apply (Hinj' k f id' id Hk' Hf Hneg); [|exact Heq].
        destruct (Z.leb_spec 0 id); [lia | reflexivity]. }
      subst k.
      apply list_elem_of_fmap. exists (f, t). split; [reflexivity | exact Hin'].
Qed.

End AllocReads.

(** X22. The fields of a new entry. In an arena that satisfies the
    invariants, when every key of [refs] is a pointer field and every
    key of [raw] a raw field, [alloc] returns a pointer or throws 'out
    of memory'. When it returns a pointer (the keys being distinct), a
    read of a field at the pointer gives the number supplied for it as
    an unsigned 32-bit integer, and 0 for a field that was not supplied,
    whatever the uninitialised memory held. *)
Theorem alloc_initialises_fields (T : Type) (uninit : nat -> nat -> Z)
    (fuel : nat) (st : Arena T) (self : nat) (v : T)
    (refs raws : option Entries) :
  Ok st -> AvailOk st -> Schema st -> 1 <= blockSize (codec st) ->
  is_Some (blocks st !! self) ->
  let r := alloc uninit (S (S fuel)) st self v refs raws in
  ((forall k t, (k, t) ∈ default [] refs ->
      exists id, names st !! k = Some id /\ 0 <= id) ->
   (forall k t, (k, t) ∈ default [] raws ->
      exists id, names st !! k = Some id /\ id < 0) ->
   (exists p, fst r = Return p) \/ fst r = Throw errOutOfMemory) /\
  (forall p, fst r = Return p ->
     NoDup (default [] refs).*1 -> NoDup (default [] raws).*1 ->
     forall f id, names st !! f = Some id ->
       (0 <= id ->
        (forall t, (f, t) ∈ default [] refs ->
           fst (ref (snd r) p f None) = Return (Some (JS.ToUint32 t))) /\
        (f ∉ (default [] refs).*1 ->
           fst (ref (snd r) p f None) = Return (Some 0))) /\
       (id < 0 ->
        (forall t, (f, t) ∈ default [] raws ->
           fst (raw (snd r) p f None) = Return (Some (JS.ToUint32 t))) /\
        (f ∉ (default [] raws).*1 ->
           fst (raw (snd r) p f None) = Return (Some 0)))).
Proof.
  intros HOk HA HS Hbs Hself. cbn zeta.
  destruct (alloc_at uninit fuel st self v refs raws HOk HA HS Hbs Hself)
    as [Heq|(stb & b & B & HOkb & HSb & Hnb & Hcb & HB & Hs & Heq)];
    rewrite Heq.
  - cbn [fst snd]. split; [intros _ _; right; reflexivity|].
    intros p Hp. discriminate.
  - split.
    + intros Hrefs Hraws. left.
      apply (allocHere_valid stb b B v refs raws HSb HB);
        rewrite Hnb; assumption.
    + intros p Hp Hnd1 Hnd2 f id Hf.
      destruct (allocHere stb b B v refs raws) as [r st'] eqn:Hrun.
      cbn [fst snd] in *. subst r.
      apply (allocHere_reads stb st' b B v refs raws p HOkb HSb HB Hs Hrun
               Hnd1 Hnd2 f id).
      rewrite Hnb. exact Hf.
Qed.

(** ** The bulk getters *)

Section BulkGet.

Context {T : Type}.

Lemma lookup_snapshot (nm : gmap string Z) (keep : Z -> bool)
    (get : Z -> option Z) (f : string) :
  snapshot nm keep get !! f
  = nm !! f ≫= fun id => if keep id then Some (get id) else None.
Proof. unfold snapshot. apply lookup_omap. Qed.

End BulkGet.

(** X23. [refAll] and [rawAll] as getters, in an arena that satisfies
    [Ok] and [Schema], at a pointer that is not null and decodes to a
    block of the arena and an index below the block size. They return a
    new object and change nothing; the object has one key per pointer
    field (per raw field for [rawAll]). When the slot holds a value,
    each key has what [ref] (or [raw]) reads. When it holds none, each
    key has 0, whatever the slabs hold. *)
Theorem bulk_getters (T : Type) (fuel : nat) (st : Arena T) (self : nat)
    (p : Z) :
  Ok st -> Schema st -> is_Some (blocks st !! self) -> p <> 0 ->
  is_Some (zlookup (blocks st) (getBlockId (codec st) p)) ->
  0 <= getIndex (codec st) p < blockSize (codec st) ->
  exists m mr,
    refAll (S (S fuel)) st self p None = (Return (Snapshot m), st) /\
    rawAll (S (S fuel)) st self p None = (Return (Snapshot mr), st) /\
    (forall f, is_Some (m !! f) <->
               exists id, names st !! f = Some id /\ 0 <= id) /\
    (forall f, is_Some (mr !! f) <->
               exists id, names st !! f = Some id /\ id < 0) /\
    ((exists w, fst (value st p None) = Return (Some w)) ->
     (forall f x, m !! f = Some x -> fst (ref st p f None) = Return x) /\
     (forall f x, mr !! f = Some x -> fst (raw st p f None) = Return x)) /\
    (fst (value st p None) = Return None ->
     (forall f x, m !! f = Some x -> x = Some 0) /\
     (forall f x, mr !! f = Some x -> x = Some 0)).
Proof.
  intros HOk HS Hself Hp [B HB] Hidx.
  pose proof (Ok_wf st HOk) as Hwf.
  rewrite (refAll_owner fuel st self p B None Hp Hwf Hself HB).
  rewrite (rawAll_owner fuel st self p B None Hp Hwf Hself HB).
  destruct (Schema_lookup st _ B HS HB) as (A1 & A2 & A3 & A4).
  destruct HS as (_ & Hnr & Hids & _).
  assert (Hdom1 : forall get f,
    is_Some (snapshot (names st) (fun id => 0 <=? id) get !! f) <->
    exists id, names st !! f = Some id /\ 0 <= id).
  { intros get f. rewrite lookup_snapshot.
    destruct (names st !! f) as [id|]; cbn.
    - destruct (Z.leb_spec 0 id); split.
      + intros _. eauto.
      + intros _. eauto.
      + intros [? H']. discriminate.
      + intros (id' & Heq & H'). inversion Heq. lia.
    - split; [intros [? H']; discriminate | intros (? & H' & _); discriminate]. }
  assert (Hdom2 : forall get f,
    is_Some (snapshot (names st) (fun id => id <? 0) get !! f) <->
    exists id, names st !! f = Some id /\ id < 0).
  { intros get f. rewrite lookup_snapshot.
    destruct (names st !! f) as [id|]; cbn.
    - destruct (Z.ltb_spec id 0); split.
      + intros _. eauto.
      + intros _. eauto.
      + intros [? H']. discriminate.
      + intros (id' & Heq & H'). inversion Heq. lia.
    - split; [intros [? H']; discriminate | intros (? & H' & _); discriminate]. }
  unfold refAllHere, rawAllHere.
  destruct (is_undefined (values B) (getIndex (codec st) p)) eqn:Hocc.
  - eexists _, _. split; [reflexivity|]. split; [reflexivity|].
    split; [apply Hdom1|]. split; [apply Hdom2|]. split.
    + intros [w Hw]. apply value_occupied in Hw as (_ & B0 & HB0 & _ & Hocc').
      assert (B0 = B) by congruence. subst. congruence.
    + intros _. split; intros f x; rewrite lookup_snapshot;
        destruct (names st !! f) as [id|]; cbn; try discriminate.
      * destruct (0 <=? id); [congruence | discriminate].
      * destruct (id <? 0); [congruence | discriminate].
  - rewrite bool_decide_eq_true_2.
    2:{ intros k id Hk H0. specialize (Hids k id Hk). cbn in Hids.
        destruct (lookup_lt_is_Some_2 (fields B) (Z.to_nat id) ltac:(lia))
          as [slab Hs].
        exists slab. apply zlookup_Some. split; [lia | exact Hs]. }
    rewrite bool_decide_eq_true_2.
    2:{ intros k id Hk H0. specialize (Hids k id Hk). cbn in Hids.
        assert (Hb : JS.bnot id = - id - 1) by (apply bnot_neg; lia).
        destruct (lookup_lt_is_Some_2 (rawFields B) (Z.to_nat (JS.bnot id))
                    ltac:(lia)) as [slab Hs].
        exists slab. apply zlookup_Some. split; [lia | exact Hs]. }
    eexists _, _. split; [reflexivity|]. split; [reflexivity|].
    split; [apply Hdom1|]. split; [apply Hdom2|]. split.
    + intros _. split; intros f x; rewrite lookup_snapshot;
        destruct (names st !! f) as [id|] eqn:Hf; cbn; try discriminate.
      * destruct (Z.leb_spec 0 id) as [H0|H0]; [|discriminate].
        intros Hx. inversion Hx; subst x; clear Hx.
        rewrite ref_read by exact Hp. rewrite Hf. cbn [from_option].
        destruct (Z.ltb_spec id 0); [lia|]. rewrite HB.
        cbn [mbind option_bind].
        specialize (Hids f id Hf). cbn in Hids.
        destruct (slab_cell (fields B) _ id _ A3 ltac:(lia) Hidx)
          as (slab & y & Hs & Hy).
        rewrite Hs. reflexivity.
      * destruct (Z.ltb_spec id 0) as [H0|H0]; [|discriminate].
        intros Hx. inversion Hx; subst x; clear Hx.
        rewrite raw_read by exact Hp. rewrite Hf.
        cbn [from_option]. change (number_or_undefined (Some id)) with id.
        destruct (Z.leb_spec 0 id); [lia|]. rewrite HB.
        specialize (Hids f id Hf). cbn in Hids.
        assert (Hb : JS.bnot id = - id - 1) by (apply bnot_neg; lia).
        destruct (slab_cell (rawFields B) _ (JS.bnot id) _ A4 ltac:(lia) Hidx)
          as (slab & y & Hs & Hy).
        rewrite Hs. reflexivity.
    + intros Hnone. apply value_unoccupied in Hnone as (_ & B0 & HB0 & Hu).
      assert (B0 = B) by congruence. subst. congruence.
Qed.

(** ** The encoding of pointers *)

(** X24. The encoding of pointers. For the codec of a block size up to
    65536: every index below the block size fits in the index bits, and
    block id and index bits together are the 32 bits of a pointer. For a
    block id and an index in range, [getPointer] is the signed 32-bit
    reading of [blockId * 2^shift + index]; it is 0 only for block 0 and
    index 0; and different pairs give different pointers. *)
Theorem pointer_encoding (bs : Z) (c : Codec) :
  codecOf bs = Some c ->
  bs <= 2 ^ shift c /\
  mask c = 2 ^ shift c - 1 /\
  shiftDownFix c = blockIdMask c + 1 /\
  (blockIdMask c + 1) * 2 ^ shift c = 4294967296 /\
  forall b i, 0 <= b <= blockIdMask c -> 0 <= i <= mask c ->
    -2147483648 <= getPointer c b i < 2147483648 /\
    (getPointer c b i) mod 4294967296 = b * 2 ^ shift c + i /\
    (getPointer c b i = 0 <-> b = 0 /\ i = 0) /\
    forall b' i', 0 <= b' <= blockIdMask c -> 0 <= i' <= mask c ->
      getPointer c b i = getPointer c b' i' -> b = b' /\ i = i'.
Proof.
  intros Hc. unfold codecOf, getWordSize, max8, max16 in Hc.
  assert (Hcases :
    (bs <= 256 /\ shift c = 8 /\ mask c = 255 /\ blockIdMask c = 16777215 /\
     shiftDownFix c = 16777216 /\ shiftUpFix c = 4294967296) \/
    (bs <= 65536 /\ shift c = 16 /\ mask c = 65535 /\ blockIdMask c = 65535 /\
     shiftDownFix c = 65536 /\ shiftUpFix c = 4294967296)).
  { destruct (Z.leb_spec bs 256).
    - left. simpl in Hc. inversion Hc; subst; simpl.
      repeat apply conj; try reflexivity; lia.
    - destruct (Z.leb_spec bs 65536); simpl in Hc; [|discriminate].
      right. inversion Hc; subst; simpl.
      repeat apply conj; try reflexivity; lia. }
  assert (Hgen : exists s, shift c = s /\ (s = 8 \/ s = 16) /\
            bs <= 2 ^ s /\ mask c = 2 ^ s - 1 /\
            shiftDownFix c = blockIdMask c + 1 /\
            (blockIdMask c + 1) * 2 ^ s = 4294967296 /\
            shiftUpFix c = 4294967296).
  { destruct Hcases as [(H1 & H2 & H3 & H4 & H5 & H6)|(H1 & H2 & H3 & H4 & H5 & H6)];
      [exists 8 | exists 16]; rewrite H3, H4, H5;
      repeat apply conj; try reflexivity; try lia; auto. }
  destruct Hgen as (s & Hs & Hs' & Hbs & Hm & Hd & Hfull & Hup).
  rewrite Hs. split; [exact Hbs|]. split; [exact Hm|]. split; [exact Hd|].
  split; [exact Hfull|].
  assert (Hpow : 0 < 2 ^ s) by (apply Z.pow_pos_nonneg; lia).
  assert (Hdec : forall b i, 0 <= b <= blockIdMask c -> 0 <= i <= mask c ->
            getBlockId c (getPointer c b i) = b /\
            getIndex c (getPointer c b i) = i).
  { intros b i Hb Hi. apply getPointer_decode; [|exact Hup|lia|exact Hi].
    destruct Hcases as [(_ & H2 & H3 & _ & H5 & _)|(_ & H2 & H3 & _ & H5 & _)];
      [left | right]; auto. }
  intros b i Hb Hi.
  assert (Hx : 0 <= b * 2 ^ s + i < 4294967296) by nia.
  assert (Hp : getPointer c b i = JS.ToInt32 (b * 2 ^ s + i)).
  { rewrite <- Hs. apply getPointer_int32; rewrite ?Hs; try assumption;
      try lia; try nia. }
  split; [rewrite Hp; apply ToInt32_range|]. split.
  { rewrite Hp. destruct (ToInt32_cases _ Hx) as [[_ E]|[_ E]]; rewrite E.
    - apply Z.mod_small. lia.
    - replace (b * 2 ^ s + i - 4294967296)
        with (b * 2 ^ s + i + (-1) * 4294967296) by lia.
      rewrite Z.mod_add by lia. apply Z.mod_small. lia. }
  split.
  { split.
    - intros H0. destruct (Hdec b i Hb Hi) as [H1 H2].
      rewrite H0, getBlockId_null in H1. rewrite H0, getIndex_null in H2. lia.
    - intros [-> ->]. rewrite Hp. reflexivity. }
  intros b' i' Hb' Hi' Heq.
  destruct (Hdec b i Hb Hi) as [H1 H2].
  destruct (Hdec b' i' Hb' Hi') as [H1' H2'].
  rewrite Heq in H1, H2. split; congruence.
Qed.

(** ** [drop] *)

Section Drop.

Context {T : Type}.

Lemma reads_same_block (st st' : Arena T) (q : Z) (g : string) :
  names st' = names st -> codec st' = codec st ->
  zlookup (blocks st') (getBlockId (codec st) q)
  = zlookup (blocks st) (getBlockId (codec st) q) ->
  fst (value st' q None) = fst (value st q None) /\
  fst (ref st' q g None) = fst (ref st q g None) /\
  fst (raw st' q g None) = fst (raw st q g None).
Proof.
  intros Hn Hc Hz. destruct (Z.eq_dec q 0) as [->|Hq];
    [repeat split; reflexivity|].
  rewrite !value_read, !ref_read, !raw_read by exact Hq.
  rewrite Hn, Hc, Hz. repeat split; reflexivity.
Qed.

End Drop.

(** X25. [drop] on a block of an arena that satisfies the invariant.
    On a block that is not the last one it throws 'only the final block
    may be dropped' and changes nothing. On the last block, when it is
    not the root, it returns and removes the block, whatever the block
    holds: the block leaves [blocksAvail], [size()] goes down by the
    entries of the block, reads at pointers into other blocks are as
    before, and reading the value at a pointer into the dropped block
    now throws a [TypeError]. On the root block it is [wipeBlock]. *)
Theorem drop_last_block (T : Type) (f : nat) (st : Arena T) (self : nat)
    (B : Block T) :
  Ok st -> blocks st !! self = Some B ->
  (S self <> List.length (blocks st) ->
   drop st self = (Throw errFinalBlock, st)) /\
  (S self = List.length (blocks st) -> self <> 0%nat ->
   let r := drop st self in
   fst r = Return tt /\
   blocks (snd r) = firstn self (blocks st) /\
   (self ∉ blocksAvail (snd r)) /\
   (exists n, size (S f) st = Return n /\
              size (S f) (snd r) = Return (n - entries B)) /\
   (forall q g, getBlockId (codec st) q <> Z.of_nat self ->
      fst (value (snd r) q None) = fst (value st q None) /\
      fst (ref (snd r) q g None) = fst (ref st q g None) /\
      fst (raw (snd r) q g None) = fst (raw st q g None)) /\
   (forall q, q <> 0 -> getBlockId (codec st) q = Z.of_nat self ->
      fst (value (snd r) q None) = Throw errUndefined)) /\
  (S self = List.length (blocks st) -> self = 0%nat ->
   drop st self = wipeBlock st self).
Proof.
  intros HOk HB. destruct (Ok_lookup st self B HOk HB) as [_ Hid].
  pose proof (drop_Ok st self HOk) as HOk'.
  split; [|split].
  - intros Hne. apply (drop_not_last T st self B HB). lia.
  - intros Hlast Hnz. cbn zeta. unfold drop in *. rewrite HB in *.
    destruct (Z.eqb_spec (blockId B) (Z.of_nat (List.length (blocks st)) - 1))
      as [_|Hne]; [|lia].
    cbn [negb] in *. destruct (Z.eqb_spec (blockId B) 0) as [H0|_]; [lia|].
    cbn [fst snd] in *.
    assert (Hbl : removelast (blocks st) = firstn self (blocks st)).
    { rewrite removelast_take. f_equal. lia. }
    split; [reflexivity|]. split; [exact Hbl|]. split.
    { cbn [blocksAvail]. rewrite elem_of_set_delete. tauto. }
    split.
    { exists (sumEntries (blocks st)).
      split; [apply size_wf, Ok_wf, HOk|].
      rewrite size_wf by (apply Ok_wf, HOk'). cbn [blocks]. f_equal.
      rewrite Hbl.
      rewrite <- (take_drop self (blocks st)) at 2.
      rewrite sumEntries_app.
      rewrite (drop_S _ _ _ HB), drop_ge by lia.
      unfold sumEntries at 3. simpl. lia. }
    split.
    + intros q g Hq. apply reads_same_block; try reflexivity.
      cbn [blocks]. rewrite Hbl. unfold zlookup.
      destruct (Z.ltb_spec (getBlockId (codec st) q) 0); [reflexivity|].
      destruct (Nat.lt_ge_cases (Z.to_nat (getBlockId (codec st) q)) self)
        as [Hlt|Hge].
      * apply lookup_take_lt. exact Hlt.
      * rewrite lookup_take_ge by exact Hge. symmetry.
        apply lookup_ge_None_2. lia.
    + intros q Hq Hqb. rewrite value_read by exact Hq.
      cbn [blocks codec]. rewrite Hqb, Hbl. unfold zlookup.
      destruct (Z.ltb_spec (Z.of_nat self) 0); [reflexivity|].
      rewrite lookup_take_ge by lia. reflexivity.
  - intros Hlast ->. unfold drop. rewrite HB.
    destruct (Z.eqb_spec (blockId B) (Z.of_nat (List.length (blocks st)) - 1))
      as [_|Hne]; [|lia].
    cbn [negb]. destruct (Z.eqb_spec (blockId B) 0) as [_|H0]; [reflexivity|].
    simpl in Hid. lia.
Qed.

(** ** Decoding any number *)

Lemma ToInt32_period (x : Z) : JS.ToInt32 (x + 4294967296) = JS.ToInt32 x.
Proof.
  unfold JS.ToInt32. f_equal.
  replace (x + 4294967296 + 2147483648)
    with (x + 2147483648 + 1 * 4294967296) by lia.
  apply Z.mod_add. lia.
Qed.

(** X26. Decoding, for the codec of a block size up to 65536 and any
    number [p]: [getBlockId] is between 0 and [blockIdMask], [getIndex]
    between 0 and [mask], encoding the two gives back [p] as a signed
    32-bit integer, and [p] and [p + 2^32] (a pointer read as unsigned
    from a slab, and the signed pointer [getPointer] returned) decode
    to the same block and index. *)
Theorem pointer_decoding (bs : Z) (c : Codec) (p : Z) :
  codecOf bs = Some c ->
  0 <= getBlockId c p <= blockIdMask c /\
  0 <= getIndex c p <= mask c /\
  getPointer c (getBlockId c p) (getIndex c p) = JS.ToInt32 p /\
  getBlockId c (p + 4294967296) = getBlockId c p /\
  getIndex c (p + 4294967296) = getIndex c p.
Proof.
  intros Hc. unfold codecOf, getWordSize, max8, max16 in Hc.
  assert (Hcases :
    (shift c = 8 /\ mask c = 255 /\ blockIdMask c = 16777215 /\
     shiftDownFix c = 16777216 /\ shiftUpFix c = 4294967296) \/
    (shift c = 16 /\ mask c = 65535 /\ blockIdMask c = 65535 /\
     shiftDownFix c = 65536 /\ shiftUpFix c = 4294967296)).
  { destruct (Z.leb_spec bs 256).
    - left. simpl in Hc. inversion Hc; subst; simpl.
      repeat apply conj; reflexivity.
    - destruct (Z.leb_spec bs 65536); simpl in Hc; [|discriminate].
      right. inversion Hc; subst; simpl. repeat apply conj; reflexivity. }
  assert (Hdec : getBlockId c (p + 4294967296) = getBlockId c p /\
                 getIndex c (p + 4294967296) = getIndex c p).
  { unfold getBlockId, getIndex, JS.sar, JS.band.
    rewrite ToInt32_period. split; reflexivity. }
  split; [|split; [|split; [|exact Hdec]]].
  all: pose proof (ToInt32_range p) as Hr.
  all: assert (Hgen : exists s N, shift c = s /\ (s = 8 \/ s = 16) /\
            mask c = Z.ones s /\ blockIdMask c = N - 1 /\
            shiftDownFix c = N /\ N * 2 ^ s = 4294967296 /\
            shiftUpFix c = 4294967296 /\ 0 < N)
    by (destruct Hcases as [(H2 & H3 & H4 & H5 & H6)|(H2 & H3 & H4 & H5 & H6)];
        [exists 8, 16777216 | exists 16, 65536]; rewrite H2, H3, H4, H5, H6;
        repeat apply conj; try reflexivity; try lia; auto).
  all: destruct Hgen as (s & N & Hs & Hs' & Hm & Hb & Hd & HN & Hup & HN0).
  all: assert (Hpow : 0 < 2 ^ s) by (apply Z.pow_pos_nonneg; lia).
  all: assert (Hsh : Z.land (JS.ToUint32 s) 31 = s)
         by (destruct Hs' as [-> | ->]; reflexivity).
  all: assert (Hones : JS.ToInt32 (Z.ones s) = Z.ones s)
         by (destruct Hs' as [-> | ->]; reflexivity).
  all: assert (Hblock : getBlockId c p
           = if 0 <=? JS.ToInt32 p / 2 ^ s then JS.ToInt32 p / 2 ^ s
             else N + JS.ToInt32 p / 2 ^ s)
         by (unfold getBlockId, JS.sar; rewrite Hs, Hd, Hsh,
               Z.shiftr_div_pow2 by lia; reflexivity).
  all: assert (Hindex : getIndex c p = JS.ToInt32 p mod 2 ^ s)
         by (unfold getIndex, JS.band; rewrite Hm, Hones, Z.land_ones by lia;
             reflexivity).
  all: pose proof (Z.div_mod (JS.ToInt32 p) (2 ^ s) ltac:(lia)) as Hdm.
  all: pose proof (Z.mod_pos_bound (JS.ToInt32 p) (2 ^ s) Hpow) as Hmod.
  all: set (q := JS.ToInt32 p / 2 ^ s) in *.
  all: set (r := JS.ToInt32 p mod 2 ^ s) in *.
  all: assert (Hq : - N <= 2 * q < N) by nia.
  - rewrite Hblock, Hb. destruct (Z.leb_spec 0 q); lia.
  - rewrite Hindex, Hm, Z.ones_equiv. lia.
  - rewrite Hblock, Hindex.
    rewrite getPointer_int32; rewrite ?Hs; try assumption; try lia.
    + destruct (Z.leb_spec 0 q).
      * replace (q * 2 ^ s + r) with (JS.ToInt32 p) by lia.
        apply ToInt32_small. exact Hr.
      * replace ((N + q) * 2 ^ s + r) with (JS.ToInt32 p + 4294967296) by nia.
        rewrite ToInt32_period. apply ToInt32_small. exact Hr.
    + destruct (Z.leb_spec 0 q); lia.
    + destruct (Z.leb_spec 0 q); nia.
Qed.

(** ** Where [alloc] puts the entry *)

Lemma allocHere_placement (T : Type) (st st' : Arena T) (b : nat)
    (B : Block T) (v : T) (refs raws : option Entries) (p : Z) :
  Ok st -> blocks st !! b = Some B ->
  hasSpace (blockSize (codec st)) B = true ->
  allocHere st b B v refs raws = (Return p, st') ->
  getBlockId (codec st) p = Z.of_nat b /\
  (if Stack.length (freeList B) =? 0
   then getIndex (codec st) p = nextFree B
   else zlookup (Stack.data (freeList B)) (Stack.length (freeList B) - 1)
        = Some (getIndex (codec st) p)).
Proof.
  intros HOk HB Hs Halloc.
  destruct (allocHere_spec st b B v refs raws HOk HB Hs)
    as (idx & _ & Hidx & Hrange & _).
  pose proof (allocHere_outcome st b B v refs raws) as Hout.
  rewrite Halloc in Hout. cbn [fst] in Hout. rewrite Hidx in Hout.
  change (number_or_undefined (Some idx)) with idx in Hout. subst p.
  destruct (Ok_lookup st b B HOk HB) as [HOkB _].
  assert (Hf : 0 <= firstNextFree B)
    by (destruct HOkB as (Hf & _); destruct (blockId B =? 0); lia).
  destruct (Ok_decode st b B idx HOk HB ltac:(lia)) as [-> ->].
  split; [reflexivity|].
  unfold takeIndex in Hidx.
  destruct (Stack.length (freeList B) =? 0); cbn [negb] in Hidx.
  - cbn [fst] in Hidx. congruence.
  - unfold Stack.pop in Hidx. cbn [fst] in Hidx. exact Hidx.
Qed.

(** X27. Where [alloc] puts the entry, in an arena that satisfies the
    invariants. The block is the one [alloc] was called on when it has
    room, else the first block of [blocksAvail], else a new block at the
    end of the arena. In a block that existed the index is the most
    recently freed one when the free list is not empty, and [nextFree]
    otherwise; in a new block it is 0. *)
Theorem alloc_placement (T : Type) (uninit : nat -> nat -> Z) (fuel : nat)
    (st st' : Arena T) (self : nat) (B0 : Block T) (v : T)
    (refs raws : option Entries) (p : Z) :
  Ok st -> AvailOk st -> 1 <= blockSize (codec st) ->
  blocks st !! self = Some B0 ->
  alloc uninit (S (S fuel)) st self v refs raws = (Return p, st') ->
  let b := if hasSpace (blockSize (codec st)) B0 then self
           else match blocksAvail st with
                | b :: _ => b
                | [] => List.length (blocks st)
                end in
  getBlockId (codec st) p = Z.of_nat b /\
  match blocks st !! b with
  | Some B =>
      if Stack.length (freeList B) =? 0
      then getIndex (codec st) p = nextFree B
      else zlookup (Stack.data (freeList B)) (Stack.length (freeList B) - 1)
           = Some (getIndex (codec st) p)
  | None => b = List.length (blocks st) /\ getIndex (codec st) p = 0
  end.
Proof.
  intros HOk HA Hbs HB0 Halloc. cbn zeta.
  destruct (proj1 (AvailOk_spec st HOk) HA) as [H1 H2].
  destruct (hasSpace (blockSize (codec st)) B0) eqn:Hs0.
  { rewrite HB0. apply (allocHere_placement T st st' self B0 v refs raws p
                          HOk HB0 Hs0).
    rewrite <- Halloc. cbn [alloc]. rewrite HB0.
    unfold hasSpace in Hs0. rewrite Hs0. reflexivity. }
  destruct (blocksAvail st) as [|b rest] eqn:Hav.
  - destruct (alloc_route uninit fuel st self B0 v refs raws HOk HA Hbs HB0)
      as [(b & B & HB & Hs & _)|(_ & [[_ Heq]|Hnew])].
    + pose proof (H2 b B HB Hs) as Hin. inversion Hin.
    + rewrite Heq in Halloc. discriminate.
    + destruct Hnew as (st1 & B & _ & HOk1 & _ & Hc1 & Hbl1 & _ & Hnf & Hfl
                        & Hs & Heq).
      rewrite Heq in Halloc.
      assert (HB : blocks st1 !! List.length (blocks st) = Some B)
        by (rewrite Hbl1; apply list_lookup_middle; reflexivity).
      rewrite <- Hc1 in Hs.
      destruct (allocHere_placement T st1 st' _ B v refs raws p HOk1 HB Hs
                  Halloc) as [Hb Hi].
      rewrite Hc1 in Hb, Hi. rewrite Hfl in Hi. cbn in Hi.
      split; [exact Hb|].
      rewrite (lookup_ge_None_2 (blocks st)) by lia.
      split; [reflexivity | lia].
  - assert (Hin : b ∈ b :: rest) by left.
    destruct (H1 b Hin) as (B & HB & Hs). rewrite HB.
    apply (allocHere_placement T st st' b B v refs raws p HOk HB Hs).
    rewrite <- Halloc. cbn [alloc]. rewrite HB0.
    unfold hasSpace in Hs0. rewrite Hs0, Hav. cbn [alloc]. rewrite HB.
    unfold hasSpace in Hs. rewrite Hs. reflexivity.
Qed.


(** ** The properties at concrete arenas *)


(** [constructor_establishes_invariant] at the arena with block size 4
    and the field 'next'. *)
Lemma constructor_establishes_invariant_witness :
  exists st : Arena nat,
    PointerSet (fun _ _ => 0) ["next"%string] 4 None = Return st /\
    Ok st /\ size 1 st = Return 1.
Proof.
  eexists. split; [reflexivity|].
  destruct (constructor_establishes_invariant nat (fun _ _ => 0)
              ["next"%string] 4 None _ 0%nat eq_refl) as (H1 & _ & _ & H4 & _).
  split; [exact H1 | exact H4].
Defined.

(** [methods_keep_invariant] at the arena with block size 2 after two
    entries (two blocks). *)
Lemma methods_keep_invariant_witness :
  exists st0 : Arena nat,
    PointerSet (fun _ _ => 0) [] 2 None = Return st0 /\
    Ok (allocMany (fun _ _ => 0) depth 2 st0 7%nat) /\
    Ok (snd (free depth (allocMany (fun _ _ => 0) depth 2 st0 7%nat) 0 256)).
Proof.
  eexists. split; [reflexivity|].
  match goal with |- Ok ?s /\ _ => assert (H : Ok s) by decide_by_compute end.
  split; [exact H|].
  exact (proj1 (proj2 (methods_keep_invariant nat (fun _ _ => 0) _ H))
           depth 0%nat 256).
Defined.

(** [blocksAvail_stays_exact] at the same arena. *)
Lemma blocksAvail_stays_exact_witness :
  exists st0 : Arena nat,
    PointerSet (fun _ _ => 0) [] 2 None = Return st0 /\
    Ok (allocMany (fun _ _ => 0) depth 2 st0 7%nat) /\
    AvailOk (allocMany (fun _ _ => 0) depth 2 st0 7%nat) /\
    AvailOk (snd (free depth (allocMany (fun _ _ => 0) depth 2 st0 7%nat) 0 256)).
Proof.
  eexists. split; [reflexivity|].
  match goal with |- Ok ?s /\ _ =>
    assert (H : Ok s) by decide_by_compute;
    assert (HA : AvailOk s) by decide_by_compute
  end.
  split; [exact H|]. split; [exact HA|].
  exact (proj1 (blocksAvail_stays_exact nat (fun _ _ => 0) _ H HA)
           depth 0%nat 256).
Defined.

(** [alloc_never_overflows] at the same arena: the third entry goes
    into block 1. *)
Lemma alloc_never_overflows_witness :
  exists st0 : Arena nat,
    PointerSet (fun _ _ => 0) [] 2 None = Return st0 /\
    Ok (allocMany (fun _ _ => 0) depth 2 st0 7%nat) /\
    AvailOk (allocMany (fun _ _ => 0) depth 2 st0 7%nat) /\
    fst (alloc (fun _ _ => 0) 2 (allocMany (fun _ _ => 0) depth 2 st0 7%nat)
           0 9%nat None None) <> Overflow.
Proof.
  eexists. split; [reflexivity|].
  match goal with |- Ok ?s /\ _ =>
    assert (H : Ok s) by decide_by_compute;
    assert (HA : AvailOk s) by decide_by_compute;
    assert (Hbs : 1 <= blockSize (codec s)) by decide_by_compute;
    assert (Hself : is_Some (blocks s !! 0%nat)) by decide_by_compute
  end.
  split; [exact H|]. split; [exact HA|].
  exact (proj1 (alloc_never_overflows nat (fun _ _ => 0) 0 _ 0 9%nat None None
                  H HA Hbs Hself)).
Defined.

(** [alloc_returns_fresh_slot] at the same arena: the third entry is at
    pointer 257. *)
Lemma alloc_returns_fresh_slot_witness :
  exists st0 : Arena nat,
    PointerSet (fun _ _ => 0) [] 2 None = Return st0 /\
    Ok (allocMany (fun _ _ => 0) depth 2 st0 7%nat) /\
    AvailOk (allocMany (fun _ _ => 0) depth 2 st0 7%nat) /\
    fst (alloc (fun _ _ => 0) 2 (allocMany (fun _ _ => 0) depth 2 st0 7%nat)
           0 9%nat None None) = Return 257 /\
    fst (value (snd (alloc (fun _ _ => 0) 2
                       (allocMany (fun _ _ => 0) depth 2 st0 7%nat)
                       0 9%nat None None)) 257 None) = Return (Some 9%nat).
Proof.
  eexists. split; [reflexivity|].
  match goal with |- Ok ?s /\ _ =>
    assert (H : Ok s) by decide_by_compute;
    assert (HA : AvailOk s) by decide_by_compute;
    assert (Hbs : 1 <= blockSize (codec s)) by decide_by_compute;
    assert (Heq : alloc (fun _ _ => 0) 2 s 0 9%nat None None
                  = (Return 257,
                     snd (alloc (fun _ _ => 0) 2 s 0 9%nat None None)))
      by (vm_compute; reflexivity)
  end.
  split; [exact H|]. split; [exact HA|]. split; [reflexivity|].
  exact (proj1 (proj2 (proj2 (proj2 (proj2
    (alloc_returns_fresh_slot nat (fun _ _ => 0) 0 0 _ _ 0 9%nat None None 257
       H HA Hbs Heq)))))).
Defined.

(** [free_releases_slot] at the same arena and pointer 256. *)
Lemma free_releases_slot_witness :
  exists st0 : Arena nat,
    PointerSet (fun _ _ => 0) [] 2 None = Return st0 /\
    Ok (allocMany (fun _ _ => 0) depth 2 st0 7%nat) /\
    fst (value (allocMany (fun _ _ => 0) depth 2 st0 7%nat) 256 None)
      = Return (Some 7%nat) /\
    fst (value (snd (free 2 (allocMany (fun _ _ => 0) depth 2 st0 7%nat) 0 256))
           256 None) = Return None.
Proof.
  eexists. split; [reflexivity|].
  match goal with |- Ok ?s /\ _ =>
    assert (H : Ok s) by decide_by_compute;
    assert (Hself : is_Some (blocks s !! 0%nat)) by decide_by_compute;
    assert (Hv : fst (value s 256 None) = Return (Some 7%nat)) by reflexivity
  end.
  split; [exact H|]. split; [exact Hv|].
  exact (proj1 (proj2 (proj1 (free_releases_slot nat 0 0 _ 0 256 H Hself)
                         7%nat Hv))).
Defined.

(** [ref_write_read] at the first entry of the arena with the field
    'next' and the raw field 'flags'. *)
Lemma ref_write_read_witness :
  exists st0 : Arena nat,
    PointerSet (fun _ _ => 0) ["next"%string] 4 (Some ["flags"%string])
      = Return st0 /\
    fst (ref (snd (alloc (fun _ _ => 0) depth st0 0 7%nat None None))
           1 "next" None) = Return (Some 0) /\
    fst (ref (snd (ref (snd (alloc (fun _ _ => 0) depth st0 0 7%nat None None))
                     1 "next" (Some 5))) 1 "next" None)
      = Return (Some (JS.ToUint32 5)).
Proof.
  eexists. split; [reflexivity|].
  match goal with |- ?P /\ _ => assert (Hr : P) by reflexivity end.
  split; [exact Hr|].
  exact (proj1 (proj2 (ref_write_read nat _ 1 "next" 5 0 Hr))).
Defined.

(** [raw_write_read] at the same entry. *)
Lemma raw_write_read_witness :
  exists st0 : Arena nat,
    PointerSet (fun _ _ => 0) ["next"%string] 4 (Some ["flags"%string])
      = Return st0 /\
    fst (raw (snd (alloc (fun _ _ => 0) depth st0 0 7%nat None None))
           1 "flags" None) = Return (Some 0) /\
    fst (raw (snd (raw (snd (alloc (fun _ _ => 0) depth st0 0 7%nat None None))
                     1 "flags" (Some 5))) 1 "flags" None)
      = Return (Some (JS.ToUint32 5)).
Proof.
  eexists. split; [reflexivity|].
  match goal with |- ?P /\ _ => assert (Hr : P) by reflexivity end.
  split; [exact Hr|].
  exact (proj1 (proj2 (raw_write_read nat _ 1 "flags" 5 0 Hr))).
Defined.

(** [erase_zeroes_entry] at the same entry. *)
Lemma erase_zeroes_entry_witness :
  exists st0 : Arena nat,
    PointerSet (fun _ _ => 0) ["next"%string] 4 (Some ["flags"%string])
      = Return st0 /\
    Ok (snd (alloc (fun _ _ => 0) depth st0 0 7%nat None None)) /\
    fst (erase 3 (snd (alloc (fun _ _ => 0) depth st0 0 7%nat None None)) 0 1)
      = Return tt.
Proof.
  eexists. split; [reflexivity|].
  match goal with |- Ok ?s /\ _ =>
    assert (H : Ok s) by decide_by_compute;
    assert (Hself : is_Some (blocks s !! 0%nat)) by decide_by_compute;
    assert (Hv : fst (value s 1 None) = Return (Some 7%nat)) by reflexivity
  end.
  split; [exact H|].
  exact (proj1 (proj1 (erase_zeroes_entry nat 0 0 _ 0 1 H Hself) 7%nat Hv)).
Defined.

(** [value_write_read] at the same entry. *)
Lemma value_write_read_witness :
  exists st0 : Arena nat,
    PointerSet (fun _ _ => 0) ["next"%string] 4 (Some ["flags"%string])
      = Return st0 /\
    fst (value (snd (alloc (fun _ _ => 0) depth st0 0 7%nat None None)) 1 None)
      = Return (Some 7%nat) /\
    fst (value (snd (value (snd (alloc (fun _ _ => 0) depth st0 0 7%nat None None))
                       1 (Some 9%nat))) 1 None) = Return (Some 9%nat).
Proof.
  eexists. split; [reflexivity|].
  match goal with |- ?P /\ _ => assert (Hr : P) by reflexivity end.
  split; [exact Hr|].
  exact (proj1 (proj2 (value_write_read nat 0 _ 1 9%nat 7%nat Hr))).
Defined.

(** [size_plus_totalAvailable] at the arena with two blocks of two. *)
Lemma size_plus_totalAvailable_witness :
  exists st0 : Arena nat,
    PointerSet (fun _ _ => 0) [] 2 None = Return st0 /\
    Ok (allocMany (fun _ _ => 0) depth 2 st0 7%nat) /\
    exists n m,
      size 1 (allocMany (fun _ _ => 0) depth 2 st0 7%nat) = Return n /\
      totalAvailable 2 (allocMany (fun _ _ => 0) depth 2 st0 7%nat) = Return m /\
      n + m = blocksCount (allocMany (fun _ _ => 0) depth 2 st0 7%nat)
              * blockSize (codec (allocMany (fun _ _ => 0) depth 2 st0 7%nat)) /\
      1 <= n /\
      (1 <= blockSize (codec (allocMany (fun _ _ => 0) depth 2 st0 7%nat)) ->
       0 <= m).
Proof.
  eexists. split; [reflexivity|].
  match goal with |- Ok ?s /\ _ => assert (H : Ok s) by decide_by_compute end.
  split; [exact H|].
  exact (proj1 (size_plus_totalAvailable nat 0 _ H)).
Defined.

(** [entryCount_counts_values] at block 1 of the same arena. *)
Lemma entryCount_counts_values_witness :
  exists (st0 : Arena nat) (B : Block nat),
    PointerSet (fun _ _ => 0) [] 2 None = Return st0 /\
    Ok (allocMany (fun _ _ => 0) depth 2 st0 7%nat) /\
    blocks (allocMany (fun _ _ => 0) depth 2 st0 7%nat) !! 1%nat = Some B /\
    entryCount 1 (allocMany (fun _ _ => 0) depth 2 st0 7%nat) 1 1
      = Return (0 + stored B).
Proof.
  eexists _, _. split; [reflexivity|].
  match goal with |- Ok ?s /\ _ => assert (H : Ok s) by decide_by_compute end.
  split; [exact H|].
  match goal with |- ?P /\ _ => assert (HB : P) by reflexivity end.
  split; [exact HB|].
  exact (entryCount_counts_values nat 0 _ 1 _ H HB).
Defined.

(** [block_limit] at the same arena. *)
Lemma block_limit_witness :
  exists st0 : Arena nat,
    PointerSet (fun _ _ => 0) [] 2 None = Return st0 /\
    Ok (allocMany (fun _ _ => 0) depth 2 st0 7%nat) /\
    blocksCount (allocMany (fun _ _ => 0) depth 2 st0 7%nat)
      <= blockIdMask (codec (allocMany (fun _ _ => 0) depth 2 st0 7%nat)) + 1.
Proof.
  eexists. split; [reflexivity|].
  match goal with |- Ok ?s /\ _ => assert (H : Ok s) by decide_by_compute end.
  split; [exact H|].
  exact (proj1 (block_limit nat (fun _ _ => 0) _ H)).
Defined.

(** [stack_push_pop] at an empty stack of two bytes. *)
Lemma stack_push_pop_witness :
  0 <= Stack.length (Stack.mk false [0; 0] 0)
    <= Z.of_nat (List.length (Stack.data (Stack.mk false [0; 0] 0))) /\
  fst (Stack.pop (Stack.push (Stack.mk false [0; 0] 0) 261)) = Some 5.
Proof.
  assert (H : 0 <= Stack.length (Stack.mk false [0; 0] 0)
              <= Z.of_nat (List.length (Stack.data (Stack.mk false [0; 0] 0))))
    by (simpl; lia).
  split; [exact H|].
  apply (proj1 (proj2 (proj2 (stack_push_pop (Stack.mk false [0; 0] 0) 261 H)))).
  simpl. lia.
Defined.

(** [wipeBlock_resets] at block 1 of the arena with two blocks of two. *)
Lemma wipeBlock_resets_witness :
  exists (st0 : Arena nat) (B : Block nat),
    PointerSet (fun _ _ => 0) [] 2 None = Return st0 /\
    Ok (allocMany (fun _ _ => 0) depth 2 st0 7%nat) /\
    blocks (allocMany (fun _ _ => 0) depth 2 st0 7%nat) !! 1%nat = Some B /\
    entryCount 1 (snd (wipeBlock (allocMany (fun _ _ => 0) depth 2 st0 7%nat) 1))
      1 1 = Return 0.
Proof.
  eexists _, _. split; [reflexivity|].
  match goal with |- Ok ?s /\ _ => assert (H : Ok s) by decide_by_compute end.
  split; [exact H|].
  match goal with |- ?P /\ _ => assert (HB : P) by reflexivity end.
  split; [exact HB|].
  exact (proj1 (proj2 (wipeBlock_resets nat 0 _ 1 _ H HB))).
Defined.

(** [dropEmpty_removes_trailing] at the arena with two blocks of two
    whose block 1 has been emptied: [k] is 1. *)
Lemma dropEmpty_removes_trailing_witness :
  exists st0 : Arena nat,
    PointerSet (fun _ _ => 0) [] 2 None = Return st0 /\
    Ok (snd (free depth (allocMany (fun _ _ => 0) depth 2 st0 7%nat) 0 256)) /\
    fst (dropEmpty 1
           (snd (free depth (allocMany (fun _ _ => 0) depth 2 st0 7%nat) 0 256)))
      = Return tt /\
    blocksCount (snd (dropEmpty 1
           (snd (free depth (allocMany (fun _ _ => 0) depth 2 st0 7%nat) 0 256))))
      = 1.
Proof.
  eexists. split; [reflexivity|].
  match goal with |- Ok ?s /\ _ =>
    assert (H : Ok s) by decide_by_compute;
    assert (Hk : (1 <= 1 <= List.length (blocks s))%nat) by decide_by_compute;
    assert (Hempty : forall i B, (1 <= i)%nat -> blocks s !! i = Some B ->
                                 entries B = 0)
      by (intros [|[|i]] B Hi HB;
          [lia | vm_compute in HB; inversion HB; reflexivity
          | vm_compute in HB; discriminate HB]);
    assert (Hlast : forall B, (1 < 1)%nat -> blocks s !! (1 - 1)%nat = Some B ->
                              entries B <> 0)
      by (intros B Hlt; lia);
    pose proof (dropEmpty_removes_trailing nat 0 s 1 H Hk Hempty Hlast)
      as (H1 & _ & H3)
  end.
  split; [exact H|]. split.
  - apply H3. intros j B Hj. lia.
  - unfold blocksCount. rewrite H1. reflexivity.
Defined.

(** [constructor_registers_fields] at the arena with the field 'next'
    and the raw field 'flags'. *)
Lemma constructor_registers_fields_witness :
  exists st0 : Arena nat,
    PointerSet (fun _ _ => 0) ["next"%string] 4 (Some ["flags"%string])
      = Return st0 /\
    Schema st0 /\ nFields st0 = 1%nat /\ nRawFields st0 = 1%nat.
Proof.
  eexists. split; [reflexivity|].
  destruct (constructor_registers_fields nat (fun _ _ => 0) ["next"%string] 4
              (Some ["flags"%string]) _ eq_refl) as (H1 & H2 & H3 & _).
  - simpl. lia.
  - split; [exact H1|]. split; [exact H2 | exact H3].
Defined.

(** [methods_keep_schema] at the first entry of that arena. *)
Lemma methods_keep_schema_witness :
  exists st0 : Arena nat,
    PointerSet (fun _ _ => 0) ["next"%string] 4 (Some ["flags"%string])
      = Return st0 /\
    Ok (snd (alloc (fun _ _ => 0) depth st0 0 7%nat None None)) /\
    Schema (snd (alloc (fun _ _ => 0) depth st0 0 7%nat None None)) /\
    Schema (snd (free depth
                   (snd (alloc (fun _ _ => 0) depth st0 0 7%nat None None)) 0 1)).
Proof.
  eexists. split; [reflexivity|].
  match goal with |- Ok ?s /\ _ =>
    assert (H : Ok s) by decide_by_compute;
    assert (HS : Schema s) by decide_by_compute;
    pose proof (methods_keep_schema nat (fun _ _ => 0) s H HS) as Hk
  end.
  cbn zeta in Hk. destruct Hk as (_ & Hfree & _).
  split; [exact H|]. split; [exact HS|]. exact (proj1 (Hfree depth 0%nat 1)).
Defined.

(** [declared_fields_readable] at the same entry and the field 'next'. *)
Lemma declared_fields_readable_witness :
  exists st0 : Arena nat,
    PointerSet (fun _ _ => 0) ["next"%string] 4 (Some ["flags"%string])
      = Return st0 /\
    Schema (snd (alloc (fun _ _ => 0) depth st0 0 7%nat None None)) /\
    (exists x, fst (ref (snd (alloc (fun _ _ => 0) depth st0 0 7%nat None None))
                      1 "next" None) = Return (Some x)) /\
    fst (raw (snd (alloc (fun _ _ => 0) depth st0 0 7%nat None None))
           1 "next" None) = Throw (errPointerAsRaw "next").
Proof.
  eexists. split; [reflexivity|].
  match goal with |- Schema ?s /\ _ =>
    assert (HS : Schema s) by decide_by_compute;
    assert (Hp : 1 <> 0) by lia;
    assert (Hb : is_Some (zlookup (blocks s) (getBlockId (codec s) 1)))
      by decide_by_compute;
    assert (Hi : 0 <= getIndex (codec s) 1 < blockSize (codec s))
      by decide_by_compute;
    pose proof (declared_fields_readable nat s 1 "next" HS Hp Hb Hi) as Hd;
    assert (Hf : names s !! "next"%string = Some 0) by reflexivity
  end.
  rewrite Hf in Hd. split; [exact HS | exact Hd].
Defined.

(** [alloc_initialises_fields] at the new arena, with 'next' supplied. *)
Lemma alloc_initialises_fields_witness :
  exists st0 : Arena nat,
    PointerSet (fun _ _ => 0) ["next"%string] 4 (Some ["flags"%string])
      = Return st0 /\
    Ok st0 /\ AvailOk st0 /\ Schema st0 /\
    ((exists p, fst (alloc (fun _ _ => 0) 2 st0 0 7%nat
                       (Some [("next"%string, 5)]) None) = Return p) \/
     fst (alloc (fun _ _ => 0) 2 st0 0 7%nat (Some [("next"%string, 5)]) None)
       = Throw errOutOfMemory).
Proof.
  eexists. split; [reflexivity|].
  match goal with |- Ok ?s /\ _ =>
    assert (H : Ok s) by decide_by_compute;
    assert (HA : AvailOk s) by decide_by_compute;
    assert (HS : Schema s) by decide_by_compute;
    assert (Hbs : 1 <= blockSize (codec s)) by decide_by_compute;
    assert (Hself : is_Some (blocks s !! 0%nat)) by decide_by_compute;
    pose proof (alloc_initialises_fields nat (fun _ _ => 0) 0 s 0 7%nat
                  (Some [("next"%string, 5)]) None H HA HS Hbs Hself) as [Hr _]
  end.
  split; [exact H|]. split; [exact HA|]. split; [exact HS|].
  apply Hr.
  - intros k t Hin. apply list_elem_of_singleton in Hin. inversion Hin; subst.
    exists 0. split; [reflexivity | lia].
  - intros k t Hin. inversion Hin.
Defined.

(** [bulk_getters] at the first entry of that arena. *)
Lemma bulk_getters_witness :
  exists st0 : Arena nat,
    PointerSet (fun _ _ => 0) ["next"%string] 4 (Some ["flags"%string])
      = Return st0 /\
    Ok (snd (alloc (fun _ _ => 0) depth st0 0 7%nat None None)) /\
    Schema (snd (alloc (fun _ _ => 0) depth st0 0 7%nat None None)) /\
    exists m mr,
      refAll 2 (snd (alloc (fun _ _ => 0) depth st0 0 7%nat None None)) 0 1 None
        = (Return (Snapshot m),
           snd (alloc (fun _ _ => 0) depth st0 0 7%nat None None)) /\
      rawAll 2 (snd (alloc (fun _ _ => 0) depth st0 0 7%nat None None)) 0 1 None
        = (Return (Snapshot mr),
           snd (alloc (fun _ _ => 0) depth st0 0 7%nat None None)).
Proof.
  eexists. split; [reflexivity|].
  match goal with |- Ok ?s /\ _ =>
    assert (H : Ok s) by decide_by_compute;
    assert (HS : Schema s) by decide_by_compute;
    assert (Hself : is_Some (blocks s !! 0%nat)) by decide_by_compute;
    assert (Hp : 1 <> 0) by lia;
    assert (Hb : is_Some (zlookup (blocks s) (getBlockId (codec s) 1)))
      by decide_by_compute;
    assert (Hi : 0 <= getIndex (codec s) 1 < blockSize (codec s))
      by decide_by_compute;
    destruct (bulk_getters nat 0 s 0 1 H HS Hself Hp Hb Hi)
      as (m & mr & H1 & H2 & _)
  end.
  split; [exact H|]. split; [exact HS|]. exists m, mr. split; assumption.
Defined.

(** [pointer_encoding] at the codec of block size 256. *)
Lemma pointer_encoding_witness :
  codecOf 256 = Some (mkCodec 1 8 255 16777215 256 16777216 4294967296) /\
  256 <= 2 ^ shift (mkCodec 1 8 255 16777215 256 16777216 4294967296) /\
  (getPointer (mkCodec 1 8 255 16777215 256 16777216 4294967296) 0 0 = 0 <->
   0 = 0 /\ 0 = 0).
Proof.
  assert (Hc : codecOf 256
               = Some (mkCodec 1 8 255 16777215 256 16777216 4294967296))
    by reflexivity.
  destruct (pointer_encoding 256 _ Hc) as (H1 & _ & _ & _ & H5).
  split; [exact Hc|]. split; [exact H1|].
  apply (H5 0 0); simpl; lia.
Defined.

(** [drop_last_block] at block 1 of the arena with two blocks of two. *)
Lemma drop_last_block_witness :
  exists (st0 : Arena nat) (B : Block nat),
    PointerSet (fun _ _ => 0) [] 2 None = Return st0 /\
    Ok (allocMany (fun _ _ => 0) depth 2 st0 7%nat) /\
    blocks (allocMany (fun _ _ => 0) depth 2 st0 7%nat) !! 1%nat = Some B /\
    fst (drop (allocMany (fun _ _ => 0) depth 2 st0 7%nat) 1) = Return tt /\
    fst (value (snd (drop (allocMany (fun _ _ => 0) depth 2 st0 7%nat) 1))
           256 None) = Throw errUndefined.
Proof.
  eexists _, _. split; [reflexivity|].
  match goal with |- Ok ?s /\ _ => assert (H : Ok s) by decide_by_compute end.
  split; [exact H|].
  match goal with |- ?P /\ _ => assert (HB : P) by reflexivity end.
  split; [exact HB|].
  destruct (proj1 (proj2 (drop_last_block nat 0 _ 1 _ H HB)))
    as (H1 & _ & _ & _ & _ & H6); [reflexivity | lia |].
  split; [exact H1|]. apply H6; [lia | reflexivity].
Defined.

(** [pointer_decoding] at block size 256 and the number -1, which
    decodes to the last index of the last block. *)
Lemma pointer_decoding_witness :
  exists c, codecOf 256 = Some c /\
    0 <= getBlockId c (-1) <= blockIdMask c /\
    0 <= getIndex c (-1) <= mask c /\
    getPointer c (getBlockId c (-1)) (getIndex c (-1)) = JS.ToInt32 (-1).
Proof.
  eexists. split; [reflexivity|].
  pose proof (pointer_decoding 256 _ (-1) eq_refl) as (H1 & H2 & H3 & _).
  split; [exact H1|]. split; [exact H2 | exact H3].
Defined.

(** [alloc_placement] at an arena of block size 2 with two entries: the
    root block is full, the third entry goes to the block at the head of
    [blocksAvail]. *)
Lemma alloc_placement_witness :
  exists st0 : Arena nat,
    PointerSet (fun _ _ => 0) [] 2 None = Return st0 /\
    Ok (allocMany (fun _ _ => 0) depth 2 st0 7%nat) /\
    AvailOk (allocMany (fun _ _ => 0) depth 2 st0 7%nat) /\
    fst (alloc (fun _ _ => 0) 2 (allocMany (fun _ _ => 0) depth 2 st0 7%nat)
           0 9%nat None None) = Return 257 /\
    getBlockId (codec (allocMany (fun _ _ => 0) depth 2 st0 7%nat)) 257 = 1.
Proof.
  eexists. split; [reflexivity|].
  match goal with |- Ok ?s /\ _ =>
    assert (H : Ok s) by decide_by_compute;
    assert (HA : AvailOk s) by decide_by_compute;
    assert (Hbs : 1 <= blockSize (codec s)) by decide_by_compute;
    assert (HB0 : exists B0, blocks s !! 0%nat = Some B0 /\
                    hasSpace (blockSize (codec s)) B0 = false)
      by (vm_compute; eexists; split; reflexivity);
    assert (Hav : blocksAvail s = [1%nat]) by (vm_compute; reflexivity);
    assert (Heq : alloc (fun _ _ => 0) 2 s 0 9%nat None None
                  = (Return 257,
                     snd (alloc (fun _ _ => 0) 2 s 0 9%nat None None)))
      by (vm_compute; reflexivity);
    destruct HB0 as (B0 & HB0 & Hs0);
    pose proof (alloc_placement nat (fun _ _ => 0) 0 s _ 0 B0 9%nat None None
                  257 H HA Hbs HB0 Heq) as Hp
  end.
  cbn zeta in Hp. rewrite Hs0, Hav in Hp.
  split; [exact H|]. split; [exact HA|]. split; [reflexivity|].
  exact (proj1 Hp).
Defined.

(** [null_pointer_reserved] at an arena of block size 2 with two
    entries: slot 0 of the root block holds no value. *)
Lemma null_pointer_reserved_witness :
  exists st0 : Arena nat,
    PointerSet (fun _ _ => 0) [] 2 None = Return st0 /\
    Ok (allocMany (fun _ _ => 0) depth 2 st0 7%nat) /\
    exists B,
      blocks (allocMany (fun _ _ => 0) depth 2 st0 7%nat) !! 0%nat = Some B /\
      is_undefined (values B) 0 = true /\ (0 ∉ live B) /\ 1 <= nextFree B.
Proof.
  eexists. split; [reflexivity|].
  match goal with |- Ok ?s /\ _ =>
    assert (H : Ok s) by decide_by_compute;
    assert (HB : exists B, blocks s !! 0%nat = Some B)
      by (vm_compute; eexists; reflexivity);
    destruct HB as [B HB];
    pose proof (proj1 (proj2
      (null_pointer_reserved nat s 0 0 "" 0 0%nat [])) H B HB) as Hd
  end.
  split; [exact H|]. exists B. split; [exact HB | exact Hd].
Defined.

(** * [free] and the fields of an entry *)

Section FreeReads.

Context {T : Type}.

(** What [ref] and [raw] read depends on the names, the codec and the
    slabs only. *)
Lemma reads_of_slabs (st st' : Arena T) (q : Z) (g : string) :
  names st' = names st -> codec st' = codec st ->
  fields <$> blocks st' = fields <$> blocks st ->
  rawFields <$> blocks st' = rawFields <$> blocks st ->
  fst (ref st' q g None) = fst (ref st q g None) /\
  fst (raw st' q g None) = fst (raw st q g None).
Proof.
  intros Hn Hc Hf Hr.
  destruct (Z.eq_dec q 0) as [->|Hq]; [split; reflexivity|].
  rewrite !ref_read, !raw_read by exact Hq. rewrite Hn, Hc.
  set (id := getBlockId (codec st) q).
  pose proof (zlookup_fmap fields (blocks st') id) as F'.
  pose proof (zlookup_fmap fields (blocks st) id) as F.
  pose proof (zlookup_fmap rawFields (blocks st') id) as R'.
  pose proof (zlookup_fmap rawFields (blocks st) id) as R.
  rewrite Hf in F'. rewrite Hr in R'. rewrite F in F'. rewrite R in R'.
  destruct (zlookup (blocks st') id) as [B'|],
           (zlookup (blocks st) id) as [B|]; try discriminate.
  - inversion F' as [E1]. inversion R' as [E2]. rewrite E1, E2.
    split; reflexivity.
  - split; reflexivity.
Qed.

End FreeReads.

(** C7, as the code has it. [free] never modifies the [fields] or
    [rawFields] slabs of any block, so every read [ref(q, g)] and [raw(q, g)] returns
    after [free] what it returned before. In the arena with block size
    256 and fields 'next' and 'prev': [A = alloc(a)] is pointer 1 and
    [B = alloc(b)] is pointer 2; after [ref(A,'next',B)] and
    [ref(B,'prev',A)] both links read back; after [free(A)] the value of
    [A] is gone, yet [ref(B,'prev')] still returns [A] and
    [ref(A,'next')] still returns [B]. [erase(A)] after [free(A)]
    changes nothing. What clears the entries is an overwrite
    ([ref(A,'next',0)], [ref(B,'prev',0)]), the [alloc] that takes the
    slot of [A] again, or for the entry of [B], [erase(B)]. *)
Theorem free_keeps_fields :
  (forall (T : Type) (fuel : nat) (st : Arena T) (self : nat) (pointer : Z),
      fields <$> blocks (snd (free fuel st self pointer)) = fields <$> blocks st /\
      rawFields <$> blocks (snd (free fuel st self pointer)) = rawFields <$> blocks st) /\
  (forall (T : Type) (fuel : nat) (st : Arena T) (self : nat) (pointer : Z)
          (q : Z) (g : string),
      fst (ref (snd (free fuel st self pointer)) q g None)
        = fst (ref st q g None) /\
      fst (raw (snd (free fuel st self pointer)) q g None)
        = fst (raw st q g None)) /\
  (forall (T : Type) (uninit : nat -> nat -> Z) (a b c : T),
      exists st : Arena T,
        PointerSet uninit ["next"; "prev"]%string 256 None = Return st /\
        let s1 := snd (alloc uninit depth st 0 a None None) in
        let s2 := snd (alloc uninit depth s1 0 b None None) in
        let s3 := snd (ref s2 1 "next" (Some 2)) in
        let s4 := snd (ref s3 2 "prev" (Some 1)) in
        let s5 := snd (free depth s4 0 1) in
        fst (alloc uninit depth st 0 a None None) = Return 1 /\
        fst (alloc uninit depth s1 0 b None None) = Return 2 /\
        fst (ref s4 1 "next" None) = Return (Some 2) /\
        fst (ref s4 2 "prev" None) = Return (Some 1) /\
        fst (free depth s4 0 1) = Return tt /\
        (values <$> blocks s4) = [[None; Some a; Some b]] /\
        (values <$> blocks s5) = [[None; None; Some b]] /\
        fst (ref s5 2 "prev" None) = Return (Some 1) /\
        fst (ref s5 1 "next" None) = Return (Some 2) /\
        fst (erase depth s5 0 1) = Return tt /\
        fst (ref (snd (erase depth s5 0 1)) 1 "next" None) = Return (Some 2) /\
        fst (ref (snd (ref s5 1 "next" (Some 0))) 1 "next" None)
          = Return (Some 0) /\
        fst (alloc uninit depth s5 0 c None None) = Return 1 /\
        fst (ref (snd (alloc uninit depth s5 0 c None None)) 1 "next" None)
          = Return (Some 0) /\
        fst (ref (snd (erase depth s5 0 2)) 2 "prev" None) = Return (Some 0) /\
        fst (ref (snd (ref s5 2 "prev" (Some 0))) 2 "prev" None) = Return (Some 0)).
Proof.
  split; [intros T fuel st self pointer; apply free_slabs|].
  split.
  - intros T fuel st self pointer q g.
    destruct (free_static fuel st self pointer) as [Hn Hc].
    destruct (free_slabs fuel st self pointer) as [Hf Hr].
    apply reads_of_slabs; assumption.
  - intros T uninit a b c. eexists. split; [reflexivity|].
    vm_compute. repeat split; reflexivity.
Qed.

(** C7 as stated fails for the entries of [A] itself: after [free(A)],
    [erase(A)] finds no value in the slot and returns before it zeroes
    anything, so [ref(A,'next')] still returns [B]. *)
Lemma free_then_erase_counterexample :
  exists st : Arena nat,
    PointerSet (fun _ _ => 0) ["next"; "prev"]%string 256 None = Return st /\
    let s1 := snd (alloc (fun _ _ => 0) depth st 0 7%nat None None) in
    let s2 := snd (alloc (fun _ _ => 0) depth s1 0 8%nat None None) in
    let s3 := snd (ref s2 1 "next" (Some 2)) in
    let s4 := snd (ref s3 2 "prev" (Some 1)) in
    let s5 := snd (free depth s4 0 1) in
    fst (alloc (fun _ _ => 0) depth st 0 7%nat None None) = Return 1 /\
    fst (alloc (fun _ _ => 0) depth s1 0 8%nat None None) = Return 2 /\
    fst (free depth s4 0 1) = Return tt /\
    fst (ref s5 1 "next" None) = Return (Some 2) /\
    fst (erase depth s5 0 1) = Return tt /\
    fst (ref (snd (erase depth s5 0 1)) 1 "next" None) = Return (Some 2) /\
    fst (ref (snd (erase depth s5 0 1)) 1 "next" None) <> Return (Some 0).
Proof.
  eexists. split; [reflexivity|]. vm_compute.
  repeat split; try reflexivity. discriminate.
Qed.

(** * Byte-level views *)

(** ** Bytes, half-words and words *)

Section ViewArith.

Import RawViews.

Lemma bytesOf_bytes (e : Endian) (w : Z) :
  List.length (bytesOf e w) = 4%nat /\
  Forall (fun b => 0 <= b < 256) (bytesOf e w).
Proof.
  split; [destruct e; reflexivity|].
  destruct e; simpl; repeat constructor; apply Z.mod_pos_bound; lia.
Qed.

Lemma halvesOf_halves (e : Endian) (w : Z) :
  List.length (halvesOf e w) = 2%nat /\
  Forall (fun h => 0 <= h < 65536) (halvesOf e w).
Proof.
  split; [destruct e; reflexivity|].
  destruct e; simpl; repeat constructor; apply Z.mod_pos_bound; lia.
Qed.

Lemma wordOf_bytes (e : Endian) (s : list Z) :
  List.length s = 4%nat -> Forall (fun b => 0 <= b < 256) s ->
  0 <= wordOf e s < 4294967296 /\ bytesOf e (wordOf e s) = s.
Proof.
  intros Hlen Hall.
  destruct s as [|b0 [|b1 [|b2 [|b3 [|]]]]]; try discriminate.
  repeat match goal with H : Forall _ (_ :: _) |- _ =>
    apply Forall_cons in H as [? H] end.
  split; [destruct e; simpl; lia|].
  destruct e; simpl; repeat f_equal; Z.div_mod_to_equations; lia.
Qed.

Lemma wordOfHalves_halves (e : Endian) (s : list Z) :
  List.length s = 2%nat -> Forall (fun h => 0 <= h < 65536) s ->
  0 <= wordOfHalves e s < 4294967296 /\ halvesOf e (wordOfHalves e s) = s.
Proof.
  intros Hlen Hall.
  destruct s as [|h0 [|h1 [|]]]; try discriminate.
  repeat match goal with H : Forall _ (_ :: _) |- _ =>
    apply Forall_cons in H as [? H] end.
  split; [destruct e; simpl; lia|].
  destruct e; simpl; repeat f_equal; Z.div_mod_to_equations; lia.
Qed.

Lemma ToUint32_id (w : Z) : 0 <= w < 4294967296 -> JS.ToUint32 w = w.
Proof. intros Hw. apply Z.mod_small. exact Hw. Qed.

End ViewArith.

(** ** The slot under a view *)

Section ViewFacts.

Import RawViews.
Context {T : Type}.

Lemma zlookup_u32_set_None (slab : list Z) (i x : Z) :
  zlookup slab i = None -> zlookup (u32_set slab (Some i) x) i = None.
Proof.
  intros Hx. unfold u32_set, zlookup in *.
  destruct (Z.ltb_spec i 0); [reflexivity|].
  apply lookup_ge_None. rewrite length_insert.
  apply lookup_ge_None in Hx. exact Hx.
Qed.

(** A store into one slot of one slab, seen through [cell]. *)
Lemma cell_put (st : Arena T) (b s i x : Z) (B : Block T) (v : View) :
  zlookup (blocks st) b = Some B ->
  cell (setBlock st (Z.to_nat b)
          (setRawFields B (setSlab (rawFields B) s i x))) v
  = if (vBlock v =? b) && (vSlot v =? s) && (vIndex v =? i)
    then (fun _ => JS.ToUint32 x) <$> cell st v
    else cell st v.
Proof.
  intros HB. pose proof (zlookup_lt _ _ _ HB) as Hb.
  unfold cell. cbn [blocks setBlock].
  destruct (Z.eqb_spec (vBlock v) b) as [Hvb|Hvb]; cbn [andb].
  - rewrite Hvb, HB.
    replace (zlookup (<[Z.to_nat b := setRawFields B
                         (setSlab (rawFields B) s i x)]> (blocks st)) b)
      with (Some (setRawFields B (setSlab (rawFields B) s i x))).
    2:{ symmetry. replace b with (Z.of_nat (Z.to_nat b)) at 2 by lia.
        apply zlookup_insert_eq. lia. }
    cbn [rawFields setRawFields].
    destruct (Z.eqb_spec (vSlot v) s) as [Hvs|Hvs]; cbn [andb].
    + rewrite Hvs.
      destruct (zlookup (rawFields B) s) as [slab|] eqn:Hslab.
      * rewrite (zlookup_setSlab_eq _ _ _ _ _ Hslab).
        destruct (Z.eqb_spec (vIndex v) i) as [Hvi|Hvi].
        -- rewrite Hvi. destruct (zlookup slab i) eqn:Hx.
           ++ rewrite zlookup_u32_set_eq by (eapply zlookup_lt; eauto).
              reflexivity.
           ++ apply zlookup_u32_set_None. exact Hx.
        -- apply zlookup_u32_set_ne. exact Hvi.
      * unfold setSlab. rewrite Hslab, Hslab.
        destruct (vIndex v =? i); reflexivity.
    + rewrite zlookup_setSlab_ne by exact Hvs. reflexivity.
  - rewrite zlookup_insert_ne by lia. reflexivity.
Qed.

(** [raw()] returns a number exactly when the slot exists, and then
    returns what the slot holds. *)
Lemma raw_cell (wd : Width) (st : Arena T) (p : Z) (f : string) (w : Z) :
  fst (raw st p f None) = Return (Some w) <->
  p <> 0 /\
  exists id, names st !! f = Some id /\ id < 0 /\
    cell st (mkView wd (getBlockId (codec st) p) (JS.bnot id)
               (getIndex (codec st) p)) = Some w.
Proof.
  rewrite raw_read_Some. unfold cell. cbn [vBlock vSlot vIndex]. split.
  - intros (Hp & Hk & B & slab & HB & Hs & Hx). split; [exact Hp|].
    destruct (names st !! f) as [id|] eqn:Hid.
    + exists id. cbn in Hk. apply Z.leb_gt in Hk.
      split; [reflexivity|]. split; [exact Hk|].
      change (number_or_undefined (Some id)) with id in Hs.
      rewrite HB, Hs. exact Hx.
    + exfalso. assert (E : JS.bnot (number_or_undefined None) = -1)
        by reflexivity.
      rewrite E in Hs. apply zlookup_lt in Hs. lia.
  - intros (Hp & id & Hid & Hneg & Hc). split; [exact Hp|]. rewrite Hid.
    split; [cbn; apply Z.leb_gt; exact Hneg|].
    change (number_or_undefined (Some id)) with id.
    destruct (zlookup (blocks st) _) as [B|]; [|discriminate].
    destruct (zlookup (rawFields B) _) as [slab|] eqn:Hs; [|discriminate].
    exists B, slab. auto.
Qed.

(** The state a write through [raw()] leaves. *)
Lemma raw_write_state (st : Arena T) (p : Z) (f : string) (x w : Z) :
  fst (raw st p f None) = Return (Some w) ->
  exists B id,
    names st !! f = Some id /\
    zlookup (blocks st) (getBlockId (codec st) p) = Some B /\
    snd (raw st p f (Some x))
    = setBlock st (Z.to_nat (getBlockId (codec st) p))
        (setRawFields B (setSlab (rawFields B) (JS.bnot id)
                           (getIndex (codec st) p) x)).
Proof.
  intros H. pose proof H as H'.
  apply (raw_cell W32) in H' as (_ & id & Hid & _ & _).
  apply raw_read_Some in H as (Hp & Hk & B & slab & HB & Hs & Hx).
  exists B, id. split; [exact Hid|]. split; [exact HB|].
  unfold raw, noNullPointer. destruct (Z.eqb_spec p 0); [contradiction|].
  rewrite Hk, HB, Hs, Hid. reflexivity.
Qed.

(** Any write through [raw()] changes a slot, if at all, to a number. *)
Lemma raw_write_cell (st : Arena T) (q : Z) (g : string) (x : Z) (v : View) :
  exists hit : bool,
    cell (snd (raw st q g (Some x))) v
    = if hit then (fun _ => JS.ToUint32 x) <$> cell st v else cell st v.
Proof.
  unfold raw. destruct (noNullPointer q _); [exists false; reflexivity|].
  destruct (from_option _ _ _); [exists false; reflexivity|].
  destruct (zlookup (blocks st) _) as [B|] eqn:HB; [|exists false; reflexivity].
  destruct (zlookup (rawFields B) _); [|exists false; reflexivity].
  cbn [snd]. eexists. apply cell_put. exact HB.
Qed.

(** So does any store through a view. *)
Lemma store_cell (e : Endian) (st : Arena T) (u : View) (k : nat) (x : Z)
    (v : View) :
  exists (hit : bool) (y : Z),
    cell (store e st u k x) v
    = if hit then (fun _ => y) <$> cell st v else cell st v.
Proof.
  unfold store.
  destruct (zlookup (blocks st) (vBlock u)) as [B|] eqn:HB;
    [|exists false, 0; reflexivity].
  destruct (cell st u); [|exists false, 0; reflexivity].
  destruct (vWidth u).
  - destruct (k <? 4)%nat; [|exists false, 0; reflexivity].
    eexists _, _. apply cell_put. exact HB.
  - destruct (k <? 2)%nat; [|exists false, 0; reflexivity].
    eexists _, _. apply cell_put. exact HB.
  - destruct (k =? 0)%nat; [|exists false, 0; reflexivity].
    eexists _, _. apply cell_put. exact HB.
Qed.

Lemma store_static (e : Endian) (st : Arena T) (u : View) (k : nat) (x : Z) :
  names (store e st u k x) = names st /\ codec (store e st u k x) = codec st.
Proof.
  unfold store. destruct (zlookup (blocks st) _); [|split; reflexivity].
  destruct (cell st u); [|split; reflexivity].
  destruct (vWidth u);
    [destruct (k <? 4)%nat | destruct (k <? 2)%nat | destruct (k =? 0)%nat];
    split; reflexivity.
Qed.

(** Writes change no name and no codec, and remove no slot. *)
Lemma writes_inv (e : Endian) (st0 st : Arena T) :
  writes e st0 st ->
  names st = names st0 /\ codec st = codec st0 /\
  forall v, is_Some (cell st0 v) -> is_Some (cell st v).
Proof.
  induction 1 as [|st' q g x _ (Hn & Hc & Hs)|st' u k x _ (Hn & Hc & Hs)].
  - auto.
  - destruct (raw_static st' q g (Some x)) as [Hn' Hc'].
    split; [congruence|]. split; [congruence|].
    intros v Hv. destruct (Hs v Hv) as [w Hw].
    destruct (raw_write_cell st' q g x v) as [[|] ->]; rewrite Hw; eauto.
  - destruct (store_static e st' u k x) as [Hn' Hc'].
    split; [congruence|]. split; [congruence|].
    intros v Hv. destruct (Hs v Hv) as [w Hw].
    destruct (store_cell e st' u k x v) as ([|] & y & ->); rewrite Hw; eauto.
Qed.

(** The state a store through a view leaves. *)
Lemma store_state (e : Endian) (st : Arena T) (v : View) (k : nat) (x w : Z) :
  cell st v = Some w ->
  exists B,
    zlookup (blocks st) (vBlock v) = Some B /\
    store e st v k x
    = let put w' :=
        setBlock st (Z.to_nat (vBlock v))
          (setRawFields B (setSlab (rawFields B) (vSlot v) (vIndex v) w')) in
      match vWidth v with
      | W8 =>
          if (k <? 4)%nat
          then put (wordOf e (<[k := JS.ToUint8 x]> (bytesOf e w)))
          else st
      | W16 =>
          if (k <? 2)%nat
          then put (wordOfHalves e (<[k := JS.ToUint16 x]> (halvesOf e w)))
          else st
      | W32 => if (k =? 0)%nat then put x else st
      end.
Proof.
  intros Hc. unfold store. rewrite Hc. unfold cell in Hc.
  destruct (zlookup (blocks st) (vBlock v)) as [B|]; [|discriminate].
  exists B. split; reflexivity.
Qed.

(** A store into the slot of a view is what every view on the slot
    reads next. *)
Lemma cell_after_put (st : Arena T) (B : Block T) (wd wd' : Width)
    (b s i x w : Z) :
  zlookup (blocks st) b = Some B ->
  cell st (mkView wd b s i) = Some w ->
  cell (setBlock st (Z.to_nat b)
          (setRawFields B (setSlab (rawFields B) s i x))) (mkView wd' b s i)
  = Some (JS.ToUint32 x).
Proof.
  intros HB Hc. rewrite (cell_put st b s i x B _ HB).
  cbn [vBlock vSlot vIndex]. rewrite !Z.eqb_refl. cbn [andb].
  change (cell st (mkView wd' b s i)) with (cell st (mkView wd b s i)).
  rewrite Hc. reflexivity.
Qed.

End ViewFacts.

(** C9. The views [raw8], [raw16] and [raw32] return are windows on the
    uint32 slot that [raw()] reads and writes. Where [raw(p, field)]
    returns a number the three views exist, and in every state reached
    afterwards by writes through [raw()] (at any pointer and field) and
    stores through views (any view) the same three views are returned
    and show the 4 bytes, the 2 half-words and the word of the number
    [raw(p, field)] returns then. A write [raw(p, field, x)] is read by
    the views as the bytes of [x] modulo 2^32; a store of one element
    through a view is read back by the view and read by [raw()] as the
    word the bytes make; a store past the end of a view changes nothing.
    Writing 0x01020304 through [raw] makes the 4-byte view read
    [4,3,2,1] on a little-endian platform and [1,2,3,4] on a big-endian
    one. *)
Theorem views_alias_raw (T : Type) (e : RawViews.Endian) (st0 : Arena T)
    (p : Z) (f : string) (w0 : Z) :
  fst (raw st0 p f None) = Return (Some w0) ->
  exists v8 v16 v32,
    RawViews.raw8 st0 p f = Some v8 /\
    RawViews.raw16 st0 p f = Some v16 /\
    RawViews.raw32 st0 p f = Some v32 /\
    forall st, RawViews.writes e st0 st ->
      RawViews.raw8 st p f = Some v8 /\
      RawViews.raw16 st p f = Some v16 /\
      RawViews.raw32 st p f = Some v32 /\
      exists w,
        fst (raw st p f None) = Return (Some w) /\
        RawViews.elements e st v8 = Some (RawViews.bytesOf e w) /\
        RawViews.elements e st v16 = Some (RawViews.halvesOf e w) /\
        RawViews.elements e st v32 = Some [w] /\
        (forall x,
           let s := snd (raw st p f (Some x)) in
           fst (raw s p f None) = Return (Some (JS.ToUint32 x)) /\
           RawViews.elements e s v8
             = Some (RawViews.bytesOf e (JS.ToUint32 x)) /\
           RawViews.elements e s v16
             = Some (RawViews.halvesOf e (JS.ToUint32 x)) /\
           RawViews.elements e s v32 = Some [JS.ToUint32 x]) /\
        (forall k x,
           let s := RawViews.store e st v8 k x in
           ((k < 4)%nat ->
            RawViews.elements e s v8
              = Some (<[k := JS.ToUint8 x]> (RawViews.bytesOf e w)) /\
            fst (raw s p f None)
              = Return (Some (RawViews.wordOf e
                                (<[k := JS.ToUint8 x]> (RawViews.bytesOf e w))))) /\
           ((4 <= k)%nat -> s = st)) /\
        (forall k x,
           let s := RawViews.store e st v16 k x in
           ((k < 2)%nat ->
            RawViews.elements e s v16
              = Some (<[k := JS.ToUint16 x]> (RawViews.halvesOf e w)) /\
            fst (raw s p f None)
              = Return (Some (RawViews.wordOfHalves e
                                (<[k := JS.ToUint16 x]>
                                   (RawViews.halvesOf e w))))) /\
           ((2 <= k)%nat -> s = st)) /\
        (forall k x,
           let s := RawViews.store e st v32 k x in
           (k = 0%nat ->
            RawViews.elements e s v32 = Some [JS.ToUint32 x] /\
            fst (raw s p f None) = Return (Some (JS.ToUint32 x))) /\
           ((1 <= k)%nat -> s = st)) /\
        RawViews.elements RawViews.Little
          (snd (raw st p f (Some 16909060))) v8 = Some [4; 3; 2; 1] /\
        RawViews.elements RawViews.Big
          (snd (raw st p f (Some 16909060))) v8 = Some [1; 2; 3; 4].
Proof.
  intros Hraw.
  pose proof (proj1 (raw_cell RawViews.W8 st0 p f w0) Hraw)
    as (Hp & id & Hid & Hneg & Hc0).
  set (b := getBlockId (codec st0) p) in *.
  set (i := getIndex (codec st0) p) in *.
  set (pl := fun wd => RawViews.mkView wd b (JS.bnot id) i).
  assert (Hview : forall (st : Arena T) wd, names st = names st0 -> codec st = codec st0 ->
            RawViews.viewOf wd st p f = Some (pl wd)).
  { intros st wd Hn Hc. unfold RawViews.viewOf. rewrite Hn, Hc, Hid.
    destruct (Z.ltb_spec id 0); [reflexivity | lia]. }
  assert (Hread : forall (st : Arena T) y, names st = names st0 ->
            codec st = codec st0 ->
            RawViews.cell st (pl RawViews.W8) = Some y ->
            fst (raw st p f None) = Return (Some y)).
  { intros st y Hn Hc Hy. apply (raw_cell RawViews.W8). split; [exact Hp|].
    exists id. rewrite Hn, Hc. auto. }
  assert (Helem : forall e' (st : Arena T) y,
            RawViews.cell st (pl RawViews.W8) = Some y ->
            RawViews.elements e' st (pl RawViews.W8)
              = Some (RawViews.bytesOf e' y) /\
            RawViews.elements e' st (pl RawViews.W16)
              = Some (RawViews.halvesOf e' y) /\
            RawViews.elements e' st (pl RawViews.W32) = Some [y]).
  { intros e' st y Hy. unfold RawViews.elements.
    change (RawViews.cell st (pl RawViews.W16))
      with (RawViews.cell st (pl RawViews.W8)).
    change (RawViews.cell st (pl RawViews.W32))
      with (RawViews.cell st (pl RawViews.W8)).
    rewrite Hy. auto. }
  exists (pl RawViews.W8), (pl RawViews.W16), (pl RawViews.W32).
  split; [apply Hview; reflexivity|]. split; [apply Hview; reflexivity|].
  split; [apply Hview; reflexivity|].
  intros st Hw. destruct (writes_inv e st0 st Hw) as (Hn & Hc & Hsome).
  split; [apply Hview; assumption|]. split; [apply Hview; assumption|].
  split; [apply Hview; assumption|].
  destruct (Hsome (pl RawViews.W8)) as [w Hcw]; [exists w0; exact Hc0|].
  exists w. split; [apply Hread; assumption|].
  destruct (Helem e st w Hcw) as (E8 & E16 & E32).
  split; [exact E8|]. split; [exact E16|]. split; [exact E32|].
  pose proof (Hread st w Hn Hc Hcw) as Hrw.
  assert (Hput : forall x, exists B,
            zlookup (blocks st) b = Some B /\
            snd (raw st p f (Some x))
            = setBlock st (Z.to_nat b)
                (setRawFields B (setSlab (rawFields B) (JS.bnot id) i x))).
  { intros x. destruct (raw_write_state st p f x w Hrw)
      as (B & id' & Hid' & HB & Hs).
    rewrite Hn, Hid in Hid'. inversion Hid'; subst id'.
    rewrite Hc in HB, Hs. exists B. auto. }
  assert (Hafter : forall x,
            RawViews.cell (snd (raw st p f (Some x))) (pl RawViews.W8)
            = Some (JS.ToUint32 x)).
  { intros x. destruct (Hput x) as (B & HB & ->).
    apply (cell_after_put st B RawViews.W8 RawViews.W8 b _ i x w HB Hcw). }
  assert (Hstat : forall x, names (snd (raw st p f (Some x))) = names st0 /\
                            codec (snd (raw st p f (Some x))) = codec st0).
  { intros x. destruct (Hput x) as (B & _ & ->). split; assumption. }
  split.
  { intros x. cbn zeta. destruct (Hstat x) as [Hn' Hc'].
    split; [apply Hread; [assumption..|apply Hafter]|].
    apply Helem, Hafter. }
  split.
  { intros k x. cbn zeta.
    destruct (store_state e st (pl RawViews.W8) k x w Hcw) as (B & HB & ->).
    cbn [RawViews.vWidth RawViews.vBlock RawViews.vSlot RawViews.vIndex pl].
    cbn zeta. split.
    - intros Hk. destruct (Nat.ltb_spec k 4); [|lia].
      destruct (bytesOf_bytes e w) as [Hlen Hall].
      destruct (wordOf_bytes e (<[k := JS.ToUint8 x]> (RawViews.bytesOf e w)))
        as [Hrange Hround].
      { rewrite length_insert. exact Hlen. }
      { apply Forall_insert; [exact Hall|]. apply Z.mod_pos_bound. lia. }
      pose proof (cell_after_put st B RawViews.W8 RawViews.W8 b (JS.bnot id) i
                    (RawViews.wordOf e
                       (<[k := JS.ToUint8 x]> (RawViews.bytesOf e w))) w
                    HB Hcw) as Hnew.
      rewrite ToUint32_id in Hnew by exact Hrange.
      split.
      + rewrite (proj1 (Helem e _ _ Hnew)), Hround. reflexivity.
      + apply Hread; [exact Hn | exact Hc | exact Hnew].
    - intros Hk. destruct (Nat.ltb_spec k 4); [lia | reflexivity]. }
  split.
  { intros k x. cbn zeta.
    assert (Hcw16 : RawViews.cell st (pl RawViews.W16) = Some w) by exact Hcw.
    destruct (store_state e st (pl RawViews.W16) k x w Hcw16) as (B & HB & ->).
    cbn [RawViews.vWidth RawViews.vBlock RawViews.vSlot RawViews.vIndex pl].
    cbn zeta. split.
    - intros Hk. destruct (Nat.ltb_spec k 2); [|lia].
      destruct (halvesOf_halves e w) as [Hlen Hall].
      destruct (wordOfHalves_halves e
                  (<[k := JS.ToUint16 x]> (RawViews.halvesOf e w)))
        as [Hrange Hround].
      { rewrite length_insert. exact Hlen. }
      { apply Forall_insert; [exact Hall|]. apply Z.mod_pos_bound. lia. }
      pose proof (cell_after_put st B RawViews.W8 RawViews.W8 b (JS.bnot id) i
                    (RawViews.wordOfHalves e
                       (<[k := JS.ToUint16 x]> (RawViews.halvesOf e w))) w
                    HB Hcw) as Hnew.
      rewrite ToUint32_id in Hnew by exact Hrange.
      split.
      + rewrite (proj1 (proj2 (Helem e _ _ Hnew))), Hround. reflexivity.
      + apply Hread; [exact Hn | exact Hc | exact Hnew].
    - intros Hk. destruct (Nat.ltb_spec k 2); [lia | reflexivity]. }
  split.
  { intros k x. cbn zeta.
    assert (Hcw32 : RawViews.cell st (pl RawViews.W32) = Some w) by exact Hcw.
    destruct (store_state e st (pl RawViews.W32) k x w Hcw32) as (B & HB & ->).
    cbn [RawViews.vWidth RawViews.vBlock RawViews.vSlot RawViews.vIndex pl].
    cbn zeta. split.
    - intros ->. cbn [Nat.eqb].
      pose proof (cell_after_put st B RawViews.W8 RawViews.W8 b (JS.bnot id) i
                    x w HB Hcw) as Hnew.
      split.
      + exact (proj2 (proj2 (Helem e _ _ Hnew))).
      + apply Hread; [exact Hn | exact Hc | exact Hnew].
    - intros Hk. destruct (Nat.eqb_spec k 0); [lia | reflexivity]. }
  split.
  - exact (proj1 (Helem RawViews.Little _ _ (Hafter 16909060))).
  - exact (proj1 (Helem RawViews.Big _ _ (Hafter 16909060))).
Qed.

(** [views_alias_raw] at the arena with one raw field 'x' and block size
    10, after one [alloc], at pointer 1. *)
Lemma views_alias_raw_witness :
  exists st0 : Arena nat,
    PointerSet (fun _ _ => 0) [] 10 (Some ["x"%string]) = Return st0 /\
    fst (raw (snd (alloc (fun _ _ => 0) depth st0 0 7%nat None None))
           1 "x" None) = Return (Some 0) /\
    exists v8,
      RawViews.raw8 (snd (alloc (fun _ _ => 0) depth st0 0 7%nat None None))
        1 "x" = Some v8 /\
      RawViews.elements RawViews.Little
        (snd (raw (snd (alloc (fun _ _ => 0) depth st0 0 7%nat None None))
                1 "x" (Some 16909060))) v8 = Some [4; 3; 2; 1].
Proof.
  eexists. split; [reflexivity|].
  match goal with |- fst (raw ?s _ _ _) = _ /\ _ =>
    assert (Hr : fst (raw s 1 "x" None) = Return (Some 0))
      by (vm_compute; reflexivity);
    destruct (views_alias_raw nat RawViews.Little s 1 "x" 0 Hr)
      as (v8 & v16 & v32 & H8 & _ & _ & Hall);
    destruct (Hall s (RawViews.writes_refl _ _))
      as (_ & _ & _ & w & _ & _ & _ & _ & _ & _ & _ & _ & HL & _)
  end.
  split; [exact Hr|]. exists v8. split; [exact H8 | exact HL].
Defined.
